(** * marketingOS: campaign dispatch, send job, tracking and warm-up handlers

    A shallow embedding of the request handlers and of the template engine
    of the repository, followed by the properties of the specification
    that are settled against it.

    Conventions of the embedding
    - JavaScript numbers that hold database INTEGER columns are [Z];
      timestamps are milliseconds since the epoch, as [Date.getTime] gives.
    - A column that may be NULL, and a JavaScript value that may be
      [undefined], is an [option].
    - The relational store, the key-value cache, the push queue and the
      mail provider are the fields of one [World]; a handler is a function
      from a [World] to a result and the next [World].  What the outer
      services answer (does a publish succeed, what does the provider
      return) is read from an [Env], together with the clock. *)

From Stdlib Require Import ZArith List String Ascii Bool Lia QArith Sorted.
Import ListNotations.
Open Scope string_scope.
Open Scope Z_scope.

(* ================================================================== *)
(** * JavaScript values of the expressions the handlers use            *)
(* ================================================================== *)

Module Js.

(** [x || d] on strings: the empty string is falsy. *)
Definition or_string (x : option string) (d : string) : string :=
  match x with
  | Some s => if (s =? "")%string then d else s
  | None => d
  end.

(** [x || d] on numbers: [0] (and [null]) is falsy. *)
Definition or_number (x : option Z) (d : Z) : Z :=
  match x with
  | Some n => if n =? 0 then d else n
  | None => d
  end.

(** [!x] for a nullable timestamp string (a set timestamp is never empty). *)
Definition is_unset {A : Type} (x : option A) : bool :=
  match x with
  | Some _ => false
  | None => true
  end.

(** A property read [o[k]] on an object literal: an own property, a member
    inherited from [Object.prototype], or [undefined]. *)
Inductive value : Type :=
| Undefined
| Str (s : string)
| NativeFunction (name : string)
| PlainObject.

Definition truthy (v : value) : bool :=
  match v with
  | Undefined => false
  | Str s => negb (s =? "")%string
  | NativeFunction _ => true
  | PlainObject => true
  end.

(** [String(v)], which [String.prototype.replace] applies to what its
    callback returns (the text of a native function is the one of V8). *)
Definition ToString (v : value) : string :=
  match v with
  | Undefined => "undefined"
  | Str s => s
  | NativeFunction name => "function " ++ name ++ "() { [native code] }"
  | PlainObject => "[object Object]"
  end.

(** The function-valued members of [Object.prototype] that carry their
    own name; [constructor] is the function [Object]. *)
Definition Object_prototype_functions : list string :=
  [ "hasOwnProperty"; "isPrototypeOf";
    "propertyIsEnumerable"; "toLocaleString"; "toString"; "valueOf";
    "__defineGetter__"; "__defineSetter__";
    "__lookupGetter__"; "__lookupSetter__" ].

Definition inherited (key : string) : value :=
  if (key =? "__proto__")%string then PlainObject
  else if (key =? "constructor")%string then NativeFunction "Object"
  else if existsb (String.eqb key) Object_prototype_functions
       then NativeFunction key
       else Undefined.

(** [Number(s)] on the parts of the text of a TIME column, which are
    runs of decimal digits (the empty text is 0).  [None] stands for
    every other text: [Number] reads some of them as numbers too (a
    sign, blanks around the digits, a fraction, an exponent, another
    radix), and no TIME column returns one. *)
Definition digit_value (c : ascii) : option Z :=
  let n := nat_of_ascii c in
  if ((48 <=? n) && (n <=? 57))%nat then Some (Z.of_nat n - 48) else None.

Fixpoint digits_value (acc : Z) (s : string) : option Z :=
  match s with
  | EmptyString => Some acc
  | String c rest =>
      match digit_value c with
      | Some d => digits_value (acc * 10 + d) rest
      | None => None
      end
  end.

Definition Number (s : string) : option Z := digits_value 0 s.

(** [s.split(":")] *)
Fixpoint split_colon (s : string) : list string :=
  match s with
  | EmptyString => [EmptyString]
  | String c rest =>
      if Ascii.eqb c ":" then EmptyString :: split_colon rest
      else match split_colon rest with
           | x :: xs => String c x :: xs
           | [] => [String c EmptyString]
           end
  end.

(** [Math.ceil(a / b)] for integers [a] and a positive integer [b]. *)
Definition ceil_div (a b : Z) : Z := - ((- a) / b).

End Js.

(* ================================================================== *)
(** * The rows of the relational store (supabase/migrations, src/types) *)
(* ================================================================== *)

Module Types.

Record Lead : Type := mkLead {
  lead_id : string;
  email : string;
  first_name : option string;
  last_name : option string;
  company_name : option string;
  industry : option string;
  city : option string;
  state : option string;
  lead_status : string
}.

Record EmailTemplate : Type := mkEmailTemplate {
  template_id : string;
  template_subject : string;
  body_html : string;
  body_text : option string
}.

Record Campaign : Type := mkCampaign {
  campaign_id : string;
  template_ref : string;
  from_name : string;
  from_email : string;
  reply_to : option string;
  campaign_status : string;
  completed_at : option Z;
  daily_limit : Z;
  send_window_start : string;
  send_window_end : string;
  send_days : list Z;
  delay_between_sends : Z;
  sent_count : Z;
  delivered_count : Z;
  opened_count : Z;
  clicked_count : Z;
  bounced_count : Z;
  unsubscribed_count : Z
}.

Record CampaignLead : Type := mkCampaignLead {
  cl_id : string;
  cl_campaign_id : string;
  cl_lead_id : string;
  cl_status : string;
  cl_queued_at : option Z;
  cl_sent_at : option Z;
  cl_delivered_at : option Z;
  cl_opened_at : option Z;
  cl_opened_count : Z;
  cl_clicked_at : option Z;
  cl_clicked_count : Z;
  cl_error_message : option string;
  cl_retry_count : Z;
  cl_resend_email_id : option string;
  cl_personalized_subject : option string;
  cl_personalized_body : option string
}.

Record EmailEvent : Type := mkEmailEvent {
  ev_campaign_lead_id : option string;
  ev_resend_email_id : option string;
  ev_event_type : string;
  ev_clicked_url : option string
}.

Record Unsubscribe : Type := mkUnsubscribe {
  un_email : string;
  un_lead_id : string;
  un_campaign_id : string;
  un_token : string;
  un_source : string
}.

Record DomainWarmup : Type := mkDomainWarmup {
  dw_id : string;
  dw_domain : string;
  warmup_started_at : Z;
  current_daily_limit : Z;
  target_daily_limit : Z;
  warmup_day : Z;
  total_sent : Z;
  total_delivered : Z;
  total_bounced : Z;
  is_healthy : bool;
  dw_status : string;
  dw_updated_at : Z
}.

End Types.

Import Types.

(* ================================================================== *)
(** * src/lib/utils/template-parser.ts                                 *)
(* ================================================================== *)

Module TemplateParser.

Record PersonalizedContent : Type := mkPersonalized {
  subject : string;
  html : string;
  text : option string
}.

(** [TemplateVariables]: the own properties of the object, in the order
    they were written. *)
Definition TemplateVariables : Type := list (string * string).

Fixpoint own_property (key : string) (variables : TemplateVariables)
  : option string :=
  match variables with
  | [] => None
  | (k, v) :: rest =>
      if (k =? key)%string then Some v else own_property key rest
  end.

(** [variables[key]] *)
Definition get (variables : TemplateVariables) (key : string) : Js.value :=
  match own_property key variables with
  | Some s => Js.Str s
  | None => Js.inherited key
  end.

(** [String.prototype.trim]: the white space and line terminators of
    the language, on the UTF-8 bytes of the text.  One byte: tab, line
    feed, vertical tab, form feed, carriage return, space.  Two bytes:
    U+00A0.  Three bytes: U+1680, U+2000 to U+200A, U+2028, U+2029,
    U+202F, U+205F, U+3000, U+FEFF. *)
Definition is_space (c : ascii) : bool :=
  let n := nat_of_ascii c in
  ((n =? 32) || (n =? 9) || (n =? 10) || (n =? 13) || (n =? 11) || (n =? 12))%nat.

Definition is_space2 (c1 c2 : ascii) : bool :=
  ((nat_of_ascii c1 =? 194) && (nat_of_ascii c2 =? 160))%nat.

Definition is_space3 (c1 c2 c3 : ascii) : bool :=
  let a := nat_of_ascii c1 in
  let b := nat_of_ascii c2 in
  let c := nat_of_ascii c3 in
  (((a =? 225) && (b =? 154) && (c =? 128))
   || ((a =? 226) && (b =? 128)
       && (((128 <=? c) && (c <=? 138)) || (c =? 168) || (c =? 169)
           || (c =? 175)))
   || ((a =? 226) && (b =? 129) && (c =? 159))
   || ((a =? 227) && (b =? 128) && (c =? 128))
   || ((a =? 239) && (b =? 187) && (c =? 191)))%nat.

Fixpoint trim_start (s : string) : string :=
  match s with
  | EmptyString => EmptyString
  | String c1 r1 =>
      if is_space c1 then trim_start r1
      else
        match r1 with
        | EmptyString => s
        | String c2 r2 =>
            if is_space2 c1 c2 then trim_start r2
            else
              match r2 with
              | EmptyString => s
              | String c3 r3 =>
                  if is_space3 c1 c2 c3 then trim_start r3 else s
              end
        end
  end.

(** The text from the first character on after which only white space
    follows is dropped. *)
Fixpoint trim_end (s : string) : string :=
  match s with
  | EmptyString => EmptyString
  | String c rest =>
      match trim_start s with
      | EmptyString => EmptyString
      | _ => String c (trim_end rest)
      end
  end.

Definition trim (s : string) : string := trim_end (trim_start s).

Definition buildVariables (lead : Lead) : TemplateVariables :=
  [ ("firstName", Js.or_string (first_name lead) "there");
    ("lastName", Js.or_string (last_name lead) "");
    ("fullName",
      Js.or_string
        (Some (trim (Js.or_string (first_name lead) "" ++ " "
                     ++ Js.or_string (last_name lead) "")))
        "there");
    ("company", Js.or_string (company_name lead) "your company");
    ("industry", Js.or_string (industry lead) "your industry");
    ("city", Js.or_string (city lead) "");
    ("state", Js.or_string (state lead) "");
    ("email", email lead) ].

(** ** The regular expression [/\{\{(\w+)\}\}/g] *)

(** [\w] is [[A-Za-z0-9_]]. *)
Definition is_word_char (c : ascii) : bool :=
  let n := nat_of_ascii c in
  (((48 <=? n) && (n <=? 57)) || ((65 <=? n) && (n <=? 90))
   || ((97 <=? n) && (n <=? 122)) || (n =? 95))%nat.

(** The greedy [\w*] at the head of a string, and what follows it. *)
Fixpoint take_word (s : string) : string * string :=
  match s with
  | EmptyString => (EmptyString, EmptyString)
  | String c rest =>
      if is_word_char c
      then let (w, r) := take_word rest in (String c w, r)
      else (EmptyString, s)
  end.

(** One attempt of the expression at the head of [s]: the captured group
    and the text after the match.  The greedy [\w+] is followed by a
    closing brace, which is no word character, so the only candidate is
    the longest run of word characters. *)
Definition match_token (s : string) : option (string * string) :=
  match s with
  | String "{" (String "{" s1) =>
      match take_word s1 with
      | (EmptyString, _) => None
      | (key, String "}" (String "}" s3)) => Some (key, s3)
      | _ => None
      end
  | _ => None
  end.

(** The text of a match whose group is [key]. *)
Definition token (key : string) : string := "{{" ++ key ++ "}}".

(** The callback of [replaceVariables]: [variables[key] || match]. *)
Definition replacement (variables : TemplateVariables) (key : string)
  : string :=
  let v := get variables key in
  if Js.truthy v then Js.ToString v else token key.

(** [text.replace(re, callback)] with the global flag: the scan resumes
    after each match and moves one character on where there is none.
    [fuel] bounds the number of scan steps; the length of the text is
    enough. *)
Fixpoint replace_scan (fuel : nat) (variables : TemplateVariables)
  (text : string) : string :=
  match text with
  | EmptyString => EmptyString
  | String c rest =>
      match fuel with
      | O => text
      | S fuel' =>
          match match_token text with
          | Some (key, rest') =>
              replacement variables key
              ++ replace_scan fuel' variables rest'
          | None => String c (replace_scan fuel' variables rest)
          end
      end
  end.

Definition replaceVariables (text : string) (variables : TemplateVariables)
  : string :=
  replace_scan (String.length text) variables text.

Definition personalizeTemplate (template : EmailTemplate) (lead : Lead)
  : PersonalizedContent :=
  let variables := buildVariables lead in
  {| subject := replaceVariables (template_subject template) variables;
     html := replaceVariables (body_html template) variables;
     text :=
       match body_text template with
       | Some t =>
           if (t =? "")%string then None
           else Some (replaceVariables t variables)
       | None => None
       end |}.

(** [template.match(re)] with the global flag: the texts of all matches. *)
Fixpoint match_all (fuel : nat) (template : string) : list string :=
  match template with
  | EmptyString => []
  | String c rest =>
      match fuel with
      | O => []
      | S fuel' =>
          match match_token template with
          | Some (key, rest') => token key :: match_all fuel' rest'
          | None => match_all fuel' rest
          end
      end
  end.

(** [m.replace(/[{}]/g, "")] *)
Fixpoint strip_braces (m : string) : string :=
  match m with
  | EmptyString => EmptyString
  | String c rest =>
      if (Ascii.eqb c "{" || Ascii.eqb c "}")%bool
      then strip_braces rest
      else String c (strip_braces rest)
  end.

(** [[...new Set(xs)]]: first occurrences, in order. *)
Fixpoint unique (seen xs : list string) : list string :=
  match xs with
  | [] => []
  | x :: rest =>
      if existsb (String.eqb x) seen then unique seen rest
      else x :: unique (x :: seen) rest
  end.

Definition extractVariables (template : string) : list string :=
  let matches := match_all (String.length template) template in
  unique [] (map strip_braces matches).

End TemplateParser.

Import TemplateParser.

(* ================================================================== *)
(** * The outer services: store, cache, queue, mail provider           *)
(* ================================================================== *)

(** ** src/lib/qstash/client.ts and src/lib/resend/client.ts: payloads *)

Record EmailSendJob : Type := mkEmailSendJob {
  job_campaignLeadId : string;
  job_campaignId : string;
  job_leadId : string;
  job_to : string;
  job_from : string;
  job_fromName : string;
  job_replyTo : option string;
  job_subject : string;
  job_html : string;
  job_text : option string
}.

(** The argument of [qstash.publishJSON]; [pub_delay] is in seconds and is
    absent when the caller's delay is falsy. *)
Record PublishOptions : Type := mkPublishOptions {
  pub_url : string;
  pub_body : EmailSendJob;
  pub_retries : Z;
  pub_delay : option Z;
  pub_notBefore : option Z
}.

Record SendEmailOptions : Type := mkSendEmailOptions {
  mail_to : string;
  mail_from : string;
  mail_fromName : string;
  mail_replyTo : option string;
  mail_subject : string;
  mail_html : string;
  mail_text : option string;
  mail_campaignId : string
}.

(** What [resend.emails.send] resolves to: [{ error }] or [{ data: { id } }]. *)
Inductive ResendResponse : Type :=
| ResendError (message : string)
| ResendData (id : string).

(** Requests to the outer services whose argument the properties below
    observe: the limit handed to the rate limiter and the row limit of
    the query for pending recipients. *)
Inductive ServiceRequest : Type :=
| RateLimitCheck (dailyLimit : Z)
| SelectPending (campaignId : string) (limit : Z).

(** The state outside the process. *)
Record World : Type := mkWorld {
  campaigns : list Campaign;
  email_templates : list EmailTemplate;
  leads : list Lead;
  campaign_leads : list CampaignLead;
  email_events : list EmailEvent;
  unsubscribes : list Unsubscribe;
  domain_warmup : list DomainWarmup;
  email_daily_count : option Z;      (* redis key email:daily:count *)
  email_hourly_count : option Z;     (* redis key email:hourly:count *)
  qstash_messages : list PublishOptions;
  resend_calls : list SendEmailOptions;
  requests : list ServiceRequest
}.

(** What one invocation reads from its surroundings. *)
Record Env : Type := mkEnv {
  NODE_ENV : string;
  NEXT_PUBLIC_APP_URL : option string;
  RESEND_WEBHOOK_SECRET : option string;
  (** [new Date()]: epoch milliseconds, and the local readings
      [getHours()], [getMinutes()], [getDay()] (0 is Sunday). *)
  now : Z;
  getHours : Z;
  getMinutes : Z;
  getDay : Z;
  (** does [qstash.publishJSON] reject this message *)
  publish_rejects : PublishOptions -> bool;
  (** the answer of the mail provider *)
  resend_send : SendEmailOptions -> ResendResponse;
  (** [nanoid(32)] and [crypto.randomUUID()] *)
  nanoid : string;
  randomUUID : string;
  (** The data API resolves a remote procedure call by the name of the
      function and the names of the arguments sent; a call whose argument
      names are not those of the migration answers with an error and
      changes nothing.  [false] stands for a deployment in which the
      procedures are reachable under the names the caller uses. *)
  rpc_checks_argument_names : bool
}.

(** ** Setters *)

Definition set_campaigns (v : list Campaign) (w : World) : World :=
  mkWorld v (email_templates w) (leads w) (campaign_leads w)
    (email_events w) (unsubscribes w) (domain_warmup w)
    (email_daily_count w) (email_hourly_count w) (qstash_messages w)
    (resend_calls w) (requests w).

Definition set_leads (v : list Lead) (w : World) : World :=
  mkWorld (campaigns w) (email_templates w) v (campaign_leads w)
    (email_events w) (unsubscribes w) (domain_warmup w)
    (email_daily_count w) (email_hourly_count w) (qstash_messages w)
    (resend_calls w) (requests w).

Definition set_campaign_leads (v : list CampaignLead) (w : World) : World :=
  mkWorld (campaigns w) (email_templates w) (leads w) v
    (email_events w) (unsubscribes w) (domain_warmup w)
    (email_daily_count w) (email_hourly_count w) (qstash_messages w)
    (resend_calls w) (requests w).

Definition set_email_events (v : list EmailEvent) (w : World) : World :=
  mkWorld (campaigns w) (email_templates w) (leads w) (campaign_leads w)
    v (unsubscribes w) (domain_warmup w)
    (email_daily_count w) (email_hourly_count w) (qstash_messages w)
    (resend_calls w) (requests w).

Definition set_unsubscribes (v : list Unsubscribe) (w : World) : World :=
  mkWorld (campaigns w) (email_templates w) (leads w) (campaign_leads w)
    (email_events w) v (domain_warmup w)
    (email_daily_count w) (email_hourly_count w) (qstash_messages w)
    (resend_calls w) (requests w).

Definition set_domain_warmup (v : list DomainWarmup) (w : World) : World :=
  mkWorld (campaigns w) (email_templates w) (leads w) (campaign_leads w)
    (email_events w) (unsubscribes w) v
    (email_daily_count w) (email_hourly_count w) (qstash_messages w)
    (resend_calls w) (requests w).

Definition set_email_counts (d h : option Z) (w : World) : World :=
  mkWorld (campaigns w) (email_templates w) (leads w) (campaign_leads w)
    (email_events w) (unsubscribes w) (domain_warmup w)
    d h (qstash_messages w) (resend_calls w) (requests w).

Definition set_qstash_messages (v : list PublishOptions) (w : World) : World :=
  mkWorld (campaigns w) (email_templates w) (leads w) (campaign_leads w)
    (email_events w) (unsubscribes w) (domain_warmup w)
    (email_daily_count w) (email_hourly_count w) v
    (resend_calls w) (requests w).

Definition set_resend_calls (v : list SendEmailOptions) (w : World) : World :=
  mkWorld (campaigns w) (email_templates w) (leads w) (campaign_leads w)
    (email_events w) (unsubscribes w) (domain_warmup w)
    (email_daily_count w) (email_hourly_count w) (qstash_messages w)
    v (requests w).

Definition set_requests (v : list ServiceRequest) (w : World) : World :=
  mkWorld (campaigns w) (email_templates w) (leads w) (campaign_leads w)
    (email_events w) (unsubscribes w) (domain_warmup w)
    (email_daily_count w) (email_hourly_count w) (qstash_messages w)
    (resend_calls w) v.

(** ** Handlers as computations: state outside, exceptions inside *)

Inductive outcome (A : Type) : Type :=
| Returned (a : A)
| Thrown (message : string).
Arguments Returned {A} a.
Arguments Thrown {A} message.

Definition M (A : Type) : Type := World -> outcome A * World.

Definition ret {A : Type} (a : A) : M A := fun w => (Returned a, w).

Definition throw {A : Type} (message : string) : M A :=
  fun w => (Thrown message, w).

Definition bind {A B : Type} (m : M A) (k : A -> M B) : M B :=
  fun w =>
    match m w with
    | (Returned a, w') => k a w'
    | (Thrown e, w') => (Thrown e, w')
    end.

(** [try { m } catch (error) { h }]: what [m] wrote before it threw stays
    written. *)
Definition try_catch {A : Type} (m : M A) (h : string -> M A) : M A :=
  fun w =>
    match m w with
    | (Returned a, w') => (Returned a, w')
    | (Thrown e, w') => h e w'
    end.

Definition gets {A : Type} (f : World -> A) : M A :=
  fun w => (Returned (f w), w).

Definition modify (f : World -> World) : M unit :=
  fun w => (Returned tt, f w).

Notation "x <- m ;; k" := (bind m (fun x => k))
  (at level 61, m at next level, right associativity).
Notation "m ;;; k" := (bind m (fun _ => k))
  (at level 61, right associativity).

(** ** The query builder of the store *)

(** [.single()]: the row when the filter leaves exactly one, else no data. *)
Definition single {A : Type} (rows : list A) : option A :=
  match rows with
  | [r] => Some r
  | _ => None
  end.

(** The object handed to [.update(...)] on [campaign_leads], one entry
    per property. *)
Inductive CampaignLeadUpdate : Type :=
| status_is (s : string)
| queued_at_is (t : Z)
| sent_at_is (t : Z)
| delivered_at_is (t : Z)
| opened_at_is (t : Z)
| opened_count_is (n : Z)
| clicked_at_is (t : Z)
| clicked_count_is (n : Z)
| error_message_is (m : string)
| retry_count_is (n : Z)
| resend_email_id_is (id : string)
| personalized_subject_is (s : string)
| personalized_body_is (s : string).

Definition assign (u : CampaignLeadUpdate) (r : CampaignLead) : CampaignLead :=
  match r with
  | mkCampaignLead id cid lid st qa sa da oa oc ca cc em rc re ps pb =>
      match u with
      | status_is s =>
          mkCampaignLead id cid lid s qa sa da oa oc ca cc em rc re ps pb
      | queued_at_is t =>
          mkCampaignLead id cid lid st (Some t) sa da oa oc ca cc em rc re ps pb
      | sent_at_is t =>
          mkCampaignLead id cid lid st qa (Some t) da oa oc ca cc em rc re ps pb
      | delivered_at_is t =>
          mkCampaignLead id cid lid st qa sa (Some t) oa oc ca cc em rc re ps pb
      | opened_at_is t =>
          mkCampaignLead id cid lid st qa sa da (Some t) oc ca cc em rc re ps pb
      | opened_count_is n =>
          mkCampaignLead id cid lid st qa sa da oa n ca cc em rc re ps pb
      | clicked_at_is t =>
          mkCampaignLead id cid lid st qa sa da oa oc (Some t) cc em rc re ps pb
      | clicked_count_is n =>
          mkCampaignLead id cid lid st qa sa da oa oc ca n em rc re ps pb
      | error_message_is m =>
          mkCampaignLead id cid lid st qa sa da oa oc ca cc (Some m) rc re ps pb
      | retry_count_is n =>
          mkCampaignLead id cid lid st qa sa da oa oc ca cc em n re ps pb
      | resend_email_id_is e =>
          mkCampaignLead id cid lid st qa sa da oa oc ca cc em rc (Some e) ps pb
      | personalized_subject_is s =>
          mkCampaignLead id cid lid st qa sa da oa oc ca cc em rc re (Some s) pb
      | personalized_body_is s =>
          mkCampaignLead id cid lid st qa sa da oa oc ca cc em rc re ps (Some s)
      end
  end.

Definition apply_updates (updates : list CampaignLeadUpdate)
  (r : CampaignLead) : CampaignLead :=
  fold_left (fun row u => assign u row) updates r.

(** [from("campaign_leads").update(updates).eq("id", id)] *)
Definition update_campaign_lead (id : string)
  (updates : list CampaignLeadUpdate) : M unit :=
  modify (fun w =>
    set_campaign_leads
      (map (fun r => if (cl_id r =? id)%string
                     then apply_updates updates r else r)
           (campaign_leads w)) w).

(** [from("campaign_leads").select(...).eq("id", id).single()] *)
Definition select_campaign_lead (id : string) : M (option CampaignLead) :=
  gets (fun w =>
    single (filter (fun r => (cl_id r =? id)%string) (campaign_leads w))).

Definition set_lead_status (s : string) (l : Lead) : Lead :=
  mkLead (lead_id l) (email l) (first_name l) (last_name l)
    (company_name l) (industry l) (city l) (state l) s.

(** [from("leads").update({ status }).eq("id", id)] *)
Definition update_lead_status (id : string) (s : string) : M unit :=
  modify (fun w =>
    set_leads
      (map (fun l => if (lead_id l =? id)%string
                     then set_lead_status s l else l)
           (leads w)) w).

(** [from("email_events").insert(row)] *)
Definition insert_email_event (ev : EmailEvent) : M unit :=
  modify (fun w => set_email_events (email_events w ++ [ev]) w).

Definition has_unsubscribe (address : string) (w : World) : bool :=
  existsb (fun u => (un_email u =? address)%string) (unsubscribes w).

(** The constraints of the table [unsubscribes] besides the unique
    email: [token] is UNIQUE, and [lead_id] and [campaign_id] REFERENCE
    [leads(id)] and [campaigns(id)]. *)
Definition has_token (token : string) (w : World) : bool :=
  existsb (fun u => (un_token u =? token)%string) (unsubscribes w).

Definition references_hold (row : Unsubscribe) (w : World) : bool :=
  (existsb (fun l => (lead_id l =? un_lead_id row)%string) (leads w)
   && existsb (fun c => (campaign_id c =? un_campaign_id row)%string)
        (campaigns w))%bool.

(** [from("unsubscribes").upsert(row, { onConflict: "email",
    ignoreDuplicates: true })]: a row whose email is already there is left
    as it is.  A row whose token another row holds, or whose lead or
    campaign is no row of its table, is refused by the store; the
    statement resolves with an error that the caller does not read, and
    nothing is stored. *)
Definition upsert_unsubscribe_ignore (row : Unsubscribe) : M unit :=
  modify (fun w =>
    if has_unsubscribe (un_email row) w then w
    else if has_token (un_token row) w then w
    else if negb (references_hold row w) then w
    else set_unsubscribes (unsubscribes w ++ [row]) w).

(** [from("unsubscribes").upsert(row)]: the conflict target is the primary
    key, which a fresh row never hits; a row whose email is already there
    violates [unique_unsubscribe_email] and the statement fails. *)
Definition upsert_unsubscribe (row : Unsubscribe) : M unit :=
  modify (fun w =>
    if has_unsubscribe (un_email row) w then w
    else set_unsubscribes (unsubscribes w ++ [row]) w).

(** ** The procedures of the migration ("RPC functions for atomic updates") *)

Definition with_counters (c : Campaign)
  (s d o k b u : Z) : Campaign :=
  mkCampaign (campaign_id c) (template_ref c) (from_name c) (from_email c)
    (reply_to c) (campaign_status c) (completed_at c) (daily_limit c)
    (send_window_start c) (send_window_end c) (send_days c)
    (delay_between_sends c) s d o k b u.

(** [UPDATE campaigns SET f = f + 1] for the counter columns; another
    column name leaves the row as it is. *)
Definition increment_column (p_stat_field : string) (c : Campaign)
  : Campaign :=
  let s := sent_count c in
  let d := delivered_count c in
  let o := opened_count c in
  let k := clicked_count c in
  let b := bounced_count c in
  let u := unsubscribed_count c in
  if (p_stat_field =? "sent_count")%string
  then with_counters c (s + 1) d o k b u
  else if (p_stat_field =? "delivered_count")%string
  then with_counters c s (d + 1) o k b u
  else if (p_stat_field =? "opened_count")%string
  then with_counters c s d (o + 1) k b u
  else if (p_stat_field =? "clicked_count")%string
  then with_counters c s d o (k + 1) b u
  else if (p_stat_field =? "bounced_count")%string
  then with_counters c s d o k (b + 1) u
  else if (p_stat_field =? "unsubscribed_count")%string
  then with_counters c s d o k b (u + 1)
  else c.

Definition increment_campaign_stat (p_campaign_id p_stat_field : string)
  (w : World) : World :=
  set_campaigns
    (map (fun c => if (campaign_id c =? p_campaign_id)%string
                   then increment_column p_stat_field c else c)
         (campaigns w)) w.

Definition increment_opened_count (p_campaign_lead_id : string)
  (w : World) : World :=
  set_campaign_leads
    (map (fun r => if (cl_id r =? p_campaign_lead_id)%string
                   then assign (opened_count_is (cl_opened_count r + 1)) r
                   else r)
         (campaign_leads w)) w.

Definition increment_clicked_count (p_campaign_lead_id : string)
  (w : World) : World :=
  set_campaign_leads
    (map (fun r => if (cl_id r =? p_campaign_lead_id)%string
                   then assign (clicked_count_is (cl_clicked_count r + 1)) r
                   else r)
         (campaign_leads w)) w.

Fixpoint named_argument (name : string) (args : list (string * string))
  : option string :=
  match args with
  | [] => None
  | (k, v) :: rest =>
      if (k =? name)%string then Some v else named_argument name rest
  end.

Fixpoint named_arguments (params : list string)
  (args : list (string * string)) : option (list string) :=
  match params with
  | [] => Some []
  | p :: ps =>
      match named_argument p args, named_arguments ps args with
      | Some v, Some vs => Some (v :: vs)
      | _, _ => None
      end
  end.

(** The values bound to the parameters [params] by the call object
    [args], or [None] when the call does not resolve. *)
Definition resolve_call (env : Env) (params : list string)
  (args : list (string * string)) : option (list string) :=
  if negb (List.length args =? List.length params)%nat then None
  else if rpc_checks_argument_names env
       then named_arguments params args
       else Some (map snd args).

(** [supabaseAdmin.rpc(fn, args)]; the promise resolves with an error
    object when the call fails, which no caller inspects. *)
Definition rpc (env : Env) (fn : string) (args : list (string * string))
  : M unit :=
  modify (fun w =>
    if (fn =? "increment_campaign_stat")%string then
      match resolve_call env ["p_campaign_id"; "p_stat_field"] args with
      | Some [cid; field] => increment_campaign_stat cid field w
      | _ => w
      end
    else if (fn =? "increment_opened_count")%string then
      match resolve_call env ["p_campaign_lead_id"] args with
      | Some [id] => increment_opened_count id w
      | _ => w
      end
    else if (fn =? "increment_clicked_count")%string then
      match resolve_call env ["p_campaign_lead_id"] args with
      | Some [id] => increment_clicked_count id w
      | _ => w
      end
    else w).

(** ** src/lib/redis/client.ts *)

Definition canSendEmail (dailyLimit : Z) : M bool :=
  modify (fun w => set_requests (requests w ++ [RateLimitCheck dailyLimit]) w) ;;;
  daily <- gets email_daily_count ;;
  hourly <- gets email_hourly_count ;;
  let hourlyLimit := Js.ceil_div dailyLimit 8 in
  ret ((Js.or_number daily 0 <? dailyLimit)
       && (Js.or_number hourly 0 <? hourlyLimit)).

Definition incr (counter : option Z) : option Z :=
  match counter with
  | Some n => Some (n + 1)
  | None => Some 1
  end.

Definition incrementEmailCount : M unit :=
  modify (fun w =>
    set_email_counts (incr (email_daily_count w))
                     (incr (email_hourly_count w)) w).

(** ** src/lib/qstash/client.ts *)

Definition getBaseUrl (env : Env) : string :=
  Js.or_string (NEXT_PUBLIC_APP_URL env) "http://localhost:3000".

(** [qstash.publishJSON]: the promise rejects when the service refuses
    the message, and nothing is enqueued then. *)
Definition publishJSON (env : Env) (options : PublishOptions) : M unit :=
  if publish_rejects env options
  then throw "QStash publish failed"
  else modify (fun w => set_qstash_messages (qstash_messages w ++ [options]) w).

(** The object [publishOptions] that [queueEmailSend] builds. *)
Definition publishOptions (env : Env) (job : EmailSendJob)
  (delay : option Z) (scheduleAt : option Z) : PublishOptions :=
  let url := getBaseUrl env ++ "/api/jobs/email-send" in
  {| pub_url := url;
     pub_body := job;
     pub_retries := 3;
     pub_delay :=
       match delay with
       | Some d => if d =? 0 then None else Some d
       | None => None
       end;
     pub_notBefore := option_map (fun t => t / 1000) scheduleAt |}.

Definition queueEmailSend (env : Env) (job : EmailSendJob)
  (delay : option Z) (scheduleAt : option Z) : M unit :=
  publishJSON env (publishOptions env job delay scheduleAt).

(** [verifySignature(signature)] of the queue client: [true] in
    development, else [!!signature].  No handler calls it. *)
Definition verifySignature (env : Env) (signature : string) : bool :=
  if (NODE_ENV env =? "development")%string then true
  else negb (signature =? "")%string.

(** The delay, in seconds, after which the queue delivers a message. *)
Definition effective_delay (m : PublishOptions) : Z :=
  match pub_delay m with
  | Some d => d
  | None => 0
  end.

(** ** src/lib/resend/client.ts *)

Definition sendEmail (env : Env) (options : SendEmailOptions)
  : M ResendResponse :=
  modify (fun w => set_resend_calls (resend_calls w ++ [options]) w) ;;;
  ret (resend_send env options).

(** ** Responses *)

Inductive ResponseBody : Type :=
| ErrorBody (error : string)
| CampaignProcessed (campaignsProcessed emailsQueued : Z)
| SendSkipped (reason : string)
| SendFailed (error : string)
| SendSucceeded (emailId : string)
| TransparentGif
| WebhookReceived
| WarmupMessage (message : string)
| WarmupProcessed (processed : Z).

Record Response : Type := mkResponse {
  status_code : Z;
  response_body : ResponseBody
}.

(** A request of the queue to a job endpoint: the [upstash-signature]
    header and the parsed body ([None] when the body is no JSON). *)
Record JobRequest (Body : Type) : Type := mkJobRequest {
  upstash_signature : option string;
  json : option Body
}.
Arguments upstash_signature {Body} _.
Arguments json {Body} _.
Arguments mkJobRequest {Body} _ _.

(** What a handler returns when its outer [try] caught nothing is what
    the body returned; an exception becomes the response of the [catch]. *)
Definition respond (m : M Response) (on_error : Response) : World -> Response * World :=
  fun w =>
    match m w with
    | (Returned r, w') => (r, w')
    | (Thrown _, w') => (on_error, w')
    end.

(* ================================================================== *)
(** * src/app/api/jobs/campaign-process/route.ts                       *)
(* ================================================================== *)

Module CampaignProcessRoute.

Definition getActiveCampaignIds : M (list string) :=
  gets (fun w =>
    map campaign_id
      (filter (fun c => (campaign_status c =? "active")%string)
              (campaigns w))).

(** [h * 60 + m] for [const [h, m] = t.split(":").map(Number)]; a missing
    or non-numeric part makes the sum [NaN]. *)
Definition minutes_of (t : string) : option Z :=
  let parts := map Js.Number (Js.split_colon t) in
  match nth 0 parts None, nth 1 parts None with
  | Some h, Some m => Some (h * 60 + m)
  | _, _ => None
  end.

Definition isWithinSendWindow (env : Env) (startTime endTime : string)
  : bool :=
  let currentTime := getHours env * 60 + getMinutes env in
  match minutes_of startTime, minutes_of endTime with
  | Some startMinutes, Some endMinutes =>
      (startMinutes <=? currentTime) && (currentTime <=? endMinutes)
  | _, _ => false
  end.

(** [from("campaigns").select("*, template:email_templates(*)")
      .eq("id", campaignId).single()]: the row and its joined template. *)
Definition select_campaign (campaignId : string)
  : M (option (Campaign * option EmailTemplate)) :=
  gets (fun w =>
    option_map
      (fun c =>
         (c, find (fun t => (template_id t =? template_ref c)%string)
                  (email_templates w)))
      (single (filter (fun c => (campaign_id c =? campaignId)%string)
                      (campaigns w)))).

(** [new Date().getDay() || 7] *)
Definition today (env : Env) : Z := Js.or_number (Some (getDay env)) 7.

(** [from("domain_warmup").select("current_daily_limit")
      .eq("status", "active").single()] *)
Definition select_active_warmup : M (option DomainWarmup) :=
  gets (fun w =>
    single (filter (fun d => (dw_status d =? "active")%string)
                   (domain_warmup w))).

Definition effectiveLimit (campaign : Campaign)
  (warmup : option DomainWarmup) : Z :=
  Z.min (daily_limit campaign)
        (Js.or_number (option_map current_daily_limit warmup) 50).

Definition is_pending_of (campaignId : string) (r : CampaignLead) : bool :=
  ((cl_campaign_id r =? campaignId)%string
   && (cl_status r =? "pending")%string)%bool.

Definition lead_of (w : World) (r : CampaignLead) : option Lead :=
  find (fun l => (lead_id l =? cl_lead_id r)%string) (leads w).

(** [from("campaign_leads").select("*, lead:leads(*)")
      .eq("campaign_id", id).eq("status", "pending").limit(n)] *)
Definition select_pending (campaignId : string) (limit : Z)
  : M (list (CampaignLead * option Lead)) :=
  modify (fun w =>
    set_requests (requests w ++ [SelectPending campaignId limit]) w) ;;;
  gets (fun w =>
    map (fun r => (r, lead_of w r))
      (firstn (Z.to_nat limit)
         (filter (is_pending_of campaignId) (campaign_leads w)))).

Definition count_pending (campaignId : string) : M Z :=
  gets (fun w =>
    Z.of_nat
      (List.length (filter (is_pending_of campaignId) (campaign_leads w)))).

Definition complete (env : Env) (c : Campaign) : Campaign :=
  mkCampaign (campaign_id c) (template_ref c) (from_name c) (from_email c)
    (reply_to c) "completed" (Some (now env)) (daily_limit c)
    (send_window_start c) (send_window_end c) (send_days c)
    (delay_between_sends c) (sent_count c) (delivered_count c)
    (opened_count c) (clicked_count c) (bounced_count c)
    (unsubscribed_count c).

Definition mark_completed (env : Env) (campaignId : string) : M unit :=
  modify (fun w =>
    set_campaigns
      (map (fun c => if (campaign_id c =? campaignId)%string
                     then complete env c else c)
           (campaigns w)) w).

Definition build_job (campaign : Campaign) (campaignLead : CampaignLead)
  (lead : Lead) (personalized : PersonalizedContent) : EmailSendJob :=
  {| job_campaignLeadId := cl_id campaignLead;
     job_campaignId := campaign_id campaign;
     job_leadId := lead_id lead;
     job_to := email lead;
     job_from := from_email campaign;
     job_fromName := from_name campaign;
     job_replyTo :=
       match reply_to campaign with
       | Some r => if (r =? "")%string then None else Some r
       | None => None
       end;
     job_subject := subject personalized;
     job_html := html personalized;
     job_text := text personalized |}.

(** The loop [for (let i = 0; i < pendingLeads.length; i++)], from
    position [i] on, over the rows not yet visited.  [template] is the
    joined [campaign.template]; reading a property of a missing one
    throws. *)
Fixpoint queue_emails (env : Env) (campaign : Campaign)
  (template : option EmailTemplate) (delayBetween : Z) (i : Z)
  (pendingLeads : list (CampaignLead * option Lead)) (queued : Z) : M Z :=
  match pendingLeads with
  | [] => ret queued
  | (campaignLead, None) :: rest =>
      queue_emails env campaign template delayBetween (i + 1) rest queued
  | (campaignLead, Some lead) :: rest =>
      match template with
      | None => throw "TypeError: Cannot read properties of null"
      | Some template' =>
          let personalized := personalizeTemplate template' lead in
          let job := build_job campaign campaignLead lead personalized in
          let delay := i * delayBetween in
          queueEmailSend env job (Some delay) None ;;;
          update_campaign_lead (cl_id campaignLead)
            [ status_is "queued";
              queued_at_is (now env);
              personalized_subject_is (subject personalized);
              personalized_body_is (html personalized) ] ;;;
          queue_emails env campaign template delayBetween (i + 1) rest
            (queued + 1)
      end
  end.

Definition processCampaign (env : Env) (campaignId : string) : M Z :=
  campaign <- select_campaign campaignId ;;
  match campaign with
  | None => ret 0
  | Some (campaign, template) =>
      if negb (campaign_status campaign =? "active")%string then ret 0
      else if negb (isWithinSendWindow env (send_window_start campaign)
                      (send_window_end campaign)) then ret 0
      else if negb (existsb (Z.eqb (today env)) (send_days campaign))
      then ret 0
      else
        warmup <- select_active_warmup ;;
        let effectiveLimit := effectiveLimit campaign warmup in
        canSend <- canSendEmail effectiveLimit ;;
        if negb canSend then ret 0
        else
          pendingLeads <- select_pending campaignId effectiveLimit ;;
          match pendingLeads with
          | [] =>
              remaining <- count_pending campaignId ;;
              (if remaining =? 0 then mark_completed env campaignId
               else ret tt) ;;;
              ret 0
          | _ :: _ =>
              let delayBetween :=
                Js.or_number (Some (delay_between_sends campaign)) 60 in
              queue_emails env campaign template delayBetween 0
                pendingLeads 0
          end
  end.

Fixpoint process_each (env : Env) (campaignIds : list string)
  (totalQueued : Z) : M Z :=
  match campaignIds with
  | [] => ret totalQueued
  | cId :: rest =>
      queued <- processCampaign env cId ;;
      process_each env rest (totalQueued + queued)
  end.

Definition internal_error : Response :=
  mkResponse 500 (ErrorBody "Internal server error").

(** The body of the request is [{ campaignId? }]. *)
Definition POST (env : Env) (request : JobRequest (option string))
  : World -> Response * World :=
  respond
    (let signature := Js.or_string (upstash_signature request) "" in
     if ((NODE_ENV env =? "production")%string
         && (signature =? "")%string)%bool
     then ret (mkResponse 401 (ErrorBody "Unauthorized"))
     else
       match json request with
       | None => throw "SyntaxError: Unexpected token in JSON"
       | Some body =>
           let campaignId := Js.or_string body "" in
           campaignIds <-
             (if (campaignId =? "")%string then getActiveCampaignIds
              else ret [campaignId]) ;;
           totalQueued <- process_each env campaignIds 0 ;;
           ret (mkResponse 200
                  (CampaignProcessed
                     (Z.of_nat (List.length campaignIds)) totalQueued))
       end)
    internal_error.

End CampaignProcessRoute.

(* ================================================================== *)
(** * src/app/api/jobs/email-send/route.ts                             *)
(* ================================================================== *)

Module EmailSendRoute.

Section Handler.

(** [processEmailForSending(html, campaignLeadId, unsubscribeToken,
    appUrl)] of the template engine: footer, pixel and link wrapping.
    The handler only passes its result on to the provider. *)
Variable processEmailForSending : string -> string -> string -> string -> string.

Definition POST (env : Env) (request : JobRequest EmailSendJob)
  : World -> Response * World :=
  respond
    (let signature := Js.or_string (upstash_signature request) "" in
     if ((NODE_ENV env =? "production")%string
         && (signature =? "")%string)%bool
     then ret (mkResponse 401 (ErrorBody "Unauthorized"))
     else
       match json request with
       | None => throw "SyntaxError: Unexpected token in JSON"
       | Some job =>
           let campaignLeadId := job_campaignLeadId job in
           let campaignId := job_campaignId job in
           unsubscribed <- gets (fun w =>
             single (filter (fun u => (un_email u =? job_to job)%string)
                            (unsubscribes w))) ;;
           match unsubscribed with
           | Some _ =>
               update_campaign_lead campaignLeadId
                 [ status_is "skipped";
                   error_message_is "Email is unsubscribed" ] ;;;
               ret (mkResponse 200 (SendSkipped "unsubscribed"))
           | None =>
               let unsubscribeToken := nanoid env in
               let appUrl :=
                 Js.or_string (NEXT_PUBLIC_APP_URL env)
                   "http://localhost:3000" in
               let processedHtml :=
                 processEmailForSending (job_html job) campaignLeadId
                   unsubscribeToken appUrl in
               result <- sendEmail env
                 {| mail_to := job_to job;
                    mail_from := job_from job;
                    mail_fromName := job_fromName job;
                    mail_replyTo := job_replyTo job;
                    mail_subject := job_subject job;
                    mail_html := processedHtml;
                    mail_text := job_text job;
                    mail_campaignId := campaignId |} ;;
               match result with
               | ResendError message =>
                   update_campaign_lead campaignLeadId
                     [ status_is "failed";
                       error_message_is message;
                       retry_count_is 1 ] ;;;
                   ret (mkResponse 500 (SendFailed message))
               | ResendData id =>
                   update_campaign_lead campaignLeadId
                     [ status_is "sent";
                       sent_at_is (now env);
                       resend_email_id_is id ] ;;;
                   rpc env "increment_campaign_stat"
                     [ ("p_campaign_id", campaignId);
                       ("p_stat_field", "sent_count") ] ;;;
                   upsert_unsubscribe_ignore
                     {| un_email := job_to job;
                        un_lead_id := job_leadId job;
                        un_campaign_id := campaignId;
                        un_token := unsubscribeToken;
                        un_source := "link" |} ;;;
                   incrementEmailCount ;;;
                   ret (mkResponse 200 (SendSucceeded id))
               end
           end
       end)
    (mkResponse 500 (ErrorBody "Internal server error")).

End Handler.

End EmailSendRoute.

(* ================================================================== *)
(** * src/app/api/track/open/[campaignLeadId]/route.ts                 *)
(* ================================================================== *)

Module TrackOpenRoute.

Definition gif : Response := mkResponse 200 TransparentGif.

Definition GET (env : Env) (campaignLeadId : string)
  : World -> Response * World :=
  respond
    (campaignLead <- select_campaign_lead campaignLeadId ;;
     match campaignLead with
     | Some campaignLead =>
         insert_email_event
           {| ev_campaign_lead_id := Some campaignLeadId;
              ev_resend_email_id := None;
              ev_event_type := "opened";
              ev_clicked_url := None |} ;;;
         let first_open := Js.is_unset (cl_opened_at campaignLead) in
         let updates :=
           ([ opened_count_is
                (Js.or_number (Some (cl_opened_count campaignLead)) 0 + 1) ]
            ++ (if first_open
                then [ opened_at_is (now env); status_is "opened" ]
                else []))%list in
         update_campaign_lead campaignLeadId updates ;;;
         (if first_open
          then rpc env "increment_campaign_stat"
                 [ ("p_campaign_id", cl_campaign_id campaignLead);
                   ("p_stat_field", "opened_count") ]
          else ret tt)
     | None => ret tt
     end ;;;
     ret gif)
    gif.

End TrackOpenRoute.

(* ================================================================== *)
(** * src/app/api/webhooks/resend/route.ts                             *)
(* ================================================================== *)

Module ResendWebhookRoute.

Record ResendWebhookPayload : Type := mkPayload {
  event_type : string;
  data_email_id : string;
  data_to : list string;
  data_click_link : option string;
  data_bounce_message : option string
}.

(** A request of the provider: the parsed payload ([None] when
    [JSON.parse] throws) and what [verifySignature(payload, signature,
    secret)] evaluates to for its [svix-signature] header, an exception
    when the two digests differ in length. *)
Record WebhookRequest : Type := mkWebhookRequest {
  payload : option ResendWebhookPayload;
  signature_check : outcome bool
}.

(** [mapping[resendType] || resendType] and, below,
    [incrementField[eventType]], for the types of [ResendEventType] and
    for every other text that names no member of [Object.prototype]. *)
Definition mapEventType (resendType : string) : string :=
  if (resendType =? "email.sent")%string then "sent"
  else if (resendType =? "email.delivered")%string then "delivered"
  else if (resendType =? "email.delivery_delayed")%string then "delayed"
  else if (resendType =? "email.complained")%string then "complained"
  else if (resendType =? "email.bounced")%string then "bounced"
  else if (resendType =? "email.opened")%string then "opened"
  else if (resendType =? "email.clicked")%string then "clicked"
  else resendType.

Definition incrementField (eventType : string) : option string :=
  if (eventType =? "email.delivered")%string then Some "delivered_count"
  else if (eventType =? "email.opened")%string then Some "opened_count"
  else if (eventType =? "email.clicked")%string then Some "clicked_count"
  else if (eventType =? "email.bounced")%string then Some "bounced_count"
  else if (eventType =? "email.complained")%string
  then Some "unsubscribed_count"
  else None.

Definition updateCampaignStats (env : Env) (campaignId eventType : string)
  : M unit :=
  match incrementField eventType with
  | Some field =>
      rpc env "increment_campaign_stat"
        [ ("campaign_id", campaignId); ("stat_field", field) ]
  | None => ret tt
  end.

(** The [switch (type)] of the handler: the side effects of the case,
    and the [updates] object it leaves. *)
Definition on_event (env : Env) (event : ResendWebhookPayload)
  (campaignLead : CampaignLead) : M (list CampaignLeadUpdate) :=
  let type := event_type event in
  if (type =? "email.delivered")%string then
    ret [ status_is "delivered"; delivered_at_is (now env) ]
  else if (type =? "email.opened")%string then
    rpc env "increment_opened_count"
      [ ("campaign_lead_id", cl_id campaignLead) ] ;;;
    ret [ status_is "opened"; opened_at_is (now env) ]
  else if (type =? "email.clicked")%string then
    rpc env "increment_clicked_count"
      [ ("campaign_lead_id", cl_id campaignLead) ] ;;;
    ret [ status_is "clicked"; clicked_at_is (now env) ]
  else if (type =? "email.bounced")%string then
    update_lead_status (cl_lead_id campaignLead) "bounced" ;;;
    ret [ status_is "bounced";
          error_message_is
            (Js.or_string (data_bounce_message event) "Email bounced") ]
  else if (type =? "email.complained")%string then
    match data_to event with
    | to :: _ =>
        upsert_unsubscribe
          {| un_email := to;
             un_lead_id := cl_lead_id campaignLead;
             un_campaign_id := cl_campaign_id campaignLead;
             un_token := randomUUID env;
             un_source := "complaint" |}
    | [] => ret tt
    end ;;;
    update_lead_status (cl_lead_id campaignLead) "unsubscribed" ;;;
    ret []
  else ret [].

(** The handler once the signature check is passed. *)
Definition process_event (env : Env) (event : ResendWebhookPayload)
  : M Response :=
  campaignLead <- gets (fun w =>
    single
      (filter
         (fun r =>
            match cl_resend_email_id r with
            | Some id => (id =? data_email_id event)%string
            | None => false
            end)
         (campaign_leads w))) ;;
  insert_email_event
    {| ev_campaign_lead_id := option_map cl_id campaignLead;
       ev_resend_email_id := Some (data_email_id event);
       ev_event_type := mapEventType (event_type event);
       ev_clicked_url :=
         match data_click_link event with
         | Some l => if (l =? "")%string then None else Some l
         | None => None
         end |} ;;;
  match campaignLead with
  | Some campaignLead =>
      updates <- on_event env event campaignLead ;;
      match updates with
      | [] => ret tt
      | _ :: _ => update_campaign_lead (cl_id campaignLead) updates
      end ;;;
      updateCampaignStats env (cl_campaign_id campaignLead)
        (event_type event)
  | None => ret tt
  end ;;;
  ret (mkResponse 200 WebhookReceived).

Definition parse_and_process (env : Env) (request : WebhookRequest)
  : M Response :=
  match payload request with
  | None => throw "SyntaxError: Unexpected token in JSON"
  | Some event => process_event env event
  end.

Definition POST (env : Env) (request : WebhookRequest)
  : World -> Response * World :=
  respond
    (let webhookSecret := Js.or_string (RESEND_WEBHOOK_SECRET env) "" in
     if (negb (webhookSecret =? "")%string
         && (NODE_ENV env =? "production")%string)%bool
     then
       match signature_check request with
       | Thrown e => throw e
       | Returned false =>
           ret (mkResponse 401 (ErrorBody "Invalid signature"))
       | Returned true => parse_and_process env request
       end
     else parse_and_process env request)
    (mkResponse 500 (ErrorBody "Webhook processing failed")).

End ResendWebhookRoute.

(* ================================================================== *)
(** * src/app/api/warmup/progress/route.ts                             *)
(* ================================================================== *)

Module WarmupProgressRoute.

(** Warmup schedule - maps days to daily limits *)
Definition WARMUP_SCHEDULE : list (Z * Z) :=
  [ (1, 10); (3, 20); (5, 35); (7, 50); (10, 75); (14, 125); (18, 175);
    (21, 250); (25, 350); (28, 450); (32, 600); (35, 750); (40, 900);
    (45, 1000) ].

Definition MIN_DELIVERABILITY_RATE : Q := 95%Q.
Definition MAX_BOUNCE_RATE : Q := 2%Q.
Definition MIN_EMAILS_FOR_HEALTH_CHECK : Z := 50.

(** The loop runs from the last entry down to the first. *)
Definition getExpectedLimit (day targetLimit : Z) : Z :=
  match find (fun entry => fst entry <=? day) (rev WARMUP_SCHEDULE) with
  | Some entry => Z.min (snd entry) targetLimit
  | None => 10
  end.

Definition calculateDaysSinceStart (env : Env) (startDate : Z) : Z :=
  let diffTime := Z.abs (now env - startDate) in
  Js.ceil_div diffTime (1000 * 60 * 60 * 24).

(** [part / total * 100].  The quotient is taken exactly; for counters
    that fit an INTEGER column the comparisons with 95 and 2 come out
    as they do on doubles. *)
Definition rate (part total : Z) : Q :=
  ((inject_Z part / inject_Z total) * 100)%Q.

Definition isHealthy (warmup : DomainWarmup) : bool :=
  if MIN_EMAILS_FOR_HEALTH_CHECK <=? total_sent warmup then
    let deliverabilityRate :=
      rate (total_delivered warmup) (total_sent warmup) in
    let bounceRate := rate (total_bounced warmup) (total_sent warmup) in
    (Qle_bool MIN_DELIVERABILITY_RATE deliverabilityRate
     && Qle_bool bounceRate MAX_BOUNCE_RATE)%bool
  else true.

(** The object handed to [.update(...)] on [domain_warmup], and the
    [action] recorded in the result. *)
Record WarmupUpdate : Type := mkWarmupUpdate {
  new_warmup_day : Z;
  new_current_daily_limit : Z;
  new_is_healthy : bool;
  new_status : string;
  new_updated_at : Z;
  action : string
}.

Definition decide (env : Env) (warmup : DomainWarmup) : WarmupUpdate :=
  let currentDay := calculateDaysSinceStart env (warmup_started_at warmup) in
  let expectedLimit :=
    getExpectedLimit currentDay (target_daily_limit warmup) in
  let healthy := isHealthy warmup in
  let mk := fun newStatus newLimit act =>
    mkWarmupUpdate currentDay newLimit healthy newStatus (now env) act in
  if negb healthy then
    mk "paused" (current_daily_limit warmup) "paused_unhealthy"
  else if target_daily_limit warmup <=? current_daily_limit warmup then
    mk "completed" (target_daily_limit warmup) "completed"
  else if current_daily_limit warmup <? expectedLimit then
    mk (dw_status warmup) expectedLimit "increased_limit"
  else
    mk (dw_status warmup) (current_daily_limit warmup) "no_change".

Definition write (u : WarmupUpdate) (r : DomainWarmup) : DomainWarmup :=
  mkDomainWarmup (dw_id r) (dw_domain r) (warmup_started_at r)
    (new_current_daily_limit u) (target_daily_limit r) (new_warmup_day u)
    (total_sent r) (total_delivered r) (total_bounced r)
    (new_is_healthy u) (new_status u) (new_updated_at u).

(** [from("domain_warmup").update(u).eq("id", id)] *)
Definition update_warmup (id : string) (u : WarmupUpdate) : M unit :=
  modify (fun w =>
    set_domain_warmup
      (map (fun r => if (dw_id r =? id)%string then write u r else r)
           (domain_warmup w)) w).

Fixpoint progress_each (env : Env) (warmups : list DomainWarmup)
  (results : Z) : M Z :=
  match warmups with
  | [] => ret results
  | warmup :: rest =>
      update_warmup (dw_id warmup) (decide env warmup) ;;;
      progress_each env rest (results + 1)
  end.

Definition handler (env : Env) : World -> Response * World :=
  respond
    (warmups <- gets (fun w =>
       filter (fun d => (dw_status d =? "active")%string)
              (domain_warmup w)) ;;
     match warmups with
     | [] =>
         ret (mkResponse 200 (WarmupMessage "No active warmups to process"))
     | _ :: _ =>
         processed <- progress_each env warmups 0 ;;
         ret (mkResponse 200 (WarmupProcessed processed))
     end)
    (mkResponse 500 (ErrorBody "Internal server error")).

End WarmupProgressRoute.

(* ================================================================== *)
(** * Vocabulary of the specification                                  *)
(* ================================================================== *)

Module Spec.

Import CampaignProcessRoute WarmupProgressRoute.

(** ** Rows by key *)

Definition campaign_row (id : string) (w : World) : option Campaign :=
  find (fun c => (campaign_id c =? id)%string) (campaigns w).

Definition campaign_lead_row (id : string) (w : World)
  : option CampaignLead :=
  find (fun r => (cl_id r =? id)%string) (campaign_leads w).

Definition warmup_row (id : string) (w : World) : option DomainWarmup :=
  find (fun r => (dw_id r =? id)%string) (domain_warmup w).

(** The aggregate [opened_count] of a campaign and the per-recipient
    [opened_count] of a CampaignLead. *)
Definition campaign_opened (id : string) (w : World) : option Z :=
  option_map opened_count (campaign_row id w).

Definition recipient_opened (id : string) (w : World) : option Z :=
  option_map cl_opened_count (campaign_lead_row id w).

Definition recipient_status (id : string) (w : World) : option string :=
  option_map cl_status (campaign_lead_row id w).

(** A request passes the check of the job endpoints: outside
    production, or with a non-empty [upstash-signature] header. *)
Definition admitted {Body : Type} (env : Env) (request : JobRequest Body)
  : Prop :=
  NODE_ENV env <> "production"
  \/ exists s, upstash_signature request = Some s /\ s <> "".

(** ** Weekdays, numbered 1 = Monday .. 7 = Sunday *)

Inductive Weekday : Type :=
| Monday | Tuesday | Wednesday | Thursday | Friday | Saturday | Sunday.

Definition weekday_number (d : Weekday) : Z :=
  match d with
  | Monday => 1 | Tuesday => 2 | Wednesday => 3 | Thursday => 4
  | Friday => 5 | Saturday => 6 | Sunday => 7
  end.

(** What [Date.prototype.getDay] returns on that weekday. *)
Definition getDay_on (d : Weekday) : Z :=
  match d with
  | Sunday => 0 | Monday => 1 | Tuesday => 2 | Wednesday => 3
  | Thursday => 4 | Friday => 5 | Saturday => 6
  end.

(** ** Times of day, as a TIME column is written: HH:MM or HH:MM:SS *)

Definition digit (n : Z) : ascii := ascii_of_nat (48 + Z.to_nat n).

Definition two_digits (n : Z) : string :=
  String (digit (n / 10)) (String (digit (n mod 10)) EmptyString).

Definition time_text (h m : Z) : string :=
  two_digits h ++ ":" ++ two_digits m.

Definition time_text_seconds (h m sec : Z) : string :=
  time_text h m ++ ":" ++ two_digits sec.

Definition reads_as (t : string) (h m : Z) : Prop :=
  0 <= h < 24 /\ 0 <= m < 60 /\
  (t = time_text h m
   \/ exists sec, 0 <= sec < 60 /\ t = time_text_seconds h m sec).

(** The time of day of the invocation, in minutes since midnight. *)
Definition minute_of_day (env : Env) : Z :=
  getHours env * 60 + getMinutes env.

(** ** The cap of the dispatch pipeline *)

Definition active_warmups (w : World) : list DomainWarmup :=
  filter (fun d => (dw_status d =? "active")%string) (domain_warmup w).

(** The warm-up limit that enters the cap: the limit of the active
    warm-up row when there is exactly one and its limit is not 0, and
    50 in every other case. *)
Definition warmup_cap (w : World) : Z :=
  match active_warmups w with
  | [d] => if current_daily_limit d =? 0 then 50 else current_daily_limit d
  | _ => 50
  end.

(** The rows the pipeline fetches for a campaign under a cap. *)
Definition fetched (campaignId : string) (cap : Z) (w : World)
  : list CampaignLead :=
  firstn (Z.to_nat cap)
    (filter (is_pending_of campaignId) (campaign_leads w)).

(** The answer of the rate limiter for a cap: both counters are below
    their limits. *)
Definition rate_limiter_admits (cap : Z) (w : World) : bool :=
  ((Js.or_number (email_daily_count w) 0 <? cap)
   && (Js.or_number (email_hourly_count w) 0 <? Js.ceil_div cap 8))%bool.

(** The invocation falls into the send window of the campaign, and on
    one of its weekdays. *)
Definition in_window (env : Env) (c : Campaign) : Prop :=
  exists sh sm eh em,
    reads_as (send_window_start c) sh sm
    /\ reads_as (send_window_end c) eh em
    /\ sh * 60 + sm <= minute_of_day env <= eh * 60 + em.

Definition on_send_day (env : Env) (c : Campaign) : Prop :=
  exists day, getDay env = getDay_on day
              /\ In (weekday_number day) (send_days c).

(** The message [m] is the one of the recipient at position [k] of
    [rows], counted from [offset], with the delay of that position. *)
Definition for_position (d : Z) (rows : list (CampaignLead * option Lead))
  (offset : Z) (m : PublishOptions) : Prop :=
  exists (k : nat) r l,
    nth_error rows k = Some (r, Some l)
    /\ job_campaignLeadId (pub_body m) = cl_id r
    /\ effective_delay m = (offset + Z.of_nat k) * d.

(** The write of the loop for one recipient. *)
Definition mark_queued (env : Env) (t : EmailTemplate) (r : CampaignLead)
  (l : Lead) (w : World) : World :=
  set_campaign_leads
    (map (fun x =>
            if (cl_id x =? cl_id r)%string
            then apply_updates
                   [ status_is "queued"; queued_at_is (now env);
                     personalized_subject_is
                       (subject (personalizeTemplate t l));
                     personalized_body_is
                       (html (personalizeTemplate t l)) ]
                   x
            else x)
         (campaign_leads w)) w.

(** The [updates] object of the open-tracking endpoint. *)
Definition opened_updates (env : Env) (cl : CampaignLead)
  : list CampaignLeadUpdate :=
  ([ opened_count_is (Js.or_number (Some (cl_opened_count cl)) 0 + 1) ]
   ++ (if Js.is_unset (cl_opened_at cl)
       then [ opened_at_is (now env); status_is "opened" ] else []))%list.

(** The seconds between two sends of a campaign. *)
Definition send_spacing (c : Campaign) : Z :=
  if delay_between_sends c =? 0 then 60 else delay_between_sends c.

(** ** Warm-up *)

(** delivered/sent below 95 %, or bounced/sent above 2 %, on a sample
    of at least 50. *)
Definition unhealthy (r : DomainWarmup) : Prop :=
  50 <= total_sent r /\
  ((inject_Z (total_delivered r) / inject_Z (total_sent r) < 95 # 100)%Q
   \/ (2 # 100 < inject_Z (total_bounced r) / inject_Z (total_sent r))%Q).

(** The limit of the schedule entry with the greatest day not above
    [day]; the first entry's limit before the schedule starts. *)
Definition table_limit (day : Z) : Z :=
  fold_left (fun acc entry => if fst entry <=? day then snd entry else acc)
            WARMUP_SCHEDULE 10.

(** Whole days, rounded up, between the start of the warm-up and now. *)
Definition elapsed_days (env : Env) (r : DomainWarmup) : Z :=
  let ms := Z.abs (now env - warmup_started_at r) in
  (ms + 86399999) / 86400000.

End Spec.

(* ================================================================== *)
(** * Sample data                                                      *)
(* ================================================================== *)

Module Sample.

Definition ana : Lead :=
  mkLead "lead-1" "ana@acme.io" (Some "Ana") None (Some "Acme")
    None None None "new".

Definition bob : Lead :=
  mkLead "lead-2" "bob@bolt.io" (Some "Bob") (Some "Ray") (Some "Bolt")
    None None None "new".

(** A lead whose first name spells a placeholder. *)
Definition eve : Lead :=
  mkLead "lead-3" "eve@evil.io" (Some "{{company}}") None (Some "Evil")
    None None None "new".

Definition hello : EmailTemplate :=
  mkEmailTemplate "tpl-1" "Hi {{firstName}}"
    "<p>Hello {{firstName}} from {{company}}</p></body>" None.

Definition campaign (daily delay : Z) : Campaign :=
  mkCampaign "camp-1" "tpl-1" "Operator OS" "hello@operatoros.ai" None
    "active" None daily "09:00" "17:00" [1; 2; 3; 4; 5] delay
    0 0 0 0 0 0.

Definition recipient (id lead st : string) (re : option string)
  : CampaignLead :=
  mkCampaignLead id "camp-1" lead st None None None None 0 None 0
    None 0 re None None.

Definition warmup (id : string) (limit target : Z) (started : Z)
  (sent delivered bounced : Z) : DomainWarmup :=
  mkDomainWarmup id "operatoros.ai" started limit target 1
    sent delivered bounced true "active" 0.

Definition world (cs : list Campaign) (rs : list CampaignLead)
  (us : list Unsubscribe) (ws : list DomainWarmup) : World :=
  mkWorld cs [hello] [ana; bob; eve] rs [] us ws None None [] [] [].

(** Tuesday, 10:30, in production; the queue and the provider accept
    everything. *)
Definition env : Env :=
  mkEnv "production" (Some "https://app.operatoros.ai") None
    1767090600000 10 30 2
    (fun _ => false) (fun _ => ResendData "re_1")
    "tok-nanoid" "tok-uuid" true.

(** The same, at 20:00. *)
Definition evening : Env :=
  mkEnv "production" (Some "https://app.operatoros.ai") None
    1767124800000 20 0 2
    (fun _ => false) (fun _ => ResendData "re_1")
    "tok-nanoid" "tok-uuid" true.

(** The same as [env], with the queue refusing the message for one
    recipient. *)
Definition env_rejecting (campaignLeadId : string) : Env :=
  mkEnv "production" (Some "https://app.operatoros.ai") None
    1767090600000 10 30 2
    (fun m => (job_campaignLeadId (pub_body m) =? campaignLeadId)%string)
    (fun _ => ResendData "re_1")
    "tok-nanoid" "tok-uuid" true.

(** The same as [env], for either answer to how the data API resolves
    procedure calls. *)
Definition env_rpc (checks_names : bool) : Env :=
  mkEnv "production" (Some "https://app.operatoros.ai") None
    1767090600000 10 30 2
    (fun _ => false) (fun _ => ResendData "re_1")
    "tok-nanoid" "tok-uuid" checks_names.

Definition signed {Body : Type} (body : Body) : JobRequest Body :=
  mkJobRequest (Some "v1-signature") (Some body).

Definition two_pending : World :=
  world [campaign 50 60]
    [recipient "cl-1" "lead-1" "pending" None;
     recipient "cl-2" "lead-2" "pending" None] [] [].

Definition opened_event : ResendWebhookRoute.WebhookRequest :=
  ResendWebhookRoute.mkWebhookRequest
    (Some (ResendWebhookRoute.mkPayload "email.opened" "re_1"
             ["ana@acme.io"] None None))
    (Returned true).

Definition one_sent : World :=
  world [campaign 50 60]
    [recipient "cl-1" "lead-1" "sent" (Some "re_1")] [] [].

(** One active warm-up row whose limit is 0, and two active rows. *)
Definition zero_warmup : World :=
  world [campaign 50 60]
    [recipient "cl-1" "lead-1" "pending" None;
     recipient "cl-2" "lead-2" "pending" None] []
    [warmup "dw-1" 0 1000 0 0 0 0].

Definition two_warmups : World :=
  world [campaign 50 60]
    [recipient "cl-1" "lead-1" "pending" None;
     recipient "cl-2" "lead-2" "pending" None] []
    [warmup "dw-1" 10 1000 0 0 0 0; warmup "dw-2" 20 1000 0 0 0 0].

(** One active warm-up row at limit 10, for a campaign at 50 a day. *)
Definition warming_up : World :=
  world [campaign 50 60]
    [recipient "cl-1" "lead-1" "pending" None;
     recipient "cl-2" "lead-2" "pending" None] []
    [warmup "dw-1" 10 1000 0 0 0 0].

(** A campaign whose [delay_between_sends] is 0. *)
Definition no_spacing : World :=
  world [campaign 50 0]
    [recipient "cl-1" "lead-1" "pending" None;
     recipient "cl-2" "lead-2" "pending" None] [] [].

(** A warm-up started at the instant of [env], at limit 3 of target 5;
    and one started twenty days before with 60 sent, 2 bounced. *)
Definition just_started : World :=
  world [] [] [] [warmup "dw-1" 3 5 1767090600000 0 0 0].

Definition bouncing : World :=
  world [] [] [] [warmup "dw-1" 10 1000 1765362600000 60 58 2].

Definition job_for (id address : string) : EmailSendJob :=
  mkEmailSendJob id "camp-1" "lead-1" address "hello@operatoros.ai"
    "Operator OS" None "Hi Ana" "<p>Hello Ana</p>" None.

End Sample.

(* ================================================================== *)
(** * src/lib/qstash/client.ts: messages in batches                    *)
(* ================================================================== *)

Module QStashBatch.

(** [array.slice(start, end)]: a negative index counts from the end. *)
Definition slice {A : Type} (array : list A) (start final : Z) : list A :=
  let len := Z.of_nat (List.length array) in
  let relative := fun x => if x <? 0 then Z.max (len + x) 0 else Z.min x len in
  let k := relative start in
  firstn (Z.to_nat (relative final - k)) (skipn (Z.to_nat k) array).

(** The loop [for (let i = 0; i < array.length; i += size)] of [chunk],
    from index [i] on.  [fuel] bounds the number of iterations; [None]
    stands for a loop that has not ended within them. *)
Fixpoint chunk_from {A : Type} (fuel : nat) (array : list A) (size i : Z)
  : option (list (list A)) :=
  if i <? Z.of_nat (List.length array) then
    match fuel with
    | O => None
    | S fuel' =>
        option_map (cons (slice array i (i + size)))
          (chunk_from fuel' array size (i + size))
    end
  else Some [].

Definition chunk {A : Type} (fuel : nat) (array : list A) (size : Z)
  : option (list (list A)) :=
  chunk_from fuel array size 0.

(** One entry of the argument of [qstash.batchJSON]; [body] is the job,
    which the code hands over as its JSON text. *)
Record BatchMessage : Type := mkBatchMessage {
  destination : string;
  body : EmailSendJob;
  delay : Z
}.

(** [jobs.map((job, index) => ...)] *)
Fixpoint map_index {A B : Type} (f : A -> Z -> B) (index : Z) (l : list A)
  : list B :=
  match l with
  | [] => []
  | x :: rest => f x index :: map_index f (index + 1) rest
  end.

Definition messages (env : Env) (jobs : list EmailSendJob)
  (delayBetween : Z) (startDelay : option Z) : list BatchMessage :=
  let startDelay := match startDelay with Some s => s | None => 0 end in
  map_index
    (fun job index =>
       {| destination := getBaseUrl env ++ "/api/jobs/email-send";
          body := job;
          delay := startDelay + index * delayBetween |})
    0 jobs.

(** The queue as [batchJSON] sees it: the batches it has accepted. *)
Definition Batches : Type := list (list BatchMessage).

(** [for (const batch of batches) await qstash.batchJSON(batch)];
    [rejects] tells whether the service refuses a batch, which makes the
    promise reject. *)
Fixpoint send_batches (rejects : list BatchMessage -> bool)
  (batches : list (list BatchMessage)) (queue : Batches)
  : outcome unit * Batches :=
  match batches with
  | [] => (Returned tt, queue)
  | batch :: rest =>
      if rejects batch then (Thrown "QStash batch failed", queue)
      else send_batches rejects rest (queue ++ [batch])%list
  end.

(** The loop of [chunk] has ended after as many iterations as the
    array has elements, since the size is 100. *)
Definition queueEmailBatch (env : Env) (rejects : list BatchMessage -> bool)
  (jobs : list EmailSendJob) (delayBetween : Z) (startDelay : option Z)
  (queue : Batches) : option (outcome unit * Batches) :=
  let messages := messages env jobs delayBetween startDelay in
  match chunk (List.length messages) messages 100 with
  | Some batches => Some (send_batches rejects batches queue)
  | None => None
  end.

End QStashBatch.

(* ================================================================== *)
(** * supabase/migrations/002_rls_policies.sql                         *)
(* ================================================================== *)

Module RowLevelSecurity.

(** The role of the session under which a request-scoped client
    queries the store. *)
Inductive Role : Type :=
| anon
| authenticated.

(** supabase/migrations/002_rls_policies.sql: row-level security is
    enabled on every table; SELECT and UPDATE on [campaigns],
    [campaign_leads] and [leads] and SELECT on [unsubscribes] have a
    policy for [authenticated] only, INSERT on [unsubscribes] has one
    for [anon] and [authenticated]. *)
Definition selectable {A : Type} (role : Role) (rows : list A) : list A :=
  match role with
  | authenticated => rows
  | anon => []
  end.

Definition updatable (role : Role) : bool :=
  match role with
  | authenticated => true
  | anon => false
  end.

End RowLevelSecurity.

(* ================================================================== *)
(** * The page of the unsubscribe link, /unsubscribe/[token]          *)
(* ================================================================== *)

Module UnsubscribePage.

Import RowLevelSecurity.

(** What the page shows. *)
Inductive Page : Type :=
| SuccessfullyUnsubscribed
| InvalidLink
| AlreadyUnsubscribed (email : string).

Definition UnsubscribePage (role : Role) (token : string)
  : World -> Page * World :=
  fun w =>
    let unsubscribe :=
      single (filter (fun u => (un_token u =? token)%string)
                     (selectable role (unsubscribes w))) in
    match unsubscribe with
    | None =>
        let campaignLead :=
          single (filter (fun r => (cl_id r =? token)%string)
                         (selectable role (campaign_leads w))) in
        let lead := fun r =>
          find (fun l => (lead_id l =? cl_lead_id r)%string)
               (selectable role (leads w)) in
        match campaignLead with
        | Some campaignLead =>
            match lead campaignLead with
            | Some leadData =>
                let w1 :=
                  snd (upsert_unsubscribe
                         {| un_email := email leadData;
                            un_lead_id := cl_lead_id campaignLead;
                            un_campaign_id := cl_campaign_id campaignLead;
                            un_token := token;
                            un_source := "link" |} w) in
                let w2 :=
                  if updatable role
                  then snd (update_lead_status (cl_lead_id campaignLead)
                              "unsubscribed" w1)
                  else w1 in
                (SuccessfullyUnsubscribed, w2)
            | None => (InvalidLink, w)
            end
        | None => (InvalidLink, w)
        end
    | Some unsubscribe => (AlreadyUnsubscribed (un_email unsubscribe), w)
    end.

End UnsubscribePage.

(* ================================================================== *)
(** * src/app/api/track/click/[campaignLeadId]/route.ts                *)
(* ================================================================== *)

Module TrackClickRoute.

(** What the endpoint answers: a redirect to a target, a redirect to
    the start page, or the exception that left the handler. *)
Inductive Redirect : Type :=
| RedirectTo (url : string)
| RedirectHome
| Unhandled (message : string).

Section Handler.

(** [decodeURIComponent], which throws on a malformed escape, and
    whether [new URL(text)] accepts a text. *)
Variable decodeURIComponent : string -> outcome string.
Variable is_URL : string -> bool.

(** [NextResponse.redirect(url)] throws for a text that is no URL. *)
Definition redirect (url : string) : outcome Redirect :=
  if is_URL url then Returned (RedirectTo url)
  else Thrown "TypeError: Invalid URL".

(** The target: the decoded parameter, or the parameter itself when
    decoding throws. *)
Definition target_of (url : string) : string :=
  match decodeURIComponent url with
  | Returned decoded => decoded
  | Thrown _ => url
  end.

(** The body of the outer [try]; [url] is [searchParams.get("url")]. *)
Definition track (env : Env) (campaignLeadId : string) (url : option string)
  : M Redirect :=
  let url := Js.or_string url "" in
  if (url =? "")%string then ret RedirectHome
  else
    let targetUrl := target_of url in
    if negb (is_URL targetUrl) then ret RedirectHome
    else
      campaignLead <- select_campaign_lead campaignLeadId ;;
      match campaignLead with
      | Some campaignLead =>
          insert_email_event
            {| ev_campaign_lead_id := Some campaignLeadId;
               ev_resend_email_id := None;
               ev_event_type := "clicked";
               ev_clicked_url := Some targetUrl |} ;;;
          let first_click := Js.is_unset (cl_clicked_at campaignLead) in
          let updates :=
            ([ clicked_count_is
                 (Js.or_number (Some (cl_clicked_count campaignLead)) 0 + 1) ]
             ++ (if first_click
                 then [ clicked_at_is (now env); status_is "clicked" ]
                 else []))%list in
          update_campaign_lead campaignLeadId updates ;;;
          (if first_click
           then rpc env "increment_campaign_stat"
                  [ ("p_campaign_id", cl_campaign_id campaignLead);
                    ("p_stat_field", "clicked_count") ]
           else ret tt)
      | None => ret tt
      end ;;;
      (fun w => (redirect targetUrl, w)).

(** The [catch]: "try to redirect anyway". *)
Definition redirect_anyway (url : option string) : Redirect :=
  let url := Js.or_string url "" in
  if (url =? "")%string then RedirectHome
  else
    let attempt :=
      match decodeURIComponent url with
      | Returned decoded => redirect decoded
      | Thrown e => Thrown e
      end in
    match attempt with
    | Returned r => r
    | Thrown _ =>
        match redirect url with
        | Returned r => r
        | Thrown e => Unhandled e
        end
    end.

Definition GET (env : Env) (campaignLeadId : string) (url : option string)
  : World -> Redirect * World :=
  fun w =>
    match track env campaignLeadId url w with
    | (Returned r, w') => (r, w')
    | (Thrown _, w') => (redirect_anyway url, w')
    end.

End Handler.

End TrackClickRoute.

(* ================================================================== *)
(** * src/lib/utils/template-parser.ts: footer, pixel, tracked links   *)
(* ================================================================== *)

Module EmailProcessing.

(** Texts are the sequences of their UTF-8 bytes. *)

Definition quote : string := Eval cbv in String (ascii_of_nat 34) EmptyString.
Definition newline : string := Eval cbv in String (ascii_of_nat 10) EmptyString.

(** ** [includes] and [replace] with a text as the pattern *)

(** What follows the prefix [p] of [s], when [s] starts with [p]. *)
Fixpoint strip_prefix (p s : string) : option string :=
  match p with
  | EmptyString => Some s
  | String c p' =>
      match s with
      | EmptyString => None
      | String d s' => if Ascii.eqb c d then strip_prefix p' s' else None
      end
  end.

(** The text before and the text after the first occurrence of
    [pattern] in [s]. *)
Fixpoint split_at (pattern s : string) : option (string * string) :=
  match strip_prefix pattern s with
  | Some after => Some (EmptyString, after)
  | None =>
      match s with
      | EmptyString => None
      | String c rest =>
          match split_at pattern rest with
          | Some (before, after) => Some (String c before, after)
          | None => None
          end
      end
  end.

(** [s.includes(pattern)] *)
Definition includes (pattern s : string) : bool :=
  match split_at pattern s with
  | Some _ => true
  | None => false
  end.

(** The replacement text of [replace] for a pattern without groups:
    [$$] is a dollar sign, [$&] the matched text, [$`] the text before
    the match and [$'] the text after it; any other [$] stands for
    itself. *)
Fixpoint expand (replacement matched before after : string) : string :=
  match replacement with
  | EmptyString => EmptyString
  | String c tail =>
      if Ascii.eqb c "$" then
        match tail with
        | EmptyString => String c EmptyString
        | String d rest =>
            if Ascii.eqb d "$"
            then String "$" (expand rest matched before after)
            else if Ascii.eqb d "&"
            then matched ++ expand rest matched before after
            else if Ascii.eqb d "`"
            then before ++ expand rest matched before after
            else if Ascii.eqb d "'"
            then after ++ expand rest matched before after
            else String c (expand tail matched before after)
        end
      else String c (expand tail matched before after)
  end.

(** [s.replace(pattern, replacement)] for a text [pattern]: the first
    occurrence only. *)
Definition replace_first (pattern replacement s : string) : string :=
  match split_at pattern s with
  | Some (before, after) =>
      before ++ expand replacement pattern before after ++ after
  | None => s
  end.

(** ** addComplianceFooter *)

Definition footer (unsubscribeToken appUrl : string) : string :=
  newline ++ "    <div style=" ++ quote ++
  "margin-top: 40px; padding-top: 20px; border-top: 1px sol" ++
  "id #e5e5e5; font-size: 12px; color: #666666; font-family" ++
  ": -apple-system, BlinkMacSystemFont, 'Segoe UI', Roboto," ++
  " sans-serif;" ++ quote ++ ">" ++ newline ++ "      <p style=" ++ quote ++
  "margin: 0 0 8px 0;" ++ quote ++ ">" ++ newline ++
  "        <strong>Operator OS</strong><br>" ++ newline ++
  "        Austin, TX 78701" ++ newline ++ "      </p>" ++ newline ++
  "      <p style=" ++ quote ++ "margin: 0;" ++ quote ++ ">" ++ newline ++
  "        You received this email because you were identif" ++
  "ied as a potential fit for our AI services." ++ newline ++
  "        <a href=" ++ quote ++ appUrl ++ "/unsubscribe/" ++
  unsubscribeToken ++ quote ++ " style=" ++ quote ++
  "color: #666666; text-decoration: underline;" ++ quote ++ ">" ++ newline ++
  "          Unsubscribe" ++ newline ++ "        </a>" ++ newline ++
  "      </p>" ++ newline ++ "    </div>" ++ newline ++ "  ".

Definition addComplianceFooter (html unsubscribeToken appUrl : string)
  : string :=
  let footer := footer unsubscribeToken appUrl in
  if includes "</body>" html
  then replace_first "</body>" (footer ++ "</body>") html
  else html ++ footer.

(** ** addTrackingPixel *)

Definition pixel (campaignLeadId appUrl : string) : string :=
  "<img src=" ++ quote ++ appUrl ++ "/api/track/open/" ++ campaignLeadId ++
  quote ++ " width=" ++ quote ++ "1" ++ quote ++ " height=" ++ quote ++
  "1" ++ quote ++ " style=" ++ quote ++ "display:none;" ++ quote ++
  " alt=" ++ quote ++ quote ++ " />".

Definition addTrackingPixel (html campaignLeadId appUrl : string) : string :=
  let pixel := pixel campaignLeadId appUrl in
  if includes "</body>" html
  then replace_first "</body>" (pixel ++ "</body>") html
  else html ++ pixel.

(** ** encodeURIComponent *)

(** The characters [encodeURIComponent] leaves as they are:
    [A-Z a-z 0-9 - _ . ! ~ * ' ( )]. *)
Definition unreserved (c : ascii) : bool :=
  let n := nat_of_ascii c in
  (((48 <=? n) && (n <=? 57)) || ((65 <=? n) && (n <=? 90))
   || ((97 <=? n) && (n <=? 122))
   || (n =? 45) || (n =? 95) || (n =? 46) || (n =? 33) || (n =? 126)
   || (n =? 42) || (n =? 39) || (n =? 40) || (n =? 41))%nat.

Definition hex_digit (n : nat) : ascii :=
  if (n <? 10)%nat then ascii_of_nat (48 + n) else ascii_of_nat (55 + n).

(** [%XX] for a byte. *)
Definition percent_encode (c : ascii) : string :=
  let n := nat_of_ascii c in
  String "%" (String (hex_digit (n / 16))
                (String (hex_digit (n mod 16)) EmptyString)).

Fixpoint encodeURIComponent (s : string) : string :=
  match s with
  | EmptyString => EmptyString
  | String c rest =>
      (if unreserved c then String c EmptyString else percent_encode c)
      ++ encodeURIComponent rest
  end.

(** ** wrapLinksForTracking

    The expression is [href=Q(https?://[^Q]+)Q] with the global flag,
    where Q stands for the double quote. *)

(** The greedy run of characters other than the quote at the head of a
    text, and what follows it. *)
Fixpoint take_unquoted (s : string) : string * string :=
  match s with
  | EmptyString => (EmptyString, EmptyString)
  | String c rest =>
      if Ascii.eqb c (ascii_of_nat 34) then (EmptyString, s)
      else let (u, r) := take_unquoted rest in (String c u, r)
  end.

(** One attempt of the expression at the head of [s]: the captured URL
    and the text after the match. *)
Definition match_link (s : string) : option (string * string) :=
  match strip_prefix ("href=" ++ quote) s with
  | None => None
  | Some s1 =>
      let scheme :=
        match strip_prefix "https://" s1 with
        | Some s2 => Some ("https://", s2)
        | None =>
            match strip_prefix "http://" s1 with
            | Some s2 => Some ("http://", s2)
            | None => None
            end
        end in
      match scheme with
      | None => None
      | Some (scheme, s2) =>
          match take_unquoted s2 with
          | (EmptyString, _) => None
          | (_, EmptyString) => None
          | (run, String _ s3) => Some (scheme ++ run, s3)
          end
      end
  end.

(** The text of a match whose group is [url]. *)
Definition link (url : string) : string := "href=" ++ quote ++ url ++ quote.

(** The callback: unsubscribe links stay, any other link goes through
    the click endpoint. *)
Definition tracked (campaignLeadId appUrl url : string) : string :=
  if includes "/unsubscribe/" url then link url
  else
    let encodedUrl := encodeURIComponent url in
    "href=" ++ quote ++ appUrl ++ "/api/track/click/" ++ campaignLeadId
    ++ "?url=" ++ encodedUrl ++ quote.

Fixpoint wrap_scan (fuel : nat) (campaignLeadId appUrl html : string)
  : string :=
  match html with
  | EmptyString => EmptyString
  | String c rest =>
      match fuel with
      | O => html
      | S fuel' =>
          match match_link html with
          | Some (url, rest') =>
              tracked campaignLeadId appUrl url
              ++ wrap_scan fuel' campaignLeadId appUrl rest'
          | None => String c (wrap_scan fuel' campaignLeadId appUrl rest)
          end
      end
  end.

Definition wrapLinksForTracking (html campaignLeadId appUrl : string)
  : string :=
  wrap_scan (String.length html) campaignLeadId appUrl html.

(** ** processEmailForSending *)

Definition processEmailForSending
  (html campaignLeadId unsubscribeToken appUrl : string) : string :=
  let processed := html in
  let processed := addComplianceFooter processed unsubscribeToken appUrl in
  let processed := addTrackingPixel processed campaignLeadId appUrl in
  let processed := wrapLinksForTracking processed campaignLeadId appUrl in
  processed.

End EmailProcessing.

(* ================================================================== *)
(** * src/app/api/campaigns/[id]/start, pause and resume               *)
(* ================================================================== *)

Module CampaignLifecycle.

Import RowLevelSecurity.

(** What the queue service answers to the three calls of the routes:
    does [publishJSON] reject, what does [schedules.create] resolve to,
    does [schedules.delete] reject. *)
Record QStash : Type := mkQStash {
  publish_rejected : bool;
  schedule_created : outcome string;
  delete_rejected : bool
}.

(** The columns of [campaigns], as the schema migration creates the
    table (CREATE TABLE campaigns). *)
Definition campaigns_columns : list string :=
  [ "id"; "name"; "description"; "template_id"; "from_name"; "from_email";
    "reply_to"; "status"; "scheduled_at"; "started_at"; "completed_at";
    "daily_limit"; "send_window_start"; "send_window_end"; "send_days";
    "delay_between_sends"; "target_filters"; "total_leads"; "sent_count";
    "delivered_count"; "opened_count"; "clicked_count"; "replied_count";
    "bounced_count"; "unsubscribed_count"; "is_ab_test"; "ab_variants";
    "created_at"; "updated_at"; "created_by" ].

(** A select or an update that names a column the table does not have
    is refused by the data API: the call resolves with an error and
    without data, and nothing is written. *)
Definition declared (columns : list string) : bool :=
  forallb (fun c => existsb (String.eqb c) campaigns_columns) columns.

(** The store together with what these routes write besides it: the
    column [started_at] of [campaigns], by campaign (no entry stands
    for NULL), the messages for the campaign-process endpoint, and the
    schedules of the queue service, each with its identifier, its
    destination and its campaign. *)
Record Deployment : Type := mkDeployment {
  store : World;
  campaign_started_at : list (string * Z);
  process_messages : list (string * string);
  schedules : list (string * string * string)
}.

Inductive Answer : Type :=
| NotFound
| BadRequest (error : string)
| Succeeded (message : string) (pendingLeads : option Z)
| Failed (error : string)
| InternalError.

Definition status_of (a : Answer) : Z :=
  match a with
  | NotFound => 404
  | BadRequest _ => 400
  | Succeeded _ _ => 200
  | Failed _ => 500
  | InternalError => 500
  end.

Definition set_store (v : World) (d : Deployment) : Deployment :=
  mkDeployment v (campaign_started_at d) (process_messages d) (schedules d).

Definition with_status (s : string) (c : Campaign) : Campaign :=
  mkCampaign (campaign_id c) (template_ref c) (from_name c) (from_email c)
    (reply_to c) s (completed_at c) (daily_limit c)
    (send_window_start c) (send_window_end c) (send_days c)
    (delay_between_sends c) (sent_count c) (delivered_count c)
    (opened_count c) (clicked_count c) (bounced_count c)
    (unsubscribed_count c).

(** [from("campaigns").update(...).eq("id", id)] for an object with the
    keys [columns], on the rows of the store; [None] is the error of an
    update that names an undeclared column. *)
Definition update_campaign (columns : list string) (id : string)
  (f : Campaign -> Campaign) (d : Deployment) : option Deployment :=
  if declared columns
  then Some (set_store
               (set_campaigns
                  (map (fun c => if (campaign_id c =? id)%string
                                 then f c else c)
                       (campaigns (store d))) (store d)) d)
  else None.

(** An update whose result the route does not read. *)
Definition update_campaign_unread (columns : list string) (id : string)
  (f : Campaign -> Campaign) (d : Deployment) : Deployment :=
  match update_campaign columns id f d with
  | Some d' => d'
  | None => d
  end.

Definition remove_key {A : Type} (id : string) (l : list (string * A))
  : list (string * A) :=
  filter (fun e => negb (fst e =? id)%string) l.

Definition set_key {A : Type} (id : string) (v : A) (l : list (string * A))
  : list (string * A) :=
  (remove_key id l ++ [(id, v)])%list.

Fixpoint lookup {A : Type} (id : string) (l : list (string * A)) : option A :=
  match l with
  | [] => None
  | (k, v) :: rest => if (k =? id)%string then Some v else lookup id rest
  end.

(** [from("campaigns").select(columns).eq("id", id).single()]; the
    empty list of columns stands for the star. *)
Definition select_campaign (role : Role) (columns : list string)
  (campaignId : string) (d : Deployment) : option Campaign :=
  if declared columns
  then single (filter (fun c => (campaign_id c =? campaignId)%string)
                      (selectable role (campaigns (store d))))
  else None.

Definition process_url (env : Env) : string :=
  Js.or_string (NEXT_PUBLIC_APP_URL env) "http://localhost:3000"
  ++ "/api/jobs/campaign-process".

(** "Trigger immediate campaign processing": an exception of the
    publish is logged and dropped. *)
Definition trigger (env : Env) (q : QStash) (campaignId : string)
  (d : Deployment) : Deployment :=
  if publish_rejected q then d
  else mkDeployment (store d) (campaign_started_at d)
         (process_messages d ++ [(process_url env, campaignId)])%list
         (schedules d).

(** "Schedule recurring daily processing", with the cron text
    [0 9 * * 1-5]: the schedule is created, then its identifier is
    written to the column [qstash_schedule_id] of the campaign, by an
    update whose result is not read; an exception of the creation is
    logged and dropped. *)
Definition schedule_daily (env : Env) (q : QStash) (campaignId : string)
  (d : Deployment) : Deployment :=
  match schedule_created q with
  | Returned scheduleId =>
      let d1 :=
        mkDeployment (store d) (campaign_started_at d) (process_messages d)
          (schedules d ++ [(scheduleId, process_url env, campaignId)])%list in
      update_campaign_unread ["qstash_schedule_id"] campaignId (fun c => c) d1
  | Thrown _ => d
  end.

Definition count_leads (campaignId : string) (role : Role) (d : Deployment)
  : Z :=
  Z.of_nat (List.length
              (filter (fun r => (cl_campaign_id r =? campaignId)%string)
                      (selectable role (campaign_leads (store d))))).

Definition count_pending (campaignId : string) (role : Role)
  (d : Deployment) : Z :=
  Z.of_nat (List.length
              (filter (CampaignProcessRoute.is_pending_of campaignId)
                      (selectable role (campaign_leads (store d))))).

(** POST /api/campaigns/[id]/start.  A NULL [template_id] is the empty
    text. *)
Definition start (env : Env) (q : QStash) (role : Role) (campaignId : string)
  (d : Deployment) : Answer * Deployment :=
  match select_campaign role [] campaignId d with
  | None => (NotFound, d)
  | Some campaign =>
      if negb (campaign_status campaign =? "draft")%string
      then (BadRequest "Campaign can only be started from draft status", d)
      else if (template_ref campaign =? "")%string
      then (BadRequest "Campaign must have a template assigned", d)
      else if count_leads campaignId role d =? 0
      then (BadRequest "Campaign must have leads assigned", d)
      else
        match update_campaign ["status"; "started_at"] campaignId
                (with_status "active") d with
        | None => (Failed "Failed to update campaign status", d)
        | Some d1 =>
            let d1 :=
              mkDeployment (store d1)
                (set_key campaignId (now env) (campaign_started_at d1))
                (process_messages d1) (schedules d1) in
            let d2 := trigger env q campaignId d1 in
            let d3 := schedule_daily env q campaignId d2 in
            (Succeeded "Campaign started successfully" None, d3)
        end
  end.

(** POST /api/campaigns/[id]/pause.  The route selects the columns
    [id, status, qstash_schedule_id]; [scheduleId] is what the selected
    row holds in the last of them. *)
Definition pause (q : QStash) (role : Role) (campaignId : string)
  (scheduleId : option string) (d : Deployment) : Answer * Deployment :=
  match select_campaign role ["id"; "status"; "qstash_schedule_id"]
          campaignId d with
  | None => (NotFound, d)
  | Some campaign =>
      if negb (campaign_status campaign =? "active")%string
      then (BadRequest "Only active campaigns can be paused", d)
      else
        let d1 :=
          match scheduleId with
          | Some scheduleId =>
              if (scheduleId =? "")%string then d
              else if delete_rejected q then d
              else mkDeployment (store d) (campaign_started_at d)
                     (process_messages d)
                     (filter (fun s => negb (fst (fst s) =? scheduleId)%string)
                             (schedules d))
          | None => d
          end in
        match update_campaign ["status"; "qstash_schedule_id"] campaignId
                (with_status "paused") d1 with
        | None => (Failed "Failed to update campaign status", d1)
        | Some d2 => (Succeeded "Campaign paused successfully" None, d2)
        end
  end.

(** POST /api/campaigns/[id]/resume *)
Definition resume (env : Env) (q : QStash) (role : Role)
  (campaignId : string) (d : Deployment) : Answer * Deployment :=
  match select_campaign role ["id"; "status"; "template_id"]
          campaignId d with
  | None => (NotFound, d)
  | Some campaign =>
      if negb (campaign_status campaign =? "paused")%string
      then (BadRequest "Only paused campaigns can be resumed", d)
      else
        let pendingCount := count_pending campaignId role d in
        if pendingCount =? 0 then
          (Succeeded "Campaign completed - no pending leads remaining" None,
           update_campaign_unread ["status"; "completed_at"] campaignId
             (CampaignProcessRoute.complete env) d)
        else
          match update_campaign ["status"] campaignId
                  (with_status "active") d with
          | None => (Failed "Failed to update campaign status", d)
          | Some d1 =>
              let d2 := trigger env q campaignId d1 in
              let d3 := schedule_daily env q campaignId d2 in
              (Succeeded "Campaign resumed successfully" (Some pendingCount),
               d3)
          end
  end.

End CampaignLifecycle.

(* ================================================================== *)
(** * Templates as literal texts and placeholders                      *)
(* ================================================================== *)

Module Segments.

(** All characters of the text are word characters. *)
Fixpoint all_word (s : string) : bool :=
  match s with
  | EmptyString => true
  | String c rest => (is_word_char c && all_word rest)%bool
  end.

(** What the group [(\w+)] can capture. *)
Definition identifier (key : string) : Prop :=
  key <> "" /\ all_word key = true.

(** The text holds no opening brace. *)
Fixpoint no_open_brace (s : string) : bool :=
  match s with
  | EmptyString => true
  | String c rest => (negb (Ascii.eqb c "{") && no_open_brace rest)%bool
  end.

Inductive Segment : Type :=
| Literal (text : string)
| Placeholder (key : string).

Definition well_formed (seg : Segment) : Prop :=
  match seg with
  | Literal text => no_open_brace text = true
  | Placeholder key => identifier key
  end.

(** The template a list of segments stands for. *)
Fixpoint render (segs : list Segment) : string :=
  match segs with
  | [] => ""
  | Literal text :: rest => text ++ render rest
  | Placeholder key :: rest => token key ++ render rest
  end.

(** The same with every placeholder replaced by what the callback of
    [replaceVariables] returns for its key. *)
Fixpoint substitute (variables : TemplateVariables) (segs : list Segment)
  : string :=
  match segs with
  | [] => ""
  | Literal text :: rest => text ++ substitute variables rest
  | Placeholder key :: rest =>
      replacement variables key ++ substitute variables rest
  end.

Fixpoint placeholders (segs : list Segment) : list string :=
  match segs with
  | [] => []
  | Literal _ :: rest => placeholders rest
  | Placeholder key :: rest => key :: placeholders rest
  end.

(** [template.match(re)] on a whole template. *)
Definition matches (template : string) : list string :=
  match_all (String.length template) template.

End Segments.

(* ================================================================== *)
(** * Texts whose double braces open tokens                            *)
(* ================================================================== *)

Module Tokens.

(** The text starts with two opening braces. *)
Definition opens_braces (s : string) : bool :=
  match s with
  | String "{" (String "{" _) => true
  | _ => false
  end.

(** The scan of the expression over a text, testing at every position
    where no token starts that the text does not go on with two
    opening braces. *)
Fixpoint braces_scan (fuel : nat) (text : string) : bool :=
  match text with
  | EmptyString => true
  | String c rest =>
      match fuel with
      | O => true
      | S fuel' =>
          match match_token text with
          | Some (_, rest') => braces_scan fuel' rest'
          | None => (negb (opens_braces text) && braces_scan fuel' rest)%bool
          end
      end
  end.

(** Every pair of adjacent opening braces of the text is the opening of
    a token. *)
Definition braces_open_tokens (text : string) : bool :=
  braces_scan (String.length text) text.

End Tokens.

(* ================================================================== *)
(** * Mail bodies as texts and links                                   *)
(* ================================================================== *)

Module Bodies.

Import EmailProcessing.

(** The text holds no dollar sign; no double quote. *)
Fixpoint no_dollar (s : string) : bool :=
  match s with
  | EmptyString => true
  | String c rest => (negb (Ascii.eqb c "$") && no_dollar rest)%bool
  end.

Fixpoint no_quote (s : string) : bool :=
  match s with
  | EmptyString => true
  | String c rest =>
      (negb (Ascii.eqb c (ascii_of_nat 34)) && no_quote rest)%bool
  end.

(** The opening of a link attribute: [href=] and the quote. *)
Definition href : string := "href=" ++ quote.

(** What the group of the link expression can capture: [http://] or
    [https://], then at least one character, none of them a quote. *)
Definition web_url (url : string) : Prop :=
  no_quote url = true
  /\ exists rest, rest <> ""
                  /\ (url = "http://" ++ rest \/ url = "https://" ++ rest).

(** A body: a text, or a text followed by a link attribute and the
    rest of the body. *)
Inductive Body : Type :=
| Tail (text : string)
| Anchor (text url : string) (rest : Body).

Fixpoint body_text (b : Body) : string :=
  match b with
  | Tail text => text
  | Anchor text url rest => text ++ link url ++ body_text rest
  end.

(** No text of the body holds the opening of a link attribute, and the
    links are web links. *)
Fixpoint well_formed (b : Body) : Prop :=
  match b with
  | Tail text => includes href text = false
  | Anchor text url rest =>
      includes href text = false /\ web_url url /\ well_formed rest
  end.

(** The body with each link replaced by what the callback of
    [wrapLinksForTracking] returns for it. *)
Fixpoint tracked_body (campaignLeadId appUrl : string) (b : Body) : string :=
  match b with
  | Tail text => text
  | Anchor text url rest =>
      text ++ tracked campaignLeadId appUrl url
      ++ tracked_body campaignLeadId appUrl rest
  end.

(** The first character of the pattern does not occur in the rest of
    the pattern. *)
Definition head_not_in_rest (p : string) : Prop :=
  match p with
  | EmptyString => False
  | String c rest =>
      forall u r, rest = u ++ String c r -> False
  end.

End Bodies.

(* ================================================================== *)
(** * Further vocabulary: what one invocation does to the store        *)
(* ================================================================== *)

Module Run.

Import CampaignProcessRoute WarmupProgressRoute Spec.

(** ** The dispatch of one campaign *)

(** The cap of a run for a campaign: its daily limit, or the warm-up
    limit when that is lower. *)
Definition cap_of (c : Campaign) (w : World) : Z :=
  Z.min (daily_limit c) (warmup_cap w).

(** The three tests on the campaign row that come before any request to
    an outer service. *)
Definition passes_gates (env : Env) (c : Campaign) : bool :=
  ((campaign_status c =? "active")%string
   && isWithinSendWindow env (send_window_start c) (send_window_end c)
   && existsb (Z.eqb (today env)) (send_days c))%bool.

(** The store once the rate limiter has been asked, and once the
    pending recipients have been queried as well. *)
Definition checked (cap : Z) (w : World) : World :=
  set_requests (requests w ++ [RateLimitCheck cap])%list w.

Definition queried (campaignId : string) (cap : Z) (w : World) : World :=
  set_requests
    (requests w ++ [RateLimitCheck cap; SelectPending campaignId cap])%list w.

(** The fetched rows, each with its joined lead. *)
Definition joined (campaignId : string) (cap : Z) (w : World)
  : list (CampaignLead * option Lead) :=
  map (fun r => (r, lead_of w r)) (fetched campaignId cap w).

Definition pending_count (campaignId : string) (w : World) : Z :=
  Z.of_nat (List.length (filter (is_pending_of campaignId) (campaign_leads w))).

Definition completed_now (env : Env) (campaignId : string) (w : World)
  : World :=
  set_campaigns
    (map (fun c => if (campaign_id c =? campaignId)%string
                   then complete env c else c) (campaigns w)) w.

(** The row [new] is the pending row [old] of the campaign after the
    loop has queued it. *)
Definition queued_from (campaignId : string) (old new : CampaignLead)
  : Prop :=
  is_pending_of campaignId old = true
  /\ cl_id new = cl_id old
  /\ cl_campaign_id new = cl_campaign_id old
  /\ cl_lead_id new = cl_lead_id old
  /\ cl_status new = "queued".

(** The row [new] is [old], or [old] queued, where [old] is one of the
    rows with the identifiers [ids]. *)
Definition left_or_queued (ids : list string) (old new : CampaignLead)
  : Prop :=
  new = old
  \/ (In (cl_id old) ids
      /\ cl_id new = cl_id old
      /\ cl_campaign_id new = cl_campaign_id old
      /\ cl_lead_id new = cl_lead_id old
      /\ cl_status new = "queued").

(** The write of the loop to the row of a recipient. *)
Definition queued_row (env : Env) (t : EmailTemplate) (l : Lead)
  (r : CampaignLead) : CampaignLead :=
  apply_updates
    [ status_is "queued"; queued_at_is (now env);
      personalized_subject_is (subject (personalizeTemplate t l));
      personalized_body_is (html (personalizeTemplate t l)) ] r.

(** The fetched rows whose lead exists. *)
Definition has_lead (w : World) (r : CampaignLead) : bool :=
  match lead_of w r with
  | Some _ => true
  | None => false
  end.

(** What no run of the dispatch pipeline writes. *)
Definition same_but_dispatch (w w' : World) : Prop :=
  email_templates w' = email_templates w
  /\ leads w' = leads w
  /\ email_events w' = email_events w
  /\ unsubscribes w' = unsubscribes w
  /\ domain_warmup w' = domain_warmup w
  /\ email_daily_count w' = email_daily_count w
  /\ email_hourly_count w' = email_hourly_count w
  /\ resend_calls w' = resend_calls w.

(** ** The send job *)

Definition campaign_sent (id : string) (w : World) : option Z :=
  option_map sent_count (campaign_row id w).

(** The row the send job stores for the unsubscribe link of a mail. *)
Definition link_row (env : Env) (job : EmailSendJob) : Unsubscribe :=
  {| un_email := job_to job;
     un_lead_id := job_leadId job;
     un_campaign_id := job_campaignId job;
     un_token := nanoid env;
     un_source := "link" |}.

(** The provider accepts the mails to an address, with the message
    identifier [id]; it refuses them, with the error [message]. *)
Definition provider_accepts (env : Env) (address id : string) : Prop :=
  forall o, mail_to o = address -> resend_send env o = ResendData id.

Definition provider_refuses (env : Env) (address message : string) : Prop :=
  forall o, mail_to o = address -> resend_send env o = ResendError message.

(** The [token] column of the unsubscribe store is UNIQUE: a row can
    only be stored when no row holds its token yet. *)
Definition token_unused (token : string) (w : World) : Prop :=
  forall u, In u (unsubscribes w) -> un_token u <> token.

(** No row of the unsubscribe store holds the address. *)
Definition not_listed (address : string) (w : World) : Prop :=
  forall u, In u (unsubscribes w) -> un_email u <> address.

(** The lead and the campaign that a job names are still rows of
    their tables ([unsubscribes.lead_id] and [unsubscribes.campaign_id]
    reference them; both can be deleted between the queueing of a job
    and its delivery). *)
Definition lead_stored (id : string) (w : World) : Prop :=
  exists l, In l (leads w) /\ lead_id l = id.

Definition campaign_stored (id : string) (w : World) : Prop :=
  exists c, In c (campaigns w) /\ campaign_id c = id.

Definition references_stored (job : EmailSendJob) (w : World) : Prop :=
  lead_stored (job_leadId job) w /\ campaign_stored (job_campaignId job) w.

(** ** Click tracking *)

Definition campaign_clicked (id : string) (w : World) : option Z :=
  option_map clicked_count (campaign_row id w).

(** The event the click endpoint logs, and its [updates] object. *)
Definition click_event (campaignLeadId target : string) : EmailEvent :=
  {| ev_campaign_lead_id := Some campaignLeadId;
     ev_resend_email_id := None;
     ev_event_type := "clicked";
     ev_clicked_url := Some target |}.

Definition clicked_updates (env : Env) (cl : CampaignLead)
  : list CampaignLeadUpdate :=
  ([ clicked_count_is (Js.or_number (Some (cl_clicked_count cl)) 0 + 1) ]
   ++ (if Js.is_unset (cl_clicked_at cl)
       then [ clicked_at_is (now env); status_is "clicked" ] else []))%list.

(** ** The rate limiter *)

(** The store after [n] mails have been counted. *)
Definition after_sends (n : nat) (w : World) : World :=
  Nat.iter n (fun x => snd (incrementEmailCount x)) w.

(** What [redis.get] gives for a counter, read as the limiter reads it. *)
Definition daily_sent (w : World) : Z := Js.or_number (email_daily_count w) 0.
Definition hourly_sent (w : World) : Z := Js.or_number (email_hourly_count w) 0.

(** ** Tracking *)

(** The event the tracking pixel logs. *)
Definition pixel_event (campaignLeadId : string) : EmailEvent :=
  {| ev_campaign_lead_id := Some campaignLeadId;
     ev_resend_email_id := None;
     ev_event_type := "opened";
     ev_clicked_url := None |}.

(** ** The webhook of the provider *)

(** The event types of [ResendEventType]. *)
Definition ResendEventTypes : list string :=
  [ "email.sent"; "email.delivered"; "email.delivery_delayed";
    "email.complained"; "email.bounced"; "email.opened"; "email.clicked" ].

(** The request passes the signature test of the webhook: no secret is
    configured, or the process is not in production, or the signature
    is the expected one. *)
Definition webhook_admitted (env : Env)
  (request : ResendWebhookRoute.WebhookRequest) : Prop :=
  Js.or_string (RESEND_WEBHOOK_SECRET env) "" = ""
  \/ NODE_ENV env <> "production"
  \/ ResendWebhookRoute.signature_check request = Returned true.

(** The recipient whose mail has the provider's identifier [id]. *)
Definition mail_of (id : string) (r : CampaignLead) : bool :=
  match cl_resend_email_id r with
  | Some x => (x =? id)%string
  | None => false
  end.

Definition identifies (id : string) (w : World) (cl : CampaignLead) : Prop :=
  In cl (campaign_leads w)
  /\ mail_of id cl = true
  /\ forall r, In r (campaign_leads w) -> mail_of id r = true -> r = cl.

(** [from("leads").update({ status }).eq("id", id)] on the rows. *)
Definition with_lead_status (id status : string) (ls : list Lead)
  : list Lead :=
  map (fun l => if (lead_id l =? id)%string
                then set_lead_status status l else l) ls.

(** The event the webhook logs for a payload, given the recipient it
    found for the mail. *)
Definition webhook_event (event : ResendWebhookRoute.ResendWebhookPayload)
  (campaignLead : option CampaignLead) : EmailEvent :=
  {| ev_campaign_lead_id := option_map cl_id campaignLead;
     ev_resend_email_id := Some (ResendWebhookRoute.data_email_id event);
     ev_event_type :=
       ResendWebhookRoute.mapEventType (ResendWebhookRoute.event_type event);
     ev_clicked_url :=
       match ResendWebhookRoute.data_click_link event with
       | Some l => if (l =? "")%string then None else Some l
       | None => None
       end |}.

(** What no webhook request writes. *)
Definition same_but_webhook (w w' : World) : Prop :=
  email_templates w' = email_templates w
  /\ domain_warmup w' = domain_warmup w
  /\ email_daily_count w' = email_daily_count w
  /\ email_hourly_count w' = email_hourly_count w
  /\ qstash_messages w' = qstash_messages w
  /\ resend_calls w' = resend_calls w
  /\ requests w' = requests w.

(** ** A request for every active campaign *)

(** The campaigns of a list are dispatched in turn, each on the state
    that the one before it left; the counts add up, and the first
    exception ends the run. *)
Fixpoint dispatch_in_turn (env : Env) (campaignIds : list string)
  (w : World) : outcome Z * World :=
  match campaignIds with
  | [] => (Returned 0, w)
  | campaignId :: rest =>
      match processCampaign env campaignId w with
      | (Returned queued, w1) =>
          match dispatch_in_turn env rest w1 with
          | (Returned total, w2) => (Returned (queued + total), w2)
          | (Thrown e, w2) => (Thrown e, w2)
          end
      | (Thrown e, w1) => (Thrown e, w1)
      end
  end.

Definition active_campaign_ids (w : World) : list string :=
  map campaign_id
    (filter (fun c => (campaign_status c =? "active")%string) (campaigns w)).

End Run.

(* ================================================================== *)
(** * Times of day to the second                                       *)
(* ================================================================== *)

Module Clock.

Import Spec.

(** The time of day of the invocation in seconds since midnight;
    [getSeconds] is the reading of the same [Date] that the handler
    does not take. *)
Definition second_of_day (env : Env) (getSeconds : Z) : Z :=
  (getHours env * 60 + getMinutes env) * 60 + getSeconds.

(** The time of day that the text of a TIME column denotes, in seconds
    since midnight. *)
Definition denotes (t : string) (seconds : Z) : Prop :=
  exists h m s,
    0 <= h < 24 /\ 0 <= m < 60 /\ 0 <= s < 60
    /\ seconds = (h * 60 + m) * 60 + s
    /\ (t = time_text_seconds h m s \/ (s = 0 /\ t = time_text h m)).

(** A campaign as [Sample.campaign], with the window written as a TIME
    column returns it, and the clock of [Sample.env] set to a time of
    day. *)
Definition campaign_between (window_start window_end : string) : Campaign :=
  mkCampaign "camp-1" "tpl-1" "Operator OS" "hello@operatoros.ai" None
    "active" None 50 window_start window_end [1; 2; 3; 4; 5] 60
    0 0 0 0 0 0.

Definition env_at (hours minutes : Z) : Env :=
  mkEnv "production" (Some "https://app.operatoros.ai") None
    1767090600000 hours minutes 2
    (fun _ => false) (fun _ => ResendData "re_1")
    "tok-nanoid" "tok-uuid" true.

End Clock.

(* ================================================================== *)
(** * Proof automation                                                 *)
(* ================================================================== *)

(** Case analysis on every comparison of the warm-up schedule. *)
Ltac split_schedule :=
  repeat match goal with
         | |- context [if ?a <=? ?b then _ else _] =>
             destruct (Z.leb_spec a b); cbn [fst snd]
         end.

(* ================================================================== *)
(** * Properties of the template engine                                *)
(* ================================================================== *)

Example replaceVariables_personalizes :
  replaceVariables "Hi {{firstName}}, from {{company}}"
    (buildVariables Sample.ana) = "Hi Ana, from Acme".
Proof. reflexivity. Qed.

Example extractVariables_first_occurrences :
  extractVariables "Hi {{firstName}}, from {{company}} {{firstName}}"
  = ["firstName"; "company"].
Proof. reflexivity. Qed.

Lemma string_app_assoc (a b c : string) : (a ++ b) ++ c = a ++ (b ++ c).
Proof. induction a as [|x a IH]; simpl; [reflexivity | now rewrite IH]. Qed.

Lemma take_word_append s w r :
  take_word s = (w, r) -> s = w ++ r.
Proof.
  revert w r. induction s as [|c s IH]; simpl; intros w r H.
  - inversion H; reflexivity.
  - destruct (is_word_char c).
    + destruct (take_word s) as [w' r'] eqn:E. inversion H; subst.
      simpl. f_equal. apply IH. reflexivity.
    + inversion H; reflexivity.
Qed.

Lemma take_word_no_brace s w r :
  take_word s = (w, r) -> strip_braces w = w.
Proof.
  revert w r. induction s as [|c s IH]; simpl; intros w r H.
  - inversion H; reflexivity.
  - destruct (is_word_char c) eqn:Ec.
    + destruct (take_word s) as [w' r'] eqn:E. inversion H; subst.
      simpl.
      assert (Hb : (Ascii.eqb c "{" || Ascii.eqb c "}")%bool = false).
      { destruct (Ascii.eqb c "{") eqn:E1.
        - apply Ascii.eqb_eq in E1. subst c. discriminate Ec.
        - destruct (Ascii.eqb c "}") eqn:E2; [|reflexivity].
          apply Ascii.eqb_eq in E2. subst c. discriminate Ec. }
      rewrite Hb. f_equal. eapply IH. reflexivity.
    + inversion H; reflexivity.
Qed.

Lemma match_token_sound s key rest :
  match_token s = Some (key, rest) ->
  s = token key ++ rest /\ strip_braces key = key.
Proof.
  unfold match_token, token.
  destruct s as [|c1 s]; [discriminate|].
  destruct c1 as [[] [] [] [] [] [] [] []]; try discriminate.
  destruct s as [|c2 s]; [discriminate|].
  destruct c2 as [[] [] [] [] [] [] [] []]; try discriminate.
  destruct (take_word s) as [w r] eqn:E.
  destruct w as [|cw w]; [discriminate|].
  destruct r as [|c3 r]; [discriminate|].
  destruct c3 as [[] [] [] [] [] [] [] []]; try discriminate.
  destruct r as [|c4 r]; [discriminate|].
  destruct c4 as [[] [] [] [] [] [] [] []]; try discriminate.
  intros H. inversion H; subst. split.
  - apply take_word_append in E. rewrite E. simpl.
    f_equal. f_equal. f_equal.
    now rewrite string_app_assoc.
  - eapply take_word_no_brace; eauto.
Qed.

Lemma string_app_nil_r (a : string) : a ++ "" = a.
Proof. induction a as [|x a IH]; simpl; [reflexivity | now rewrite IH]. Qed.

Lemma strip_braces_app a b :
  strip_braces (a ++ b) = strip_braces a ++ strip_braces b.
Proof.
  induction a as [|x a IH]; simpl; [reflexivity|].
  destruct (Ascii.eqb x "{" || Ascii.eqb x "}")%bool; simpl; now rewrite IH.
Qed.

Lemma strip_braces_token key :
  strip_braces key = key -> strip_braces (token key) = key.
Proof.
  intros H. unfold token. rewrite !strip_braces_app, H. simpl.
  apply string_app_nil_r.
Qed.

Lemma replace_scan_fixed variables fuel : forall text,
  (forall m, In m (match_all fuel text) ->
             Js.truthy (get variables (strip_braces m)) = false) ->
  replace_scan fuel variables text = text.
Proof.
  induction fuel as [|fuel IH]; intros text H.
  - destruct text; reflexivity.
  - destruct text as [|c rest]; [reflexivity|].
    cbn [replace_scan match_all] in *.
    destruct (match_token (String c rest)) as [[key rest']|] eqn:E.
    + apply match_token_sound in E. destruct E as [E1 E2].
      assert (Hk : Js.truthy (get variables key) = false).
      { specialize (H (token key) (or_introl eq_refl)).
        rewrite (strip_braces_token key E2) in H. exact H. }
      unfold replacement. rewrite Hk. rewrite IH.
      * symmetry. exact E1.
      * intros m Hm. apply H. right. exact Hm.
    + f_equal. apply IH. exact H.
Qed.

Lemma unique_In x : forall xs seen,
  In x xs -> existsb (String.eqb x) seen = true \/ In x (unique seen xs).
Proof.
  induction xs as [|y ys IH]; intros seen H; [contradiction|].
  simpl. destruct H as [-> | H].
  - destruct (existsb (String.eqb x) seen) eqn:E; [now left|].
    right. left. reflexivity.
  - destruct (existsb (String.eqb y) seen) eqn:E.
    + apply IH. exact H.
    + destruct (IH (y :: seen) H) as [H1 | H1].
      * simpl in H1. apply orb_true_iff in H1. destruct H1 as [H1 | H1].
        -- apply String.eqb_eq in H1. subst. right. now left.
        -- now left.
      * right. now right.
Qed.

Lemma extractVariables_complete template m :
  In m (match_all (String.length template) template) ->
  In (strip_braces m) (extractVariables template).
Proof.
  intros H. unfold extractVariables.
  destruct (unique_In (strip_braces m)
              (map strip_braces (match_all (String.length template) template))
              []) as [H1 | H1].
  - apply in_map. exact H.
  - discriminate H1.
  - exact H1.
Qed.

Theorem replaceVariables_fixed text variables :
  (forall key, In key (extractVariables text) ->
               Js.truthy (get variables key) = false) ->
  replaceVariables text variables = text.
Proof.
  intros H. apply replace_scan_fixed.
  intros m Hm. apply H. apply extractVariables_complete. exact Hm.
Qed.

Lemma string_app_length (a b : string) :
  String.length (a ++ b) = (String.length a + String.length b)%nat.
Proof. induction a as [|x a IH]; simpl; [reflexivity | now rewrite IH]. Qed.

Lemma match_token_shorter s key rest :
  match_token s = Some (key, rest) ->
  (String.length rest < String.length s)%nat.
Proof.
  intros H. apply match_token_sound in H. destruct H as [-> _].
  rewrite string_app_length. unfold token. simpl. lia.
Qed.

(** Any fuel from the length of the text on gives the same result. *)
Lemma replace_scan_fuel variables : forall n m text,
  (String.length text <= n)%nat -> (String.length text <= m)%nat ->
  replace_scan n variables text = replace_scan m variables text.
Proof.
  induction n as [|n IH]; intros m text Hn Hm.
  - destruct text; simpl in *; [destruct m; reflexivity | lia].
  - destruct text as [|c rest]; [destruct m; reflexivity|].
    destruct m as [|m]; [simpl in Hm; lia|].
    cbn [replace_scan].
    destruct (match_token (String c rest)) as [[key rest']|] eqn:E.
    + apply match_token_shorter in E. f_equal.
      apply IH; simpl in *; lia.
    + f_equal. apply IH; simpl in *; lia.
Qed.

(** A token is replaced exactly when [variables[key]] is truthy; the text
    after it is scanned on. *)
Lemma replaceVariables_token key rest variables :
  match_token (token key ++ rest) = Some (key, rest) ->
  replaceVariables (token key ++ rest) variables
  = replacement variables key ++ replaceVariables rest variables.
Proof.
  intros H. unfold replaceVariables.
  assert (Hlen : exists n, String.length (token key ++ rest)
                           = S (n + String.length rest)).
  { exists (3 + String.length key)%nat. unfold token.
    rewrite !string_app_length. simpl. lia. }
  destruct Hlen as [n Hn]. rewrite Hn.
  unfold token in *. cbn [append replace_scan]. cbn [append] in H.
  rewrite H. f_equal.
  apply replace_scan_fuel; lia.
Qed.

(** C6 (evaluation at the failing input).  For a lead without a last
    name [buildVariables] maps [lastName] to the empty string, and
    [replaceVariables] leaves the token [{{lastName}}] in the text
    instead of substituting the (empty) value of the key. *)
Lemma replaceVariables_keeps_token_of_empty_value :
  own_property "lastName" (buildVariables Sample.ana) = Some ""
  /\ replaceVariables "Hi {{firstName}} {{lastName}}!"
       (buildVariables Sample.ana)
     = "Hi Ana {{lastName}}!".
Proof. split; reflexivity. Qed.

(** A token whose identifier is no key of the map is replaced all the
    same when [Object.prototype] has a member of that name. *)
Example replaceVariables_inherited_member :
  own_property "toString" (buildVariables Sample.ana) = None
  /\ replaceVariables "{{toString}}" (buildVariables Sample.ana)
     = "function toString() { [native code] }".
Proof. split; reflexivity. Qed.

(** C7 (as stated, refuted).  Every token of the text has its
    identifier in the map, and a second pass still changes the result:
    the value substituted by the first pass spells a token itself. *)
Lemma replaceVariables_second_pass_differs :
  let t := "Hi {{firstName}}" in
  let v := buildVariables Sample.eve in
  (forall key, In key (extractVariables t) -> own_property key v <> None)
  /\ replaceVariables t v = "Hi {{company}}"
  /\ replaceVariables (replaceVariables t v) v = "Hi Evil"
  /\ replaceVariables (replaceVariables t v) v <> replaceVariables t v.
Proof.
  cbv zeta. repeat split.
  - intros key [<- | []]. discriminate.
  - discriminate.
Qed.

(** A text without tokens is left as it is; and a pass leaves a text
    as it is when the callback returns the token itself for every token
    of the text. *)
Lemma replaceVariables_idempotent_once_settled
  (t : string) (v : TemplateVariables) :
  (extractVariables t = [] -> replaceVariables t v = t)
  /\ ((forall key, In key (extractVariables (replaceVariables t v)) ->
                   Js.truthy (get v key) = false) ->
      replaceVariables (replaceVariables t v) v = replaceVariables t v).
Proof.
  split.
  - intros H. apply replaceVariables_fixed. rewrite H. intros key [].
  - intros H. apply replaceVariables_fixed. exact H.
Qed.

(* ================================================================== *)
(** * Rows and keys                                                    *)
(* ================================================================== *)

Import Spec.

Section Keyed.
Context {A : Type} (key : A -> string).

Lemma filter_nothing (f : A -> bool) (l : list A) :
  (forall x, In x l -> f x = false) -> filter f l = [].
Proof.
  induction l as [|y l IH]; intros H; [reflexivity|].
  simpl. rewrite (H y (or_introl eq_refl)). apply IH.
  intros x Hx. apply H. now right.
Qed.

Lemma filter_key_unique (l : list A) (x : A) :
  NoDup (map key l) -> In x l ->
  filter (fun y => (key y =? key x)%string) l = [x].
Proof.
  induction l as [|y l IH]; intros Hnd Hin; [contradiction|].
  simpl in Hnd. inversion Hnd as [|? ? Hy Hl]; subst.
  simpl. destruct Hin as [-> | Hin].
  - rewrite String.eqb_refl. f_equal.
    apply filter_nothing. intros z Hz.
    apply String.eqb_neq. intros E. apply Hy. rewrite <- E.
    now apply in_map.
  - destruct (String.eqb_spec (key y) (key x)) as [E | E].
    + exfalso. apply Hy. rewrite E. now apply in_map.
    + now apply IH.
Qed.

Lemma single_key_unique (l : list A) (x : A) :
  NoDup (map key l) -> In x l ->
  single (filter (fun y => (key y =? key x)%string) l) = Some x.
Proof. intros H1 H2. now rewrite filter_key_unique. Qed.

Lemma find_head_filter (f : A -> bool) (l : list A) :
  find f l = hd_error (filter f l).
Proof.
  induction l as [|y l IH]; [reflexivity|].
  simpl. destruct (f y); [reflexivity | exact IH].
Qed.

Lemma find_key_unique (l : list A) (x : A) :
  NoDup (map key l) -> In x l ->
  find (fun y => (key y =? key x)%string) l = Some x.
Proof.
  intros H1 H2. rewrite find_head_filter.
  now rewrite filter_key_unique.
Qed.

(** A map that keeps the keys commutes with a look-up by key. *)
Lemma find_map_key (F : A -> A) (k : string) (l : list A) :
  (forall y, key (F y) = key y) ->
  find (fun y => (key y =? k)%string) (map F l)
  = option_map F (find (fun y => (key y =? k)%string) l).
Proof.
  intros HF. induction l as [|y l IH]; [reflexivity|].
  simpl. rewrite HF. destruct (key y =? k)%string; [reflexivity | exact IH].
Qed.

Lemma map_key_preserved (F : A -> A) (l : list A) :
  (forall y, key (F y) = key y) -> map key (map F l) = map key l.
Proof.
  intros HF. rewrite map_map. apply map_ext. exact HF.
Qed.

End Keyed.


(* ================================================================== *)
(** * The dispatch pipeline: window and weekday                        *)
(* ================================================================== *)

Import CampaignProcessRoute.

Lemma digit_spec k :
  0 <= k <= 9 ->
  Ascii.eqb (digit k) ":" = false /\ Js.digit_value (digit k) = Some k.
Proof.
  intros H.
  assert (E : k = 0 \/ k = 1 \/ k = 2 \/ k = 3 \/ k = 4 \/ k = 5
              \/ k = 6 \/ k = 7 \/ k = 8 \/ k = 9) by lia.
  repeat (destruct E as [-> | E]; [split; reflexivity|]).
  subst. split; reflexivity.
Qed.

Lemma Number_two_digits n :
  0 <= n < 100 -> Js.Number (two_digits n) = Some n.
Proof.
  intros H. unfold Js.Number, two_digits. cbn [Js.digits_value].
  destruct (digit_spec (n / 10)) as [_ ->].
  { split; [apply Z.div_pos; lia | apply Z.lt_succ_r, Z.div_lt_upper_bound; lia]. }
  destruct (digit_spec (n mod 10)) as [_ ->].
  { pose proof (Z.mod_pos_bound n 10). lia. }
  f_equal. pose proof (Z.div_mod n 10). lia.
Qed.

Lemma split_colon_two_digits n rest :
  0 <= n < 100 ->
  Js.split_colon (two_digits n ++ ":" ++ rest)
  = two_digits n :: Js.split_colon rest.
Proof.
  intros H. unfold two_digits. cbn [append Js.split_colon].
  destruct (digit_spec (n / 10)) as [-> _].
  { split; [apply Z.div_pos; lia | apply Z.lt_succ_r, Z.div_lt_upper_bound; lia]. }
  destruct (digit_spec (n mod 10)) as [-> _].
  { pose proof (Z.mod_pos_bound n 10). lia. }
  reflexivity.
Qed.

Lemma split_colon_last n :
  0 <= n < 100 -> Js.split_colon (two_digits n) = [two_digits n].
Proof.
  intros H. unfold two_digits. cbn [Js.split_colon].
  destruct (digit_spec (n / 10)) as [-> _].
  { split; [apply Z.div_pos; lia | apply Z.lt_succ_r, Z.div_lt_upper_bound; lia]. }
  destruct (digit_spec (n mod 10)) as [-> _].
  { pose proof (Z.mod_pos_bound n 10). lia. }
  reflexivity.
Qed.

Lemma minutes_of_reads_as t h m :
  reads_as t h m -> minutes_of t = Some (h * 60 + m).
Proof.
  intros (Hh & Hm & [-> | (sec & Hs & ->)]); unfold minutes_of.
  - unfold time_text. rewrite split_colon_two_digits by lia.
    rewrite split_colon_last by lia. cbn [map nth].
    now rewrite !Number_two_digits by lia.
  - unfold time_text_seconds, time_text.
    rewrite !string_app_assoc.
    rewrite split_colon_two_digits by lia.
    rewrite split_colon_two_digits by lia.
    rewrite split_colon_last by lia. cbn [map nth].
    now rewrite !Number_two_digits by lia.
Qed.

Lemma isWithinSendWindow_spec env startTime endTime sh sm eh em :
  reads_as startTime sh sm -> reads_as endTime eh em ->
  isWithinSendWindow env startTime endTime
  = ((sh * 60 + sm <=? minute_of_day env)
     && (minute_of_day env <=? eh * 60 + em))%bool.
Proof.
  intros H1 H2. unfold isWithinSendWindow.
  rewrite (minutes_of_reads_as _ _ _ H1), (minutes_of_reads_as _ _ _ H2).
  reflexivity.
Qed.

Lemma today_spec env day :
  getDay env = getDay_on day -> today env = weekday_number day.
Proof. intros H. unfold today. rewrite H. now destruct day. Qed.

Lemma includes_spec (x : Z) (l : list Z) :
  existsb (Z.eqb x) l = true <-> In x l.
Proof.
  rewrite existsb_exists. split.
  - intros (y & Hy & E). apply Z.eqb_eq in E. now subst.
  - intros H. exists x. split; [exact H | apply Z.eqb_refl].
Qed.

Lemma select_campaign_unique cid w c :
  NoDup (map campaign_id (campaigns w)) -> In c (campaigns w) ->
  campaign_id c = cid ->
  exists t, select_campaign cid w = (Returned (Some (c, t)), w).
Proof.
  intros H1 H2 <-. unfold select_campaign, gets.
  rewrite (single_key_unique campaign_id _ _ H1 H2). simpl. eauto.
Qed.


(** The window test on the hours and minutes that the handler reads.
    For an active campaign, when the minute of the day of the invocation
    lies outside the inclusive interval from the minute of
    [send_window_start] to the minute of [send_window_end], or when the
    weekday, numbered 1 = Monday .. 7 = Sunday, is not one of the
    campaign's [send_days], the dispatch of that campaign queues nothing
    (it returns 0) and leaves the whole state as it was. *)
Lemma dispatch_skips_outside_window_or_day env w c day sh sm eh em :
  NoDup (map campaign_id (campaigns w)) ->
  In c (campaigns w) ->
  campaign_status c = "active" ->
  getDay env = getDay_on day ->
  reads_as (send_window_start c) sh sm ->
  reads_as (send_window_end c) eh em ->
  minute_of_day env < sh * 60 + sm
  \/ eh * 60 + em < minute_of_day env
  \/ ~ In (weekday_number day) (send_days c) ->
  processCampaign env (campaign_id c) w = (Returned 0, w).
Proof.
  intros Hnd Hin Hst Hday Hs He Hout.
  destruct (select_campaign_unique _ w c Hnd Hin eq_refl) as [t Hsel].
  unfold processCampaign, bind. rewrite Hsel. rewrite Hst. cbn [String.eqb negb].
  change ("active" =? "active")%string with true. cbn [negb].
  rewrite (isWithinSendWindow_spec env _ _ _ _ _ _ Hs He).
  destruct ((sh * 60 + sm <=? minute_of_day env)
            && (minute_of_day env <=? eh * 60 + em))%bool eqn:Ew;
    [|reflexivity].
  cbn [negb]. apply andb_true_iff in Ew. destruct Ew as [E1 E2].
  apply Z.leb_le in E1, E2.
  destruct Hout as [Hout | [Hout | Hout]]; try lia.
  rewrite (today_spec env day Hday).
  destruct (existsb (Z.eqb (weekday_number day)) (send_days c)) eqn:Ed;
    [|reflexivity].
  apply includes_spec in Ed. contradiction.
Qed.


Example dispatch_skips_in_the_evening :
  processCampaign Sample.evening "camp-1" Sample.two_pending
  = (Returned 0, Sample.two_pending).
Proof.
  apply (dispatch_skips_outside_window_or_day Sample.evening
           Sample.two_pending (Sample.campaign 50 60) Tuesday 9 0 17 0).
  - repeat constructor. intros [].
  - left. reflexivity.
  - reflexivity.
  - reflexivity.
  - repeat split; try lia. left. reflexivity.
  - repeat split; try lia. left. reflexivity.
  - right. left. reflexivity.
Defined.

(* ================================================================== *)
(** * The job endpoints: the signature header                          *)
(* ================================================================== *)

Lemma gate_closed {Body : Type} env (request : JobRequest Body) :
  NODE_ENV env = "production" ->
  ((NODE_ENV env =? "production")%string
   && (Js.or_string (upstash_signature request) "" =? "")%string)%bool = true
  <-> (upstash_signature request = None \/ upstash_signature request = Some "").
Proof.
  intros Hp. rewrite Hp, String.eqb_refl. cbn [andb].
  destruct (upstash_signature request) as [s|]; cbn [Js.or_string].
  - destruct (String.eqb_spec s "") as [-> | Hs].
    + split; auto.
    + rewrite (proj2 (String.eqb_neq s "") Hs).
      split; [discriminate|]. intros [H | H]; [discriminate|].
      inversion H. contradiction.
  - split; auto.
Qed.

Lemma campaign_process_after_gate env campaignId w :
  let m :=
    (let campaignId := Js.or_string campaignId "" in
     campaignIds <-
       (if (campaignId =? "")%string then getActiveCampaignIds
        else ret [campaignId]) ;;
     totalQueued <- process_each env campaignIds 0 ;;
     ret (mkResponse 200
            (CampaignProcessed
               (Z.of_nat (List.length campaignIds)) totalQueued))) in
  status_code (fst (respond m internal_error w)) <> 401.
Proof.
  cbv zeta. unfold respond, bind.
  destruct (Js.or_string campaignId "" =? "")%string;
    unfold getActiveCampaignIds, gets, ret;
    match goal with
    | |- context [process_each ?e ?l ?n ?x] =>
        destruct (process_each e l n x) as [[q | e'] w']
    end; cbn; discriminate.
Qed.

Lemma campaign_process_401 env request w :
  NODE_ENV env = "production" ->
  status_code (fst (CampaignProcessRoute.POST env request w)) = 401
  <-> (upstash_signature request = None \/ upstash_signature request = Some "").
Proof.
  intros Hp. rewrite <- (gate_closed env request Hp).
  unfold CampaignProcessRoute.POST. cbv zeta.
  destruct ((NODE_ENV env =? "production")%string
            && (Js.or_string (upstash_signature request) "" =? "")%string)%bool.
  - split; reflexivity.
  - split; [|discriminate]. intros H. exfalso. revert H.
    destruct (json request) as [body|].
    + apply campaign_process_after_gate.
    + cbn. discriminate.
Qed.

Lemma email_send_401 process env request w :
  NODE_ENV env = "production" ->
  status_code (fst (EmailSendRoute.POST process env request w)) = 401
  <-> (upstash_signature request = None \/ upstash_signature request = Some "").
Proof.
  intros Hp. rewrite <- (gate_closed env request Hp).
  unfold EmailSendRoute.POST. cbv zeta.
  destruct ((NODE_ENV env =? "production")%string
            && (Js.or_string (upstash_signature request) "" =? "")%string)%bool.
  - split; reflexivity.
  - split; [|discriminate]. intros H. exfalso. revert H.
    unfold respond, bind, sendEmail, gets, modify, ret, throw, bind,
      update_campaign_lead, rpc, upsert_unsubscribe_ignore,
      incrementEmailCount, modify.
    destruct (json request) as [job|]; [|cbn; discriminate].
    destruct (single _) as [u|]; [cbn; discriminate|].
    destruct (resend_send env _) as [message | id]; cbn; discriminate.
Qed.

Lemma signature_value_ignored_campaign env body w s1 s2 :
  s1 <> "" -> s2 <> "" ->
  CampaignProcessRoute.POST env (mkJobRequest (Some s1) body) w
  = CampaignProcessRoute.POST env (mkJobRequest (Some s2) body) w.
Proof.
  intros H1 H2. unfold CampaignProcessRoute.POST.
  cbn [upstash_signature json Js.or_string].
  apply String.eqb_neq in H1, H2. rewrite H1, H2. rewrite H1, H2.
  rewrite !andb_false_r. reflexivity.
Qed.

Lemma signature_value_ignored_send process env body w s1 s2 :
  s1 <> "" -> s2 <> "" ->
  EmailSendRoute.POST process env (mkJobRequest (Some s1) body) w
  = EmailSendRoute.POST process env (mkJobRequest (Some s2) body) w.
Proof.
  intros H1 H2. unfold EmailSendRoute.POST.
  cbn [upstash_signature json Js.or_string].
  apply String.eqb_neq in H1, H2. rewrite H1, H2. rewrite H1, H2.
  rewrite !andb_false_r. reflexivity.
Qed.


(* ================================================================== *)
(** * The send job and the unsubscribe store                           *)
(* ================================================================== *)

Lemma assign_keeps_id u r : cl_id (assign u r) = cl_id r.
Proof. destruct r, u; reflexivity. Qed.

Lemma apply_updates_keeps_id us : forall r, cl_id (apply_updates us r) = cl_id r.
Proof.
  unfold apply_updates. induction us as [|u us IH]; intros r; [reflexivity|].
  simpl. rewrite IH. apply assign_keeps_id.
Qed.

Lemma campaign_lead_row_updated id us w w' :
  campaign_leads w' =
    map (fun r => if (cl_id r =? id)%string then apply_updates us r else r)
        (campaign_leads w) ->
  campaign_lead_row id w' = option_map (apply_updates us) (campaign_lead_row id w).
Proof.
  intros H. unfold campaign_lead_row. rewrite H.
  rewrite (find_map_key cl_id).
  - destruct (find _ (campaign_leads w)) as [r|] eqn:E; [|reflexivity].
    apply find_some in E. destruct E as [_ E]. simpl. now rewrite E.
  - intros y. destruct (cl_id y =? id)%string; [apply apply_updates_keeps_id | reflexivity].
Qed.


(** C5.  When the unsubscribe store holds a row for the destination
    address of a send job, the handler does not call the mail provider;
    and once the request has passed the signature check it marks the
    CampaignLead of the job "skipped", whatever its status was, answers
    that the address is unsubscribed, and does nothing else: the state
    afterwards differs from the one before in that row only. *)
Theorem unsubscribed_is_skipped process env request job w u :
  json request = Some job ->
  NoDup (map un_email (unsubscribes w)) ->
  In u (unsubscribes w) ->
  un_email u = job_to job ->
  resend_calls (snd (EmailSendRoute.POST process env request w))
  = resend_calls w
  /\ (admitted env request ->
      fst (EmailSendRoute.POST process env request w)
      = mkResponse 200 (SendSkipped "unsubscribed")
      /\ snd (EmailSendRoute.POST process env request w)
         = set_campaign_leads
             (map (fun r =>
                     if (cl_id r =? job_campaignLeadId job)%string
                     then apply_updates
                            [ status_is "skipped";
                              error_message_is "Email is unsubscribed" ] r
                     else r)
                  (campaign_leads w)) w
      /\ forall r, campaign_lead_row (job_campaignLeadId job) w = Some r ->
           recipient_status (job_campaignLeadId job)
             (snd (EmailSendRoute.POST process env request w))
           = Some "skipped").
Proof.
  intros Hjob Hnd Hin Hto.
  pose proof (single_key_unique un_email _ _ Hnd Hin) as Hs.
  rewrite Hto in Hs.
  unfold EmailSendRoute.POST. cbv zeta. rewrite Hjob.
  destruct ((NODE_ENV env =? "production")%string
            && (Js.or_string (upstash_signature request) "" =? "")%string)%bool
    eqn:Egate.
  - split; [reflexivity|]. intros Hadm. exfalso.
    apply andb_true_iff in Egate. destruct Egate as [E1 E2].
    apply String.eqb_eq in E1, E2. destruct Hadm as [Hn | (s & Hsig & Hne)].
    + contradiction.
    + rewrite Hsig in E2. cbn in E2.
      destruct (String.eqb_spec s ""); [contradiction | contradiction].
  - unfold respond, bind, gets. rewrite Hs.
    unfold update_campaign_lead, modify, ret. cbn [fst snd].
    split; [reflexivity|]. intros _. split; [reflexivity|].
    split; [reflexivity|].
    intros r Hr. unfold recipient_status.
    erewrite campaign_lead_row_updated; [|reflexivity].
    rewrite Hr. cbn [option_map]. f_equal. now destruct r.
Qed.

Lemma unsubscribed_is_skipped_witness :
  let w :=
    Sample.world [Sample.campaign 50 60]
      [Sample.recipient "cl-1" "lead-1" "queued" None]
      [mkUnsubscribe "ana@acme.io" "lead-1" "camp-1" "tok" "link"] [] in
  let request := Sample.signed (Sample.job_for "cl-1" "ana@acme.io") in
  resend_calls
    (snd (EmailSendRoute.POST (fun html _ _ _ => html) Sample.env request w))
  = []
  /\ recipient_status "cl-1"
       (snd (EmailSendRoute.POST (fun html _ _ _ => html) Sample.env request w))
     = Some "skipped".
Proof.
  cbv zeta.
  pose proof (unsubscribed_is_skipped (fun html _ _ _ => html) Sample.env
                (Sample.signed (Sample.job_for "cl-1" "ana@acme.io"))
                (Sample.job_for "cl-1" "ana@acme.io")
                (Sample.world [Sample.campaign 50 60]
                   [Sample.recipient "cl-1" "lead-1" "queued" None]
                   [mkUnsubscribe "ana@acme.io" "lead-1" "camp-1" "tok" "link"]
                   [])
                (mkUnsubscribe "ana@acme.io" "lead-1" "camp-1" "tok" "link")
                eq_refl) as H.
  destruct H as [H1 H2].
  - repeat constructor. intros [].
  - left. reflexivity.
  - reflexivity.
  - split; [exact H1|].
    destruct H2 as (_ & _ & H2).
    + right. exists "v1-signature". split; [reflexivity | discriminate].
    + apply (H2 (Sample.recipient "cl-1" "lead-1" "queued" None)).
      reflexivity.
Defined.

(* ================================================================== *)
(** * The dispatch pipeline: the effective cap                         *)
(* ================================================================== *)

Lemma effectiveLimit_spec c w :
  effectiveLimit c (single (active_warmups w))
  = Z.min (daily_limit c) (warmup_cap w).
Proof.
  unfold effectiveLimit, warmup_cap.
  destruct (active_warmups w) as [|d [|d' l]]; reflexivity.
Qed.

(** What the loop leaves alone. *)
Lemma queue_emails_frame env c t d : forall rows i q w,
  let w' := snd (queue_emails env c t d i rows q w) in
  requests w' = requests w /\ campaigns w' = campaigns w
  /\ resend_calls w' = resend_calls w.
Proof.
  induction rows as [|[r [l|]] rows IH]; intros i q w; cbn [queue_emails].
  - cbn. auto.
  - destruct t as [t|]; [|cbn; auto].
    unfold bind at 1. unfold queueEmailSend, publishJSON.
    destruct (publish_rejects env _); [cbn; auto|].
    unfold modify at 1. unfold bind at 1.
    unfold update_campaign_lead, modify at 1.
    match goal with
    | |- context [queue_emails ?e ?c ?t ?d ?i ?rs ?q ?x] =>
        specialize (IH i q x)
    end.
    cbv zeta in IH. cbn [requests campaigns resend_calls set_campaign_leads set_qstash_messages] in IH.
    exact IH.
  - apply IH.
Qed.

Lemma gates_pass env c :
  in_window env c -> on_send_day env c ->
  isWithinSendWindow env (send_window_start c) (send_window_end c) = true
  /\ existsb (Z.eqb (today env)) (send_days c) = true.
Proof.
  intros (sh & sm & eh & em & Hs & He & Hin) (day & Hd & Hday). split.
  - rewrite (isWithinSendWindow_spec env _ _ _ _ _ _ Hs He).
    apply andb_true_iff. split; apply Z.leb_le; lia.
  - rewrite (today_spec env day Hd). now apply includes_spec.
Qed.


(** The fallback of the cap.  With one active warm-up row whose limit
    is 0 the cap handed to the rate limiter and to the query is 50, not
    [min(50, 0)]; and with two active warm-up rows, at 10 and at 20, it
    is 50 as well, the minimum with neither of the two limits. *)
Lemma cap_with_zero_or_several_warmups :
  (active_warmups Sample.zero_warmup
   = [Sample.warmup "dw-1" 0 1000 0 0 0 0]
   /\ requests (snd (processCampaign Sample.env "camp-1" Sample.zero_warmup))
      = [RateLimitCheck 50; SelectPending "camp-1" 50]
   /\ ~ In (RateLimitCheck (Z.min 50 0))
          (requests
             (snd (processCampaign Sample.env "camp-1" Sample.zero_warmup))))
  /\ (active_warmups Sample.two_warmups
      = [Sample.warmup "dw-1" 10 1000 0 0 0 0;
         Sample.warmup "dw-2" 20 1000 0 0 0 0]
      /\ requests
           (snd (processCampaign Sample.env "camp-1" Sample.two_warmups))
         = [RateLimitCheck 50; SelectPending "camp-1" 50]).
Proof.
  repeat split.
  intros [H | [H | []]]; discriminate H.
Qed.

(** The cap of a dispatch.  For an active campaign that the pipeline
    processes (the invocation falls into its send window and on one of
    its weekdays), the cap handed to the rate limiter, and, when the
    limiter admits, used as the row limit of the query for pending
    recipients, is [min(daily_limit, L)]: [L] is the
    [current_daily_limit] of the active warm-up row when exactly one row
    is active and its limit is not 0, and 50 in every other case (no
    active row, several active rows, a limit of 0). *)
Lemma cap_of_dispatch env w c :
  NoDup (map campaign_id (campaigns w)) ->
  In c (campaigns w) ->
  campaign_status c = "active" ->
  in_window env c ->
  on_send_day env c ->
  let cap := Z.min (daily_limit c) (warmup_cap w) in
  requests (snd (processCampaign env (campaign_id c) w))
  = (requests w
     ++ RateLimitCheck cap
        :: (if rate_limiter_admits cap w
            then [SelectPending (campaign_id c) cap] else []))%list
  /\ (forall d, active_warmups w = [d] -> current_daily_limit d <> 0 ->
                cap = Z.min (daily_limit c) (current_daily_limit d))
  /\ (active_warmups w = [] -> cap = Z.min (daily_limit c) 50)
  /\ (forall d, daily_limit c = 50 -> active_warmups w = [d] ->
                current_daily_limit d = 10 -> cap = 10).
Proof.
  intros Hnd Hin Hst Hw Hd cap. split; [|split; [|split]].
  2:{ intros d0 Ha Hz. subst cap. unfold warmup_cap. rewrite Ha.
      apply Z.eqb_neq in Hz. now rewrite Hz. }
  2:{ intros Ha. subst cap. unfold warmup_cap. now rewrite Ha. }
  2:{ intros d0 H50 Ha H10. subst cap. unfold warmup_cap.
      rewrite Ha, H50, H10. reflexivity. }
  destruct (select_campaign_unique _ w c Hnd Hin eq_refl) as [t Hsel].
  destruct (gates_pass env c Hw Hd) as [G1 G2].
  unfold processCampaign, bind at 1. rewrite Hsel, Hst, G1, G2.
  change ("active" =? "active")%string with true. cbn [negb].
  unfold bind at 1. unfold select_active_warmup, gets at 1.
  fold (active_warmups w). rewrite effectiveLimit_spec. fold cap.
  unfold bind at 1, canSendEmail, bind, modify, gets, ret.
  cbn [email_daily_count email_hourly_count set_requests].
  fold (rate_limiter_admits cap w).
  destruct (rate_limiter_admits cap w); cbn [negb]; [|reflexivity].
  unfold select_pending, bind, modify, gets.
  cbn [campaign_leads set_requests requests].
  match goal with
  | |- context [map ?f (firstn ?n ?l)] => destruct (map f (firstn n l)) as [|row rows]
  end.
  - unfold count_pending, gets, mark_completed, modify, ret.
    cbn [campaign_leads].
    destruct (_ =? 0); cbn; now rewrite <- app_assoc.
  - match goal with
    | |- context [queue_emails ?e ?c ?t ?d ?i ?rs ?q ?x] =>
        destruct (queue_emails_frame e c t d rs i q x) as (E & _)
    end.
    rewrite E. cbn. now rewrite <- app_assoc.
Qed.


Example cap_of_a_single_warmup :
  requests (snd (processCampaign Sample.env "camp-1" Sample.warming_up))
  = [RateLimitCheck 10; SelectPending "camp-1" 10].
Proof.
  apply (cap_of_dispatch Sample.env Sample.warming_up
           (Sample.campaign 50 60)).
  - repeat constructor. intros [].
  - left. reflexivity.
  - reflexivity.
  - exists 9, 0, 17, 0. repeat split; try lia; try (left; reflexivity).
    + vm_compute. discriminate.
    + vm_compute. discriminate.
  - exists Tuesday. split; [reflexivity|]. right. left. reflexivity.
Defined.

(* ================================================================== *)
(** * The dispatch pipeline: the per-recipient loop                    *)
(* ================================================================== *)

Lemma queueEmailSend_delay env job delay w :
  match queueEmailSend env job (Some delay) None w with
  | (Returned _, w') =>
      exists m, qstash_messages w' = (qstash_messages w ++ [m])%list
                /\ pub_body m = job /\ effective_delay m = delay
                /\ campaign_leads w' = campaign_leads w
  | (Thrown _, w') => w' = w
  end.
Proof.
  unfold queueEmailSend, publishJSON.
  destruct (publish_rejects env _); [reflexivity|].
  unfold modify. eexists. split; [reflexivity|].
  split; [reflexivity|]. split; [|reflexivity].
  unfold effective_delay, publishOptions. cbn [pub_delay].
  destruct (Z.eqb_spec delay 0); [now subst | reflexivity].
Qed.

Lemma queue_emails_step env c t d i r l rows q w :
  queue_emails env c (Some t) d i ((r, Some l) :: rows) q w
  = match queueEmailSend env
            (build_job c r l (personalizeTemplate t l)) (Some (i * d)) None w
    with
    | (Returned _, w1) =>
        queue_emails env c (Some t) d (i + 1) rows (q + 1)
          (mark_queued env t r l w1)
    | (Thrown e, w1) => (Thrown e, w1)
    end.
Proof.
  cbn [queue_emails]. unfold bind at 1.
  destruct (queueEmailSend _ _ _ _ _) as [[[]|e] w1]; reflexivity.
Qed.

Lemma queue_emails_messages env c t d : forall rows i q w,
  exists added,
    qstash_messages (snd (queue_emails env c t d i rows q w))
    = (qstash_messages w ++ added)%list
    /\ Forall (for_position d rows i) added
    /\ (0 < d -> 0 <= i ->
        StronglySorted Z.lt (map effective_delay added)
        /\ Forall (fun m => i * d <= effective_delay m) added)
    /\ (forall n, fst (queue_emails env c t d i rows q w) = Returned n ->
                  n = q + Z.of_nat (List.length added)).
Proof.
  induction rows as [|[r [l|]] rows IH]; intros i q w.
  - exists []. cbn. rewrite app_nil_r. repeat split; auto; try constructor.
    intros n H. inversion H. lia.
  - destruct t as [t|].
    2:{ exists []. cbn. rewrite app_nil_r. repeat split; auto; try constructor.
        intros n H. discriminate H. }
    rewrite queue_emails_step.
    match goal with
    | |- context [queueEmailSend ?e ?j (Some ?dl) None ?x] =>
        pose proof (queueEmailSend_delay e j dl x) as Hq;
        destruct (queueEmailSend e j (Some dl) None x) as [[[]|err] w1]
    end.
    2:{ subst w1. exists []. cbn. rewrite app_nil_r.
        repeat split; auto; try constructor. intros n H. discriminate H. }
    destruct Hq as (m & Hm & Hbody & Hdelay & Hcl).
    destruct (IH (i + 1) (q + 1) (mark_queued env t r l w1))
      as (added & Ha & Hpos & Hsort & Hn).
    exists (m :: added). repeat split.
    + rewrite Ha. cbn [qstash_messages mark_queued set_campaign_leads].
      rewrite Hm. now rewrite <- app_assoc.
    + constructor.
      * exists 0%nat, r, l. repeat split.
        -- rewrite Hbody. reflexivity.
        -- rewrite Hdelay. cbn. lia.
      * eapply Forall_impl; [|exact Hpos].
        intros m' (k & r' & l' & H1 & H2 & H3).
        exists (S k), r', l'. repeat split; auto. rewrite H3. lia.
    + destruct (Hsort H ltac:(lia)) as [Hs Hb]. cbn [map]. constructor; [exact Hs|].
      rewrite Forall_map. eapply Forall_impl; [|exact Hb].
      intros m' Hm'. cbn beta in Hm'. rewrite Hdelay. nia.
    + destruct (Hsort H ltac:(lia)) as [Hs Hb]. constructor.
      * rewrite Hdelay. lia.
      * eapply Forall_impl; [|exact Hb]. intros m' Hm'. cbn beta in Hm'. nia.
    + intros n Hres. specialize (Hn n Hres). cbn [List.length]. lia.
  - cbn [queue_emails].
    destruct (IH (i + 1) q w) as (added & Ha & Hpos & Hsort & Hn).
    exists added. repeat split; auto.
    + eapply Forall_impl; [|exact Hpos].
      intros m' (k & r' & l' & H1 & H2 & H3).
      exists (S k), r', l'. repeat split; auto. rewrite H3. lia.
    + apply Hsort; lia.
    + destruct (Hsort H ltac:(lia)) as [Hs Hb].
      eapply Forall_impl; [|exact Hb]. intros m' Hm'. cbn beta in Hm'. nia.
Qed.


(** An exception of the enqueue call leaves the loop at once: the row
    is not written and no later row is visited. *)
Lemma enqueue_failure_leaves_loop env c t d i r l rest q w :
  publish_rejects env
    (publishOptions env (build_job c r l (personalizeTemplate t l))
       (Some (i * d)) None) = true ->
  queue_emails env c (Some t) d i ((r, Some l) :: rest) q w
  = (Thrown "QStash publish failed", w).
Proof.
  intros H. rewrite queue_emails_step.
  unfold queueEmailSend, publishJSON. rewrite H. reflexivity.
Qed.

(** C2 (evaluation at the failing input).  Two recipients are pending
    and the queue refuses the message of the first: the exception is not
    caught in the loop, the endpoint answers 500 without a queued count,
    and the second recipient, whose message the queue would accept, is
    neither enqueued nor taken out of "pending". *)
Lemma enqueue_failure_aborts_batch :
  let env := Sample.env_rejecting "cl-1" in
  let result :=
    CampaignProcessRoute.POST env (Sample.signed (Some "camp-1"))
      Sample.two_pending in
  fst result = mkResponse 500 (ErrorBody "Internal server error")
  /\ recipient_status "cl-1" (snd result) = Some "pending"
  /\ recipient_status "cl-2" (snd result) = Some "pending"
  /\ qstash_messages (snd result) = []
  /\ (forall m, job_campaignLeadId (pub_body m) = "cl-2" ->
                publish_rejects env m = false).
Proof.
  cbv zeta. repeat split.
  intros m H. cbn. rewrite H. reflexivity.
Qed.

Lemma no_messages_added w w' (rows : list CampaignLead) (d : Z) (res : outcome Z) :
  qstash_messages w' = qstash_messages w ->
  res = Returned 0 ->
  exists added,
    qstash_messages w' = (qstash_messages w ++ added)%list
    /\ (forall m, In m added ->
          exists (i : nat) r, nth_error rows i = Some r
            /\ job_campaignLeadId (pub_body m) = cl_id r
            /\ effective_delay m = Z.of_nat i * d)
    /\ (0 < d -> StronglySorted Z.lt (map effective_delay added))
    /\ (forall n, res = Returned n -> n = Z.of_nat (List.length added)).
Proof.
  intros H ->. exists []. rewrite app_nil_r. repeat split; auto.
  - intros m [].
  - intros _. constructor.
  - intros n E. inversion E. reflexivity.
Qed.


(** A campaign row written by hand with [delay_between_sends] 0 (the
    form of the dashboard admits 30 to 3600): the second recipient of
    the batch is enqueued with a delay of 60 seconds, not of [1 * 0]. *)
Example delays_of_a_campaign_without_spacing :
  map delay_between_sends (campaigns Sample.no_spacing) = [0]
  /\ map (fun m => (job_campaignLeadId (pub_body m), effective_delay m))
       (qstash_messages
          (snd (processCampaign Sample.env "camp-1" Sample.no_spacing)))
     = [("cl-1", 0); ("cl-2", 60)].
Proof. split; reflexivity. Qed.

(** The messages of one dispatch, whatever the gates and the queue
    answer: every message enqueued is the one of a fetched recipient,
    with a delay of [i * d] seconds for the zero-based fetch position
    [i], where [d] is [delay_between_sends], or 60 when that is 0; when
    [d] is positive the delays, in the order of enqueueing, are strictly
    increasing; and the count the dispatch returns is the number of
    messages it enqueued. *)
Lemma batch_delays env w c :
  NoDup (map campaign_id (campaigns w)) ->
  In c (campaigns w) ->
  let rows :=
    fetched (campaign_id c) (Z.min (daily_limit c) (warmup_cap w)) w in
  let d := send_spacing c in
  exists added,
    qstash_messages (snd (processCampaign env (campaign_id c) w))
    = (qstash_messages w ++ added)%list
    /\ (forall m, In m added ->
          exists (i : nat) r, nth_error rows i = Some r
            /\ job_campaignLeadId (pub_body m) = cl_id r
            /\ effective_delay m = Z.of_nat i * d)
    /\ (0 < d -> StronglySorted Z.lt (map effective_delay added))
    /\ (forall n, fst (processCampaign env (campaign_id c) w) = Returned n ->
                  n = Z.of_nat (List.length added)).
Proof.
  intros Hnd Hin rows d.
  destruct (select_campaign_unique _ w c Hnd Hin eq_refl) as [t Hsel].
  remember (processCampaign env (campaign_id c) w) as result eqn:Er.
  unfold processCampaign in Er. unfold bind at 1 in Er. rewrite Hsel in Er.
  destruct (negb (campaign_status c =? "active")%string);
    [subst result; apply no_messages_added; reflexivity|].
  destruct (negb (isWithinSendWindow env _ _));
    [subst result; apply no_messages_added; reflexivity|].
  destruct (negb (existsb _ _));
    [subst result; apply no_messages_added; reflexivity|].
  unfold bind at 1 in Er. unfold select_active_warmup, gets at 1 in Er.
  fold (active_warmups w) in Er. rewrite effectiveLimit_spec in Er.
  unfold bind at 1, canSendEmail, bind, modify, gets, ret in Er.
  cbn [email_daily_count email_hourly_count set_requests] in Er.
  destruct (negb _);
    [subst result; apply no_messages_added; reflexivity|].
  unfold select_pending, bind, modify, gets in Er.
  cbn [campaign_leads set_requests requests] in Er.
  fold (fetched (campaign_id c) (Z.min (daily_limit c) (warmup_cap w)) w)
    in Er.
  fold rows in Er.
  match type of Er with
  | context [map ?f rows] => set (joined := map f rows) in Er
  end.
  destruct joined as [|row rest] eqn:Ej.
  - unfold count_pending, gets, mark_completed, modify, ret in Er.
    cbn [campaign_leads] in Er.
    destruct (_ =? 0); subst result; apply no_messages_added; reflexivity.
  - rewrite <- Ej in Er.
    match type of Er with
    | context [queue_emails ?e ?c ?t ?dd ?i ?rs ?q ?x] =>
        destruct (queue_emails_messages e c t dd rs i q x)
          as (added & Ha & Hpos & Hsort & Hn)
    end.
    subst result.
    exists added. repeat split.
    + rewrite Ha. reflexivity.
    + intros m Hm. rewrite Forall_forall in Hpos.
      destruct (Hpos m Hm) as (k & r & l & H1 & H2 & H3).
      exists k, r. split; [|split].
      * subst joined. rewrite nth_error_map in H1.
        destruct (nth_error rows k) as [r'|]; [|discriminate].
        cbn in H1. now inversion H1.
      * exact H2.
      * rewrite H3. reflexivity.
    + intros Hd. apply Hsort; [exact Hd | lia].
    + intros n Hres. rewrite (Hn n Hres). lia.
Qed.

Example batch_delays_of_two_recipients :
  exists added,
    qstash_messages (snd (processCampaign Sample.env "camp-1" Sample.two_pending))
    = added
    /\ map effective_delay added = [0; 60]
    /\ StronglySorted Z.lt (map effective_delay added).
Proof.
  destruct (batch_delays Sample.env Sample.two_pending
              (Sample.campaign 50 60)) as (added & H1 & _ & H3 & _).
  - repeat constructor. intros [].
  - left. reflexivity.
  - exists added. split; [exact H1|]. split.
    + assert (E : added
                  = qstash_messages
                      (snd (processCampaign Sample.env "camp-1"
                              Sample.two_pending)))
        by (symmetry; exact H1).
      rewrite E. reflexivity.
    + apply H3. reflexivity.
Defined.

(* ================================================================== *)
(** * Warm-up progression                                              *)
(* ================================================================== *)

Import WarmupProgressRoute.

Example first_run_reaches_the_first_limit :
  getExpectedLimit 0 1000 = 10 /\ getExpectedLimit 1 1000 = 10.
Proof. split; reflexivity. Qed.

Lemma calculateDaysSinceStart_spec env r :
  calculateDaysSinceStart env (warmup_started_at r) = elapsed_days env r.
Proof.
  unfold calculateDaysSinceStart, elapsed_days, Js.ceil_div.
  change (1000 * 60 * 60 * 24) with 86400000.
  set (ms := Z.abs (now env - warmup_started_at r)).
  pose proof (Z.div_mod (- ms) 86400000 ltac:(lia)).
  pose proof (Z.mod_pos_bound (- ms) 86400000 ltac:(lia)).
  pose proof (Z.div_mod (ms + 86399999) 86400000 ltac:(lia)).
  pose proof (Z.mod_pos_bound (ms + 86399999) 86400000 ltac:(lia)).
  lia.
Qed.

Lemma elapsed_days_nonneg env r : 0 <= elapsed_days env r.
Proof.
  unfold elapsed_days. apply Z.div_pos; lia.
Qed.

Lemma getExpectedLimit_spec day target :
  getExpectedLimit day target
  = if 1 <=? day then Z.min (table_limit day) target else 10.
Proof.
  unfold getExpectedLimit, table_limit, WARMUP_SCHEDULE.
  cbn [rev app find fold_left fst snd].
  repeat match goal with
         | |- context [?a <=? day] =>
             destruct (Z.leb_spec a day); try lia; try reflexivity
         end.
Qed.

Lemma isHealthy_spec r :
  isHealthy r = false <-> unhealthy r.
Proof.
  unfold isHealthy, unhealthy, rate, MIN_EMAILS_FOR_HEALTH_CHECK,
    MIN_DELIVERABILITY_RATE, MAX_BOUNCE_RATE.
  destruct (Z.leb_spec 50 (total_sent r)) as [Hs | Hs].
  - destruct (total_sent r) as [|p|p] eqn:Es; try lia.
    rewrite andb_false_iff.
    split.
    + intros [H | H]; (split; [lia|]).
      * left. apply Qnot_le_lt. intros Hle. 
        assert (Qle_bool 95 (inject_Z (total_delivered r) / inject_Z (Z.pos p) * 100) = true).
        { apply Qle_bool_iff. revert Hle. unfold Qle, Qdiv, Qmult, Qinv, inject_Z. cbn. lia. }
        congruence.
      * right. apply Qnot_le_lt. intros Hle.
        assert (Qle_bool (inject_Z (total_bounced r) / inject_Z (Z.pos p) * 100) 2 = true).
        { apply Qle_bool_iff. revert Hle. unfold Qle, Qdiv, Qmult, Qinv, inject_Z. cbn. lia. }
        congruence.
    + intros [_ [H | H]].
      * left. apply not_true_is_false. intros Hb. apply Qle_bool_iff in Hb.
        apply Qlt_not_le in H. apply H. revert Hb.
        unfold Qle, Qdiv, Qmult, Qinv, inject_Z. cbn. lia.
      * right. apply not_true_is_false. intros Hb. apply Qle_bool_iff in Hb.
        apply Qlt_not_le in H. apply H. revert Hb.
        unfold Qle, Qdiv, Qmult, Qinv, inject_Z. cbn. lia.
  - split; [discriminate|]. intros [H _]. lia.
Qed.

Lemma write_keeps_id u r : dw_id (write u r) = dw_id r.
Proof. reflexivity. Qed.

Lemma same_key_same_row {A} (key : A -> string) (l : list A) x y :
  NoDup (map key l) -> In x l -> In y l -> key x = key y -> x = y.
Proof.
  intros Hnd Hx Hy E.
  pose proof (find_key_unique key l x Hnd Hx) as Fx.
  pose proof (find_key_unique key l y Hnd Hy) as Fy.
  rewrite E in Fx. rewrite Fx in Fy. now inversion Fy.
Qed.

(** The loop of the handler writes, for each row of its snapshot, the
    decision taken on that row. *)
Lemma progress_each_rows env : forall acts n w,
  NoDup (map dw_id (domain_warmup w)) ->
  NoDup (map dw_id acts) ->
  incl acts (domain_warmup w) ->
  domain_warmup (snd (progress_each env acts n w))
  = map (fun x => if existsb (fun a => (dw_id a =? dw_id x)%string) acts
                  then write (decide env x) x else x)
        (domain_warmup w)
  /\ fst (progress_each env acts n w)
     = Returned (n + Z.of_nat (List.length acts)).
Proof.
  induction acts as [|a acts IH]; intros n w Hnd Hacts Hincl.
  - cbn. split; [now rewrite map_id | f_equal; lia].
  - cbn [progress_each]. unfold bind, update_warmup, modify.
    set (w1 := set_domain_warmup _ w).
    assert (Hids : map dw_id (domain_warmup w1) = map dw_id (domain_warmup w)).
    { subst w1. cbn [domain_warmup set_domain_warmup].
      apply (map_key_preserved dw_id).
      intros y. destruct (dw_id y =? dw_id a)%string; reflexivity. }
    inversion Hacts as [|? ? Ha Hacts']; subst.
    assert (Hin_a : In a (domain_warmup w)) by (apply Hincl; now left).
    destruct (IH (n + 1) w1) as [IH1 IH2].
    + now rewrite Hids.
    + exact Hacts'.
    + intros x Hx. subst w1. cbn [domain_warmup set_domain_warmup].
      apply in_map_iff. exists x. split.
      * destruct (String.eqb_spec (dw_id x) (dw_id a)) as [E | E];
          [|reflexivity].
        exfalso. apply Ha. rewrite <- E. now apply in_map.
      * apply Hincl. now right.
    + split.
      2:{ rewrite IH2. f_equal. cbn [List.length]. lia. }
      rewrite IH1. subst w1. cbn [domain_warmup set_domain_warmup].
      rewrite map_map. apply map_ext_in. intros x Hx.
      cbn [existsb].
      destruct (String.eqb_spec (dw_id x) (dw_id a)) as [E | E].
      * assert (x = a) by (apply (same_key_same_row dw_id (domain_warmup w)); assumption).
        subst x. rewrite String.eqb_refl. cbn [orb].
        rewrite write_keeps_id.
        assert (Hno : existsb (fun a0 => (dw_id a0 =? dw_id a)%string) acts = false).
        { apply not_true_is_false. intros Hex.
          apply existsb_exists in Hex. destruct Hex as (z & Hz & Ez).
          apply String.eqb_eq in Ez. apply Ha. rewrite <- Ez. now apply in_map. }
        now rewrite Hno.
      * assert (Hne : (dw_id a =? dw_id x)%string = false).
        { apply String.eqb_neq. congruence. }
        rewrite Hne. reflexivity.
Qed.

Lemma NoDup_map_filter {A B} (f : A -> B) (p : A -> bool) (l : list A) :
  NoDup (map f l) -> NoDup (map f (filter p l)).
Proof.
  induction l as [|x l IH]; intros H; [constructor|].
  inversion H as [|? ? Hx Hl]; subst. simpl.
  destruct (p x); [|now apply IH].
  simpl. constructor; [|now apply IH].
  intros Hin. apply Hx. apply in_map_iff in Hin.
  destruct Hin as (y & Ey & Hy). apply filter_In in Hy.
  apply in_map_iff. exists y. tauto.
Qed.

Lemma handler_row env w r :
  NoDup (map dw_id (domain_warmup w)) ->
  In r (domain_warmup w) ->
  dw_status r = "active" ->
  warmup_row (dw_id r) (snd (handler env w)) = Some (write (decide env r) r).
Proof.
  intros Hnd Hin Hst.
  assert (Hact : In r (active_warmups w)).
  { apply filter_In. split; [exact Hin|]. rewrite Hst. reflexivity. }
  destruct (progress_each_rows env (active_warmups w) 0 w Hnd) as [H1 H2].
  { now apply NoDup_map_filter. }
  { intros x Hx. apply filter_In in Hx. tauto. }
  unfold handler, respond, bind, gets.
  fold (active_warmups w).
  destruct (active_warmups w) as [|a acts] eqn:Ea; [contradiction|].
  assert (Hex : existsb (fun a0 => (dw_id a0 =? dw_id r)%string)
                  (a :: acts) = true).
  { apply existsb_exists. exists r. split; [exact Hact|].
    apply String.eqb_refl. }
  destruct (progress_each env (a :: acts) 0 w) as [[p | e] w'] eqn:Ep;
    [|discriminate H2].
  unfold ret. cbn [snd]. cbn [snd] in H1.
  unfold warmup_row. rewrite H1.
  rewrite (find_map_key dw_id).
  - rewrite (find_key_unique dw_id _ _ Hnd Hin). cbn [option_map].
    now rewrite Hex.
  - intros y.
    match goal with
    | |- context [if ?b then _ else _] => destruct b
    end; reflexivity.
Qed.


(** The fall-through of [getExpectedLimit] on a row written by hand.
    For a warm-up whose elapsed day is 0 the limit derived for the day
    is 10 whatever the target: a healthy domain at limit 3 of target 5
    would be raised to 10, above its target.  No row of the application
    is in that state: the dashboard inserts rows at limit 10, and the
    job never lowers the limit of a row below its target. *)
Lemma limit_raised_above_target_on_day_zero :
  let r := Sample.warmup "dw-1" 3 5 1767090600000 0 0 0 in
  elapsed_days Sample.env r = 0
  /\ Z.min (table_limit 0) (target_daily_limit r) = 5
  /\ option_map current_daily_limit
       (warmup_row "dw-1"
          (snd (handler Sample.env Sample.just_started)))
     = Some 10
  /\ option_map dw_status
       (warmup_row "dw-1"
          (snd (handler Sample.env Sample.just_started)))
     = Some "active".
Proof. repeat split. Qed.

(** The decision of the daily job on a row, whatever the row holds.
    For every warm-up row that is active when the job runs, the row
    afterwards carries the recomputed day and health flag, and its
    status and limit follow this precedence, first match first:
    unhealthy (at least 50 sent, and delivered/sent below 95 % or
    bounced/sent above 2 %): status "paused", limit unchanged; else limit
    already at or above the target: status "completed"; else the limit
    derived for the elapsed day above the current limit: the limit is
    raised to it; else nothing changes.  The limit derived for the
    elapsed day is, from day 1 on, the limit of the schedule entry with
    the greatest day not above it, capped at the target; on day 0 it is
    the flat 10. *)
Lemma warmup_decision env w r :
  NoDup (map dw_id (domain_warmup w)) ->
  In r (domain_warmup w) ->
  dw_status r = "active" ->
  let day := elapsed_days env r in
  let expected := getExpectedLimit day (target_daily_limit r) in
  exists r',
    warmup_row (dw_id r) (snd (handler env w)) = Some r'
    /\ warmup_day r' = day
    /\ (is_healthy r' = false <-> unhealthy r)
    /\ (unhealthy r ->
        dw_status r' = "paused"
        /\ current_daily_limit r' = current_daily_limit r)
    /\ (~ unhealthy r ->
        target_daily_limit r <= current_daily_limit r ->
        dw_status r' = "completed"
        /\ current_daily_limit r' = target_daily_limit r)
    /\ (~ unhealthy r ->
        current_daily_limit r < target_daily_limit r ->
        current_daily_limit r < expected ->
        dw_status r' = "active" /\ current_daily_limit r' = expected)
    /\ (~ unhealthy r ->
        current_daily_limit r < target_daily_limit r ->
        expected <= current_daily_limit r ->
        dw_status r' = "active"
        /\ current_daily_limit r' = current_daily_limit r)
    /\ expected
       = (if 1 <=? day then Z.min (table_limit day) (target_daily_limit r)
          else 10).
Proof.
  intros Hnd Hin Hst day expected.
  exists (write (decide env r) r).
  split; [now apply handler_row|].
  unfold decide. rewrite calculateDaysSinceStart_spec.
  fold day. fold expected.
  pose proof (isHealthy_spec r) as Hh.
  destruct (isHealthy r) eqn:Eh; cbn [negb].
  - assert (Hnot : ~ unhealthy r).
    { intros Hu. apply Hh in Hu. discriminate. }
    assert (Hh' : false = false <-> unhealthy r -> False) by tauto.
    destruct (Z.leb_spec (target_daily_limit r) (current_daily_limit r));
      [|destruct (Z.ltb_spec (current_daily_limit r) expected)];
      cbn [write warmup_day is_healthy dw_status current_daily_limit
           new_warmup_day new_current_daily_limit new_is_healthy new_status];
      rewrite ?Hst;
      (split; [reflexivity|]);
      (split; [split; [discriminate | intros Hu; contradiction]|]);
      (split; [intros Hu; contradiction|]);
      (split; [intros _ ?; try lia; split; reflexivity|]);
      (split; [intros _ ? ?; try lia; split; reflexivity|]);
      (split; [intros _ ? ?; try lia; split; reflexivity|]);
      apply getExpectedLimit_spec.
  - assert (Hu : unhealthy r) by (now apply Hh).
    cbn [write warmup_day is_healthy dw_status current_daily_limit
         new_warmup_day new_current_daily_limit new_is_healthy new_status].
    split; [reflexivity|].
    split; [tauto|].
    split; [intros _; split; reflexivity|].
    split; [intros Hn; contradiction|].
    split; [intros Hn; contradiction|].
    split; [intros Hn; contradiction|].
    apply getExpectedLimit_spec.
Qed.

(** C4.  The rows of the application: the dashboard inserts a domain
    at limit 10, and the job only raises a limit that is below the
    target, so a row whose limit is below its target holds at least the
    starting limit 10.  For every such row that is active when the daily
    job runs, the job applies this precedence, first match wins:
    unhealthy (at least 50 sent, and delivered/sent below 95 % or
    bounced/sent above 2 %): status "paused", limit unchanged; else limit
    at or above the target: status "completed"; else the limit of the
    table for the elapsed day, capped at the target, above the current
    limit: the limit is raised to that value; else nothing changes.
    Every branch writes back the recomputed day, the limit, the health
    flag and the status. *)
Theorem warmup_progression env w r :
  NoDup (map dw_id (domain_warmup w)) ->
  In r (domain_warmup w) ->
  dw_status r = "active" ->
  (current_daily_limit r < target_daily_limit r ->
   10 <= current_daily_limit r) ->
  let day := elapsed_days env r in
  let capped := Z.min (table_limit day) (target_daily_limit r) in
  exists r',
    warmup_row (dw_id r) (snd (handler env w)) = Some r'
    /\ warmup_day r' = day
    /\ (is_healthy r' = false <-> unhealthy r)
    /\ (unhealthy r ->
        dw_status r' = "paused"
        /\ current_daily_limit r' = current_daily_limit r)
    /\ (~ unhealthy r ->
        target_daily_limit r <= current_daily_limit r ->
        dw_status r' = "completed"
        /\ current_daily_limit r' = target_daily_limit r)
    /\ (~ unhealthy r ->
        current_daily_limit r < target_daily_limit r ->
        current_daily_limit r < capped ->
        dw_status r' = "active" /\ current_daily_limit r' = capped)
    /\ (~ unhealthy r ->
        current_daily_limit r < target_daily_limit r ->
        capped <= current_daily_limit r ->
        dw_status r' = "active"
        /\ current_daily_limit r' = current_daily_limit r).
Proof.
  intros Hnd Hin Hst Hrow day capped.
  destruct (warmup_decision env w r Hnd Hin Hst)
    as (r' & H1 & H2 & H3 & H4 & H5 & H6 & H7 & H8).
  cbv zeta in H6, H7, H8. fold day in H6, H7, H8.
  assert (Hcap : current_daily_limit r < target_daily_limit r ->
                 getExpectedLimit day (target_daily_limit r) = capped).
  { intros Hlt. rewrite H8. subst capped.
    destruct (Z.leb_spec 1 day) as [Hd | Hd]; [reflexivity|].
    pose proof (elapsed_days_nonneg env r) as H0. fold day in H0.
    assert (E : day = 0) by lia. rewrite E.
    change (table_limit 0) with 10. specialize (Hrow Hlt). lia. }
  exists r'. split; [exact H1|]. split; [exact H2|]. split; [exact H3|].
  split; [exact H4|]. split; [exact H5|]. split.
  - intros Hn Hlt Hc. rewrite <- (Hcap Hlt) in Hc |- *. now apply H6.
  - intros Hn Hlt Hc. rewrite <- (Hcap Hlt) in Hc. now apply H7.
Qed.

Lemma warmup_progression_witness :
  exists r',
    warmup_row "dw-1" (snd (handler Sample.env Sample.bouncing)) = Some r'
    /\ dw_status r' = "paused"
    /\ current_daily_limit r' = 10.
Proof.
  destruct (warmup_progression Sample.env Sample.bouncing
              (Sample.warmup "dw-1" 10 1000 1765362600000 60 58 2))
    as (r' & H1 & _ & _ & H4 & _).
  - repeat constructor. intros [].
  - left. reflexivity.
  - reflexivity.
  - intros _. cbn. lia.
  - exists r'. split; [exact H1|]. apply H4.
    split; [vm_compute; discriminate|]. right. vm_compute. reflexivity.
Defined.

(* ================================================================== *)
(** * Open tracking                                                    *)
(* ================================================================== *)

Lemma increment_column_keeps_id f c :
  campaign_id (increment_column f c) = campaign_id c.
Proof.
  unfold increment_column.
  repeat match goal with
         | |- context [if ?b then _ else _] => destruct b
         end; reflexivity.
Qed.

Lemma campaign_opened_incremented cid w :
  campaign_opened cid (increment_campaign_stat cid "opened_count" w)
  = option_map (fun n => n + 1) (campaign_opened cid w).
Proof.
  unfold campaign_opened, campaign_row, increment_campaign_stat.
  cbn [campaigns set_campaigns].
  rewrite (find_map_key campaign_id).
  - destruct (find _ (campaigns w)) as [c|] eqn:E; [|reflexivity].
    apply find_some in E. destruct E as [_ E]. cbn [option_map].
    rewrite E. reflexivity.
  - intros y. destruct (campaign_id y =? cid)%string;
      [apply increment_column_keeps_id | reflexivity].
Qed.

Lemma rpc_increment_opened env cid w :
  rpc env "increment_campaign_stat"
    [("p_campaign_id", cid); ("p_stat_field", "opened_count")] w
  = (Returned tt, increment_campaign_stat cid "opened_count" w).
Proof.
  unfold rpc, modify, resolve_call. cbn.
  destruct (rpc_checks_argument_names env); reflexivity.
Qed.

Lemma or_number_zero n : Js.or_number (Some n) 0 = n.
Proof.
  unfold Js.or_number. destruct (Z.eqb_spec n 0); [now subst | reflexivity].
Qed.

Lemma track_open_world env w cl :
  NoDup (map cl_id (campaign_leads w)) ->
  In cl (campaign_leads w) ->
  snd (TrackOpenRoute.GET env (cl_id cl) w)
  = let w1 :=
      set_email_events
        (email_events w
         ++ [mkEmailEvent (Some (cl_id cl)) None "opened" None])%list w in
    let w2 :=
      set_campaign_leads
        (map (fun r => if (cl_id r =? cl_id cl)%string
                       then apply_updates (opened_updates env cl) r else r)
             (campaign_leads w1)) w1 in
    if Js.is_unset (cl_opened_at cl)
    then increment_campaign_stat (cl_campaign_id cl) "opened_count" w2
    else w2.
Proof.
  intros Hnd Hin.
  unfold TrackOpenRoute.GET, respond, bind at 1.
  unfold select_campaign_lead, gets.
  rewrite (single_key_unique cl_id _ _ Hnd Hin).
  unfold bind at 1. unfold bind at 1. unfold insert_email_event, modify at 1.
  unfold bind at 1. unfold update_campaign_lead, modify at 1.
  fold (opened_updates env cl).
  destruct (Js.is_unset (cl_opened_at cl)).
  - rewrite rpc_increment_opened. reflexivity.
  - reflexivity.
Qed.


(** The tracking-pixel endpoint: every open adds 1 to the recipient's
    own [opened_count]; the first one adds 1 to the [opened_count] of
    the campaign, a later one leaves the campaigns as they are. *)
Theorem track_open env w cl :
  NoDup (map cl_id (campaign_leads w)) ->
  In cl (campaign_leads w) ->
  let w' := snd (TrackOpenRoute.GET env (cl_id cl) w) in
  recipient_opened (cl_id cl) w' = Some (cl_opened_count cl + 1)
  /\ (cl_opened_at cl = None ->
      campaign_opened (cl_campaign_id cl) w'
      = option_map (fun n => n + 1) (campaign_opened (cl_campaign_id cl) w))
  /\ (cl_opened_at cl <> None -> campaigns w' = campaigns w).
Proof.
  intros Hnd Hin w'. subst w'. rewrite (track_open_world env w cl Hnd Hin).
  cbv zeta.
  assert (Hrow : forall us,
    find (fun r => (cl_id r =? cl_id cl)%string)
      (map (fun r => if (cl_id r =? cl_id cl)%string
                     then apply_updates us r else r) (campaign_leads w))
    = Some (apply_updates us cl)).
  { intros us. rewrite (find_map_key cl_id).
    - rewrite (find_key_unique cl_id _ _ Hnd Hin). cbn.
      now rewrite String.eqb_refl.
    - intros y. destruct (cl_id y =? cl_id cl)%string;
        [apply apply_updates_keeps_id | reflexivity]. }
  assert (Hcount : cl_opened_count (apply_updates (opened_updates env cl) cl)
                   = cl_opened_count cl + 1).
  { unfold opened_updates. rewrite or_number_zero.
    destruct cl as [? ? ? ? ? ? ? oa ? ? ? ? ? ? ? ?]. now destruct oa. }
  destruct (cl_opened_at cl) as [t|] eqn:Eo; cbn [Js.is_unset].
  - split; [|split].
    + unfold recipient_opened, campaign_lead_row.
      cbn [campaign_leads set_campaign_leads set_email_events].
      rewrite Hrow. cbn [option_map]. now rewrite Hcount.
    + discriminate.
    + reflexivity.
  - split; [|split].
    + unfold recipient_opened, campaign_lead_row.
      cbn [campaign_leads set_campaign_leads set_email_events
           increment_campaign_stat set_campaigns].
      rewrite Hrow. cbn [option_map]. now rewrite Hcount.
    + intros _. rewrite campaign_opened_incremented. reflexivity.
    + intros H. contradiction.
Qed.

(** C1 (evaluation at the failing input).  Two "email.opened" events of
    the provider arrive for the same CampaignLead.  The webhook handler
    has no first-open test, and it names the arguments of the counter
    procedures [campaign_id], [stat_field] and [campaign_lead_id] where
    the migration declares [p_campaign_id], [p_stat_field] and
    [p_campaign_lead_id].  Where the procedures are reached all the
    same, each of the two events adds 1 to the campaign's
    [opened_count]; where the data API resolves calls by argument name,
    neither of them changes any counter.  In no case does the first event
    count once and the second leave the aggregate and count for the
    recipient. *)
Lemma webhook_opens_are_not_counted_once :
  (let env := Sample.env_rpc false in
   let w1 := snd (ResendWebhookRoute.POST env Sample.opened_event
                    Sample.one_sent) in
   let w2 := snd (ResendWebhookRoute.POST env Sample.opened_event w1) in
   (campaign_opened "camp-1" Sample.one_sent,
    campaign_opened "camp-1" w1, campaign_opened "camp-1" w2)
   = (Some 0, Some 1, Some 2))
  /\ (let env := Sample.env_rpc true in
      let w1 := snd (ResendWebhookRoute.POST env Sample.opened_event
                       Sample.one_sent) in
      let w2 := snd (ResendWebhookRoute.POST env Sample.opened_event w1) in
      (campaign_opened "camp-1" Sample.one_sent,
       campaign_opened "camp-1" w1, campaign_opened "camp-1" w2)
      = (Some 0, Some 0, Some 0)
      /\ (recipient_opened "cl-1" w1, recipient_opened "cl-1" w2)
         = (Some 0, Some 0)).
Proof. repeat split. Qed.

(** An open seen by the pixel and reported by the provider is counted
    twice where the procedures are reached. *)
Example pixel_then_webhook_counts_twice :
  let env := Sample.env_rpc false in
  let w1 := snd (TrackOpenRoute.GET env "cl-1" Sample.one_sent) in
  let w2 := snd (ResendWebhookRoute.POST env Sample.opened_event w1) in
  (campaign_opened "camp-1" w1, campaign_opened "camp-1" w2)
  = (Some 1, Some 2).
Proof. reflexivity. Qed.

(* ================================================================== *)
(** * The dispatch of one campaign, case by case                       *)
(* ================================================================== *)

Import Run.

Lemma select_campaign_found cid w c t :
  select_campaign cid w = (Returned (Some (c, t)), w) ->
  campaign_id c = cid /\ In c (campaigns w).
Proof.
  unfold select_campaign, gets. intros H.
  destruct (filter _ (campaigns w)) as [|c' [|c'' l]] eqn:Ef;
    cbn in H; try discriminate.
  inversion H; subst c'.
  assert (Hin : In c (filter (fun c0 => (campaign_id c0 =? cid)%string)
                        (campaigns w))) by (rewrite Ef; now left).
  apply filter_In in Hin. destruct Hin as [Hc Hid].
  apply String.eqb_eq in Hid. auto.
Qed.

Lemma select_campaign_total cid w :
  exists x, select_campaign cid w = (Returned x, w).
Proof. eexists. reflexivity. Qed.

Lemma processCampaign_not_found env w cid :
  select_campaign cid w = (Returned None, w) ->
  processCampaign env cid w = (Returned 0, w).
Proof.
  intros Hsel. unfold processCampaign, bind at 1. now rewrite Hsel.
Qed.

(** The four ways a dispatch of a found campaign can go. *)
Lemma processCampaign_cases env w c t :
  select_campaign (campaign_id c) w = (Returned (Some (c, t)), w) ->
  let cid := campaign_id c in
  let cap := cap_of c w in
  processCampaign env cid w
  = if negb (passes_gates env c) then (Returned 0, w)
    else if negb (rate_limiter_admits cap w) then (Returned 0, checked cap w)
    else match joined cid cap w with
         | [] =>
             (Returned 0,
              if pending_count cid w =? 0
              then completed_now env cid (queried cid cap w)
              else queried cid cap w)
         | _ :: _ =>
             queue_emails env c t (send_spacing c) 0 (joined cid cap w) 0
               (queried cid cap w)
         end.
Proof.
  intros Hsel cid cap. subst cid.
  unfold processCampaign, bind at 1. rewrite Hsel. unfold passes_gates.
  destruct (campaign_status c =? "active")%string; [|reflexivity].
  destruct (isWithinSendWindow env _ _); [|reflexivity].
  destruct (existsb _ _); [|reflexivity].
  cbn [negb andb].
  unfold bind at 1. unfold select_active_warmup, gets at 1.
  fold (active_warmups w). rewrite effectiveLimit_spec. fold (cap_of c w).
  fold cap.
  unfold bind at 1, canSendEmail, bind, modify, gets, ret.
  cbn [email_daily_count email_hourly_count set_requests].
  fold (rate_limiter_admits cap w).
  destruct (rate_limiter_admits cap w); cbn [negb]; [|reflexivity].
  unfold select_pending, bind, modify, gets.
  cbn [campaign_leads set_requests requests].
  fold (fetched (campaign_id c) cap w).
  assert (Hq : set_requests
                 ((requests w ++ [RateLimitCheck cap]) ++
                  [SelectPending (campaign_id c) cap])%list
                 (set_requests (requests w ++ [RateLimitCheck cap])%list w)
               = queried (campaign_id c) cap w).
  { unfold queried, set_requests. cbn. now rewrite <- app_assoc. }
  assert (Hj : map (fun r => (r, lead_of
                 (set_requests
                 ((requests w ++ [RateLimitCheck cap]) ++
                  [SelectPending (campaign_id c) cap])%list
                 (set_requests (requests w ++ [RateLimitCheck cap])%list w)) r))
                 (fetched (campaign_id c) cap w)
               = joined (campaign_id c) cap w) by reflexivity.
  rewrite Hj, Hq.
  destruct (joined (campaign_id c) cap w) as [|row rest] eqn:Ej.
  - unfold count_pending, gets, mark_completed, modify, ret.
    change (campaign_leads (queried (campaign_id c) cap w))
      with (campaign_leads w).
    fold (pending_count (campaign_id c) w).
    destruct (pending_count (campaign_id c) w =? 0); reflexivity.
  - reflexivity.
Qed.

(** X1: a campaign that is not active, or that does not exist, is passed
    over: the run returns 0 and writes nothing, whatever the clock, the
    rate counters and the recipients are. *)
Theorem dispatch_passes_over_inactive_campaign env w cid :
  (forall c, In c (campaigns w) -> campaign_id c = cid ->
             campaign_status c <> "active") ->
  processCampaign env cid w = (Returned 0, w).
Proof.
  intros H.
  destruct (select_campaign_total cid w) as [[[c t]|] Hsel].
  - destruct (select_campaign_found _ _ _ _ Hsel) as [Hid Hin].
    unfold processCampaign, bind at 1. rewrite Hsel.
    specialize (H c Hin Hid). apply String.eqb_neq in H. rewrite H.
    reflexivity.
  - unfold processCampaign, bind at 1. rewrite Hsel. reflexivity.
Qed.

Lemma dispatch_passes_over_inactive_campaign_witness :
  let w := Sample.world
             [mkCampaign "camp-1" "tpl-1" "Operator OS" "hello@operatoros.ai"
                None "paused" None 50 "09:00" "17:00" [1; 2; 3; 4; 5] 60
                0 0 0 0 0 0]
             [Sample.recipient "cl-1" "lead-1" "pending" None] [] [] in
  processCampaign Sample.env "camp-1" w = (Returned 0, w)
  /\ processCampaign Sample.env "camp-9" w = (Returned 0, w).
Proof.
  intros w. split.
  - apply dispatch_passes_over_inactive_campaign.
    intros c [Hc|[]] _. subst c. cbn. discriminate.
  - apply dispatch_passes_over_inactive_campaign.
    intros c [Hc|[]] Hid. subst c. cbn in Hid. discriminate.
Defined.


Lemma passes_gates_spec env c :
  campaign_status c = "active" -> in_window env c -> on_send_day env c ->
  passes_gates env c = true.
Proof.
  intros Ha Hw Hd. destruct (gates_pass env c Hw Hd) as [H1 H2].
  unfold passes_gates. rewrite Ha, H1, H2. reflexivity.
Qed.

Lemma In_firstn {A} (n : nat) (l : list A) x : In x (firstn n l) -> In x l.
Proof.
  intros H. rewrite <- (firstn_skipn n l). apply in_or_app. now left.
Qed.

Lemma fetched_pending cid cap w r :
  In r (fetched cid cap w) ->
  In r (campaign_leads w) /\ is_pending_of cid r = true.
Proof.
  unfold fetched. intros H. apply In_firstn in H. now apply filter_In in H.
Qed.

Lemma pending_count_zero cid w :
  pending_count cid w = 0 <->
  forall r, In r (campaign_leads w) -> is_pending_of cid r = false.
Proof.
  unfold pending_count. split.
  - intros H r Hin. destruct (is_pending_of cid r) eqn:E; [|reflexivity].
    assert (Hf : In r (filter (is_pending_of cid) (campaign_leads w)))
      by (apply filter_In; auto).
    destruct (filter _ _); [destruct Hf | cbn in H; lia].
  - intros H. rewrite filter_nothing; auto.
Qed.

(** The loop writes to the queue and to the recipients, and to nothing
    else. *)
Lemma queue_emails_writes env c t d : forall rows i q w,
  let w' := snd (queue_emails env c t d i rows q w) in
  w' = set_qstash_messages (qstash_messages w')
         (set_campaign_leads (campaign_leads w') w).
Proof.
  induction rows as [|[r [l|]] rows IH]; intros i q w.
  - cbn. now destruct w.
  - destruct t as [t|]; [|cbn; now destruct w].
    cbv zeta. rewrite queue_emails_step.
    unfold queueEmailSend, publishJSON.
    destruct (publish_rejects env _); [cbn; now destruct w|].
    unfold modify.
    match goal with
    | |- context [queue_emails ?e ?c ?t ?d ?i ?rs ?q ?x] =>
        specialize (IH i q x); cbv zeta in IH;
        remember (snd (queue_emails e c t d i rs q x)) as w' eqn:Ew
    end.
    rewrite IH at 1. reflexivity.
  - cbn [queue_emails]. apply IH.
Qed.

Lemma Forall2_refl {A} (R : A -> A -> Prop) (l : list A) :
  (forall x, R x x) -> Forall2 R l l.
Proof. intros H. induction l; constructor; auto. Qed.

Lemma Forall2_map_left {A B} (F : A -> A) (Q : A -> B -> Prop) :
  forall l l', Forall2 Q (map F l) l' -> Forall2 (fun x y => Q (F x) y) l l'.
Proof.
  induction l as [|x l IH]; intros l' H; inversion H; subst; constructor; auto.
Qed.

Lemma Forall2_with_left {A B} (R : A -> B -> Prop) (P : A -> Prop) :
  forall l l', Forall2 R l l' -> Forall P l ->
               Forall2 (fun x y => P x /\ R x y) l l'.
Proof.
  induction 1; intros HP; inversion HP; subst; constructor; auto.
Qed.

Lemma queued_row_fields env t l r :
  cl_id (queued_row env t l r) = cl_id r
  /\ cl_campaign_id (queued_row env t l r) = cl_campaign_id r
  /\ cl_lead_id (queued_row env t l r) = cl_lead_id r
  /\ cl_status (queued_row env t l r) = "queued".
Proof. destruct r. repeat split. Qed.

Lemma queue_emails_rows env c t d : forall rows i q w,
  Forall2 (left_or_queued (map (fun p => cl_id (fst p)) rows))
    (campaign_leads w)
    (campaign_leads (snd (queue_emails env c t d i rows q w))).
Proof.
  induction rows as [|[r [l|]] rows IH]; intros i q w.
  - cbn. apply Forall2_refl. intros x. now left.
  - destruct t as [t|]; [|cbn; apply Forall2_refl; intros x; now left].
    rewrite queue_emails_step. unfold queueEmailSend, publishJSON.
    destruct (publish_rejects env _);
      [cbn; apply Forall2_refl; intros x; now left|].
    unfold modify.
    match goal with
    | |- context [queue_emails ?e ?c ?t ?d ?i ?rs ?q ?x] =>
        specialize (IH i q x)
    end.
    cbn [campaign_leads mark_queued set_campaign_leads set_qstash_messages]
      in IH.
    apply Forall2_map_left in IH.
    eapply Forall2_impl; [|exact IH].
    intros old new H. cbn beta in H. cbn [map fst].
    fold (queued_row env t l old) in H.
    destruct (cl_id old =? cl_id r)%string eqn:E.
    + apply String.eqb_eq in E.
      destruct (queued_row_fields env t l old) as (F1 & F2 & F3 & F4).
      right. destruct H as [H|(H1 & H2 & H3 & H4 & H5)].
      * subst new. repeat split; auto. left. now rewrite E.
      * repeat split; try congruence. left. now rewrite E.
    + destruct H as [H|(H1 & H2 & H3 & H4 & H5)]; [now left|].
      right. repeat split; auto. now right.
  - cbn [queue_emails]. specialize (IH (i + 1) q w).
    eapply Forall2_impl; [|exact IH].
    intros old new [H|(H1 & H2)]; [now left|]. right. split; auto.
    now right.
Qed.

(** X2: a run of the dispatch pipeline for a campaign leaves every row
    of [campaign_leads] as it is, except rows of that campaign that were
    "pending", which it may turn into "queued"; no row is added or
    removed.  It writes neither to the leads, the templates, the event
    log, the unsubscribe store or the warm-up rows, nor to the rate
    counters, and it never calls the mail provider. *)
Theorem dispatch_writes_only_pending_recipients env w cid :
  NoDup (map cl_id (campaign_leads w)) ->
  let w' := snd (processCampaign env cid w) in
  Forall2 (fun old new => new = old \/ queued_from cid old new)
    (campaign_leads w) (campaign_leads w')
  /\ same_but_dispatch w w'.
Proof.
  intros Hnd w'.
  assert (Hsame : forall x, campaign_leads x = campaign_leads w ->
            same_but_dispatch w x ->
            Forall2 (fun old new => new = old \/ queued_from cid old new)
              (campaign_leads w) (campaign_leads x) /\ same_but_dispatch w x).
  { intros x Hc Hx. split; [|exact Hx]. rewrite Hc.
    apply Forall2_refl. intros y; now left. }
  destruct (select_campaign_total cid w) as [[[c t]|] Hsel].
  2:{ subst w'. rewrite (processCampaign_not_found env w cid Hsel).
      apply Hsame; [reflexivity | repeat split]. }
  destruct (select_campaign_found _ _ _ _ Hsel) as [Hid Hin]. subst cid.
  subst w'. rewrite (processCampaign_cases env w c t Hsel). cbv zeta.
  destruct (negb (passes_gates env c));
    [apply Hsame; [reflexivity | repeat split]|].
  destruct (negb (rate_limiter_admits _ w));
    [apply Hsame; [reflexivity | repeat split]|].
  destruct (joined (campaign_id c) (cap_of c w) w) as [|p rest] eqn:Ej.
  { cbn [snd]. destruct (pending_count _ w =? 0);
      (apply Hsame; [reflexivity | repeat split]). }
  rewrite <- Ej.
  pose proof (queue_emails_writes env c t (send_spacing c)
                (joined (campaign_id c) (cap_of c w) w) 0 0
                (queried (campaign_id c) (cap_of c w) w)) as Hw.
  pose proof (queue_emails_rows env c t (send_spacing c)
                (joined (campaign_id c) (cap_of c w) w) 0 0
                (queried (campaign_id c) (cap_of c w) w)) as Hr.
  cbv zeta in Hw.
  remember (snd (queue_emails env c t (send_spacing c) 0
                   (joined (campaign_id c) (cap_of c w) w) 0
                   (queried (campaign_id c) (cap_of c w) w))) as w' eqn:Ew.
  split.
  - cbn [campaign_leads queried set_requests] in Hr.
    assert (Hall : Forall (fun r => In r (campaign_leads w)) (campaign_leads w))
      by (apply Forall_forall; auto).
    pose proof (Forall2_with_left _ _ _ _ Hr Hall) as Hboth.
    eapply Forall2_impl; [|exact Hboth].
    intros old new [Hold [H|(H1 & H2 & H3 & H4 & H5)]]; [now left|].
    right. unfold queued_from. repeat split; auto.
    unfold joined in H1. rewrite map_map in H1. cbn [fst] in H1.
    apply in_map_iff in H1. destruct H1 as (f & Hf1 & Hf2).
    destruct (fetched_pending _ _ _ _ Hf2) as [Hfin Hfp].
    assert (f = old)
      by (eapply (same_key_same_row cl_id (campaign_leads w)); eauto).
    now subst f.
  - rewrite Hw. repeat split.
Qed.

Lemma dispatch_writes_only_pending_recipients_witness :
  let w' := snd (processCampaign Sample.env "camp-1" Sample.two_pending) in
  Forall2 (fun old new => new = old \/ queued_from "camp-1" old new)
    (campaign_leads Sample.two_pending) (campaign_leads w')
  /\ same_but_dispatch Sample.two_pending w'.
Proof.
  apply (dispatch_writes_only_pending_recipients Sample.env
           Sample.two_pending "camp-1").
  cbn. repeat constructor; cbn; intuition discriminate.
Defined.


Lemma campaign_row_completed env cid w c :
  NoDup (map campaign_id (campaigns w)) -> In c (campaigns w) ->
  campaign_id c = cid ->
  campaign_row cid (completed_now env cid w) = Some (complete env c).
Proof.
  intros Hnd Hin Hid. unfold campaign_row, completed_now.
  cbn [campaigns set_campaigns].
  rewrite (find_map_key campaign_id).
  - subst cid. rewrite (find_key_unique campaign_id _ c Hnd Hin).
    cbn [option_map]. now rewrite String.eqb_refl.
  - intros y. destruct (campaign_id y =? cid)%string; reflexivity.
Qed.

(** X3: completion.  For an active campaign inside its window, once the
    rate limiter admits the run: when no recipient of the campaign is
    "pending" the run sets the campaign to "completed" with the
    completion time, returns 0 and touches neither recipients nor queue;
    and whatever the gates say, a run never changes a campaign row while
    a recipient of the campaign is still "pending". *)
Theorem dispatch_completes_only_without_pending env w c :
  NoDup (map campaign_id (campaigns w)) ->
  In c (campaigns w) ->
  let cid := campaign_id c in
  let w' := snd (processCampaign env cid w) in
  (campaign_status c = "active" -> in_window env c -> on_send_day env c ->
   rate_limiter_admits (cap_of c w) w = true ->
   (forall r, In r (campaign_leads w) -> is_pending_of cid r = false) ->
   fst (processCampaign env cid w) = Returned 0
   /\ campaign_row cid w' = Some (complete env c)
   /\ campaign_status (complete env c) = "completed"
   /\ completed_at (complete env c) = Some (now env)
   /\ campaign_leads w' = campaign_leads w
   /\ qstash_messages w' = qstash_messages w)
  /\ ((exists r, In r (campaign_leads w) /\ is_pending_of cid r = true) ->
      campaigns w' = campaigns w).
Proof.
  intros Hnd Hin cid w'.
  destruct (select_campaign_unique _ w c Hnd Hin eq_refl) as [t Hsel].
  pose proof (processCampaign_cases env w c t Hsel) as Hc. cbv zeta in Hc.
  fold cid in Hc. subst w'. rewrite Hc. clear Hc. split.
  - intros Ha Hw Hd Hadm Hnone.
    rewrite (passes_gates_spec env c Ha Hw Hd), Hadm. cbn [negb].
    assert (Hz : pending_count cid w = 0) by now apply pending_count_zero.
    assert (Hj : joined cid (cap_of c w) w = []).
    { unfold joined, fetched. rewrite filter_nothing by exact Hnone.
      now rewrite firstn_nil. }
    rewrite Hj, Hz. cbn [fst snd Z.eqb]. repeat split.
    apply (campaign_row_completed env cid (queried cid (cap_of c w) w) c);
      auto.
  - intros (r & Hr & Hp).
    destruct (negb (passes_gates env c)); [reflexivity|].
    destruct (negb (rate_limiter_admits _ w)); [reflexivity|].
    destruct (joined cid (cap_of c w) w) as [|p rest] eqn:Ej.
    + cbn [snd].
      destruct (pending_count cid w =? 0) eqn:Ez; [|reflexivity].
      apply Z.eqb_eq in Ez.
      rewrite (proj1 (pending_count_zero cid w) Ez r Hr) in Hp.
      discriminate.
    + rewrite <- Ej.
      now destruct (queue_emails_frame env c t (send_spacing c)
                      (joined cid (cap_of c w) w) 0 0
                      (queried cid (cap_of c w) w)) as (_ & H & _).
Qed.

Lemma dispatch_completes_only_without_pending_witness :
  let w := Sample.world [Sample.campaign 50 60]
             [Sample.recipient "cl-1" "lead-1" "sent" (Some "re_1")] [] [] in
  fst (processCampaign Sample.env "camp-1" w) = Returned 0
  /\ option_map campaign_status
       (campaign_row "camp-1" (snd (processCampaign Sample.env "camp-1" w)))
     = Some "completed".
Proof.
  intros w.
  assert (Hnd : NoDup (map campaign_id (campaigns w)))
    by (cbn; repeat constructor; cbn; intuition discriminate).
  assert (Hin : In (Sample.campaign 50 60) (campaigns w)) by (now left).
  destruct (dispatch_completes_only_without_pending Sample.env w
              (Sample.campaign 50 60) Hnd Hin) as [H _].
  destruct H as (H1 & H2 & H3 & _).
  - reflexivity.
  - exists 9, 0, 17, 0. cbn.
    repeat split; try lia; left; reflexivity.
  - exists Tuesday. split; [reflexivity | cbn; auto].
  - reflexivity.
  - intros r [Hr|[]]. now subst r.
  - split; [exact H1|]. cbn [campaign_id Sample.campaign] in H2.
    rewrite H2. reflexivity.
Defined.

(** ** Every message accepted *)

Lemma campaign_lead_row_mark_queued env t r l w :
  campaign_lead_row (cl_id r) (mark_queued env t r l w)
  = option_map (queued_row env t l) (campaign_lead_row (cl_id r) w).
Proof.
  apply campaign_lead_row_updated. reflexivity.
Qed.

Lemma campaign_lead_row_mark_queued_other env t r l w id :
  id <> cl_id r ->
  campaign_lead_row id (mark_queued env t r l w) = campaign_lead_row id w.
Proof.
  intros Hne. unfold campaign_lead_row, mark_queued.
  cbn [campaign_leads set_campaign_leads].
  rewrite (find_map_key cl_id).
  - destruct (find _ (campaign_leads w)) as [x|] eqn:Ef; [|reflexivity].
    apply find_some in Ef. destruct Ef as [_ Ek].
    apply String.eqb_eq in Ek. cbn [option_map].
    destruct (cl_id x =? cl_id r)%string eqn:E; [|reflexivity].
    apply String.eqb_eq in E. congruence.
  - intros y. destruct (cl_id y =? cl_id r)%string; [|reflexivity].
    apply apply_updates_keeps_id.
Qed.

Lemma queue_emails_other_rows env c t d id : forall rows i q w,
  ~ In id (map (fun p => cl_id (fst p)) rows) ->
  campaign_lead_row id (snd (queue_emails env c t d i rows q w))
  = campaign_lead_row id w.
Proof.
  induction rows as [|[r [l|]] rows IH]; intros i q w Hid.
  - reflexivity.
  - destruct t as [t|]; [|reflexivity].
    rewrite queue_emails_step. unfold queueEmailSend, publishJSON.
    destruct (publish_rejects env _); [reflexivity|].
    unfold modify. cbn [map fst In] in Hid.
    rewrite IH by tauto.
    rewrite campaign_lead_row_mark_queued_other by (intros E; apply Hid; auto).
    reflexivity.
  - cbn [queue_emails]. apply IH. cbn [map fst In] in Hid. tauto.
Qed.

(** The recipients of [rows] that have a lead, each with it. *)
Lemma queue_emails_all_accepted env c t d :
  (forall m, publish_rejects env m = false) ->
  forall rows i q w,
  NoDup (map (fun p => cl_id (fst p)) rows) ->
  let result := queue_emails env c (Some t) d i rows q w in
  fst result
  = Returned (q + Z.of_nat (List.length
                              (filter (fun p => match snd p with
                                                | Some _ => true
                                                | None => false
                                                end) rows)))
  /\ map (fun m => job_campaignLeadId (pub_body m))
       (qstash_messages (snd result))
     = (map (fun m => job_campaignLeadId (pub_body m)) (qstash_messages w)
        ++ map (fun p => cl_id (fst p))
             (filter (fun p => match snd p with
                               | Some _ => true
                               | None => false
                               end) rows))%list
  /\ forall r l, In (r, Some l) rows ->
       campaign_lead_row (cl_id r) (snd result)
       = option_map (queued_row env t l) (campaign_lead_row (cl_id r) w).
Proof.
  intros Hacc.
  induction rows as [|[r [l|]] rows IH]; intros i q w Hnd; cbv zeta.
  - cbn. rewrite app_nil_r, Z.add_0_r. repeat split. intros r l [].
  - rewrite queue_emails_step. unfold queueEmailSend, publishJSON.
    rewrite Hacc. unfold modify.
    cbn [map fst] in Hnd. inversion Hnd as [|? ? Hnotin Hnd']; subst.
    match goal with
    | |- context [queue_emails ?e ?c ?t ?d ?i ?rs ?q ?x] =>
        destruct (IH i q x Hnd') as (H1 & H2 & H3)
    end.
    split; [|split].
    + rewrite H1. cbn [filter snd List.length]. f_equal. lia.
    + rewrite H2. cbn [filter snd map fst qstash_messages mark_queued
                       set_campaign_leads set_qstash_messages].
      rewrite map_app. cbn [map pub_body publishOptions job_campaignLeadId
                            build_job].
      now rewrite <- app_assoc.
    + intros r' l' [Heq|Hin].
      * inversion Heq; subst r' l'.
        rewrite queue_emails_other_rows by exact Hnotin.
        rewrite campaign_lead_row_mark_queued. reflexivity.
      * rewrite (H3 r' l' Hin).
        rewrite campaign_lead_row_mark_queued_other; [reflexivity|].
        intros E. apply Hnotin. rewrite <- E.
        apply (in_map (fun p => cl_id (fst p)) rows (r', Some l') Hin).
  - cbn [queue_emails filter snd].
    cbn [map fst] in Hnd. inversion Hnd as [|? ? Hnotin Hnd']; subst.
    destruct (IH (i + 1) q w Hnd') as (H1 & H2 & H3).
    split; [exact H1|]. split; [exact H2|].
    intros r' l' [Heq|Hin]; [discriminate|]. now apply H3.
Qed.


Lemma filter_of_map {A B} (g : A -> B) (p : B -> bool) (l : list A) :
  filter p (map g l) = map g (filter (fun x => p (g x)) l).
Proof.
  induction l as [|x l IH]; [reflexivity|]. cbn.
  destruct (p (g x)); cbn; now rewrite IH.
Qed.

Lemma NoDup_firstn {A} (n : nat) (l : list A) : NoDup l -> NoDup (firstn n l).
Proof.
  intros H. rewrite <- (firstn_skipn n l) in H.
  now apply NoDup_app_remove_r in H.
Qed.

Lemma fetched_NoDup cid cap w :
  NoDup (map cl_id (campaign_leads w)) ->
  NoDup (map cl_id (fetched cid cap w)).
Proof.
  intros H. unfold fetched. rewrite <- firstn_map.
  apply NoDup_firstn. now apply NoDup_map_filter.
Qed.

Lemma select_campaign_template cid w c :
  NoDup (map campaign_id (campaigns w)) -> In c (campaigns w) ->
  campaign_id c = cid ->
  select_campaign cid w
  = (Returned
       (Some (c, find (fun t => (template_id t =? template_ref c)%string)
                      (email_templates w))), w).
Proof.
  intros Hnd Hin Hid. unfold select_campaign, gets. subst cid.
  now rewrite (single_key_unique campaign_id _ c Hnd Hin).
Qed.

(** X4: when the queue accepts every message, a run for an active
    campaign inside its window that the rate limiter admits enqueues one
    message for each fetched recipient that has a lead, in the order of
    the fetch, returns their number, and leaves each of them "queued"
    with the queueing time and the personalized subject and body. *)
Theorem dispatch_queues_every_fetched_recipient env w c t :
  NoDup (map campaign_id (campaigns w)) ->
  NoDup (map cl_id (campaign_leads w)) ->
  In c (campaigns w) ->
  find (fun t => (template_id t =? template_ref c)%string)
       (email_templates w) = Some t ->
  campaign_status c = "active" -> in_window env c -> on_send_day env c ->
  rate_limiter_admits (cap_of c w) w = true ->
  (forall m, publish_rejects env m = false) ->
  let cid := campaign_id c in
  let rows := filter (has_lead w) (fetched cid (cap_of c w) w) in
  let result := processCampaign env cid w in
  fst result = Returned (Z.of_nat (List.length rows))
  /\ map (fun m => job_campaignLeadId (pub_body m))
       (qstash_messages (snd result))
     = (map (fun m => job_campaignLeadId (pub_body m)) (qstash_messages w)
        ++ map cl_id rows)%list
  /\ forall r l, In r (fetched cid (cap_of c w) w) -> lead_of w r = Some l ->
       campaign_lead_row (cl_id r) (snd result)
       = Some (queued_row env t l r)
       /\ cl_status (queued_row env t l r) = "queued".
Proof.
  intros Hndc Hnd Hin Ht Ha Hw Hd Hadm Hacc cid rows result.
  pose proof (select_campaign_template cid w c Hndc Hin eq_refl) as Hsel.
  rewrite Ht in Hsel.
  pose proof (processCampaign_cases env w c (Some t) Hsel) as Hc.
  cbv zeta in Hc. fold cid in Hc. fold result in Hc.
  rewrite (passes_gates_spec env c Ha Hw Hd), Hadm in Hc. cbn [negb] in Hc.
  assert (Hrows : map (fun p : CampaignLead * option Lead => cl_id (fst p))
                    (filter (fun p => match snd p with
                                      | Some _ => true
                                      | None => false
                                      end) (joined cid (cap_of c w) w))
                  = map cl_id rows).
  { unfold joined. rewrite filter_of_map, map_map. reflexivity. }
  assert (Hfound : forall r, In r (fetched cid (cap_of c w) w) ->
            campaign_lead_row (cl_id r) w = Some r).
  { intros r Hr. destruct (fetched_pending _ _ _ _ Hr) as [Hrin _].
    apply (find_key_unique cl_id _ r Hnd Hrin). }
  destruct (joined cid (cap_of c w) w) as [|p rest] eqn:Ej.
  - assert (Hf : fetched cid (cap_of c w) w = []).
    { unfold joined in Ej. now apply map_eq_nil in Ej. }
    subst rows. rewrite Hf. rewrite Hc. cbn [filter List.length map fst snd].
    rewrite app_nil_r. split; [reflexivity|]. split.
    + destruct (pending_count cid w =? 0); reflexivity.
    + intros r l [].
  - rewrite <- Ej in Hc, Hrows.
    assert (Hndj : NoDup (map (fun p : CampaignLead * option Lead =>
                                 cl_id (fst p)) (joined cid (cap_of c w) w))).
    { unfold joined. rewrite map_map. cbn [fst].
      now apply fetched_NoDup. }
    destruct (queue_emails_all_accepted env c t (send_spacing c) Hacc
                (joined cid (cap_of c w) w) 0 0
                (queried cid (cap_of c w) w) Hndj) as (H1 & H2 & H3).
    rewrite <- Hc in H1, H2, H3. split; [|split].
    + rewrite H1. rewrite <- (length_map (fun p => cl_id (fst p))), Hrows.
      now rewrite length_map.
    + rewrite H2, Hrows. reflexivity.
    + intros r l Hr Hl. split; [|apply queued_row_fields].
      rewrite (H3 r l).
      * change (campaign_lead_row (cl_id r) (queried cid (cap_of c w) w))
          with (campaign_lead_row (cl_id r) w).
        now rewrite (Hfound r Hr).
      * unfold joined. apply in_map_iff. exists r. now rewrite Hl.
Qed.

Lemma dispatch_queues_every_fetched_recipient_witness :
  let result := processCampaign Sample.env "camp-1" Sample.two_pending in
  fst result = Returned 2
  /\ map (fun m => job_campaignLeadId (pub_body m))
       (qstash_messages (snd result)) = ["cl-1"; "cl-2"].
Proof.
  assert (Hnd : NoDup (map campaign_id (campaigns Sample.two_pending)))
    by (cbn; repeat constructor; cbn; intuition discriminate).
  assert (Hndr : NoDup (map cl_id (campaign_leads Sample.two_pending)))
    by (cbn; repeat constructor; cbn; intuition discriminate).
  assert (Hin : In (Sample.campaign 50 60) (campaigns Sample.two_pending))
    by (now left).
  assert (Hw : in_window Sample.env (Sample.campaign 50 60)).
  { exists 9, 0, 17, 0. cbn. repeat split; try lia; left; reflexivity. }
  assert (Hd : on_send_day Sample.env (Sample.campaign 50 60)).
  { exists Tuesday. split; [reflexivity | cbn; auto]. }
  destruct (dispatch_queues_every_fetched_recipient Sample.env
              Sample.two_pending (Sample.campaign 50 60) Sample.hello
              Hnd Hndr Hin eq_refl eq_refl Hw Hd eq_refl
              (fun _ => eq_refl)) as (H1 & H2 & _).
  split; [exact H1 | exact H2].
Defined.

(** ** The size of a batch *)

Lemma queue_emails_added env c t d : forall rows i q w,
  exists added,
    qstash_messages (snd (queue_emails env c t d i rows q w))
    = (qstash_messages w ++ added)%list
    /\ (List.length added <= List.length rows)%nat.
Proof.
  induction rows as [|[r [l|]] rows IH]; intros i q w.
  - exists []. cbn. rewrite app_nil_r. auto.
  - destruct t as [t|].
    2:{ exists []. cbn. rewrite app_nil_r. split; [reflexivity | lia]. }
    rewrite queue_emails_step. unfold queueEmailSend, publishJSON.
    destruct (publish_rejects env _).
    { exists []. cbn. rewrite app_nil_r. split; [reflexivity | lia]. }
    unfold modify.
    match goal with
    | |- context [queue_emails ?e ?c ?t ?d ?i ?rs ?q ?x] =>
        destruct (IH i q x) as (added & Ha & Hl)
    end.
    eexists (_ :: added). split.
    + rewrite Ha. cbn [qstash_messages mark_queued set_campaign_leads
                       set_qstash_messages].
      rewrite <- app_assoc. reflexivity.
    + cbn [List.length]. lia.
  - cbn [queue_emails]. destruct (IH (i + 1) q w) as (added & Ha & Hl).
    exists added. split; [exact Ha | cbn [List.length]; lia].
Qed.

(** X5: the size of a batch.  Whatever the state of the store and the
    answers of the queue, one run for a campaign only appends to the
    queue, and it appends no more messages than the campaign has pending
    recipients, than the daily limit of the campaign, and than the
    warm-up limit in force. *)
Theorem dispatch_batch_is_bounded env w cid :
  exists added,
    qstash_messages (snd (processCampaign env cid w))
    = (qstash_messages w ++ added)%list
    /\ Z.of_nat (List.length added) <= pending_count cid w
    /\ forall c, In c (campaigns w) -> campaign_id c = cid ->
         Z.of_nat (List.length added) <= Z.max 0 (daily_limit c)
         /\ Z.of_nat (List.length added) <= Z.max 0 (warmup_cap w).
Proof.
  assert (Hnone : forall x, qstash_messages x = qstash_messages w ->
            exists added,
              qstash_messages x = (qstash_messages w ++ added)%list
              /\ Z.of_nat (List.length added) <= pending_count cid w
              /\ forall c, In c (campaigns w) -> campaign_id c = cid ->
                   Z.of_nat (List.length added) <= Z.max 0 (daily_limit c)
                   /\ Z.of_nat (List.length added) <= Z.max 0 (warmup_cap w)).
  { intros x Hx. exists []. rewrite app_nil_r. split; [exact Hx|].
    cbn [List.length]. unfold pending_count. split; [lia|].
    intros c _ _. lia. }
  destruct (select_campaign_total cid w) as [[[c0 t]|] Hsel].
  2:{ rewrite (processCampaign_not_found env w cid Hsel).
      now apply Hnone. }
  assert (Hone : forall c, In c (campaigns w) -> campaign_id c = cid ->
                           c = c0).
  { intros c Hin Hid. unfold select_campaign, gets in Hsel.
    destruct (filter _ (campaigns w)) as [|c' [|c'' l]] eqn:Ef;
      cbn in Hsel; try discriminate.
    assert (Hc : In c (filter (fun c1 => (campaign_id c1 =? cid)%string)
                         (campaigns w))).
    { apply filter_In. split; [exact Hin | now apply String.eqb_eq]. }
    rewrite Ef in Hc. destruct Hc as [Hc|[]]. inversion Hsel. congruence. }
  destruct (select_campaign_found _ _ _ _ Hsel) as [Hid Hin0]. subst cid.
  rewrite (processCampaign_cases env w c0 t Hsel). cbv zeta.
  destruct (negb (passes_gates env c0)); [now apply Hnone|].
  destruct (negb (rate_limiter_admits _ w)); [now apply Hnone|].
  destruct (joined (campaign_id c0) (cap_of c0 w) w) as [|p rest] eqn:Ej.
  { cbn [snd]. destruct (pending_count _ w =? 0); now apply Hnone. }
  rewrite <- Ej.
  destruct (queue_emails_added env c0 t (send_spacing c0)
              (joined (campaign_id c0) (cap_of c0 w) w) 0 0
              (queried (campaign_id c0) (cap_of c0 w) w))
    as (added & Ha & Hl).
  exists added. split; [exact Ha|].
  unfold joined in Hl. rewrite length_map in Hl. unfold fetched in Hl.
  rewrite length_firstn in Hl. unfold pending_count. split; [lia|].
  intros c Hin Hid. rewrite (Hone c Hin Hid). unfold cap_of in Hl. lia.
Qed.

(** ** Requests without a signature *)

(** X6: in production a request to either job endpoint whose
    [upstash-signature] header is missing or empty is answered 401
    "Unauthorized" before anything is read or written: the store, the
    queue, the counters and the provider log are as they were. *)
Theorem unsigned_job_requests_write_nothing process env w
  (r1 : JobRequest (option string)) (r2 : JobRequest EmailSendJob) :
  NODE_ENV env = "production" ->
  (upstash_signature r1 = None \/ upstash_signature r1 = Some "" ->
   CampaignProcessRoute.POST env r1 w
   = (mkResponse 401 (ErrorBody "Unauthorized"), w))
  /\ (upstash_signature r2 = None \/ upstash_signature r2 = Some "" ->
      EmailSendRoute.POST process env r2 w
      = (mkResponse 401 (ErrorBody "Unauthorized"), w)).
Proof.
  intros Hp. split; intros H.
  - apply (gate_closed env r1 Hp) in H.
    unfold CampaignProcessRoute.POST, respond. cbv zeta. now rewrite H.
  - apply (gate_closed env r2 Hp) in H.
    unfold EmailSendRoute.POST, respond. cbv zeta. now rewrite H.
Qed.

Lemma unsigned_job_requests_write_nothing_witness :
  CampaignProcessRoute.POST Sample.env
    (mkJobRequest None (Some (Some "camp-1"))) Sample.two_pending
  = (mkResponse 401 (ErrorBody "Unauthorized"), Sample.two_pending)
  /\ EmailSendRoute.POST (fun html _ _ _ => html) Sample.env
       (mkJobRequest (Some "") (Some (Sample.job_for "cl-1" "ana@acme.io")))
       Sample.two_pending
     = (mkResponse 401 (ErrorBody "Unauthorized"), Sample.two_pending).
Proof.
  destruct (unsigned_job_requests_write_nothing (fun html _ _ _ => html)
              Sample.env Sample.two_pending
              (mkJobRequest None (Some (Some "camp-1")))
              (mkJobRequest (Some "")
                 (Some (Sample.job_for "cl-1" "ana@acme.io")))
              eq_refl) as [H1 H2].
  split; [apply H1; now left | apply H2; now right].
Defined.

(* ================================================================== *)
(** * The send job: delivery, refusal, and the next job                *)
(* ================================================================== *)

Lemma gate_open {Body : Type} env (request : JobRequest Body) :
  admitted env request ->
  ((NODE_ENV env =? "production")%string
   && (Js.or_string (upstash_signature request) "" =? "")%string)%bool = false.
Proof.
  intros [Hn | (s & Hsig & Hne)].
  - apply String.eqb_neq in Hn. now rewrite Hn.
  - rewrite Hsig. unfold Js.or_string.
    apply String.eqb_neq in Hne. rewrite Hne, Hne. apply andb_false_r.
Qed.

Lemma not_listed_spec address w :
  not_listed address w <-> has_unsubscribe address w = false.
Proof.
  unfold not_listed, has_unsubscribe. split.
  - intros H. destruct (existsb _ _) eqn:E; [|reflexivity].
    apply existsb_exists in E. destruct E as (u & Hu & He).
    apply String.eqb_eq in He. now elim (H u Hu).
  - intros H u Hu He.
    assert (existsb (fun u0 => (un_email u0 =? address)%string)
              (unsubscribes w) = true).
    { apply existsb_exists. exists u. split; [exact Hu|].
      now apply String.eqb_eq. }
    congruence.
Qed.

Lemma not_listed_single address w :
  not_listed address w ->
  single (filter (fun u => (un_email u =? address)%string) (unsubscribes w))
  = None.
Proof.
  intros H. rewrite filter_nothing; [reflexivity|].
  intros u Hu. apply String.eqb_neq. now apply H.
Qed.

Lemma rpc_increment_stat env cid field w :
  rpc env "increment_campaign_stat"
    [("p_campaign_id", cid); ("p_stat_field", field)] w
  = (Returned tt, increment_campaign_stat cid field w).
Proof.
  unfold rpc, modify, resolve_call. cbn.
  destruct (rpc_checks_argument_names env); reflexivity.
Qed.

Lemma campaign_row_incremented cid field w :
  campaign_row cid (increment_campaign_stat cid field w)
  = option_map (increment_column field) (campaign_row cid w).
Proof.
  unfold campaign_row, increment_campaign_stat.
  cbn [campaigns set_campaigns].
  rewrite (find_map_key campaign_id).
  - destruct (find _ (campaigns w)) as [c|] eqn:E; [|reflexivity].
    apply find_some in E. destruct E as [_ E]. cbn [option_map].
    now rewrite E.
  - intros y. destruct (campaign_id y =? cid)%string;
      [apply increment_column_keeps_id | reflexivity].
Qed.

Lemma has_token_unused token w :
  token_unused token w -> has_token token w = false.
Proof.
  intros H. unfold has_token.
  destruct (existsb _ _) eqn:E; [|reflexivity].
  apply existsb_exists in E. destruct E as (u & Hu & He).
  apply String.eqb_eq in He. now elim (H u Hu).
Qed.

Lemma references_hold_stored env job w :
  references_stored job w -> references_hold (link_row env job) w = true.
Proof.
  intros [(l & Hl & El) (c & Hc & Ec)]. unfold references_hold.
  apply andb_true_iff. split; apply existsb_exists.
  - exists l. split; [exact Hl|]. now apply String.eqb_eq.
  - exists c. split; [exact Hc|]. now apply String.eqb_eq.
Qed.

(** The procedure that counts a mail keeps the keys of the campaigns. *)
Lemma references_hold_increment row cid field w :
  references_hold row (increment_campaign_stat cid field w)
  = references_hold row w.
Proof.
  unfold references_hold, increment_campaign_stat.
  cbn [leads campaigns set_campaigns]. f_equal.
  induction (campaigns w) as [|c cs IH]; [reflexivity|].
  cbn [map existsb]. rewrite IH. f_equal.
  destruct (campaign_id c =? cid)%string;
    [now rewrite increment_column_keeps_id | reflexivity].
Qed.

(** The store after a send job whose mail the provider accepted. *)
Lemma send_job_accepted_world process env request job w id :
  json request = Some job ->
  admitted env request ->
  not_listed (job_to job) w ->
  token_unused (nanoid env) w ->
  references_stored job w ->
  provider_accepts env (job_to job) id ->
  exists mail,
    mail_to mail = job_to job
    /\ mail_subject mail = job_subject job
    /\ mail_html mail
       = process (job_html job) (job_campaignLeadId job) (nanoid env)
           (getBaseUrl env)
    /\ EmailSendRoute.POST process env request w
       = (mkResponse 200 (SendSucceeded id),
          let w1 := set_resend_calls (resend_calls w ++ [mail])%list w in
          let w2 :=
            set_campaign_leads
              (map (fun r => if (cl_id r =? job_campaignLeadId job)%string
                             then apply_updates
                                    [ status_is "sent"; sent_at_is (now env);
                                      resend_email_id_is id ] r
                             else r) (campaign_leads w1)) w1 in
          let w3 := increment_campaign_stat (job_campaignId job)
                      "sent_count" w2 in
          let w4 := set_unsubscribes
                      (unsubscribes w3 ++ [link_row env job])%list w3 in
          set_email_counts (incr (email_daily_count w4))
            (incr (email_hourly_count w4)) w4).
Proof.
  intros Hjob Hadm Hnl Htok Href Hacc.
  eexists. split; [|split; [|split]].
  4:{ unfold EmailSendRoute.POST. cbv zeta. rewrite Hjob.
      rewrite (gate_open env request Hadm).
      unfold respond, bind at 1. unfold gets at 1.
      rewrite (not_listed_single _ _ Hnl).
      unfold bind at 1. unfold sendEmail, bind at 1, modify at 1, ret at 1.
      rewrite Hacc by reflexivity.
      unfold bind at 1. unfold update_campaign_lead, modify at 1.
      unfold bind at 1. rewrite rpc_increment_stat.
      unfold bind at 1. unfold upsert_unsubscribe_ignore, modify at 1.
      match goal with
      | |- context [has_unsubscribe ?a ?x] =>
          replace (has_unsubscribe a x) with false
      end.
      2:{ symmetry. apply not_listed_spec. exact Hnl. }
      match goal with
      | |- context [has_token ?a ?x] =>
          replace (has_token a x) with false
      end.
      2:{ symmetry. exact (has_token_unused _ w Htok). }
      fold (link_row env job).
      rewrite references_hold_increment.
      match goal with
      | |- context [references_hold ?r ?x] =>
          replace (references_hold r x) with true
      end.
      2:{ symmetry. exact (references_hold_stored env job w Href). }
      cbn [negb].
      unfold bind, incrementEmailCount, modify, ret.
      reflexivity. }
  all: reflexivity.
Qed.


(** X7: a send job whose address is in no row of the unsubscribe store,
    whose fresh token is in no row either (the token column is UNIQUE),
    whose lead and campaign are still stored (the row references
    both), and whose mail the provider accepts: the provider is called once,
    with the processed body; the recipient becomes "sent" with the time
    and the provider's message identifier; the campaign's [sent_count]
    and both rate counters go up by one; a row for the address, with
    the token of the unsubscribe link, is added to the unsubscribe
    store; the answer is 200 with the identifier. *)
Theorem send_job_delivers process env request job w id :
  json request = Some job ->
  admitted env request ->
  not_listed (job_to job) w ->
  token_unused (nanoid env) w ->
  references_stored job w ->
  provider_accepts env (job_to job) id ->
  let w' := snd (EmailSendRoute.POST process env request w) in
  fst (EmailSendRoute.POST process env request w)
  = mkResponse 200 (SendSucceeded id)
  /\ (exists mail,
        resend_calls w' = (resend_calls w ++ [mail])%list
        /\ mail_to mail = job_to job
        /\ mail_subject mail = job_subject job
        /\ mail_html mail
           = process (job_html job) (job_campaignLeadId job) (nanoid env)
               (getBaseUrl env))
  /\ campaign_lead_row (job_campaignLeadId job) w'
     = option_map
         (apply_updates [ status_is "sent"; sent_at_is (now env);
                          resend_email_id_is id ])
         (campaign_lead_row (job_campaignLeadId job) w)
  /\ campaign_sent (job_campaignId job) w'
     = option_map (fun n => n + 1) (campaign_sent (job_campaignId job) w)
  /\ unsubscribes w' = (unsubscribes w ++ [link_row env job])%list
  /\ email_daily_count w' = incr (email_daily_count w)
  /\ email_hourly_count w' = incr (email_hourly_count w)
  /\ leads w' = leads w
  /\ email_events w' = email_events w
  /\ qstash_messages w' = qstash_messages w.
Proof.
  intros Hjob Hadm Hnl Htok Href Hacc w'.
  destruct (send_job_accepted_world process env request job w id
              Hjob Hadm Hnl Htok Href Hacc) as (mail & M1 & M2 & M3 & Hw).
  subst w'. rewrite Hw. cbv zeta. cbn [fst snd].
  split; [reflexivity|]. split.
  { exists mail. repeat split; auto. }
  split.
  { erewrite campaign_lead_row_updated; [reflexivity|]. reflexivity. }
  split.
  { unfold campaign_sent.
    match goal with
    | |- context [campaign_row ?c (set_email_counts _ _ (set_unsubscribes _
                    (increment_campaign_stat ?c ?f ?x)))] =>
        change (campaign_row c (set_email_counts _ _ (set_unsubscribes _
                    (increment_campaign_stat c f x))))
          with (campaign_row c (increment_campaign_stat c f x));
        rewrite (campaign_row_incremented c f x);
        change (campaign_row c x) with (campaign_row c w)
    end.
    destruct (campaign_row (job_campaignId job) w) as [c|]; reflexivity. }
  repeat split.
Qed.

Lemma send_job_delivers_witness :
  let request := Sample.signed (Sample.job_for "cl-1" "ana@acme.io") in
  let w := Sample.world [Sample.campaign 50 60]
             [Sample.recipient "cl-1" "lead-1" "queued" None] [] [] in
  let w' := snd (EmailSendRoute.POST (fun html _ _ _ => html) Sample.env
                   request w) in
  recipient_status "cl-1" w' = Some "sent"
  /\ campaign_sent "camp-1" w' = Some 1
  /\ map un_email (unsubscribes w') = ["ana@acme.io"]
  /\ email_daily_count w' = Some 1.
Proof.
  intros request w w'.
  assert (Hadm : admitted Sample.env request).
  { right. exists "v1-signature". split; [reflexivity | discriminate]. }
  assert (Hnl : not_listed "ana@acme.io" w) by (intros u []).
  assert (Htok : token_unused (nanoid Sample.env) w) by (intros u []).
  assert (Href : references_stored (Sample.job_for "cl-1" "ana@acme.io") w).
  { split; [exists Sample.ana | exists (Sample.campaign 50 60)];
      (split; [now left | reflexivity]). }
  assert (Hacc : provider_accepts Sample.env "ana@acme.io" "re_1")
    by (intros o _; reflexivity).
  destruct (send_job_delivers (fun html _ _ _ => html) Sample.env request
              (Sample.job_for "cl-1" "ana@acme.io") w "re_1"
              eq_refl Hadm Hnl Htok Href Hacc)
    as (_ & _ & H3 & H4 & H5 & H6 & _).
  fold w' in H3, H4, H5, H6.
  cbn [Sample.job_for job_campaignLeadId job_campaignId] in H3, H4.
  unfold recipient_status. rewrite H3, H4, H5, H6. repeat split.
Defined.

(** X8: a send job whose mail the provider refuses: the recipient
    becomes "failed" with the provider's message and [retry_count] 1,
    the answer is 500 with that message, and nothing else is written:
    no counter moves and no unsubscribe row is stored. *)
Theorem send_job_refused process env request job w message :
  json request = Some job ->
  admitted env request ->
  not_listed (job_to job) w ->
  provider_refuses env (job_to job) message ->
  let w' := snd (EmailSendRoute.POST process env request w) in
  fst (EmailSendRoute.POST process env request w)
  = mkResponse 500 (SendFailed message)
  /\ campaign_lead_row (job_campaignLeadId job) w'
     = option_map
         (apply_updates [ status_is "failed"; error_message_is message;
                          retry_count_is 1 ])
         (campaign_lead_row (job_campaignLeadId job) w)
  /\ (exists mail, resend_calls w' = (resend_calls w ++ [mail])%list
                   /\ mail_to mail = job_to job)
  /\ campaigns w' = campaigns w
  /\ unsubscribes w' = unsubscribes w
  /\ email_daily_count w' = email_daily_count w
  /\ email_hourly_count w' = email_hourly_count w
  /\ leads w' = leads w
  /\ email_events w' = email_events w
  /\ qstash_messages w' = qstash_messages w.
Proof.
  intros Hjob Hadm Hnl Href w'.
  assert (Hw : exists mail, mail_to mail = job_to job /\
            EmailSendRoute.POST process env request w
            = (mkResponse 500 (SendFailed message),
               let w1 := set_resend_calls (resend_calls w ++ [mail])%list w in
               set_campaign_leads
                 (map (fun r => if (cl_id r =? job_campaignLeadId job)%string
                                then apply_updates
                                       [ status_is "failed";
                                         error_message_is message;
                                         retry_count_is 1 ] r
                                else r) (campaign_leads w1)) w1)).
  { eexists. split.
    2:{ unfold EmailSendRoute.POST. cbv zeta. rewrite Hjob.
        rewrite (gate_open env request Hadm).
        unfold respond, bind at 1. unfold gets at 1.
        rewrite (not_listed_single _ _ Hnl).
        unfold bind at 1. unfold sendEmail, bind at 1, modify at 1, ret at 1.
        rewrite Href by reflexivity.
        unfold bind, update_campaign_lead, modify, ret. reflexivity. }
    reflexivity. }
  destruct Hw as (mail & M1 & Hw). subst w'. rewrite Hw. cbv zeta.
  cbn [fst snd]. split; [reflexivity|]. split.
  { erewrite campaign_lead_row_updated; [reflexivity|]. reflexivity. }
  split; [exists mail; split; [reflexivity | exact M1]|].
  repeat split.
Qed.

Lemma send_job_refused_witness :
  let env := mkEnv "production" None None 0 10 30 2 (fun _ => false)
               (fun _ => ResendError "Invalid recipient") "tok" "uuid" true in
  let request := Sample.signed (Sample.job_for "cl-1" "ana@acme.io") in
  let w := Sample.world [Sample.campaign 50 60]
             [Sample.recipient "cl-1" "lead-1" "queued" None] [] [] in
  fst (EmailSendRoute.POST (fun html _ _ _ => html) env request w)
  = mkResponse 500 (SendFailed "Invalid recipient")
  /\ recipient_status "cl-1"
       (snd (EmailSendRoute.POST (fun html _ _ _ => html) env request w))
     = Some "failed".
Proof.
  intros env request w.
  assert (Hadm : admitted env request).
  { right. exists "v1-signature". split; [reflexivity | discriminate]. }
  assert (Hnl : not_listed "ana@acme.io" w) by (intros u []).
  assert (Href : provider_refuses env "ana@acme.io" "Invalid recipient")
    by (intros o _; reflexivity).
  destruct (send_job_refused (fun html _ _ _ => html) env request
              (Sample.job_for "cl-1" "ana@acme.io") w "Invalid recipient"
              eq_refl Hadm Hnl Href) as (H1 & H2 & _).
  split; [exact H1|].
  cbn [Sample.job_for job_campaignLeadId] in H2.
  unfold recipient_status. rewrite H2. reflexivity.
Defined.

(** A send job to an address that the unsubscribe store holds. *)
Lemma send_job_listed process env request job w u :
  json request = Some job ->
  admitted env request ->
  NoDup (map un_email (unsubscribes w)) ->
  In u (unsubscribes w) ->
  un_email u = job_to job ->
  EmailSendRoute.POST process env request w
  = (mkResponse 200 (SendSkipped "unsubscribed"),
     set_campaign_leads
       (map (fun r => if (cl_id r =? job_campaignLeadId job)%string
                      then apply_updates
                             [ status_is "skipped";
                               error_message_is "Email is unsubscribed" ] r
                      else r)
            (campaign_leads w)) w).
Proof.
  intros Hjob Hadm Hnd Hin Hto.
  pose proof (single_key_unique un_email _ _ Hnd Hin) as Hs.
  rewrite Hto in Hs.
  unfold EmailSendRoute.POST. cbv zeta. rewrite Hjob.
  rewrite (gate_open env request Hadm).
  unfold respond, bind, gets. rewrite Hs. reflexivity.
Qed.

Lemma listed_or_not address w :
  (exists u, In u (unsubscribes w) /\ un_email u = address)
  \/ not_listed address w.
Proof.
  destruct (has_unsubscribe address w) eqn:E.
  - left. unfold has_unsubscribe in E. apply existsb_exists in E.
    destruct E as (u & Hu & He). exists u. split; [exact Hu|].
    now apply String.eqb_eq.
  - right. now apply not_listed_spec.
Qed.

Lemma NoDup_snoc {A} (l : list A) (x : A) :
  NoDup l -> ~ In x l -> NoDup (l ++ [x]).
Proof.
  intros Hl Hx. apply NoDup_app; [exact Hl | repeat constructor; auto |].
  intros y Hy [Hy'|[]]. subst y. contradiction.
Qed.

(** A job whose lead was deleted after it was queued: the mail is sent
    and counted, the store refuses the row of the unsubscribe link, and
    the next job to the same address is sent as well. *)
Example send_job_of_a_deleted_lead :
  let w := mkWorld [Sample.campaign 50 60] [Sample.hello] []
             [Sample.recipient "cl-1" "lead-1" "queued" None;
              Sample.recipient "cl-2" "lead-1" "queued" None]
             [] [] [] None None [] [] [] in
  let post := EmailSendRoute.POST (fun html _ _ _ => html) Sample.env in
  let r1 := post (Sample.signed (Sample.job_for "cl-1" "ana@acme.io")) w in
  let r2 := post (Sample.signed (Sample.job_for "cl-2" "ana@acme.io"))
              (snd r1) in
  fst r1 = mkResponse 200 (SendSucceeded "re_1")
  /\ unsubscribes (snd r1) = []
  /\ fst r2 = mkResponse 200 (SendSucceeded "re_1")
  /\ map mail_to (resend_calls (snd r2)) = ["ana@acme.io"; "ana@acme.io"].
Proof. repeat split. Qed.

(** X9: one mail per address.  After a send job to an address whose mail
    the provider accepted, the unsubscribe store holds a row for that
    address (the one of the mail's unsubscribe link, stored with a
    token that no row holds yet, for a lead and a campaign that are
    still stored); so every later
    send job to the same address, of whatever campaign, is answered
    "skipped: unsubscribed", marks its recipient "skipped" and does not
    call the provider. *)
Theorem second_send_to_an_address_is_skipped
  process env env' request request' job job' w id :
  json request = Some job ->
  json request' = Some job' ->
  job_to job' = job_to job ->
  admitted env request ->
  admitted env' request' ->
  NoDup (map un_email (unsubscribes w)) ->
  token_unused (nanoid env) w ->
  references_stored job w ->
  provider_accepts env (job_to job) id ->
  let w1 := snd (EmailSendRoute.POST process env request w) in
  let w2 := snd (EmailSendRoute.POST process env' request' w1) in
  has_unsubscribe (job_to job) w1 = true
  /\ fst (EmailSendRoute.POST process env' request' w1)
     = mkResponse 200 (SendSkipped "unsubscribed")
  /\ resend_calls w2 = resend_calls w1
  /\ recipient_status (job_campaignLeadId job') w2
     = option_map (fun _ => "skipped")
         (campaign_lead_row (job_campaignLeadId job') w1).
Proof.
  intros Hjob Hjob' Hto Hadm Hadm' Hnd Htok Href Hacc w1 w2.
  assert (H1 : exists u, In u (unsubscribes w1) /\ un_email u = job_to job'
                         /\ NoDup (map un_email (unsubscribes w1))).
  { destruct (listed_or_not (job_to job) w) as [(u & Hu & He)|Hnl].
    - subst w1.
      rewrite (send_job_listed process env request job w u
                 Hjob Hadm Hnd Hu He).
      exists u. cbn [snd unsubscribes set_campaign_leads].
      repeat split; auto. congruence.
    - destruct (send_job_accepted_world process env request job w id
                  Hjob Hadm Hnl Htok Href Hacc) as (mail & _ & _ & _ & Hw).
      assert (H5 : unsubscribes w1
                   = (unsubscribes w ++ [link_row env job])%list)
        by (subst w1; rewrite Hw; reflexivity).
      exists (link_row env job). rewrite H5. split.
      + apply in_or_app. right. now left.
      + split; [now rewrite Hto|]. rewrite map_app. cbn [map].
        apply NoDup_snoc; [exact Hnd|]. intros Hin.
        apply in_map_iff in Hin. destruct Hin as (u & Hu1 & Hu2).
        now apply (Hnl u Hu2). }
  destruct H1 as (u & Hu & He & Hnd1).
  pose proof (send_job_listed process env' request' job' w1 u
                Hjob' Hadm' Hnd1 Hu He) as Hw2.
  subst w2. rewrite Hw2. cbn [fst snd]. split; [|split; [|split]].
  - unfold has_unsubscribe. apply existsb_exists. exists u.
    split; [exact Hu|]. apply String.eqb_eq. congruence.
  - reflexivity.
  - reflexivity.
  - unfold recipient_status.
    erewrite campaign_lead_row_updated; [|reflexivity].
    destruct (campaign_lead_row (job_campaignLeadId job') w1) as [r|];
      [|reflexivity].
    cbn [option_map]. f_equal. now destruct r.
Qed.

Lemma second_send_to_an_address_is_skipped_witness :
  let w := Sample.world [Sample.campaign 50 60]
             [Sample.recipient "cl-1" "lead-1" "queued" None;
              Sample.recipient "cl-2" "lead-1" "queued" None] [] [] in
  let post := EmailSendRoute.POST (fun html _ _ _ => html) Sample.env in
  let w1 := snd (post (Sample.signed (Sample.job_for "cl-1" "ana@acme.io")) w) in
  fst (post (Sample.signed (Sample.job_for "cl-2" "ana@acme.io")) w1)
  = mkResponse 200 (SendSkipped "unsubscribed").
Proof.
  intros w post w1.
  assert (Hadm : forall id, admitted Sample.env
                   (Sample.signed (Sample.job_for id "ana@acme.io"))).
  { intros id. right. exists "v1-signature".
    split; [reflexivity | discriminate]. }
  assert (Hacc : provider_accepts Sample.env "ana@acme.io" "re_1")
    by (intros o _; reflexivity).
  assert (Href : references_stored (Sample.job_for "cl-1" "ana@acme.io") w).
  { split; [exists Sample.ana | exists (Sample.campaign 50 60)];
      (split; [now left | reflexivity]). }
  destruct (second_send_to_an_address_is_skipped (fun html _ _ _ => html)
              Sample.env Sample.env
              (Sample.signed (Sample.job_for "cl-1" "ana@acme.io"))
              (Sample.signed (Sample.job_for "cl-2" "ana@acme.io"))
              (Sample.job_for "cl-1" "ana@acme.io")
              (Sample.job_for "cl-2" "ana@acme.io") w "re_1"
              eq_refl eq_refl eq_refl (Hadm "cl-1") (Hadm "cl-2")
              (NoDup_nil _) (fun u (H : In u []) => match H with end)
              Href Hacc)
    as (_ & H2 & _).
  exact H2.
Defined.

(* ================================================================== *)
(** * The rate limiter                                                 *)
(* ================================================================== *)

Lemma count_incr x : Js.or_number (incr x) 0 = Js.or_number x 0 + 1.
Proof.
  destruct x as [n|]; cbn [incr]; [|reflexivity].
  now rewrite !or_number_zero.
Qed.

Lemma after_sends_counts n w :
  daily_sent (after_sends n w) = daily_sent w + Z.of_nat n
  /\ hourly_sent (after_sends n w) = hourly_sent w + Z.of_nat n.
Proof.
  unfold daily_sent, hourly_sent.
  induction n as [|n [IH1 IH2]]; [cbn; lia|].
  change (email_daily_count (after_sends (S n) w))
    with (incr (email_daily_count (after_sends n w))).
  change (email_hourly_count (after_sends (S n) w))
    with (incr (email_hourly_count (after_sends n w))).
  rewrite !count_incr, IH1, IH2. lia.
Qed.

Lemma ceil_div_8 limit : 1 <= limit -> 1 <= Js.ceil_div limit 8 <= limit.
Proof.
  intros H. unfold Js.ceil_div.
  pose proof (Z.div_mod (- limit) 8 ltac:(lia)) as E.
  pose proof (Z.mod_pos_bound (- limit) 8 ltac:(lia)) as B.
  lia.
Qed.

(** X10: the rate limiter after [n] counted mails.  The limiter admits a
    send exactly when the daily counter is below the limit and the
    hourly counter is below the limit's eighth, rounded up; it only
    reads the counters.  So from fresh counters and for a limit of at
    least 1, the first [ceil(limit / 8)] mails are admitted and every
    later one is refused until the hourly counter expires. *)
Theorem rate_limiter_after_sends (n : nat) (limit : Z) (w : World) :
  let w' := after_sends n w in
  fst (canSendEmail limit w')
  = Returned ((daily_sent w + Z.of_nat n <? limit)
              && (hourly_sent w + Z.of_nat n <? Js.ceil_div limit 8))%bool
  /\ email_daily_count (snd (canSendEmail limit w')) = email_daily_count w'
  /\ email_hourly_count (snd (canSendEmail limit w')) = email_hourly_count w'
  /\ (email_daily_count w = None -> email_hourly_count w = None ->
      1 <= limit ->
      (fst (canSendEmail limit w') = Returned true
       <-> Z.of_nat n < Js.ceil_div limit 8)).
Proof.
  intros w'. destruct (after_sends_counts n w) as [Hd Hh]. fold w' in Hd, Hh.
  assert (E : fst (canSendEmail limit w')
              = Returned ((daily_sent w' <? limit)
                          && (hourly_sent w' <? Js.ceil_div limit 8))%bool)
    by reflexivity.
  split; [now rewrite E, Hd, Hh|]. split; [reflexivity|].
  split; [reflexivity|].
  intros H1 H2 Hl. rewrite E, Hd, Hh. unfold daily_sent, hourly_sent.
  rewrite H1, H2. cbn [Js.or_number]. pose proof (ceil_div_8 limit Hl) as Hc.
  split.
  - intros H. inversion H as [Hb]. apply andb_true_iff in Hb.
    destruct Hb as [_ Hb]. apply Z.ltb_lt in Hb. lia.
  - intros H. f_equal. apply andb_true_iff. split; apply Z.ltb_lt; lia.
Qed.

Lemma rate_limiter_after_sends_witness :
  fst (canSendEmail 50 (after_sends 6 Sample.two_pending)) = Returned true
  /\ fst (canSendEmail 50 (after_sends 7 Sample.two_pending)) = Returned false.
Proof.
  destruct (rate_limiter_after_sends 6 50 Sample.two_pending)
    as (_ & _ & _ & H6).
  destruct (rate_limiter_after_sends 7 50 Sample.two_pending)
    as (H7 & _).
  split.
  - apply H6; [reflexivity | reflexivity | lia | reflexivity].
  - rewrite H7. reflexivity.
Defined.

(* ================================================================== *)
(** * The tracking pixel                                               *)
(* ================================================================== *)

Lemma track_open_row env w cl :
  NoDup (map cl_id (campaign_leads w)) ->
  In cl (campaign_leads w) ->
  let w' := snd (TrackOpenRoute.GET env (cl_id cl) w) in
  campaign_leads w'
  = map (fun r => if (cl_id r =? cl_id cl)%string
                  then apply_updates (opened_updates env cl) r else r)
        (campaign_leads w)
  /\ email_events w' = (email_events w ++ [pixel_event (cl_id cl)])%list.
Proof.
  intros Hnd Hin w'. subst w'. rewrite (track_open_world env w cl Hnd Hin).
  cbv zeta. destruct (Js.is_unset (cl_opened_at cl)); split; reflexivity.
Qed.

Lemma updated_row_found id us l cl :
  NoDup (map cl_id l) -> In cl l -> cl_id cl = id ->
  let l' := map (fun r => if (cl_id r =? id)%string
                          then apply_updates us r else r) l in
  NoDup (map cl_id l') /\ In (apply_updates us cl) l'
  /\ find (fun r => (cl_id r =? id)%string) l' = Some (apply_updates us cl).
Proof.
  intros Hnd Hin Hid l'.
  assert (Hk : forall y, cl_id (if (cl_id y =? id)%string
                                then apply_updates us y else y) = cl_id y).
  { intros y. destruct (cl_id y =? id)%string;
      [apply apply_updates_keeps_id | reflexivity]. }
  split; [|split].
  - subst l'. now rewrite (map_key_preserved cl_id _ l Hk).
  - subst l'. apply in_map_iff. exists cl. split; [|exact Hin].
    rewrite Hid. now rewrite String.eqb_refl.
  - subst l'. rewrite (find_map_key cl_id _ id l Hk). subst id.
    rewrite (find_key_unique cl_id _ _ Hnd Hin). cbn [option_map].
    now rewrite String.eqb_refl.
Qed.

(** X11: the tracking pixel counts the first open only.  When the pixel
    of a recipient that has not opened yet is fetched twice, the first
    request sets the recipient to "opened" with the time of the request
    and adds 1 to the campaign's [opened_count]; the second adds 1 to
    the recipient's own [opened_count] only: the campaign's counter,
    the status and the time of the first open stay.  Each request logs
    one "opened" event. *)
Theorem pixel_counts_the_first_open_only env env' w cl :
  NoDup (map cl_id (campaign_leads w)) ->
  In cl (campaign_leads w) ->
  cl_opened_at cl = None ->
  let id := cl_id cl in
  let cid := cl_campaign_id cl in
  let w1 := snd (TrackOpenRoute.GET env id w) in
  let w2 := snd (TrackOpenRoute.GET env' id w1) in
  campaign_lead_row id w1
  = Some (apply_updates
            [ opened_count_is (cl_opened_count cl + 1);
              opened_at_is (now env); status_is "opened" ] cl)
  /\ campaign_opened cid w1
     = option_map (fun n => n + 1) (campaign_opened cid w)
  /\ campaign_lead_row id w2
     = Some (apply_updates
               [ opened_count_is (cl_opened_count cl + 2);
                 opened_at_is (now env); status_is "opened" ] cl)
  /\ campaigns w2 = campaigns w1
  /\ email_events w2
     = (email_events w ++ [pixel_event id; pixel_event id])%list.
Proof.
  intros Hnd Hin Hoa id cid w1 w2.
  destruct (track_open_row env w cl Hnd Hin) as [Hr1 He1].
  fold id in Hr1, He1. fold w1 in Hr1, He1.
  destruct (updated_row_found id (opened_updates env cl) _ cl Hnd Hin eq_refl)
    as (Hnd1 & Hin1 & Hf1).
  cbv zeta in Hnd1, Hin1, Hf1. rewrite <- Hr1 in Hnd1, Hin1, Hf1.
  set (cl1 := apply_updates (opened_updates env cl) cl) in *.
  assert (Hcl1 : cl1 = apply_updates
                         [ opened_count_is (cl_opened_count cl + 1);
                           opened_at_is (now env); status_is "opened" ] cl).
  { subst cl1. unfold opened_updates. rewrite or_number_zero, Hoa.
    reflexivity. }
  assert (Hid1 : cl_id cl1 = id) by (apply apply_updates_keeps_id).
  assert (Hoa1 : cl_opened_at cl1 = Some (now env)).
  { rewrite Hcl1. now destruct cl. }
  destruct (track_open env w cl Hnd Hin) as (_ & Hc1 & _).
  destruct (track_open env' w1 cl1 Hnd1 Hin1) as (_ & _ & Hc2).
  destruct (track_open_row env' w1 cl1 Hnd1 Hin1) as [Hr2 He2].
  rewrite Hid1 in Hc2, Hr2, He2. fold w2 in Hc2, Hr2, He2.
  destruct (updated_row_found id (opened_updates env' cl1) _ cl1
              Hnd1 Hin1 Hid1) as (_ & _ & Hf2).
  cbv zeta in Hf2. rewrite <- Hr2 in Hf2.
  split; [|split; [|split; [|split]]].
  - unfold campaign_lead_row. now rewrite Hf1, Hcl1.
  - apply Hc1. exact Hoa.
  - unfold campaign_lead_row. rewrite Hf2. f_equal.
    unfold opened_updates. rewrite or_number_zero, Hoa1. cbn [Js.is_unset].
    rewrite Hcl1. destruct cl. cbn. f_equal. lia.
  - apply Hc2. rewrite Hoa1. discriminate.
  - rewrite He2, He1. now rewrite <- app_assoc.
Qed.

Lemma pixel_counts_the_first_open_only_witness :
  let w1 := snd (TrackOpenRoute.GET Sample.env "cl-1" Sample.one_sent) in
  let w2 := snd (TrackOpenRoute.GET Sample.evening "cl-1" w1) in
  campaign_opened "camp-1" w1 = Some 1
  /\ campaign_opened "camp-1" w2 = Some 1
  /\ recipient_opened "cl-1" w2 = Some 2.
Proof.
  intros w1 w2.
  assert (Hnd : NoDup (map cl_id (campaign_leads Sample.one_sent)))
    by (cbn; repeat constructor; cbn; intuition discriminate).
  assert (Hin : In (Sample.recipient "cl-1" "lead-1" "sent" (Some "re_1"))
                  (campaign_leads Sample.one_sent)) by (now left).
  destruct (pixel_counts_the_first_open_only Sample.env Sample.evening
              Sample.one_sent _ Hnd Hin eq_refl) as (_ & H2 & H3 & H4 & _).
  cbn [cl_id cl_campaign_id Sample.recipient] in H2, H3, H4.
  fold w1 in H2, H3, H4. fold w2 in H3, H4.
  split; [rewrite H2; reflexivity|]. split.
  - unfold campaign_opened, campaign_row. rewrite H4.
    fold (campaign_row "camp-1" w1). fold (campaign_opened "camp-1" w1).
    rewrite H2. reflexivity.
  - unfold recipient_opened. rewrite H3. reflexivity.
Defined.

(** The tracking pixel always answers with the transparent GIF, and
    a request for an identifier that no recipient has writes nothing. *)
Theorem pixel_of_unknown_recipient env w id :
  fst (TrackOpenRoute.GET env id w) = TrackOpenRoute.gif
  /\ ((forall r, In r (campaign_leads w) -> cl_id r <> id) ->
      snd (TrackOpenRoute.GET env id w) = w).
Proof.
  split.
  - unfold TrackOpenRoute.GET, respond, bind at 1.
    unfold select_campaign_lead, gets.
    destruct (single _) as [cl|]; [|reflexivity].
    unfold bind at 1. unfold bind at 1. unfold insert_email_event, modify at 1.
    unfold bind at 1. unfold update_campaign_lead, modify at 1.
    destruct (Js.is_unset (cl_opened_at cl)); [|reflexivity].
    rewrite rpc_increment_opened. reflexivity.
  - intros H. unfold TrackOpenRoute.GET, respond, bind at 1.
    unfold select_campaign_lead, gets.
    rewrite filter_nothing; [reflexivity|].
    intros r Hr. apply String.eqb_neq. now apply H.
Qed.

Lemma pixel_of_unknown_recipient_witness :
  TrackOpenRoute.GET Sample.env "cl-9" Sample.one_sent
  = (TrackOpenRoute.gif, Sample.one_sent).
Proof.
  destruct (pixel_of_unknown_recipient Sample.env Sample.one_sent "cl-9")
    as [H1 H2].
  rewrite (surjective_pairing (TrackOpenRoute.GET _ _ _)). rewrite H1, H2.
  - reflexivity.
  - intros r [Hr|[]]. subst r. cbn. discriminate.
Defined.

(* ================================================================== *)
(** * The webhook of the provider                                      *)
(* ================================================================== *)

Import ResendWebhookRoute.

Lemma webhook_after_gate env request w :
  webhook_admitted env request ->
  ResendWebhookRoute.POST env request w
  = respond (parse_and_process env request)
      (mkResponse 500 (ErrorBody "Webhook processing failed")) w.
Proof.
  intros H. unfold ResendWebhookRoute.POST. cbv zeta.
  destruct H as [H|[H|H]].
  - rewrite H. reflexivity.
  - apply String.eqb_neq in H. rewrite H, andb_false_r. reflexivity.
  - rewrite H. now destruct (_ && _)%bool.
Qed.

Lemma single_identified id w cl :
  NoDup (map cl_id (campaign_leads w)) ->
  identifies id w cl ->
  single (filter (mail_of id) (campaign_leads w)) = Some cl.
Proof.
  intros Hnd (Hin & Hm & Hu).
  apply NoDup_map_inv in Hnd.
  assert (H : filter (mail_of id) (campaign_leads w) = [cl]).
  { revert Hnd Hin Hu. generalize (campaign_leads w) as l.
    induction l as [|x l IH]; intros Hnd Hin Hu; [destruct Hin|].
    inversion Hnd as [|? ? Hx Hl]; subst. cbn [filter].
    destruct (mail_of id x) eqn:Ex.
    - assert (x = cl) by (apply Hu; [now left | exact Ex]). subst x.
      f_equal. apply filter_nothing. intros y Hy.
      destruct (mail_of id y) eqn:Ey; [|reflexivity].
      assert (y = cl) by (apply Hu; [now right | exact Ey]). subst y.
      contradiction.
    - destruct Hin as [Hin|Hin]; [subst x; congruence|].
      apply IH; auto. intros r Hr. apply Hu. now right. }
  now rewrite H.
Qed.

Lemma single_unidentified id w :
  (forall r, In r (campaign_leads w) -> mail_of id r = false) ->
  single (filter (mail_of id) (campaign_leads w)) = None.
Proof. intros H. now rewrite filter_nothing. Qed.

Lemma process_event_unfold env event w :
  process_event env event w
  = (let campaignLead := single (filter (mail_of (data_email_id event))
                                   (campaign_leads w)) in
     let w1 :=
       set_email_events
         (email_events w ++
          [ {| ev_campaign_lead_id := option_map cl_id campaignLead;
               ev_resend_email_id := Some (data_email_id event);
               ev_event_type := mapEventType (event_type event);
               ev_clicked_url :=
                 match data_click_link event with
                 | Some l => if (l =? "")%string then None else Some l
                 | None => None
                 end |} ])%list w in
     match campaignLead with
     | Some campaignLead =>
         match on_event env event campaignLead w1 with
         | (Returned updates, w2) =>
             match
               match updates with
               | [] => ret tt
               | _ :: _ => update_campaign_lead (cl_id campaignLead) updates
               end w2
             with
             | (Returned _, w3) =>
                 match updateCampaignStats env (cl_campaign_id campaignLead)
                         (event_type event) w3 with
                 | (Returned _, w4) =>
                     (Returned (mkResponse 200 WebhookReceived), w4)
                 | (Thrown e, w4) => (Thrown e, w4)
                 end
             | (Thrown e, w3) => (Thrown e, w3)
             end
         | (Thrown e, w2) => (Thrown e, w2)
         end
     | None => (Returned (mkResponse 200 WebhookReceived), w1)
     end).
Proof.
  unfold process_event. unfold bind at 1. unfold gets at 1.
  fold (mail_of (data_email_id event)).
  change (fun r => match cl_resend_email_id r with
                   | Some id => (id =? data_email_id event)%string
                   | None => false
                   end) with (mail_of (data_email_id event)).
  cbv zeta.
  destruct (single _) as [cl|].
  - unfold bind at 1. unfold insert_email_event, modify at 1.
    unfold bind at 1. unfold bind at 1.
    destruct (on_event env event cl _) as [[us|e] w2]; [|reflexivity].
    unfold bind at 1.
    destruct us as [|u us].
    + unfold ret at 1 3.
      destruct (updateCampaignStats _ _ _ w2) as [[[]|e] w4]; reflexivity.
    + unfold update_campaign_lead, modify.
      destruct (updateCampaignStats _ _ _ _) as [[[]|e] w4]; reflexivity.
  - reflexivity.
Qed.


Lemma updateCampaignStats_run env cid type w :
  updateCampaignStats env cid type w
  = (Returned tt,
     match incrementField type with
     | Some field =>
         if rpc_checks_argument_names env then w
         else increment_campaign_stat cid field w
     | None => w
     end).
Proof.
  unfold updateCampaignStats.
  destruct (incrementField type) as [field|]; [|reflexivity].
  unfold rpc, modify, resolve_call. cbn.
  destruct (rpc_checks_argument_names env); reflexivity.
Qed.

Lemma rpc_recipient_counter env fn id w :
  exists w', rpc env fn [("campaign_lead_id", id)] w = (Returned tt, w')
             /\ same_but_webhook w w'
             /\ email_events w' = email_events w
             /\ leads w' = leads w
             /\ unsubscribes w' = unsubscribes w.
Proof.
  unfold rpc, modify, resolve_call. eexists. split; [reflexivity|].
  destruct (fn =? "increment_campaign_stat")%string;
    [cbn; repeat split|].
  destruct (fn =? "increment_opened_count")%string;
    [cbn; destruct (rpc_checks_argument_names env); cbn; repeat split|].
  destruct (fn =? "increment_clicked_count")%string;
    [cbn; destruct (rpc_checks_argument_names env); cbn; repeat split|].
  repeat split.
Qed.

(** The [switch] never throws, and it writes to the procedures'
    counters, the leads and the unsubscribe store only. *)
Lemma on_event_runs env event cl w :
  exists us w', on_event env event cl w = (Returned us, w')
                /\ same_but_webhook w w'
                /\ email_events w' = email_events w.
Proof.
  unfold on_event. cbv zeta.
  destruct (event_type event =? "email.delivered")%string.
  { eexists. eexists. split; [reflexivity|]. repeat split. }
  destruct (event_type event =? "email.opened")%string.
  { destruct (rpc_recipient_counter env "increment_opened_count" (cl_id cl) w)
      as (w' & Hr & Hs & He & _).
    unfold bind. rewrite Hr. eexists. eexists. split; [reflexivity|].
    split; assumption. }
  destruct (event_type event =? "email.clicked")%string.
  { destruct (rpc_recipient_counter env "increment_clicked_count" (cl_id cl) w)
      as (w' & Hr & Hs & He & _).
    unfold bind. rewrite Hr. eexists. eexists. split; [reflexivity|].
    split; assumption. }
  destruct (event_type event =? "email.bounced")%string.
  { eexists. eexists. split; [reflexivity|]. repeat split. }
  destruct (event_type event =? "email.complained")%string.
  { destruct (data_to event) as [|to rest].
    - eexists. eexists. split; [reflexivity|]. repeat split.
    - unfold bind, upsert_unsubscribe, update_lead_status, modify, ret.
      cbn [un_email].
      eexists. eexists. split; [reflexivity|].
      destruct (has_unsubscribe to w); repeat split. }
  eexists. eexists. split; [reflexivity|]. repeat split.
Qed.

Lemma process_event_runs env event w :
  exists w',
    process_event env event w = (Returned (mkResponse 200 WebhookReceived), w')
    /\ email_events w'
       = (email_events w
          ++ [webhook_event event
                (single (filter (mail_of (data_email_id event))
                                (campaign_leads w)))])%list
    /\ same_but_webhook w w'
    /\ (single (filter (mail_of (data_email_id event)) (campaign_leads w))
        = None ->
        w' = set_email_events
               (email_events w ++ [webhook_event event None])%list w).
Proof.
  rewrite process_event_unfold. cbv zeta.
  fold (webhook_event event
          (single (filter (mail_of (data_email_id event)) (campaign_leads w)))).
  destruct (single (filter (mail_of (data_email_id event)) (campaign_leads w)))
    as [cl|].
  2:{ eexists. split; [reflexivity|]. split; [reflexivity|].
      split; [repeat split | reflexivity]. }
  match goal with
  | |- context [on_event env event cl ?x] =>
      destruct (on_event_runs env event cl x) as (us & w2 & Ho & Hs2 & He2);
      rewrite Ho
  end.
  destruct Hs2 as (S1 & S2 & S3 & S4 & S5 & S6 & S7).
  cbn [email_templates domain_warmup email_daily_count email_hourly_count
       qstash_messages resend_calls requests email_events set_email_events]
    in S1, S2, S3, S4, S5, S6, S7, He2.
  destruct us as [|u us].
  - unfold ret at 1. rewrite updateCampaignStats_run.
    eexists. split; [reflexivity|].
    destruct (incrementField (event_type event)) as [f|];
      [destruct (rpc_checks_argument_names env)|];
      (split; [exact He2|]; split; [|discriminate]);
      repeat split; assumption.
  - unfold update_campaign_lead, modify. rewrite updateCampaignStats_run.
    eexists. split; [reflexivity|].
    destruct (incrementField (event_type event)) as [f|];
      [destruct (rpc_checks_argument_names env)|];
      (split; [exact He2|]; split; [|discriminate]);
      repeat split; assumption.
Qed.


Lemma webhook_runs env request event w :
  webhook_admitted env request ->
  payload request = Some event ->
  ResendWebhookRoute.POST env request w
  = (mkResponse 200 WebhookReceived, snd (process_event env event w)).
Proof.
  intros Hadm Hp. rewrite (webhook_after_gate env request w Hadm).
  unfold respond, parse_and_process. rewrite Hp.
  destruct (process_event_runs env event w) as (w' & Hr & _).
  now rewrite Hr.
Qed.

(** X12: every event is logged once.  A webhook request that passes the
    signature test and carries one of the provider's event types is
    answered 200, and it appends exactly one row to the event log: the
    mapped event type, the provider's mail identifier, and the
    recipient found for that identifier, if any.  It never touches the
    queue, the rate counters, the warm-up rows or the provider; and when
    no recipient has the identifier, the logged row is all it writes. *)
Theorem webhook_logs_each_event env request event w :
  webhook_admitted env request ->
  payload request = Some event ->
  In (event_type event) ResendEventTypes ->
  let found :=
    single (filter (mail_of (data_email_id event)) (campaign_leads w)) in
  let w' := snd (ResendWebhookRoute.POST env request w) in
  fst (ResendWebhookRoute.POST env request w)
  = mkResponse 200 WebhookReceived
  /\ email_events w' = (email_events w ++ [webhook_event event found])%list
  /\ In (ev_event_type (webhook_event event found))
        [ "sent"; "delivered"; "delayed"; "complained"; "bounced";
          "opened"; "clicked" ]
  /\ same_but_webhook w w'
  /\ ((forall r, In r (campaign_leads w) ->
                 mail_of (data_email_id event) r = false) ->
      w' = set_email_events
             (email_events w ++ [webhook_event event None])%list w).
Proof.
  intros Hadm Hp Hty found w'. subst w'.
  rewrite (webhook_runs env request event w Hadm Hp). cbn [fst snd].
  destruct (process_event_runs env event w) as (w' & Hr & He & Hs & Hn).
  rewrite Hr. cbn [snd]. split; [reflexivity|]. split; [exact He|].
  split.
  { cbn [ev_event_type webhook_event].
    cbn [In ResendEventTypes] in Hty.
    destruct Hty as [E|[E|[E|[E|[E|[E|[E|[]]]]]]]]; rewrite <- E; cbn; auto 8. }
  split; [exact Hs|].
  intros Hnone. apply Hn. now apply single_unidentified.
Qed.

Lemma webhook_logs_each_event_witness :
  let request :=
    mkWebhookRequest
      (Some (mkPayload "email.delivered" "re_9" ["zoe@acme.io"] None None))
      (Returned true) in
  ResendWebhookRoute.POST Sample.env request Sample.one_sent
  = (mkResponse 200 WebhookReceived,
     set_email_events [mkEmailEvent None (Some "re_9") "delivered" None]
       Sample.one_sent).
Proof.
  intros request.
  assert (Hadm : webhook_admitted Sample.env request) by (now left).
  destruct (webhook_logs_each_event Sample.env request
              (mkPayload "email.delivered" "re_9" ["zoe@acme.io"] None None)
              Sample.one_sent Hadm eq_refl)
    as (H1 & _ & _ & _ & H5).
  { cbn. auto. }
  rewrite (surjective_pairing (ResendWebhookRoute.POST _ _ _)).
  rewrite H1, H5; [reflexivity|].
  intros r [Hr|[]]. now subst r.
Defined.

Lemma on_event_bounced env event cl w :
  event_type event = "email.bounced" ->
  on_event env event cl w
  = (Returned [ status_is "bounced";
                error_message_is
                  (Js.or_string (data_bounce_message event) "Email bounced") ],
     set_leads (with_lead_status (cl_lead_id cl) "bounced" (leads w)) w).
Proof. intros H. unfold on_event. rewrite H. reflexivity. Qed.

Lemma on_event_complained env event cl w to rest :
  event_type event = "email.complained" ->
  data_to event = to :: rest ->
  on_event env event cl w
  = (Returned [],
     let row := {| un_email := to;
                   un_lead_id := cl_lead_id cl;
                   un_campaign_id := cl_campaign_id cl;
                   un_token := randomUUID env;
                   un_source := "complaint" |} in
     let w1 := if has_unsubscribe to w then w
               else set_unsubscribes (unsubscribes w ++ [row])%list w in
     set_leads (with_lead_status (cl_lead_id cl) "unsubscribed" (leads w1)) w1).
Proof.
  intros H Hto. unfold on_event. rewrite H, Hto. reflexivity.
Qed.

(** X13: a bounce.  An "email.bounced" event for the mail of a recipient
    sets that recipient to "bounced" with the provider's bounce message
    ("Email bounced" when there is none) and sets the lead to
    "bounced"; other recipients and the unsubscribe store stay as they
    are.  The campaign's [bounced_count] goes up only where the data
    API reaches the procedure under the argument names of the call. *)
Theorem webhook_bounce env request event cl w :
  webhook_admitted env request ->
  payload request = Some event ->
  event_type event = "email.bounced" ->
  NoDup (map cl_id (campaign_leads w)) ->
  identifies (data_email_id event) w cl ->
  let w' := snd (ResendWebhookRoute.POST env request w) in
  let updates :=
    [ status_is "bounced";
      error_message_is
        (Js.or_string (data_bounce_message event) "Email bounced") ] in
  campaign_leads w'
  = map (fun r => if (cl_id r =? cl_id cl)%string
                  then apply_updates updates r else r) (campaign_leads w)
  /\ campaign_lead_row (cl_id cl) w' = Some (apply_updates updates cl)
  /\ leads w' = with_lead_status (cl_lead_id cl) "bounced" (leads w)
  /\ unsubscribes w' = unsubscribes w
  /\ campaigns w'
     = if rpc_checks_argument_names env then campaigns w
       else campaigns (increment_campaign_stat (cl_campaign_id cl)
                         "bounced_count" w).
Proof.
  intros Hadm Hp Hty Hnd Hid w' updates. subst w'.
  rewrite (webhook_runs env request event w Hadm Hp). cbn [snd].
  rewrite process_event_unfold. cbv zeta.
  rewrite (single_identified _ w cl Hnd Hid).
  rewrite (on_event_bounced env event cl _ Hty).
  unfold update_campaign_lead, modify. rewrite updateCampaignStats_run.
  rewrite Hty.
  change (incrementField "email.bounced") with (Some "bounced_count").
  fold updates. destruct Hid as (Hin & _ & _).
  destruct (updated_row_found (cl_id cl) updates _ cl Hnd Hin eq_refl)
    as (_ & _ & Hf).
  destruct (rpc_checks_argument_names env); cbn [snd];
    (split; [reflexivity|]; split; [exact Hf|]; repeat split).
Qed.

Lemma webhook_bounce_witness :
  let request :=
    mkWebhookRequest
      (Some (mkPayload "email.bounced" "re_1" ["ana@acme.io"] None
               (Some "Mailbox full")))
      (Returned true) in
  let w' := snd (ResendWebhookRoute.POST Sample.env request Sample.one_sent) in
  recipient_status "cl-1" w' = Some "bounced"
  /\ map lead_status (leads w') = ["bounced"; "new"; "new"].
Proof.
  intros request w'.
  assert (Hadm : webhook_admitted Sample.env request) by (now left).
  assert (Hnd : NoDup (map cl_id (campaign_leads Sample.one_sent)))
    by (cbn; repeat constructor; cbn; intuition discriminate).
  assert (Hid : identifies "re_1" Sample.one_sent
                  (Sample.recipient "cl-1" "lead-1" "sent" (Some "re_1"))).
  { split; [now left|]. split; [reflexivity|].
    intros r [Hr|[]] _. now subst r. }
  destruct (webhook_bounce Sample.env request
              (mkPayload "email.bounced" "re_1" ["ana@acme.io"] None
                 (Some "Mailbox full"))
              _ Sample.one_sent Hadm eq_refl eq_refl Hnd Hid)
    as (_ & H2 & H3 & _).
  fold w' in H2, H3. cbn [cl_id cl_lead_id Sample.recipient] in H2, H3.
  unfold recipient_status. rewrite H2, H3. split; reflexivity.
Defined.

(** X14: a complaint stops later sends.  An "email.complained" event for
    the mail of a recipient puts the first address of the mail into the
    unsubscribe store (source "complaint") unless a row for it is there
    already, and sets the lead to "unsubscribed"; it leaves the rows of
    [campaign_leads] as they are.  Every later send job to that address
    is then answered "skipped: unsubscribed" without a call of the
    provider. *)
Theorem complaint_stops_later_sends
  process env env' request event cl w to rest request' job :
  webhook_admitted env request ->
  payload request = Some event ->
  event_type event = "email.complained" ->
  data_to event = to :: rest ->
  NoDup (map cl_id (campaign_leads w)) ->
  identifies (data_email_id event) w cl ->
  NoDup (map un_email (unsubscribes w)) ->
  token_unused (randomUUID env) w ->
  json request' = Some job ->
  job_to job = to ->
  admitted env' request' ->
  let w1 := snd (ResendWebhookRoute.POST env request w) in
  has_unsubscribe to w1 = true
  /\ (not_listed to w ->
      unsubscribes w1
      = (unsubscribes w
         ++ [mkUnsubscribe to (cl_lead_id cl) (cl_campaign_id cl)
               (randomUUID env) "complaint"])%list)
  /\ leads w1 = with_lead_status (cl_lead_id cl) "unsubscribed" (leads w)
  /\ campaign_leads w1 = campaign_leads w
  /\ fst (EmailSendRoute.POST process env' request' w1)
     = mkResponse 200 (SendSkipped "unsubscribed")
  /\ resend_calls (snd (EmailSendRoute.POST process env' request' w1))
     = resend_calls w1.
Proof.
  intros Hadm Hp Hty Hto Hnd Hid Hndu Htok Hjob Hjto Hadm' w1.
  assert (Hw1 : w1
    = let row := mkUnsubscribe to (cl_lead_id cl) (cl_campaign_id cl)
                   (randomUUID env) "complaint" in
      let wa := set_email_events
                  (email_events w ++ [webhook_event event (Some cl)])%list w in
      let wb := if has_unsubscribe to w then wa
                else set_unsubscribes (unsubscribes w ++ [row])%list wa in
      let wc := set_leads
                  (with_lead_status (cl_lead_id cl) "unsubscribed" (leads w))
                  wb in
      if rpc_checks_argument_names env then wc
      else increment_campaign_stat (cl_campaign_id cl) "unsubscribed_count" wc).
  { subst w1. rewrite (webhook_runs env request event w Hadm Hp). cbn [snd].
    rewrite process_event_unfold. cbv zeta.
    rewrite (single_identified _ w cl Hnd Hid).
    rewrite (on_event_complained env event cl _ to rest Hty Hto). cbv zeta.
    unfold ret at 1. rewrite updateCampaignStats_run. rewrite Hty.
    change (incrementField "email.complained")
      with (Some "unsubscribed_count").
    cbn [snd].
    change (has_unsubscribe to
              (set_email_events
                 (email_events w ++
                  [{| ev_campaign_lead_id := option_map cl_id (Some cl);
                      ev_resend_email_id := Some (data_email_id event);
                      ev_event_type := mapEventType "email.complained";
                      ev_clicked_url :=
                        match data_click_link event with
                        | Some l => if (l =? "")%string then None else Some l
                        | None => None
                        end |}])%list w))
      with (has_unsubscribe to w).
    unfold webhook_event. rewrite Hty.
    destruct (has_unsubscribe to w), (rpc_checks_argument_names env);
      reflexivity. }
  assert (Hun : unsubscribes w1
                = if has_unsubscribe to w then unsubscribes w
                  else (unsubscribes w
                        ++ [mkUnsubscribe to (cl_lead_id cl)
                              (cl_campaign_id cl) (randomUUID env)
                              "complaint"])%list).
  { rewrite Hw1. cbv zeta.
    destruct (has_unsubscribe to w), (rpc_checks_argument_names env);
      reflexivity. }
  assert (Hlisted : exists u, In u (unsubscribes w1) /\ un_email u = to
                              /\ NoDup (map un_email (unsubscribes w1))).
  { rewrite Hun. destruct (has_unsubscribe to w) eqn:Eh.
    - unfold has_unsubscribe in Eh. apply existsb_exists in Eh.
      destruct Eh as (u & Hu & He). apply String.eqb_eq in He.
      exists u. auto.
    - eexists. split; [apply in_or_app; right; now left|].
      split; [reflexivity|]. rewrite map_app. cbn [map un_email].
      apply NoDup_snoc; [exact Hndu|]. intros Hin.
      apply in_map_iff in Hin. destruct Hin as (u & Hu1 & Hu2).
      apply not_listed_spec in Eh. now apply (Eh u Hu2). }
  destruct Hlisted as (u & Hu & He & Hnd1).
  rewrite <- Hjto in He.
  rewrite (send_job_listed process env' request' job w1 u
             Hjob Hadm' Hnd1 Hu He).
  cbn [fst snd resend_calls set_campaign_leads].
  split; [|split; [|split; [|split; [|split]]]]; try reflexivity.
  - unfold has_unsubscribe. apply existsb_exists. exists u.
    split; [exact Hu|]. apply String.eqb_eq. congruence.
  - intros Hnl. rewrite Hun. apply not_listed_spec in Hnl. now rewrite Hnl.
  - rewrite Hw1. cbv zeta.
    destruct (has_unsubscribe to w), (rpc_checks_argument_names env);
      reflexivity.
  - rewrite Hw1. cbv zeta.
    destruct (has_unsubscribe to w), (rpc_checks_argument_names env);
      reflexivity.
Qed.

Lemma complaint_stops_later_sends_witness :
  let complaint :=
    mkWebhookRequest
      (Some (mkPayload "email.complained" "re_1" ["ana@acme.io"] None None))
      (Returned true) in
  let w1 := snd (ResendWebhookRoute.POST Sample.env complaint Sample.one_sent) in
  map un_source (unsubscribes w1) = ["complaint"]
  /\ fst (EmailSendRoute.POST (fun html _ _ _ => html) Sample.env
            (Sample.signed (Sample.job_for "cl-7" "ana@acme.io")) w1)
     = mkResponse 200 (SendSkipped "unsubscribed").
Proof.
  intros complaint w1.
  assert (Hadm : webhook_admitted Sample.env complaint) by (now left).
  assert (Hnd : NoDup (map cl_id (campaign_leads Sample.one_sent)))
    by (cbn; repeat constructor; cbn; intuition discriminate).
  assert (Hid : identifies "re_1" Sample.one_sent
                  (Sample.recipient "cl-1" "lead-1" "sent" (Some "re_1"))).
  { split; [now left|]. split; [reflexivity|].
    intros r [Hr|[]] _. now subst r. }
  assert (Hadm' : admitted Sample.env
                    (Sample.signed (Sample.job_for "cl-7" "ana@acme.io"))).
  { right. exists "v1-signature". split; [reflexivity | discriminate]. }
  destruct (complaint_stops_later_sends (fun html _ _ _ => html)
              Sample.env Sample.env complaint
              (mkPayload "email.complained" "re_1" ["ana@acme.io"] None None)
              _ Sample.one_sent "ana@acme.io" []
              (Sample.signed (Sample.job_for "cl-7" "ana@acme.io"))
              (Sample.job_for "cl-7" "ana@acme.io")
              Hadm eq_refl eq_refl eq_refl Hnd Hid (NoDup_nil _)
              (fun u (H : In u []) => match H with end)
              eq_refl eq_refl Hadm')
    as (_ & H2 & _ & _ & H5 & _).
  fold w1 in H2, H5. split; [|exact H5].
  rewrite H2; [reflexivity|]. intros u [].
Defined.

(** X15: the signature test of the webhook.  With a secret configured
    and in production, a request whose signature is not the expected
    one is answered 401, and one for which the comparison throws (the
    digests differ in length) is answered 500; in both cases nothing is
    written.  Without a secret, or outside production, the signature is
    not looked at. *)
Theorem webhook_signature_gate env w request :
  (Js.or_string (RESEND_WEBHOOK_SECRET env) "" <> "" ->
   NODE_ENV env = "production" ->
   (signature_check request = Returned false ->
    ResendWebhookRoute.POST env request w
    = (mkResponse 401 (ErrorBody "Invalid signature"), w))
   /\ (forall e, signature_check request = Thrown e ->
         ResendWebhookRoute.POST env request w
         = (mkResponse 500 (ErrorBody "Webhook processing failed"), w)))
  /\ (Js.or_string (RESEND_WEBHOOK_SECRET env) "" = ""
      \/ NODE_ENV env <> "production" ->
      forall check,
        ResendWebhookRoute.POST env (mkWebhookRequest (payload request) check) w
        = ResendWebhookRoute.POST env request w).
Proof.
  split.
  - intros Hs Hp. apply String.eqb_neq in Hs.
    unfold ResendWebhookRoute.POST. cbv zeta. rewrite Hs, Hp. cbn [negb andb].
    change ("production" =? "production")%string with true. cbv iota.
    split.
    + intros H. rewrite H. reflexivity.
    + intros e H. rewrite H. reflexivity.
  - intros H check.
    assert (H1 : webhook_admitted env request)
      by (destruct H; [now left | right; now left]).
    assert (H2 : webhook_admitted env
                   (mkWebhookRequest (payload request) check))
      by (destruct H; [now left | right; now left]).
    rewrite (webhook_after_gate env _ w H1), (webhook_after_gate env _ w H2).
    reflexivity.
Qed.

Lemma webhook_signature_gate_witness :
  let env := mkEnv "production" None (Some "whsec") 0 10 30 2
               (fun _ => false) (fun _ => ResendData "re_1") "tok" "uuid"
               true in
  ResendWebhookRoute.POST env
    (mkWebhookRequest (payload Sample.opened_event) (Returned false))
    Sample.one_sent
  = (mkResponse 401 (ErrorBody "Invalid signature"), Sample.one_sent)
  /\ ResendWebhookRoute.POST Sample.env
       (mkWebhookRequest (payload Sample.opened_event) (Returned false))
       Sample.one_sent
     = ResendWebhookRoute.POST Sample.env Sample.opened_event Sample.one_sent.
Proof.
  intros env. split.
  - destruct (webhook_signature_gate env Sample.one_sent
                (mkWebhookRequest (payload Sample.opened_event)
                   (Returned false))) as [H _].
    destruct H as [H _]; [cbn; discriminate | reflexivity |].
    apply H. reflexivity.
  - destruct (webhook_signature_gate Sample.env Sample.one_sent
                Sample.opened_event) as [_ H].
    apply H. now left.
Defined.

(* ================================================================== *)
(** * Warm-up: the schedule and the rows a run leaves alone            *)
(* ================================================================== *)

(** X16: the limit of the schedule.  From elapsed day 1 on the limit
    derived for a day never exceeds the target nor 1000, it does not
    decrease from one day to a later one, and from day 45 on it is the
    target, or 1000 when the target is higher; for a target of at least
    10 it is at least 10. *)
Theorem expected_limit_grows_to_target (day day' target : Z) :
  1 <= day -> day <= day' ->
  getExpectedLimit day target <= getExpectedLimit day' target
  /\ getExpectedLimit day target <= Z.min 1000 target
  /\ (45 <= day -> getExpectedLimit day target = Z.min 1000 target)
  /\ (10 <= target -> 10 <= getExpectedLimit day target).
Proof.
  intros H1 H2. unfold getExpectedLimit.
  cbn [WARMUP_SCHEDULE rev app find fst snd].
  split; [|split; [|split]].
  - split_schedule; lia.
  - split_schedule; lia.
  - intros H. split_schedule; lia.
  - intros H. split_schedule; lia.
Qed.

Lemma expected_limit_grows_to_target_witness :
  getExpectedLimit 7 200 <= getExpectedLimit 30 200
  /\ getExpectedLimit 60 200 = 200.
Proof.
  destruct (expected_limit_grows_to_target 7 30 200 ltac:(lia) ltac:(lia))
    as (H1 & _).
  destruct (expected_limit_grows_to_target 60 60 200 ltac:(lia) ltac:(lia))
    as (_ & _ & H3 & _).
  split; [exact H1|]. rewrite H3 by lia. reflexivity.
Defined.

Lemma progress_each_world env : forall acts n w,
  snd (progress_each env acts n w)
  = set_domain_warmup (domain_warmup (snd (progress_each env acts n w))) w.
Proof.
  induction acts as [|a acts IH]; intros n w.
  - cbn. now destruct w.
  - cbn [progress_each]. unfold bind, update_warmup, modify.
    match goal with
    | |- context [progress_each env acts ?m ?x] =>
        rewrite (IH m x) at 1
    end.
    reflexivity.
Qed.

Lemma handler_rows env w :
  NoDup (map dw_id (domain_warmup w)) ->
  snd (handler env w)
  = set_domain_warmup
      (map (fun x => if (dw_status x =? "active")%string
                     then write (decide env x) x else x)
           (domain_warmup w)) w.
Proof.
  intros Hnd.
  assert (Hex : forall x, In x (domain_warmup w) ->
            existsb (fun a => (dw_id a =? dw_id x)%string) (active_warmups w)
            = (dw_status x =? "active")%string).
  { intros x Hx. destruct (dw_status x =? "active")%string eqn:Es.
    - apply existsb_exists. exists x. split.
      + apply filter_In. auto.
      + apply String.eqb_refl.
    - apply not_true_is_false. intros H. apply existsb_exists in H.
      destruct H as (a & Ha & He). apply filter_In in Ha.
      destruct Ha as [Ha1 Ha2]. apply String.eqb_eq in He.
      assert (a = x)
        by (apply (same_key_same_row dw_id (domain_warmup w)); assumption).
      subst a. congruence. }
  destruct (progress_each_rows env (active_warmups w) 0 w Hnd) as [H1 H2].
  { now apply NoDup_map_filter. }
  { intros x Hx. apply filter_In in Hx. tauto. }
  unfold handler, respond, bind, gets. fold (active_warmups w).
  destruct (active_warmups w) as [|a acts] eqn:Ea.
  - cbn [snd ret].
    assert (Hid : map (fun x => if (dw_status x =? "active")%string
                                then write (decide env x) x else x)
                    (domain_warmup w) = domain_warmup w).
    { rewrite <- (map_id (domain_warmup w)) at 2. apply map_ext_in.
      intros x Hx. rewrite <- (Hex x Hx). reflexivity. }
    rewrite Hid. now destruct w.
  - pose proof (progress_each_world env (a :: acts) 0 w) as Hw.
    destruct (progress_each env (a :: acts) 0 w) as [[p|e] w'] eqn:Ep;
      [|discriminate H2].
    unfold ret. cbn [snd] in *. rewrite Hw, H1. f_equal.
    apply map_ext_in. intros x Hx. now rewrite (Hex x Hx).
Qed.

(** X17: a run of the warm-up job writes to the rows of [domain_warmup]
    whose status is "active" and to nothing else.  A row that is
    "paused" or "completed" is left exactly as it is; so a domain that
    one run pauses or completes is not touched by the next run. *)
Theorem warmup_run_leaves_inactive_rows env env' w r :
  NoDup (map dw_id (domain_warmup w)) ->
  In r (domain_warmup w) ->
  let w1 := snd (handler env w) in
  let w2 := snd (handler env' w1) in
  w1 = set_domain_warmup (domain_warmup w1) w
  /\ map dw_id (domain_warmup w1) = map dw_id (domain_warmup w)
  /\ (dw_status r <> "active" -> warmup_row (dw_id r) w1 = Some r)
  /\ (forall r1, warmup_row (dw_id r) w1 = Some r1 ->
        dw_status r1 <> "active" -> warmup_row (dw_id r) w2 = Some r1).
Proof.
  intros Hnd Hin w1 w2.
  assert (Hkey : forall e x, dw_id (if (dw_status x =? "active")%string
                                    then write (decide e x) x else x)
                             = dw_id x).
  { intros e x. destruct (dw_status x =? "active")%string; reflexivity. }
  assert (Hrow : forall e x v, NoDup (map dw_id (domain_warmup v)) ->
            In x (domain_warmup v) -> dw_status x <> "active" ->
            warmup_row (dw_id x) (snd (handler e v)) = Some x).
  { intros e x v Hv Hx Hs. rewrite (handler_rows e v Hv).
    unfold warmup_row. cbn [domain_warmup set_domain_warmup].
    rewrite (find_map_key dw_id _ _ _ (Hkey e)).
    rewrite (find_key_unique dw_id _ _ Hv Hx). cbn [option_map].
    apply String.eqb_neq in Hs. now rewrite Hs. }
  assert (Hids : map dw_id (domain_warmup w1) = map dw_id (domain_warmup w)).
  { subst w1. rewrite (handler_rows env w Hnd).
    cbn [domain_warmup set_domain_warmup].
    apply (map_key_preserved dw_id _ _ (Hkey env)). }
  split; [|split; [exact Hids|split]].
  - subst w1. rewrite (handler_rows env w Hnd). reflexivity.
  - intros Hs. now apply Hrow.
  - intros r1 Hr1 Hs.
    assert (Hin1 : In r1 (domain_warmup w1)).
    { unfold warmup_row in Hr1. apply find_some in Hr1. tauto. }
    assert (Hid1 : dw_id r1 = dw_id r).
    { unfold warmup_row in Hr1. apply find_some in Hr1.
      destruct Hr1 as [_ E]. now apply String.eqb_eq in E. }
    rewrite <- Hid1. apply Hrow; auto. now rewrite Hids.
Qed.

Lemma warmup_run_leaves_inactive_rows_witness :
  let w1 := snd (handler Sample.env Sample.bouncing) in
  let w2 := snd (handler Sample.evening w1) in
  exists r1, warmup_row "dw-1" w1 = Some r1
             /\ dw_status r1 = "paused"
             /\ warmup_row "dw-1" w2 = Some r1.
Proof.
  intros w1 w2.
  assert (Hnd : NoDup (map dw_id (domain_warmup Sample.bouncing)))
    by (cbn; repeat constructor; cbn; intuition discriminate).
  assert (Hin : In (Sample.warmup "dw-1" 10 1000 1765362600000 60 58 2)
                  (domain_warmup Sample.bouncing)) by (now left).
  destruct (warmup_run_leaves_inactive_rows Sample.env Sample.evening
              Sample.bouncing _ Hnd Hin) as (_ & _ & _ & H).
  cbn [dw_id Sample.warmup] in H. fold w1 in H. fold w2 in H.
  eexists. split; [reflexivity|]. split; [reflexivity|].
  apply H; [reflexivity | discriminate].
Defined.

(** X18: the limit moves towards the target.  For an active row whose
    limit is not above its target, a run never lowers the limit and
    never raises it above the target - except at elapsed day 0, where
    the flat starting limit 10 applies; the target itself and the
    counters of the row are never written. *)
Theorem warmup_limit_moves_towards_target env w r :
  NoDup (map dw_id (domain_warmup w)) ->
  In r (domain_warmup w) ->
  dw_status r = "active" ->
  current_daily_limit r <= target_daily_limit r ->
  exists r',
    warmup_row (dw_id r) (snd (handler env w)) = Some r'
    /\ current_daily_limit r <= current_daily_limit r'
    /\ current_daily_limit r' <= Z.max (target_daily_limit r) 10
    /\ (now env <> warmup_started_at r ->
        current_daily_limit r' <= target_daily_limit r)
    /\ target_daily_limit r' = target_daily_limit r
    /\ total_sent r' = total_sent r
    /\ total_delivered r' = total_delivered r
    /\ total_bounced r' = total_bounced r
    /\ warmup_started_at r' = warmup_started_at r.
Proof.
  intros Hnd Hin Hst Hle.
  exists (write (decide env r) r). split; [now apply handler_row|].
  assert (Hday : now env <> warmup_started_at r ->
                 1 <= calculateDaysSinceStart env (warmup_started_at r)).
  { intros Hne. unfold calculateDaysSinceStart, Js.ceil_div.
    pose proof (Z.div_mod (- Z.abs (now env - warmup_started_at r))
                  (1000 * 60 * 60 * 24) ltac:(lia)) as E.
    pose proof (Z.mod_pos_bound (- Z.abs (now env - warmup_started_at r))
                  (1000 * 60 * 60 * 24) ltac:(lia)) as B.
    lia. }
  assert (Hexp : forall day, getExpectedLimit day (target_daily_limit r)
                             <= Z.max (target_daily_limit r) 10
                 /\ (1 <= day -> getExpectedLimit day (target_daily_limit r)
                                 <= target_daily_limit r)).
  { intros day. rewrite getExpectedLimit_spec.
    destruct (Z.leb_spec 1 day); split; lia. }
  cbn [write current_daily_limit target_daily_limit total_sent
       total_delivered total_bounced warmup_started_at].
  unfold decide. cbv zeta.
  destruct (Hexp (calculateDaysSinceStart env (warmup_started_at r)))
    as [Hx1 Hx2].
  destruct (negb (isHealthy r)); cbn [new_current_daily_limit].
  { repeat split; lia. }
  destruct (Z.leb_spec (target_daily_limit r) (current_daily_limit r));
    cbn [new_current_daily_limit].
  { repeat split; lia. }
  destruct (Z.ltb_spec (current_daily_limit r)
              (getExpectedLimit
                 (calculateDaysSinceStart env (warmup_started_at r))
                 (target_daily_limit r))); cbn [new_current_daily_limit].
  - repeat split; lia.
  - repeat split; lia.
Qed.

Lemma warmup_limit_moves_towards_target_witness :
  exists r',
    warmup_row "dw-1"
      (snd (handler Sample.env
              (Sample.world [] [] []
                 [Sample.warmup "dw-1" 10 1000 1765362600000 0 0 0])))
    = Some r'
    /\ 10 <= current_daily_limit r' <= 1000.
Proof.
  set (r := Sample.warmup "dw-1" 10 1000 1765362600000 0 0 0).
  destruct (warmup_limit_moves_towards_target Sample.env
              (Sample.world [] [] [] [r]) r)
    as (r' & H1 & H2 & _ & H4 & _).
  - cbn. repeat constructor. intros [].
  - now left.
  - reflexivity.
  - cbn. lia.
  - exists r'. split; [exact H1|]. split; [exact H2|].
    apply H4. cbn. lia.
Defined.

(* ================================================================== *)
(** * The template engine on literal texts and placeholders            *)
(* ================================================================== *)

Import Segments.

Lemma take_word_all_word s : forall w r,
  take_word s = (w, r) -> all_word w = true.
Proof.
  induction s as [|c s IH]; simpl; intros w r H.
  - now inversion H.
  - destruct (is_word_char c) eqn:Ec.
    + destruct (take_word s) as [w' r'] eqn:E. inversion H; subst.
      simpl. rewrite Ec. now apply (IH w' r).
    + now inversion H.
Qed.

Lemma take_word_of_identifier key rest :
  all_word key = true ->
  take_word (key ++ String "}" rest) = (key, String "}" rest).
Proof.
  induction key as [|c key IH]; intros H.
  - reflexivity.
  - cbn [all_word] in H. apply andb_true_iff in H. destruct H as [Hc Hk].
    cbn [append take_word]. rewrite Hc, (IH Hk). reflexivity.
Qed.

Lemma match_token_identifier key rest :
  identifier key -> match_token (token key ++ rest) = Some (key, rest).
Proof.
  intros [Hne Hw]. unfold token. cbn [append match_token].
  rewrite string_app_assoc. cbn [append].
  rewrite (take_word_of_identifier key _ Hw).
  destruct key; [contradiction | reflexivity].
Qed.

Lemma match_token_captures_identifier s key rest :
  match_token s = Some (key, rest) -> identifier key.
Proof.
  unfold match_token.
  destruct s as [|c1 s]; [discriminate|].
  destruct c1 as [[] [] [] [] [] [] [] []]; try discriminate.
  destruct s as [|c2 s]; [discriminate|].
  destruct c2 as [[] [] [] [] [] [] [] []]; try discriminate.
  destruct (take_word s) as [w r] eqn:E.
  apply take_word_all_word in E.
  destruct w as [|cw w]; [discriminate|].
  destruct r as [|c3 r]; [discriminate|].
  destruct c3 as [[] [] [] [] [] [] [] []]; try discriminate.
  destruct r as [|c4 r]; [discriminate|].
  destruct c4 as [[] [] [] [] [] [] [] []]; try discriminate.
  intros H. inversion H; subst. split; [discriminate | exact E].
Qed.

Lemma match_token_no_brace c rest :
  Ascii.eqb c "{" = false -> match_token (String c rest) = None.
Proof.
  intros H. unfold match_token.
  destruct c as [[] [] [] [] [] [] [] []]; try reflexivity.
  discriminate H.
Qed.

Lemma replaceVariables_literal text rest variables :
  no_open_brace text = true ->
  replaceVariables (text ++ rest) variables
  = text ++ replaceVariables rest variables.
Proof.
  induction text as [|c text IH]; intros H; [reflexivity|].
  cbn [no_open_brace] in H. apply andb_true_iff in H. destruct H as [Hc Ht].
  apply negb_true_iff in Hc.
  unfold replaceVariables in *. cbn [append String.length replace_scan].
  rewrite (match_token_no_brace c _ Hc). f_equal. now apply IH.
Qed.

Lemma match_all_fuel : forall n m text,
  (String.length text <= n)%nat -> (String.length text <= m)%nat ->
  match_all n text = match_all m text.
Proof.
  induction n as [|n IH]; intros m text Hn Hm.
  - destruct text; simpl in *; [destruct m; reflexivity | lia].
  - destruct text as [|c rest]; [destruct m; reflexivity|].
    destruct m as [|m]; [simpl in Hm; lia|].
    cbn [match_all].
    destruct (match_token (String c rest)) as [[key rest']|] eqn:E.
    + apply match_token_shorter in E. f_equal.
      apply IH; simpl in *; lia.
    + apply IH; simpl in *; lia.
Qed.

Lemma matches_literal text rest :
  no_open_brace text = true -> matches (text ++ rest) = matches rest.
Proof.
  induction text as [|c text IH]; intros H; [reflexivity|].
  cbn [no_open_brace] in H. apply andb_true_iff in H. destruct H as [Hc Ht].
  apply negb_true_iff in Hc.
  unfold matches in *. cbn [append String.length match_all].
  rewrite (match_token_no_brace c _ Hc). now apply IH.
Qed.

Lemma matches_token key rest :
  identifier key -> matches (token key ++ rest) = token key :: matches rest.
Proof.
  intros H. pose proof (match_token_identifier key rest H) as Hm.
  unfold matches.
  assert (Hlen : exists n, String.length (token key ++ rest)
                           = S (n + String.length rest)).
  { exists (3 + String.length key)%nat. unfold token.
    rewrite !string_app_length. simpl. lia. }
  destruct Hlen as [n Hn]. rewrite Hn.
  unfold token in *. cbn [append match_all]. cbn [append] in Hm.
  rewrite Hm. f_equal. apply match_all_fuel; lia.
Qed.

Lemma identifier_no_brace key : identifier key -> strip_braces key = key.
Proof.
  intros [_ H]. induction key as [|c key IH]; [reflexivity|].
  cbn [all_word] in H. apply andb_true_iff in H. destruct H as [Hc Hk].
  cbn [strip_braces].
  assert (Hb : (Ascii.eqb c "{" || Ascii.eqb c "}")%bool = false).
  { destruct (Ascii.eqb c "{") eqn:E1.
    - apply Ascii.eqb_eq in E1. subst c. discriminate Hc.
    - destruct (Ascii.eqb c "}") eqn:E2; [|reflexivity].
      apply Ascii.eqb_eq in E2. subst c. discriminate Hc. }
  rewrite Hb. f_equal. now apply IH.
Qed.

(** X19: substitution is compositional.  For a template written as
    literal texts without an opening brace and placeholders [{{key}}]
    whose key is a run of word characters, [replaceVariables] gives the
    literal texts unchanged and, for each placeholder independently of
    the others, what the callback returns for its key: the value when
    it is truthy, the placeholder itself when not.  [extractVariables]
    gives the keys of the placeholders, each once, in the order of
    their first occurrence. *)
Theorem template_engine_on_segments segs variables :
  Forall well_formed segs ->
  replaceVariables (render segs) variables = substitute variables segs
  /\ extractVariables (render segs) = unique [] (placeholders segs).
Proof.
  intros H. split.
  - induction H as [|seg segs Hseg Hsegs IH]; [reflexivity|].
    destruct seg as [text|key]; cbn [render substitute well_formed] in *.
    + rewrite (replaceVariables_literal text _ variables Hseg).
      now rewrite IH.
    + rewrite (replaceVariables_token key _ variables
                 (match_token_identifier key _ Hseg)).
      now rewrite IH.
  - unfold extractVariables. fold (matches (render segs)). f_equal.
    induction H as [|seg segs Hseg Hsegs IH]; [reflexivity|].
    destruct seg as [text|key]; cbn [render placeholders well_formed] in *.
    + now rewrite (matches_literal text _ Hseg).
    + rewrite (matches_token key _ Hseg). cbn [map].
      rewrite (strip_braces_token key (identifier_no_brace key Hseg)).
      now rewrite IH.
Qed.

Lemma template_engine_on_segments_witness :
  let segs := [ Literal "Hi "; Placeholder "firstName"; Literal ", from ";
                Placeholder "company"; Literal " "; Placeholder "firstName" ]
  in
  replaceVariables (render segs) (buildVariables Sample.ana)
  = "Hi Ana, from Acme Ana"
  /\ extractVariables (render segs) = ["firstName"; "company"].
Proof.
  intros segs.
  destruct (template_engine_on_segments segs (buildVariables Sample.ana))
    as [H1 H2].
  - repeat constructor; discriminate.
  - rewrite H1, H2. split; reflexivity.
Defined.


Lemma unique_sound : forall xs seen x,
  In x (unique seen xs) ->
  In x xs /\ existsb (String.eqb x) seen = false.
Proof.
  induction xs as [|y ys IH]; intros seen x H; [destruct H|].
  cbn [unique] in H. destruct (existsb (String.eqb y) seen) eqn:E.
  - destruct (IH seen x H) as [H1 H2]. split; [now right | exact H2].
  - destruct H as [H|H].
    + subst y. split; [now left | exact E].
    + destruct (IH (y :: seen) x H) as [H1 H2]. split; [now right|].
      cbn [existsb] in H2. apply orb_false_iff in H2. tauto.
Qed.

Lemma unique_NoDup : forall xs seen, NoDup (unique seen xs).
Proof.
  induction xs as [|y ys IH]; intros seen; [constructor|].
  cbn [unique]. destruct (existsb (String.eqb y) seen); [apply IH|].
  constructor; [|apply IH]. intros H.
  apply unique_sound in H. destruct H as [_ H]. cbn [existsb] in H.
  now rewrite String.eqb_refl in H.
Qed.

Lemma match_all_occurrences : forall fuel text m,
  In m (match_all fuel text) ->
  exists key before after,
    m = token key /\ identifier key
    /\ text = before ++ token key ++ after.
Proof.
  induction fuel as [|fuel IH]; intros text m H.
  - destruct text; destruct H.
  - destruct text as [|c rest]; [destruct H|].
    cbn [match_all] in H.
    destruct (match_token (String c rest)) as [[key rest']|] eqn:E.
    + pose proof (match_token_captures_identifier _ _ _ E) as Hid.
      apply match_token_sound in E. destruct E as [E _].
      destruct H as [H|H].
      * exists key, "", rest'. subst m.
        split; [reflexivity|]. split; [exact Hid | exact E].
      * destruct (IH rest' m H) as (k & b & a & H1 & H2 & H3).
        exists k, (token key ++ b), a.
        split; [exact H1|]. split; [exact H2|].
        rewrite E, H3. now rewrite string_app_assoc.
    + destruct (IH rest m H) as (k & b & a & H1 & H2 & H3).
      exists k, (String c b), a.
      split; [exact H1|]. split; [exact H2|].
      cbn [append]. now rewrite H3.
Qed.

(** X20: the variables of a template.  [extractVariables] never lists a
    name twice, and every name it lists is a non-empty run of word
    characters that occurs in the template between double braces. *)
Theorem extractVariables_distinct_identifiers template :
  NoDup (extractVariables template)
  /\ forall key, In key (extractVariables template) ->
       identifier key
       /\ exists before after, template = before ++ token key ++ after.
Proof.
  split; [apply unique_NoDup|].
  intros key H. unfold extractVariables in H. apply unique_sound in H.
  destruct H as [H _]. apply in_map_iff in H. destruct H as (m & Hm & Hin).
  destruct (match_all_occurrences _ _ _ Hin) as (k & b & a & H1 & H2 & H3).
  subst m. rewrite (strip_braces_token k (identifier_no_brace k H2)) in Hm.
  subst k. split; [exact H2|]. now exists b, a.
Qed.

Lemma or_string_default x d : d <> "" -> Js.or_string x d <> "".
Proof.
  intros Hd. unfold Js.or_string. destruct x as [s|]; [|exact Hd].
  destruct (String.eqb_spec s ""); [exact Hd | assumption].
Qed.

(** X21: the placeholders with a default.  Whatever the lead holds, the
    placeholders [{{firstName}}], [{{fullName}}], [{{company}}] and
    [{{industry}}] are always replaced by a non-empty text: the field of
    the lead, or "there", "your company", "your industry" when the
    field is missing or empty. *)
Theorem placeholders_with_default_are_replaced lead key :
  In key ["firstName"; "fullName"; "company"; "industry"] ->
  exists value,
    own_property key (buildVariables lead) = Some value
    /\ value <> ""
    /\ (forall rest,
          replaceVariables (token key ++ rest) (buildVariables lead)
          = value ++ replaceVariables rest (buildVariables lead))
    /\ (key = "firstName" -> value = Js.or_string (first_name lead) "there")
    /\ (key = "company" ->
        value = Js.or_string (company_name lead) "your company")
    /\ (key = "industry" ->
        value = Js.or_string (industry lead) "your industry").
Proof.
  intros H.
  assert (Hrep : forall k value,
            identifier k ->
            own_property k (buildVariables lead) = Some value ->
            value <> "" ->
            forall rest,
              replaceVariables (token k ++ rest) (buildVariables lead)
              = value ++ replaceVariables rest (buildVariables lead)).
  { intros k value Hid Hown Hne rest.
    rewrite (replaceVariables_token k rest _
               (match_token_identifier k rest Hid)).
    unfold replacement, get. rewrite Hown. cbn [Js.truthy Js.ToString].
    destruct value; [contradiction | reflexivity]. }
  cbn [In] in H. destruct H as [H|[H|[H|[H|[]]]]]; subst key.
  - exists (Js.or_string (first_name lead) "there").
    assert (Hne : Js.or_string (first_name lead) "there" <> "")
      by (apply or_string_default; discriminate).
    split; [reflexivity|]. split; [exact Hne|]. split.
    + apply Hrep; [split; [discriminate | reflexivity] | reflexivity | exact Hne].
    + repeat split; intros; discriminate.
  - eexists.
    split; [reflexivity|].
    match goal with
    | |- ?v <> "" /\ _ =>
        assert (Hne : v <> "") by (apply or_string_default; discriminate)
    end.
    split; [exact Hne|]. split.
    + apply Hrep; [split; [discriminate | reflexivity] | reflexivity | exact Hne].
    + repeat split; intros; discriminate.
  - exists (Js.or_string (company_name lead) "your company").
    assert (Hne : Js.or_string (company_name lead) "your company" <> "")
      by (apply or_string_default; discriminate).
    split; [reflexivity|]. split; [exact Hne|]. split.
    + apply Hrep; [split; [discriminate | reflexivity] | reflexivity | exact Hne].
    + repeat split; intros; discriminate.
  - exists (Js.or_string (industry lead) "your industry").
    assert (Hne : Js.or_string (industry lead) "your industry" <> "")
      by (apply or_string_default; discriminate).
    split; [reflexivity|]. split; [exact Hne|]. split.
    + apply Hrep; [split; [discriminate | reflexivity] | reflexivity | exact Hne].
    + repeat split; intros; discriminate.
Qed.

Lemma placeholders_with_default_are_replaced_witness :
  replaceVariables "{{company}} and {{industry}}"
    (buildVariables
       (mkLead "lead-9" "zoe@acme.io" None None None None None None "new"))
  = "your company and your industry".
Proof.
  set (lead := mkLead "lead-9" "zoe@acme.io" None None None None None None
                 "new").
  destruct (placeholders_with_default_are_replaced lead "company")
    as (v & _ & _ & H3 & _ & H5 & _); [cbn; auto|].
  change "{{company}} and {{industry}}"
    with (token "company" ++ " and {{industry}}").
  rewrite (H3 " and {{industry}}"), (H5 eq_refl). reflexivity.
Defined.

(* ================================================================== *)
(** * Messages in batches                                              *)
(* ================================================================== *)

Import QStashBatch.

Lemma slice_forward {A} (array : list A) (i size : Z) :
  0 <= i -> 0 <= size ->
  slice array i (i + size)
  = firstn (Z.to_nat size) (skipn (Z.to_nat i) array).
Proof.
  intros Hi Hs. unfold slice. cbv zeta.
  destruct (Z.ltb_spec i 0); [lia|].
  destruct (Z.ltb_spec (i + size) 0); [lia|].
  remember (Z.of_nat (List.length array)) as len eqn:El.
  destruct (Z.le_gt_cases len i) as [Hl|Hl].
  - rewrite (Z.min_r i len) by lia.
    rewrite !skipn_all2 by lia. now rewrite !firstn_nil.
  - rewrite (Z.min_l i len) by lia.
    destruct (Z.le_gt_cases (i + size) len) as [Hm|Hm].
    + rewrite Z.min_l by lia. f_equal. lia.
    + rewrite Z.min_r by lia.
      rewrite !firstn_all2; [reflexivity | |]; rewrite length_skipn; lia.
Qed.

Lemma chunk_from_ends {A} (size : Z) (array : list A) :
  0 < size ->
  forall fuel i,
    0 <= i ->
    (List.length array - Z.to_nat i <= fuel)%nat ->
    exists chunks,
      chunk_from fuel array size i = Some chunks
      /\ List.concat chunks = skipn (Z.to_nat i) array
      /\ Forall (fun c => (0 < List.length c)%nat
                          /\ Z.of_nat (List.length c) <= size) chunks
      /\ Forall (fun c => Z.of_nat (List.length c) = size)
           (removelast chunks).
Proof.
  intros Hs. induction fuel as [|fuel IH]; intros i Hi Hf.
  - cbn [chunk_from]. destruct (Z.ltb_spec i (Z.of_nat (List.length array))).
    + lia.
    + exists []. rewrite skipn_all2 by lia. repeat split; constructor.
  - cbn [chunk_from]. destruct (Z.ltb_spec i (Z.of_nat (List.length array))).
    2:{ exists []. rewrite skipn_all2 by lia. repeat split; constructor. }
    destruct (IH (i + size)) as (chunks & Hc & Hcat & Hall & Hfull);
      [lia | lia |].
    rewrite Hc. cbn [option_map]. eexists. split; [reflexivity|].
    rewrite (slice_forward array i size) by lia.
    assert (Hlen : List.length (firstn (Z.to_nat size)
                                  (skipn (Z.to_nat i) array))
                   = Nat.min (Z.to_nat size)
                       (List.length array - Z.to_nat i)).
    { now rewrite length_firstn, length_skipn. }
    split; [|split].
    + cbn [List.concat]. rewrite Hcat.
      replace (Z.to_nat (i + size)) with (Z.to_nat size + Z.to_nat i)%nat
        by lia.
      rewrite <- skipn_skipn. apply firstn_skipn.
    + constructor; [|exact Hall]. rewrite Hlen. lia.
    + destruct chunks as [|c chunks]; [constructor|].
      cbn [removelast]. constructor; [|exact Hfull].
      rewrite Hlen.
      assert (i + size < Z.of_nat (List.length array)).
      { cbn [chunk_from] in Hc.
        destruct fuel; cbn [chunk_from] in Hc;
          destruct (Z.ltb_spec (i + size) (Z.of_nat (List.length array)));
          try lia; discriminate. }
      lia.
Qed.

Lemma chunk_from_never_ends {A} (size : Z) (array : list A) :
  size <= 0 ->
  forall fuel i, i < Z.of_nat (List.length array) ->
                 chunk_from fuel array size i = None.
Proof.
  intros Hs. induction fuel as [|fuel IH]; intros i Hi; cbn [chunk_from];
    destruct (Z.ltb_spec i (Z.of_nat (List.length array))); try lia.
  - reflexivity.
  - rewrite IH by lia. reflexivity.
Qed.

(** X22: [chunk] cuts an array into consecutive pieces.  For a positive
    size the loop ends within as many iterations as the array has
    elements; the concatenation of the chunks is the array, no chunk is
    empty or longer than the size, and every chunk but the last has
    exactly the size.  For a size of 0 or below and an array that is
    not empty the loop never ends. *)
Theorem chunk_pieces {A : Type} (array : list A) (size : Z) :
  (0 < size ->
   exists chunks,
     chunk (List.length array) array size = Some chunks
     /\ List.concat chunks = array
     /\ Forall (fun c => (0 < List.length c)%nat
                         /\ Z.of_nat (List.length c) <= size) chunks
     /\ Forall (fun c => Z.of_nat (List.length c) = size)
          (removelast chunks))
  /\ (size <= 0 -> array <> [] ->
      forall fuel, chunk fuel array size = None).
Proof.
  split.
  - intros Hs. unfold chunk.
    destruct (chunk_from_ends size array Hs (List.length array) 0)
      as (chunks & H1 & H2 & H3 & H4); [lia | lia |].
    exists chunks. auto.
  - intros Hs Hne fuel. unfold chunk. apply chunk_from_never_ends; [exact Hs|].
    destruct array; [contradiction | cbn [List.length]; lia].
Qed.

Lemma chunk_pieces_witness :
  chunk 5 [1; 2; 3; 4; 5] 2 = Some [[1; 2]; [3; 4]; [5]]
  /\ chunk 100 [1; 2; 3] 0 = None.
Proof.
  destruct (chunk_pieces [1; 2; 3] 0) as [_ H].
  split; [reflexivity|].
  apply H; [lia | discriminate].
Defined.


Lemma map_index_nth {A B} (f : A -> Z -> B) : forall l k i,
  nth_error (map_index f k l) i
  = option_map (fun x => f x (k + Z.of_nat i)) (nth_error l i).
Proof.
  induction l as [|x l IH]; intros k i.
  - destruct i; reflexivity.
  - destruct i as [|i]; cbn [map_index nth_error option_map].
    + f_equal. f_equal. lia.
    + rewrite IH. destruct (nth_error l i); cbn [option_map]; [|reflexivity].
      f_equal. f_equal. lia.
Qed.

Lemma send_batches_accepted rejects : forall batches queue,
  (forall b, In b batches -> rejects b = false) ->
  send_batches rejects batches queue = (Returned tt, (queue ++ batches)%list).
Proof.
  induction batches as [|b batches IH]; intros queue H; cbn [send_batches].
  - now rewrite app_nil_r.
  - rewrite (H b (or_introl eq_refl)). rewrite IH.
    + now rewrite <- app_assoc.
    + intros x Hx. apply H. now right.
Qed.

Lemma send_batches_rejected rejects : forall pre b post queue,
  (forall x, In x pre -> rejects x = false) ->
  rejects b = true ->
  send_batches rejects (pre ++ b :: post) queue
  = (Thrown "QStash batch failed", (queue ++ pre)%list).
Proof.
  induction pre as [|p pre IH]; intros b post queue Hpre Hb;
    cbn [send_batches app].
  - rewrite Hb. now rewrite app_nil_r.
  - rewrite (Hpre p (or_introl eq_refl)). rewrite IH; auto.
    + now rewrite <- app_assoc.
    + intros x Hx. apply Hpre. now right.
Qed.

(** X23: [queueEmailBatch] hands every job to the queue, in the order of
    the jobs and in batches of at most 100 messages; the message of the
    job at position i carries the delay [startDelay + i * delayBetween]
    (a missing [startDelay] counts as 0).  When the queue refuses a
    batch, the batches before it stay enqueued, no later batch is sent
    and the exception leaves the function. *)
Theorem queueEmailBatch_batches env rejects jobs delayBetween startDelay queue :
  exists batches,
    List.concat batches = messages env jobs delayBetween startDelay
    /\ Forall (fun b => (0 < List.length b <= 100)%nat) batches
    /\ (forall i job, nth_error jobs i = Some job ->
          exists m, nth_error (List.concat batches) i = Some m
                    /\ body m = job
                    /\ destination m
                       = getBaseUrl env ++ "/api/jobs/email-send"
                    /\ delay m
                       = match startDelay with Some s => s | None => 0 end
                         + Z.of_nat i * delayBetween)
    /\ ((forall b, In b batches -> rejects b = false) ->
        queueEmailBatch env rejects jobs delayBetween startDelay queue
        = Some (Returned tt, (queue ++ batches)%list))
    /\ (forall pre b post,
          batches = (pre ++ b :: post)%list ->
          (forall x, In x pre -> rejects x = false) ->
          rejects b = true ->
          queueEmailBatch env rejects jobs delayBetween startDelay queue
          = Some (Thrown "QStash batch failed", (queue ++ pre)%list)).
Proof.
  destruct (chunk_from_ends 100 (messages env jobs delayBetween startDelay)
              ltac:(lia)
              (List.length (messages env jobs delayBetween startDelay)) 0)
    as (batches & Hc & Hcat & Hall & _); [lia | lia |].
  cbn [Z.to_nat skipn] in Hcat.
  exists batches. split; [exact Hcat|]. split.
  { eapply Forall_impl; [|exact Hall]. intros b [H1 H2]. lia. }
  split.
  { intros i job Hjob. rewrite Hcat. unfold messages.
    rewrite map_index_nth, Hjob. cbn [option_map].
    eexists. split; [reflexivity|]. cbn [body destination delay].
    repeat split. }
  split.
  - intros H. unfold queueEmailBatch, chunk. cbv zeta. rewrite Hc.
    now rewrite send_batches_accepted.
  - intros pre b post Hb Hpre Hr. unfold queueEmailBatch, chunk. cbv zeta.
    rewrite Hc, Hb. now rewrite send_batches_rejected.
Qed.

(* ================================================================== *)
(** * The unsubscribe page                                             *)
(* ================================================================== *)

Import RowLevelSecurity UnsubscribePage.

(** X24: the unsubscribe link of a delivered mail.  After a send job
    whose mail the provider accepted and whose lead and campaign are
    still stored, the token of the mail's
    unsubscribe link is the token of the row that the job stored.  The
    page of that link writes nothing: a visitor who is not signed in
    can read no row and is shown "Invalid Link"; a signed-in visitor is
    shown "Already Unsubscribed" with the address.  In neither case is
    the status of the lead changed. *)
Theorem unsubscribe_link_of_a_delivered_mail
  process env request job w id role :
  json request = Some job ->
  admitted env request ->
  not_listed (job_to job) w ->
  token_unused (nanoid env) w ->
  references_stored job w ->
  provider_accepts env (job_to job) id ->
  let w1 := snd (EmailSendRoute.POST process env request w) in
  In (link_row env job) (unsubscribes w1)
  /\ UnsubscribePage role (nanoid env) w1
     = (match role with
        | anon => InvalidLink
        | authenticated => AlreadyUnsubscribed (job_to job)
        end, w1)
  /\ leads w1 = leads w.
Proof.
  intros Hjob Hadm Hnl Htok Href Hacc w1.
  destruct (send_job_accepted_world process env request job w id
              Hjob Hadm Hnl Htok Href Hacc) as (mail & _ & _ & _ & Hw).
  assert (Hun : unsubscribes w1 = (unsubscribes w ++ [link_row env job])%list)
    by (subst w1; rewrite Hw; reflexivity).
  assert (Hl : leads w1 = leads w) by (subst w1; rewrite Hw; reflexivity).
  split; [rewrite Hun; apply in_or_app; right; now left|].
  split; [|exact Hl].
  destruct role.
  - reflexivity.
  - unfold UnsubscribePage. cbv zeta. cbn [selectable]. rewrite Hun.
    rewrite filter_app. rewrite filter_nothing.
    + cbn [filter link_row un_token app]. rewrite String.eqb_refl.
      reflexivity.
    + intros u Hu. apply String.eqb_neq. now apply Htok.
Qed.

Lemma unsubscribe_link_of_a_delivered_mail_witness :
  let w := Sample.world [Sample.campaign 50 60]
             [Sample.recipient "cl-1" "lead-1" "queued" None] [] [] in
  let w1 := snd (EmailSendRoute.POST (fun html _ _ _ => html) Sample.env
                   (Sample.signed (Sample.job_for "cl-1" "ana@acme.io")) w) in
  UnsubscribePage anon "tok-nanoid" w1 = (InvalidLink, w1)
  /\ UnsubscribePage authenticated "tok-nanoid" w1
     = (AlreadyUnsubscribed "ana@acme.io", w1)
  /\ map lead_status (leads w1) = ["new"; "new"; "new"].
Proof.
  intros w w1.
  assert (Hadm : admitted Sample.env
                   (Sample.signed (Sample.job_for "cl-1" "ana@acme.io"))).
  { right. exists "v1-signature". split; [reflexivity | discriminate]. }
  assert (Hnl : not_listed "ana@acme.io" w) by (intros u []).
  assert (Htok : token_unused (nanoid Sample.env) w) by (intros u []).
  assert (Hacc : provider_accepts Sample.env "ana@acme.io" "re_1")
    by (intros o _; reflexivity).
  assert (Href : references_stored (Sample.job_for "cl-1" "ana@acme.io") w).
  { split; [exists Sample.ana | exists (Sample.campaign 50 60)];
      (split; [now left | reflexivity]). }
  pose proof (fun role =>
    unsubscribe_link_of_a_delivered_mail (fun html _ _ _ => html) Sample.env
      (Sample.signed (Sample.job_for "cl-1" "ana@acme.io"))
      (Sample.job_for "cl-1" "ana@acme.io") w "re_1" role
      eq_refl Hadm Hnl Htok Href Hacc) as H.
  cbv zeta in H. fold w1 in H.
  destruct (H anon) as (_ & Ha & Hl). destruct (H authenticated) as (_ & Hb & _).
  split; [exact Ha|]. split; [exact Hb|]. rewrite Hl. reflexivity.
Defined.

(** X25: unsubscribing by the identifier of a recipient.  For a visitor
    who is not signed in the page reads no row, shows "Invalid Link"
    and writes nothing, whatever the token.  For a signed-in visitor
    and a token that no unsubscribe row holds and that is the
    identifier of a recipient whose lead exists, the page sets the lead
    to "unsubscribed" and stores a row for the lead's address unless
    one is there; every later send job to that address is skipped
    without a call of the provider. *)
Theorem unsubscribe_by_recipient_identifier
  process env request job w cl lead :
  (forall token, UnsubscribePage anon token w = (InvalidLink, w))
  /\ (NoDup (map cl_id (campaign_leads w)) ->
      NoDup (map un_email (unsubscribes w)) ->
      In cl (campaign_leads w) ->
      lead_of w cl = Some lead ->
      token_unused (cl_id cl) w ->
      json request = Some job ->
      job_to job = email lead ->
      admitted env request ->
      let w1 := snd (UnsubscribePage authenticated (cl_id cl) w) in
      fst (UnsubscribePage authenticated (cl_id cl) w)
      = SuccessfullyUnsubscribed
      /\ leads w1
         = with_lead_status (cl_lead_id cl) "unsubscribed" (leads w)
      /\ has_unsubscribe (email lead) w1 = true
      /\ (not_listed (email lead) w ->
          unsubscribes w1
          = (unsubscribes w
             ++ [mkUnsubscribe (email lead) (cl_lead_id cl)
                   (cl_campaign_id cl) (cl_id cl) "link"])%list)
      /\ fst (EmailSendRoute.POST process env request w1)
         = mkResponse 200 (SendSkipped "unsubscribed")
      /\ resend_calls (snd (EmailSendRoute.POST process env request w1))
         = resend_calls w1).
Proof.
  split; [reflexivity|].
  intros Hnd Hndu Hin Hlead Htok Hjob Hto Hadm w1.
  assert (Hw1 : UnsubscribePage authenticated (cl_id cl) w
    = (SuccessfullyUnsubscribed,
       let row := mkUnsubscribe (email lead) (cl_lead_id cl)
                    (cl_campaign_id cl) (cl_id cl) "link" in
       let wa := if has_unsubscribe (email lead) w then w
                 else set_unsubscribes (unsubscribes w ++ [row])%list w in
       set_leads (with_lead_status (cl_lead_id cl) "unsubscribed" (leads wa))
         wa)).
  { unfold UnsubscribePage. cbv zeta. cbn [selectable updatable].
    rewrite filter_nothing.
    2:{ intros u Hu. apply String.eqb_neq. now apply Htok. }
    cbn [single]. rewrite (single_key_unique cl_id _ cl Hnd Hin).
    unfold lead_of in Hlead. rewrite Hlead. reflexivity. }
  subst w1. rewrite Hw1. cbv zeta. cbn [fst snd].
  assert (Hlisted : exists u,
            In u (unsubscribes
                    (if has_unsubscribe (email lead) w then w
                     else set_unsubscribes
                            (unsubscribes w ++
                             [mkUnsubscribe (email lead) (cl_lead_id cl)
                                (cl_campaign_id cl) (cl_id cl) "link"])%list
                            w))
            /\ un_email u = email lead
            /\ NoDup (map un_email
                        (unsubscribes
                           (if has_unsubscribe (email lead) w then w
                            else set_unsubscribes
                                   (unsubscribes w ++
                                    [mkUnsubscribe (email lead) (cl_lead_id cl)
                                       (cl_campaign_id cl) (cl_id cl)
                                       "link"])%list w)))).
  { destruct (has_unsubscribe (email lead) w) eqn:Eh.
    - unfold has_unsubscribe in Eh. apply existsb_exists in Eh.
      destruct Eh as (u & Hu & He). apply String.eqb_eq in He.
      exists u. auto.
    - eexists. cbn [unsubscribes set_unsubscribes].
      split; [apply in_or_app; right; now left|].
      split; [reflexivity|]. rewrite map_app. cbn [map un_email].
      apply NoDup_snoc; [exact Hndu|]. intros Hi.
      apply in_map_iff in Hi. destruct Hi as (u & Hu1 & Hu2).
      apply not_listed_spec in Eh. now apply (Eh u Hu2). }
  destruct Hlisted as (u & Hu & He & Hnd1).
  rewrite <- Hto in He.
  match goal with
  | |- context [EmailSendRoute.POST process env request ?x] =>
      rewrite (send_job_listed process env request job x u
                 Hjob Hadm Hnd1 Hu He)
  end.
  cbn [fst snd resend_calls set_campaign_leads].
  split; [reflexivity|]. split.
  { destruct (has_unsubscribe (email lead) w); reflexivity. }
  split.
  { unfold has_unsubscribe. apply existsb_exists. exists u.
    split; [exact Hu|]. apply String.eqb_eq. congruence. }
  split.
  { intros Hnl. apply not_listed_spec in Hnl. rewrite Hnl. reflexivity. }
  split; reflexivity.
Qed.

Lemma unsubscribe_by_recipient_identifier_witness :
  let w1 := snd (UnsubscribePage authenticated "cl-1" Sample.one_sent) in
  map lead_status (leads w1) = ["unsubscribed"; "new"; "new"]
  /\ map un_email (unsubscribes w1) = ["ana@acme.io"]
  /\ fst (EmailSendRoute.POST (fun html _ _ _ => html) Sample.env
            (Sample.signed (Sample.job_for "cl-7" "ana@acme.io")) w1)
     = mkResponse 200 (SendSkipped "unsubscribed").
Proof.
  intros w1.
  destruct (unsubscribe_by_recipient_identifier (fun html _ _ _ => html)
              Sample.env
              (Sample.signed (Sample.job_for "cl-7" "ana@acme.io"))
              (Sample.job_for "cl-7" "ana@acme.io") Sample.one_sent
              (Sample.recipient "cl-1" "lead-1" "sent" (Some "re_1"))
              Sample.ana) as [_ H].
  destruct H as (_ & H2 & _ & H4 & H5 & _).
  - cbn. repeat constructor. intros [].
  - constructor.
  - now left.
  - reflexivity.
  - intros u [].
  - reflexivity.
  - reflexivity.
  - right. exists "v1-signature". split; [reflexivity | discriminate].
  - cbn [cl_id cl_lead_id cl_campaign_id Sample.recipient email Sample.ana]
      in H2, H4, H5.
    fold w1 in H2, H4, H5. rewrite H2. split; [reflexivity|].
    rewrite H4 by (intros u []). split; [reflexivity | exact H5].
Defined.

(* ================================================================== *)
(** * Click tracking                                                   *)
(* ================================================================== *)

Lemma or_string_nonempty u : u <> "" -> Js.or_string (Some u) "" = u.
Proof.
  intros H. unfold Js.or_string. apply String.eqb_neq in H. now rewrite H.
Qed.

Lemma click_world decode is_URL env w cl u :
  NoDup (map cl_id (campaign_leads w)) ->
  In cl (campaign_leads w) ->
  u <> "" ->
  is_URL (TrackClickRoute.target_of decode u) = true ->
  TrackClickRoute.GET decode is_URL env (cl_id cl) (Some u) w
  = (TrackClickRoute.RedirectTo (TrackClickRoute.target_of decode u),
     let w1 :=
       set_email_events
         (email_events w ++ [click_event (cl_id cl) (TrackClickRoute.target_of decode u)])%list w in
     let w2 :=
       set_campaign_leads
         (map (fun r => if (cl_id r =? cl_id cl)%string
                        then apply_updates (clicked_updates env cl) r else r)
              (campaign_leads w1)) w1 in
     if Js.is_unset (cl_clicked_at cl)
     then increment_campaign_stat (cl_campaign_id cl) "clicked_count" w2
     else w2).
Proof.
  intros Hnd Hin Hu Hv.
  unfold TrackClickRoute.GET, TrackClickRoute.track. cbv zeta.
  rewrite (or_string_nonempty u Hu).
  apply String.eqb_neq in Hu. rewrite Hu. rewrite Hv. cbn [negb].
  unfold bind at 1. unfold select_campaign_lead, gets.
  rewrite (single_key_unique cl_id _ _ Hnd Hin).
  unfold bind at 1. unfold bind at 1.
  unfold insert_email_event, modify at 1.
  unfold bind at 1. unfold update_campaign_lead, modify at 1.
  fold (clicked_updates env cl). fold (click_event (cl_id cl) (TrackClickRoute.target_of decode u)).
  unfold TrackClickRoute.redirect. rewrite Hv.
  destruct (Js.is_unset (cl_clicked_at cl)).
  - rewrite rpc_increment_stat. reflexivity.
  - reflexivity.
Qed.

(** X26: click tracking counts the first click only, and always
    redirects.  When a recipient that has not clicked yet follows two
    tracked links, the first request sets the recipient to "clicked"
    with the time of the request and adds 1 to the campaign's
    [clicked_count]; the second adds 1 to the recipient's own
    [clicked_count] only.  Each request logs one "clicked" event with
    its target and answers with a redirect to the target. *)
Theorem click_counts_the_first_click_only decode is_URL env env' w cl u u' :
  NoDup (map cl_id (campaign_leads w)) ->
  In cl (campaign_leads w) ->
  cl_clicked_at cl = None ->
  u <> "" -> is_URL (TrackClickRoute.target_of decode u) = true ->
  u' <> "" -> is_URL (TrackClickRoute.target_of decode u') = true ->
  let id := cl_id cl in
  let cid := cl_campaign_id cl in
  let w1 := snd (TrackClickRoute.GET decode is_URL env id (Some u) w) in
  let w2 := snd (TrackClickRoute.GET decode is_URL env' id (Some u') w1) in
  fst (TrackClickRoute.GET decode is_URL env id (Some u) w) = TrackClickRoute.RedirectTo (TrackClickRoute.target_of decode u)
  /\ fst (TrackClickRoute.GET decode is_URL env' id (Some u') w1)
     = TrackClickRoute.RedirectTo (TrackClickRoute.target_of decode u')
  /\ campaign_lead_row id w1
     = Some (apply_updates
               [ clicked_count_is (cl_clicked_count cl + 1);
                 clicked_at_is (now env); status_is "clicked" ] cl)
  /\ campaign_clicked cid w1
     = option_map (fun n => n + 1) (campaign_clicked cid w)
  /\ campaign_lead_row id w2
     = Some (apply_updates
               [ clicked_count_is (cl_clicked_count cl + 2);
                 clicked_at_is (now env); status_is "clicked" ] cl)
  /\ campaigns w2 = campaigns w1
  /\ email_events w2
     = (email_events w
        ++ [click_event id (TrackClickRoute.target_of decode u); click_event id (TrackClickRoute.target_of decode u')])%list.
Proof.
  intros Hnd Hin Hca Hu Hv Hu' Hv' id cid w1 w2.
  pose proof (click_world decode is_URL env w cl u Hnd Hin Hu Hv) as H1.
  fold id in H1. rewrite Hca in H1. cbn [Js.is_unset] in H1. cbv zeta in H1.
  destruct (updated_row_found id (clicked_updates env cl) _ cl Hnd Hin eq_refl)
    as (Hnd1 & Hin1 & Hf1). cbv zeta in Hnd1, Hin1, Hf1.
  set (cl1 := apply_updates (clicked_updates env cl) cl) in *.
  assert (Hcl1 : cl1 = apply_updates
                         [ clicked_count_is (cl_clicked_count cl + 1);
                           clicked_at_is (now env); status_is "clicked" ] cl).
  { subst cl1. unfold clicked_updates. rewrite or_number_zero, Hca.
    reflexivity. }
  assert (Hid1 : cl_id cl1 = id) by (apply apply_updates_keeps_id).
  assert (Hcid1 : cl_campaign_id cl1 = cid) by (rewrite Hcl1; now destruct cl).
  assert (Hca1 : cl_clicked_at cl1 = Some (now env))
    by (rewrite Hcl1; now destruct cl).
  assert (Hcc1 : cl_clicked_count cl1 = cl_clicked_count cl + 1)
    by (rewrite Hcl1; now destruct cl).
  assert (Hleads1 : campaign_leads w1
                    = map (fun r => if (cl_id r =? id)%string
                                    then apply_updates (clicked_updates env cl) r
                                    else r) (campaign_leads w)).
  { subst w1. rewrite H1. reflexivity. }
  rewrite <- Hleads1 in Hnd1, Hin1, Hf1.
  pose proof (click_world decode is_URL env' w1 cl1 u' Hnd1 Hin1 Hu' Hv') as H2.
  rewrite Hid1, Hca1 in H2. cbn [Js.is_unset] in H2. cbv zeta in H2.
  destruct (updated_row_found id (clicked_updates env' cl1) _ cl1
              Hnd1 Hin1 Hid1) as (_ & _ & Hf2). cbv zeta in Hf2.
  split; [now rewrite H1|]. split; [now rewrite H2|].
  split; [unfold campaign_lead_row; now rewrite Hf1, Hcl1|].
  split.
  { subst w1. rewrite H1. cbn [snd]. unfold campaign_clicked, cid.
    match goal with
    | |- context [increment_campaign_stat ?c ?f ?x] =>
        rewrite (campaign_row_incremented c f x);
        change (campaign_row c x) with (campaign_row c w)
    end.
    destruct (campaign_row (cl_campaign_id cl) w) as [c|]; reflexivity. }
  split.
  { subst w2. rewrite H2. cbn [snd]. unfold campaign_lead_row.
    cbn [campaign_leads set_campaign_leads set_email_events].
    rewrite Hf2. f_equal. unfold clicked_updates.
    rewrite or_number_zero, Hca1, Hcc1. cbn [Js.is_unset app].
    rewrite Hcl1. destruct cl. cbn. f_equal. lia. }
  split.
  { subst w2. rewrite H2. reflexivity. }
  subst w2. rewrite H2. cbn [snd email_events set_campaign_leads
                             set_email_events].
  subst w1. rewrite H1. cbn [snd email_events set_campaign_leads
                             set_email_events increment_campaign_stat
                             set_campaigns].
  now rewrite <- app_assoc.
Qed.

(** X27: the redirect of the click endpoint does not depend on the
    recipient.  Without a [url] parameter, or with one whose target is
    no URL, the endpoint redirects to the start page and writes
    nothing.  With a target that is a URL it redirects there whether
    or not the identifier in the path is the one of a recipient; for an
    identifier that no recipient has, nothing is written. *)
Theorem click_redirects_for_anyone decode is_URL env w id u :
  (TrackClickRoute.GET decode is_URL env id None w = (TrackClickRoute.RedirectHome, w)
   /\ TrackClickRoute.GET decode is_URL env id (Some "") w = (TrackClickRoute.RedirectHome, w))
  /\ (u <> "" -> is_URL (TrackClickRoute.target_of decode u) = false ->
      TrackClickRoute.GET decode is_URL env id (Some u) w = (TrackClickRoute.RedirectHome, w))
  /\ (u <> "" -> is_URL (TrackClickRoute.target_of decode u) = true ->
      fst (TrackClickRoute.GET decode is_URL env id (Some u) w)
      = TrackClickRoute.RedirectTo (TrackClickRoute.target_of decode u)
      /\ ((forall r, In r (campaign_leads w) -> cl_id r <> id) ->
          snd (TrackClickRoute.GET decode is_URL env id (Some u) w) = w)).
Proof.
  split; [split; reflexivity|]. split.
  - intros Hu Hv. unfold TrackClickRoute.GET, TrackClickRoute.track.
    cbv zeta. rewrite (or_string_nonempty u Hu).
    apply String.eqb_neq in Hu. now rewrite Hu, Hv.
  - intros Hu Hv.
    assert (E : exists w',
              TrackClickRoute.GET decode is_URL env id (Some u) w
              = (TrackClickRoute.RedirectTo (TrackClickRoute.target_of decode u),
                 w')
              /\ ((forall r, In r (campaign_leads w) -> cl_id r <> id) ->
                  w' = w)).
    { unfold TrackClickRoute.GET, TrackClickRoute.track. cbv zeta.
      rewrite (or_string_nonempty u Hu).
      pose proof Hu as Hu2. apply String.eqb_neq in Hu2. rewrite Hu2, Hv.
      cbn [negb]. unfold bind at 1. unfold select_campaign_lead, gets.
      destruct (single _) as [cl|] eqn:Es.
      - assert (Hex : ~ (forall r, In r (campaign_leads w) -> cl_id r <> id)).
        { intros Hnone. rewrite filter_nothing in Es; [discriminate|].
          intros r Hr. apply String.eqb_neq. now apply Hnone. }
        unfold bind at 1. unfold bind at 1.
        unfold insert_email_event, modify at 1.
        unfold bind at 1. unfold update_campaign_lead, modify at 1.
        unfold TrackClickRoute.redirect. rewrite Hv.
        destruct (Js.is_unset (cl_clicked_at cl)).
        + rewrite rpc_increment_stat. eexists. split; [reflexivity|].
          intros Hnone. contradiction.
        + eexists. split; [reflexivity|]. intros Hnone. contradiction.
      - unfold bind, ret, TrackClickRoute.redirect. rewrite Hv.
        eexists. split; reflexivity. }
    destruct E as (w' & E & Hw'). rewrite E. cbn [fst snd].
    split; [reflexivity | exact Hw'].
Qed.

Lemma click_counts_the_first_click_only_witness :
  let click := TrackClickRoute.GET (fun s => Returned s) (fun _ => true) in
  let w1 := snd (click Sample.env "cl-1" (Some "https://acme.io/a")
                   Sample.one_sent) in
  let w2 := snd (click Sample.evening "cl-1" (Some "https://acme.io/b") w1) in
  campaign_clicked "camp-1" w1
  = option_map (fun n => n + 1) (campaign_clicked "camp-1" Sample.one_sent)
  /\ campaigns w2 = campaigns w1.
Proof.
  assert (Hnd : NoDup (map cl_id (campaign_leads Sample.one_sent)))
    by (cbn; repeat constructor; cbn; intuition discriminate).
  assert (Hin : In (Sample.recipient "cl-1" "lead-1" "sent" (Some "re_1"))
                  (campaign_leads Sample.one_sent)) by (now left).
  destruct (click_counts_the_first_click_only (fun s => Returned s)
              (fun _ => true)
              Sample.env Sample.evening Sample.one_sent _
              "https://acme.io/a" "https://acme.io/b" Hnd Hin eq_refl)
    as (_ & _ & _ & H4 & _ & H6 & _);
    try reflexivity; try discriminate.
  exact (conj H4 H6).
Defined.

Lemma click_redirects_for_anyone_witness :
  let decode := fun s : string => Returned s in
  TrackClickRoute.GET decode (fun _ => true) Sample.env "cl-9"
    (Some "https://elsewhere.example/") Sample.one_sent
  = (TrackClickRoute.RedirectTo "https://elsewhere.example/", Sample.one_sent).
Proof.
  intros decode.
  destruct (click_redirects_for_anyone decode (fun _ => true) Sample.env
              Sample.one_sent "cl-9" "https://elsewhere.example/")
    as (_ & _ & H).
  destruct H as [H1 H2]; [discriminate | reflexivity |].
  rewrite (surjective_pairing (TrackClickRoute.GET _ _ _ _ _ _)).
  rewrite H1, H2; [reflexivity|].
  intros r [Hr|[]]. subst r. cbn. discriminate.
Defined.

(* ================================================================== *)
(** * Footer, pixel and tracked links                                  *)
(* ================================================================== *)

Import EmailProcessing Bodies.

Lemma strip_prefix_same p s : strip_prefix p (p ++ s) = Some s.
Proof.
  induction p as [|c p IH]; [reflexivity|].
  cbn [append strip_prefix]. now rewrite Ascii.eqb_refl.
Qed.

Lemma strip_prefix_sound p : forall s r,
  strip_prefix p s = Some r -> s = p ++ r.
Proof.
  induction p as [|c p IH]; intros s r H.
  - cbn in H. now inversion H.
  - destruct s as [|d s]; [discriminate|]. cbn [strip_prefix] in H.
    destruct (Ascii.eqb c d) eqn:E; [|discriminate].
    apply Ascii.eqb_eq in E. subst d. cbn [append]. f_equal. now apply IH.
Qed.

(** A pattern found at the head of [u ++ v] lies in [u], or it ends in
    [v]. *)
Lemma strip_prefix_app p : forall u v r,
  strip_prefix p (u ++ v) = Some r ->
  (exists r', strip_prefix p u = Some r')
  \/ (exists p2, p = u ++ p2 /\ p2 <> "" /\ strip_prefix p2 v = Some r).
Proof.
  induction p as [|c p IH]; intros u v r H.
  - left. now exists u.
  - destruct u as [|d u].
    + right. exists (String c p). split; [reflexivity|].
      split; [discriminate | exact H].
    + cbn [append strip_prefix] in H |- *.
      destruct (Ascii.eqb c d) eqn:E; [|discriminate].
      apply Ascii.eqb_eq in E. subst d.
      destruct (IH u v r H) as [[r' Hr]|(p2 & H1 & H2 & H3)].
      * left. now exists r'.
      * right. exists p2. split; [now rewrite H1|]. auto.
Qed.

Lemma includes_cons p c s :
  includes p (String c s) = false ->
  strip_prefix p (String c s) = None /\ includes p s = false.
Proof.
  unfold includes. cbn [split_at].
  destruct (strip_prefix p (String c s)); [discriminate|].
  destruct (split_at p s) as [[b a]|]; [discriminate|]. auto.
Qed.

Lemma split_at_unfold p s :
  split_at p s
  = match strip_prefix p s with
    | Some after => Some (EmptyString, after)
    | None =>
        match s with
        | EmptyString => None
        | String c rest =>
            match split_at p rest with
            | Some (before, after) => Some (String c before, after)
            | None => None
            end
        end
    end.
Proof. destruct s; reflexivity. Qed.

Lemma split_at_first p before after :
  head_not_in_rest p ->
  includes p before = false ->
  split_at p (before ++ p ++ after) = Some (before, after).
Proof.
  intros Hp. induction before as [|d before IH]; intros H.
  - cbn [append]. rewrite split_at_unfold. now rewrite strip_prefix_same.
  - apply includes_cons in H. destruct H as [H1 H2].
    rewrite split_at_unfold.
    destruct (strip_prefix p (String d before ++ p ++ after)) as [r|] eqn:E.
    + exfalso. apply strip_prefix_app in E.
      destruct E as [[r' Hr]|(p2 & E1 & E2 & E3)]; [congruence|].
      destruct p2 as [|c2 p2]; [contradiction|].
      apply strip_prefix_sound in E3.
      rewrite E1 in E3. rewrite E1 in Hp. cbn [append] in E3, Hp.
      inversion E3 as [[Hc Hrest]]. subst c2.
      eapply (Hp before p2). reflexivity.
    + cbn [append]. now rewrite (IH H2).
Qed.

Lemma expand_plain replacement matched before after :
  no_dollar replacement = true ->
  expand replacement matched before after = replacement.
Proof.
  induction replacement as [|c r IH]; intros H; [reflexivity|].
  cbn [no_dollar] in H. apply andb_true_iff in H. destruct H as [Hc Hr].
  apply negb_true_iff in Hc. cbn [expand]. rewrite Hc. f_equal. now apply IH.
Qed.

Lemma no_dollar_app a b :
  no_dollar (a ++ b) = (no_dollar a && no_dollar b)%bool.
Proof.
  induction a as [|c a IH]; [reflexivity|].
  cbn [append no_dollar]. rewrite IH. now rewrite andb_assoc.
Qed.

Lemma no_dollar_footer token appUrl :
  no_dollar token = true -> no_dollar appUrl = true ->
  no_dollar (footer token appUrl ++ "</body>") = true.
Proof.
  intros H1 H2. unfold footer. rewrite !no_dollar_app, H1, H2. reflexivity.
Qed.

Lemma no_dollar_pixel id appUrl :
  no_dollar id = true -> no_dollar appUrl = true ->
  no_dollar (pixel id appUrl ++ "</body>") = true.
Proof.
  intros H1 H2. unfold pixel. rewrite !no_dollar_app, H1, H2. reflexivity.
Qed.

Lemma closing_tag_head : head_not_in_rest "</body>".
Proof.
  cbn. intros u r H.
  repeat (destruct u as [|? u]; cbn [append] in H;
          [discriminate H | inversion H; subst; clear H;
           match goal with E : _ = u ++ _ |- _ => rename E into H end]).
Qed.

(** X28: where the footer and the pixel go.  When the body holds no
    closing body tag, [addComplianceFooter] and [addTrackingPixel]
    append their text to it.  When it holds one, the text is inserted
    right before the first closing body tag and nothing else changes -
    as long as the token, the identifier and the base URL hold no
    dollar sign, which the replacement would read as a pattern. *)
Theorem footer_and_pixel_placement html token id appUrl :
  (includes "</body>" html = false ->
   addComplianceFooter html token appUrl = html ++ footer token appUrl
   /\ addTrackingPixel html id appUrl = html ++ pixel id appUrl)
  /\ (forall before after,
        html = before ++ "</body>" ++ after ->
        includes "</body>" before = false ->
        no_dollar appUrl = true ->
        (no_dollar token = true ->
         addComplianceFooter html token appUrl
         = before ++ footer token appUrl ++ "</body>" ++ after)
        /\ (no_dollar id = true ->
            addTrackingPixel html id appUrl
            = before ++ pixel id appUrl ++ "</body>" ++ after)).
Proof.
  split.
  - intros H. unfold addComplianceFooter, addTrackingPixel. cbv zeta.
    rewrite H. auto.
  - intros before after Hhtml Hb Hu.
    pose proof (split_at_first "</body>" before after closing_tag_head Hb)
      as Hs.
    rewrite <- Hhtml in Hs.
    assert (Hin : includes "</body>" html = true)
      by (unfold includes; now rewrite Hs).
    split; intros Ht.
    + unfold addComplianceFooter, replace_first. cbv zeta. rewrite Hin, Hs.
      rewrite expand_plain by (now apply no_dollar_footer).
      now rewrite !string_app_assoc.
    + unfold addTrackingPixel, replace_first. cbv zeta. rewrite Hin, Hs.
      rewrite expand_plain by (now apply no_dollar_pixel).
      now rewrite !string_app_assoc.
Qed.

Lemma footer_and_pixel_placement_witness :
  addTrackingPixel
    (addComplianceFooter "<body><p>Hi</p></body></html>" "tok"
       "https://app.io")
    "cl-1" "https://app.io"
  = "<body><p>Hi</p>" ++ footer "tok" "https://app.io"
    ++ pixel "cl-1" "https://app.io" ++ "</body></html>".
Proof.
  destruct (footer_and_pixel_placement "<body><p>Hi</p></body></html>"
              "tok" "cl-1" "https://app.io") as [_ H].
  destruct (H "<body><p>Hi</p>" "</html>" eq_refl eq_refl eq_refl)
    as [H1 _].
  rewrite (H1 eq_refl).
  destruct (footer_and_pixel_placement
              ("<body><p>Hi</p>" ++ footer "tok" "https://app.io"
               ++ "</body>" ++ "</html>")
              "tok" "cl-1" "https://app.io") as [_ H'].
  destruct (H' ("<body><p>Hi</p>" ++ footer "tok" "https://app.io")
              "</html>") as [_ H2].
  - now rewrite !string_app_assoc.
  - reflexivity.
  - reflexivity.
  - rewrite (H2 eq_refl). now rewrite !string_app_assoc.
Defined.


Lemma href_head : head_not_in_rest href.
Proof.
  cbn. intros u r H.
  repeat (destruct u as [|? u]; cbn [append] in H;
          [discriminate H | inversion H; subst; clear H;
           match goal with E : _ = u ++ _ |- _ => rename E into H end]).
Qed.

(** The opening of a link attribute cannot begin in a text that holds
    none and end in what follows, when that is empty or begins with
    the letter h. *)
Lemma no_link_across text rest c :
  includes href (String c text) = false ->
  (rest = "" \/ exists r, rest = String "h" r) ->
  match_link (String c text ++ rest) = None.
Proof.
  intros H Hrest. apply includes_cons in H. destruct H as [H _].
  unfold match_link. fold href.
  destruct (strip_prefix href (String c text ++ rest)) as [s1|] eqn:E;
    [|reflexivity].
  exfalso. apply strip_prefix_app in E.
  destruct E as [[r' Hr]|(p2 & E1 & E2 & E3)]; [congruence|].
  destruct p2 as [|c2 p2]; [contradiction|].
  destruct Hrest as [Hr|[r Hr]]; subst rest; [discriminate E3|].
  cbn [strip_prefix] in E3.
  destruct (Ascii.eqb c2 "h") eqn:Ec; [|discriminate].
  apply Ascii.eqb_eq in Ec. subst c2.
  pose proof href_head as Hh. unfold href in E1, Hh.
  cbn [append] in E1. inversion E1 as [[Hc Ht]].
  cbn in Hh. eapply (Hh text p2). cbn. exact Ht.
Qed.

Lemma take_unquoted_run run rest :
  no_quote run = true ->
  take_unquoted (run ++ quote ++ rest) = (run, quote ++ rest).
Proof.
  induction run as [|c run IH]; intros H; [reflexivity|].
  cbn [no_quote] in H. apply andb_true_iff in H. destruct H as [Hc Hr].
  apply negb_true_iff in Hc. cbn [append take_unquoted].
  rewrite Hc, (IH Hr). reflexivity.
Qed.

Lemma no_quote_app a b :
  no_quote (a ++ b) = (no_quote a && no_quote b)%bool.
Proof.
  induction a as [|c a IH]; [reflexivity|].
  cbn [append no_quote]. rewrite IH. now rewrite andb_assoc.
Qed.

Lemma link_text url rest :
  link url ++ rest = href ++ url ++ quote ++ rest.
Proof. unfold link, href. now rewrite !string_app_assoc. Qed.

Lemma match_link_of_link url rest :
  web_url url -> match_link (link url ++ rest) = Some (url, rest).
Proof.
  intros (Hq & r & Hr & [E|E]); subst url.
  - rewrite no_quote_app in Hq. apply andb_true_iff in Hq.
    destruct Hq as [_ Hq].
    unfold match_link. fold href. rewrite link_text, strip_prefix_same.
    rewrite !string_app_assoc.
    change (strip_prefix "https://" ("http://" ++ r ++ quote ++ rest))
      with (@None string).
    rewrite strip_prefix_same. cbv zeta.
    rewrite (take_unquoted_run r rest Hq).
    destruct r; [contradiction | reflexivity].
  - rewrite no_quote_app in Hq. apply andb_true_iff in Hq.
    destruct Hq as [_ Hq].
    unfold match_link. fold href. rewrite link_text, strip_prefix_same.
    rewrite !string_app_assoc.
    rewrite strip_prefix_same. cbv zeta.
    rewrite (take_unquoted_run r rest Hq).
    destruct r; [contradiction | reflexivity].
Qed.

Lemma take_unquoted_append s : forall u r,
  take_unquoted s = (u, r) -> s = u ++ r.
Proof.
  induction s as [|c s IH]; intros u r H; cbn [take_unquoted] in H.
  - now inversion H.
  - destruct (Ascii.eqb c (ascii_of_nat 34)); [now inversion H|].
    destruct (take_unquoted s) as [u' r'] eqn:E. inversion H; subst.
    cbn [append]. f_equal. now apply IH.
Qed.

Lemma match_link_shorter s url rest :
  match_link s = Some (url, rest) ->
  (String.length rest < String.length s)%nat.
Proof.
  unfold match_link. intros H.
  destruct (strip_prefix ("href=" ++ quote) s) as [s1|] eqn:E1;
    [|discriminate].
  apply strip_prefix_sound in E1.
  destruct (strip_prefix "https://" s1) as [s2|] eqn:E2.
  - apply strip_prefix_sound in E2. cbv zeta in H.
    destruct (take_unquoted s2) as [u r] eqn:Et.
    apply take_unquoted_append in Et.
    destruct u; [discriminate|]. destruct r; [discriminate|].
    inversion H; subst. rewrite !string_app_length. cbn. lia.
  - destruct (strip_prefix "http://" s1) as [s2|] eqn:E3; [|discriminate].
    apply strip_prefix_sound in E3. cbv zeta in H.
    destruct (take_unquoted s2) as [u r] eqn:Et.
    apply take_unquoted_append in Et.
    destruct u; [discriminate|]. destruct r; [discriminate|].
    inversion H; subst. rewrite !string_app_length. cbn. lia.
Qed.

Lemma wrap_scan_fuel id appUrl : forall n m html,
  (String.length html <= n)%nat -> (String.length html <= m)%nat ->
  wrap_scan n id appUrl html = wrap_scan m id appUrl html.
Proof.
  induction n as [|n IH]; intros m html Hn Hm.
  - destruct html; simpl in *; [destruct m; reflexivity | lia].
  - destruct html as [|c rest]; [destruct m; reflexivity|].
    destruct m as [|m]; [simpl in Hm; lia|].
    cbn [wrap_scan].
    destruct (match_link (String c rest)) as [[url rest']|] eqn:E.
    + apply match_link_shorter in E. f_equal.
      apply IH; simpl in *; lia.
    + f_equal. apply IH; simpl in *; lia.
Qed.

Lemma wrap_text text rest id appUrl :
  includes href text = false ->
  (rest = "" \/ exists r, rest = String "h" r) ->
  wrapLinksForTracking (text ++ rest) id appUrl
  = text ++ wrapLinksForTracking rest id appUrl.
Proof.
  intros H Hrest. induction text as [|c text IH]; [reflexivity|].
  unfold wrapLinksForTracking in *.
  pose proof (no_link_across text rest c H Hrest) as Hm.
  cbn [append String.length wrap_scan] in Hm |- *. rewrite Hm. f_equal.
  apply IH. apply includes_cons in H. tauto.
Qed.

Lemma wrap_link url rest id appUrl :
  web_url url ->
  wrapLinksForTracking (link url ++ rest) id appUrl
  = tracked id appUrl url ++ wrapLinksForTracking rest id appUrl.
Proof.
  intros H. pose proof (match_link_of_link url rest H) as Hm.
  pose proof (match_link_shorter _ _ _ Hm) as Hl.
  unfold wrapLinksForTracking.
  destruct (link url ++ rest) as [|c s] eqn:E; [discriminate Hm|].
  cbn [String.length wrap_scan]. rewrite Hm. f_equal.
  apply wrap_scan_fuel; cbn [String.length] in Hl; lia.
Qed.

Lemma unreserved_no_quote c :
  unreserved c = true -> Ascii.eqb c (ascii_of_nat 34) = false.
Proof.
  destruct c as [[] [] [] [] [] [] [] []]; vm_compute; intros H;
    first [reflexivity | discriminate H].
Qed.

Lemma percent_encode_no_quote c : no_quote (percent_encode c) = true.
Proof. destruct c as [[] [] [] [] [] [] [] []]; reflexivity. Qed.

Lemma encodeURIComponent_no_quote s : no_quote (encodeURIComponent s) = true.
Proof.
  induction s as [|c s IH]; [reflexivity|].
  cbn [encodeURIComponent]. rewrite no_quote_app, IH, andb_true_r.
  destruct (unreserved c) eqn:E.
  - cbn [no_quote]. now rewrite (unreserved_no_quote c E).
  - apply percent_encode_no_quote.
Qed.

(** X29: every web link of a body is wrapped once.  For a body written
    as texts that hold no opening of a link attribute, with web links
    between them, [wrapLinksForTracking] leaves the texts as they are
    and replaces each link on its own: a link whose URL contains
    [/unsubscribe/] stays as written, any other link becomes a link to
    the click endpoint of the recipient that carries the
    percent-encoded URL, which holds no quote. *)
Theorem links_are_wrapped_for_tracking body id appUrl :
  well_formed body ->
  wrapLinksForTracking (body_text body) id appUrl
  = tracked_body id appUrl body
  /\ forall url,
       (includes "/unsubscribe/" url = true ->
        tracked id appUrl url = link url)
       /\ (includes "/unsubscribe/" url = false ->
           tracked id appUrl url
           = link (appUrl ++ "/api/track/click/" ++ id ++ "?url="
                   ++ encodeURIComponent url)
           /\ no_quote (encodeURIComponent url) = true).
Proof.
  intros H. split.
  - induction body as [text|text url rest IH]; cbn [body_text tracked_body].
    + cbn [well_formed] in H.
      rewrite <- (string_app_nil_r text) at 1.
      rewrite (wrap_text text "" id appUrl H (or_introl eq_refl)).
      cbn. apply string_app_nil_r.
    + cbn [well_formed] in H. destruct H as (Ht & Hu & Hr).
      rewrite (wrap_text text _ id appUrl Ht).
      2:{ right. unfold link. cbn [append]. eexists. reflexivity. }
      rewrite (wrap_link url _ id appUrl Hu). now rewrite (IH Hr).
  - intros url. split; intros Hi; unfold tracked; rewrite Hi.
    + reflexivity.
    + split; [|apply encodeURIComponent_no_quote].
      unfold link. cbv zeta. now rewrite !string_app_assoc.
Qed.

Lemma links_are_wrapped_for_tracking_witness :
  wrapLinksForTracking
    ("<a " ++ link "https://acme.io/a b" ++ ">A</a> <a "
     ++ link "https://app.io/unsubscribe/tok" ++ ">U</a>")
    "cl-1" "https://app.io"
  = "<a " ++ link "https://app.io/api/track/click/cl-1?url=https%3A%2F%2Facme.io%2Fa%20b"
    ++ ">A</a> <a " ++ link "https://app.io/unsubscribe/tok" ++ ">U</a>".
Proof.
  destruct (links_are_wrapped_for_tracking
              (Anchor "<a " "https://acme.io/a b"
                 (Anchor ">A</a> <a " "https://app.io/unsubscribe/tok"
                    (Tail ">U</a>")))
              "cl-1" "https://app.io") as [H _].
  - cbn [well_formed]. repeat split; try reflexivity.
    + exists "acme.io/a b". split; [discriminate | now right].
    + exists "app.io/unsubscribe/tok". split; [discriminate | now right].
  - cbn [body_text] in H. rewrite H. reflexivity.
Defined.

(* ================================================================== *)
(** * Starting, pausing and resuming a campaign                        *)
(* ================================================================== *)

Import RowLevelSecurity CampaignLifecycle.

Lemma lifecycle_select d c columns :
  NoDup (map campaign_id (campaigns (store d))) ->
  In c (campaigns (store d)) ->
  CampaignLifecycle.select_campaign authenticated columns (campaign_id c) d
  = if declared columns then Some c else None.
Proof.
  intros Hnd Hin. unfold CampaignLifecycle.select_campaign.
  destruct (declared columns); [|reflexivity].
  cbn [selectable]. apply (single_key_unique campaign_id _ c Hnd Hin).
Qed.

Lemma campaign_row_updated d d' c f columns :
  NoDup (map campaign_id (campaigns (store d))) ->
  In c (campaigns (store d)) ->
  (forall x, campaign_id (f x) = campaign_id x) ->
  update_campaign columns (campaign_id c) f d = Some d' ->
  campaign_row (campaign_id c) (store d') = Some (f c)
  /\ campaign_leads (store d') = campaign_leads (store d)
  /\ campaign_started_at d' = campaign_started_at d
  /\ schedules d' = schedules d
  /\ process_messages d' = process_messages d.
Proof.
  intros Hnd Hin Hf Hup. unfold update_campaign in Hup.
  destruct (declared columns); [|discriminate].
  inversion Hup; subst d'. clear Hup.
  split; [|repeat split].
  unfold campaign_row.
  cbn [store set_store campaigns set_campaigns].
  rewrite (find_map_key campaign_id).
  - rewrite (find_key_unique campaign_id _ c Hnd Hin). cbn [option_map].
    now rewrite String.eqb_refl.
  - intros y. destruct (campaign_id y =? campaign_id c)%string;
      [apply Hf | reflexivity].
Qed.

Lemma lookup_set_key {A} id (v : A) l : lookup id (set_key id v l) = Some v.
Proof.
  unfold set_key, remove_key. induction l as [|[k x] l IH].
  - cbn. now rewrite String.eqb_refl.
  - cbn [filter fst]. destruct (k =? id)%string eqn:E; cbn [negb].
    + exact IH.
    + cbn [app lookup]. rewrite E. exact IH.
Qed.

(** The column [qstash_schedule_id] is none of the table. *)
Lemma schedule_column_undeclared :
  declared ["id"; "status"; "qstash_schedule_id"] = false
  /\ declared ["status"; "qstash_schedule_id"] = false
  /\ declared ["qstash_schedule_id"] = false
  /\ declared [] = true
  /\ declared ["status"; "started_at"] = true
  /\ declared ["id"; "status"; "template_id"] = true
  /\ declared ["status"; "completed_at"] = true
  /\ declared ["status"] = true.
Proof. repeat split. Qed.

(** X30: the status of a campaign under start, pause and resume.  For a
    signed-in session and an existing campaign: [start] succeeds exactly
    from "draft" with a template and at least one recipient, sets
    "active" and the start time, and creates the daily schedule at the
    queue service when that service accepts it; [resume] succeeds
    exactly from "paused" and sets "active" when a recipient is still
    "pending", "completed" with the completion time when none is.  A
    refused request is answered 400 and writes nothing, and neither
    route writes a recipient, whatever the queue service answers.
    [pause] selects the column [qstash_schedule_id], which the table
    does not have: for every session, campaign and state it is answered
    404 and writes nothing, so no campaign is ever set to "paused" by
    it and no schedule is ever deleted.  A session that is not signed
    in is answered 404 without any write by the other two routes as
    well. *)
Theorem campaign_status_transitions env q d c :
  NoDup (map campaign_id (campaigns (store d))) ->
  In c (campaigns (store d)) ->
  let id := campaign_id c in
  let recipients :=
    filter (fun r => (cl_campaign_id r =? id)%string)
           (campaign_leads (store d)) in
  let pending :=
    filter (CampaignProcessRoute.is_pending_of id) (campaign_leads (store d)) in
  (* start *)
  (campaign_status c = "draft" -> template_ref c <> "" -> recipients <> [] ->
   let d' := snd (start env q authenticated id d) in
   status_of (fst (start env q authenticated id d)) = 200
   /\ campaign_row id (store d') = Some (with_status "active" c)
   /\ lookup id (campaign_started_at d') = Some (now env)
   /\ campaign_leads (store d') = campaign_leads (store d)
   /\ schedules d'
      = match schedule_created q with
        | Returned scheduleId =>
            (schedules d ++ [(scheduleId, process_url env, id)])%list
        | Thrown _ => schedules d
        end)
  /\ (campaign_status c <> "draft" \/ template_ref c = "" \/ recipients = [] ->
      status_of (fst (start env q authenticated id d)) = 400
      /\ snd (start env q authenticated id d) = d)
  (* pause *)
  /\ (forall role campaignId scheduleId x,
        pause q role campaignId scheduleId x = (NotFound, x))
  (* resume *)
  /\ (campaign_status c = "paused" ->
      let d' := snd (resume env q authenticated id d) in
      status_of (fst (resume env q authenticated id d)) = 200
      /\ campaign_row id (store d')
         = Some (match pending with
                 | [] => CampaignProcessRoute.complete env c
                 | _ :: _ => with_status "active" c
                 end)
      /\ campaign_leads (store d') = campaign_leads (store d))
  /\ (campaign_status c <> "paused" ->
      status_of (fst (resume env q authenticated id d)) = 400
      /\ snd (resume env q authenticated id d) = d)
  (* a session that is not signed in *)
  /\ (start env q anon id d = (NotFound, d)
      /\ resume env q anon id d = (NotFound, d)).
Proof.
  intros Hnd Hin id recipients pending.
  pose proof (fun columns => lifecycle_select d c columns Hnd Hin) as Hsel.
  fold id in Hsel.
  assert (Hcount : (CampaignLifecycle.count_leads id authenticated d =? 0)
                   = match recipients with [] => true | _ :: _ => false end).
  { unfold CampaignLifecycle.count_leads. cbn [selectable]. fold recipients.
    destruct recipients; reflexivity. }
  assert (Hpend : (CampaignLifecycle.count_pending id authenticated d =? 0)
                  = match pending with [] => true | _ :: _ => false end).
  { unfold CampaignLifecycle.count_pending. cbn [selectable]. fold pending.
    destruct pending; reflexivity. }
  assert (Hkeep : forall s x, campaign_id (with_status s x) = campaign_id x)
    by reflexivity.
  assert (Htrig : forall x, store (trigger env q id x) = store x
                            /\ campaign_started_at (trigger env q id x)
                               = campaign_started_at x
                            /\ schedules (trigger env q id x) = schedules x).
  { intros x. unfold trigger. now destruct (publish_rejected q). }
  assert (Hsch : forall x,
            store (schedule_daily env q id x) = store x
            /\ campaign_started_at (schedule_daily env q id x)
               = campaign_started_at x
            /\ schedules (schedule_daily env q id x)
               = match schedule_created q with
                 | Returned scheduleId =>
                     (schedules x ++ [(scheduleId, process_url env, id)])%list
                 | Thrown _ => schedules x
                 end).
  { intros x. unfold schedule_daily. destruct (schedule_created q);
      repeat split. }
  split; [|split; [|split; [|split; [|split]]]].
  - intros Hs Ht Hr. unfold start. rewrite Hsel.
    change (declared []) with true. cbv iota. rewrite Hs.
    change ("draft" =? "draft")%string with true.
    apply String.eqb_neq in Ht. rewrite Ht, Hcount.
    destruct recipients as [|r rs] eqn:Er; [contradiction|].
    cbn [negb].
    destruct (update_campaign ["status"; "started_at"] id
                (with_status "active") d) as [d1|] eqn:Eu;
      [|discriminate Eu].
    destruct (campaign_row_updated d d1 c _ _ Hnd Hin (Hkeep "active") Eu)
      as (U1 & U2 & U3 & U4 & U5).
    cbv zeta. cbn [fst snd status_of].
    split; [reflexivity|].
    destruct (Hsch (trigger env q id
                      (mkDeployment (store d1)
                         (set_key id (now env) (campaign_started_at d1))
                         (process_messages d1) (schedules d1))))
      as (S1 & S2 & S3).
    destruct (Htrig (mkDeployment (store d1)
                       (set_key id (now env) (campaign_started_at d1))
                       (process_messages d1) (schedules d1)))
      as (T1 & T2 & T3).
    rewrite S1, S2, S3, T1, T2, T3. cbn [store campaign_started_at schedules].
    split; [exact U1|]. split; [apply lookup_set_key|].
    split; [exact U2|]. now rewrite U4.
  - intros H. unfold start. rewrite Hsel.
    change (declared []) with true. cbv iota.
    destruct (String.eqb_spec (campaign_status c) "draft") as [Hs|Hs];
      [|split; reflexivity].
    cbn [negb].
    destruct (String.eqb_spec (template_ref c) "") as [Ht|Ht];
      [split; reflexivity|].
    rewrite Hcount. destruct recipients; [split; reflexivity|].
    destruct H as [H|[H|H]]; [contradiction | contradiction | discriminate].
  - intros role campaignId scheduleId x. reflexivity.
  - intros Hs. unfold resume. rewrite Hsel.
    change (declared ["id"; "status"; "template_id"]) with true. cbv iota.
    rewrite Hs.
    change ("paused" =? "paused")%string with true. cbn [negb]. cbv zeta.
    rewrite Hpend. destruct pending as [|p ps].
    + cbn [fst snd status_of]. split; [reflexivity|].
      unfold update_campaign_unread.
      destruct (update_campaign ["status"; "completed_at"] id
                  (CampaignProcessRoute.complete env) d) as [d1|] eqn:Eu;
        [|discriminate Eu].
      destruct (campaign_row_updated d d1 c
                  (CampaignProcessRoute.complete env) _ Hnd Hin
                  (fun x => eq_refl) Eu) as (U1 & U2 & _).
      split; [exact U1 | exact U2].
    + destruct (update_campaign ["status"] id (with_status "active") d)
        as [d1|] eqn:Eu; [|discriminate Eu].
      destruct (campaign_row_updated d d1 c _ _ Hnd Hin (Hkeep "active") Eu)
        as (U1 & U2 & _).
      cbn [fst snd status_of]. split; [reflexivity|].
      destruct (Hsch (trigger env q id d1)) as (S1 & _).
      destruct (Htrig d1) as (T1 & _).
      rewrite S1, T1. split; [exact U1 | exact U2].
  - intros Hs. unfold resume. rewrite Hsel.
    change (declared ["id"; "status"; "template_id"]) with true. cbv iota.
    apply String.eqb_neq in Hs.
    rewrite Hs. split; reflexivity.
  - repeat split.
Qed.

Lemma campaign_status_transitions_witness :
  let q := mkQStash false (Returned "sched-1") false in
  let draft :=
    mkCampaign "camp-1" "tpl-1" "Operator OS" "hello@operatoros.ai" None
      "draft" None 50 "09:00" "17:00" [1; 2; 3; 4; 5] 60 0 0 0 0 0 0 in
  let d := mkDeployment
             (Sample.world [draft]
                [Sample.recipient "cl-1" "lead-1" "pending" None] [] [])
             [] [] [] in
  let d1 := snd (start Sample.env q authenticated "camp-1" d) in
  option_map campaign_status (campaign_row "camp-1" (store d1)) = Some "active"
  /\ schedules d1
     = [("sched-1", "https://app.operatoros.ai/api/jobs/campaign-process",
         "camp-1")]
  /\ pause q authenticated "camp-1" (Some "sched-1") d1 = (NotFound, d1)
  /\ status_of (fst (resume Sample.env q authenticated "camp-1" d1)) = 400.
Proof.
  intros q draft d d1.
  assert (Hnd : NoDup (map campaign_id (campaigns (store d))))
    by (cbn; repeat constructor; cbn; intuition discriminate).
  assert (Hin : In draft (campaigns (store d))) by (now left).
  destruct (campaign_status_transitions Sample.env q d draft Hnd Hin)
    as (H1 & _ & H3 & _).
  destruct H1 as (_ & H1b & _ & _ & H1e);
    [reflexivity | discriminate | discriminate |].
  cbn [campaign_id draft] in H1b, H1e. fold d1 in H1b, H1e.
  split; [rewrite H1b; reflexivity|].
  split; [rewrite H1e; reflexivity|].
  split; [apply H3 | reflexivity].
Defined.

(* ================================================================== *)
(** * The dispatch pipeline: several domains warming up                *)
(* ================================================================== *)

(** C3 (evaluation at the failing input).  Two domains are warming up,
    at limits 10 and 20, and the campaign may send 50 a day.  The query
    for the active warm-up row asks for a single row, finds two and
    answers without data; the cap becomes [min(50, 50)], and 50 is what
    the rate limiter and the query for pending recipients are handed,
    above the limit of either domain.  It is so for every store with
    more than one active warm-up row, whatever their limits. *)
Theorem several_active_warmups_are_ignored :
  (active_warmups Sample.two_warmups
   = [Sample.warmup "dw-1" 10 1000 0 0 0 0;
      Sample.warmup "dw-2" 20 1000 0 0 0 0]
   /\ daily_limit (Sample.campaign 50 60) = 50
   /\ requests
        (snd (processCampaign Sample.env "camp-1" Sample.two_warmups))
      = [RateLimitCheck 50; SelectPending "camp-1" 50])
  /\ (forall env w c d1 d2 rest,
        NoDup (map campaign_id (campaigns w)) ->
        In c (campaigns w) ->
        campaign_status c = "active" ->
        in_window env c ->
        on_send_day env c ->
        active_warmups w = d1 :: d2 :: rest ->
        let cap := Z.min (daily_limit c) 50 in
        requests (snd (processCampaign env (campaign_id c) w))
        = (requests w
           ++ RateLimitCheck cap
              :: (if rate_limiter_admits cap w
                  then [SelectPending (campaign_id c) cap] else []))%list).
Proof.
  split; [repeat split|].
  intros env w c d1 d2 rest Hnd Hin Hst Hw Hd Ha cap.
  destruct (cap_of_dispatch env w c Hnd Hin Hst Hw Hd) as (H & _).
  cbv zeta in H. unfold warmup_cap in H. rewrite Ha in H. exact H.
Qed.

(* ================================================================== *)
(** * The template engine: a second pass                               *)
(* ================================================================== *)

(** A value completes a token together with the text around it: every
    token of the text has its identifier in the map, no value holds a
    brace, and the second pass still changes the result. *)
Example replaceVariables_value_completes_a_token :
  let t := "{{x{{a}}}}" in
  let v := [("a", "y"); ("xy", "z")] in
  extractVariables t = ["a"]
  /\ Tokens.braces_open_tokens t = false
  /\ replaceVariables t v = "{{xy}}"
  /\ replaceVariables (replaceVariables t v) v = "z".
Proof. repeat split. Qed.

Lemma replaceVariables_skip c rest variables :
  match_token (String c rest) = None ->
  replaceVariables (String c rest) variables
  = String c (replaceVariables rest variables).
Proof.
  intros H. unfold replaceVariables. cbn [String.length replace_scan].
  now rewrite H.
Qed.

Lemma match_token_opens s key rest :
  match_token s = Some (key, rest) -> Tokens.opens_braces s = true.
Proof.
  unfold match_token, Tokens.opens_braces.
  destruct s as [|c1 s]; [discriminate|].
  destruct c1 as [[] [] [] [] [] [] [] []]; try discriminate.
  destruct s as [|c2 s]; [discriminate|].
  destruct c2 as [[] [] [] [] [] [] [] []]; try discriminate.
  reflexivity.
Qed.

Lemma match_token_needs_braces s :
  Tokens.opens_braces s = false -> match_token s = None.
Proof.
  intros H. destruct (match_token s) as [[key rest]|] eqn:E; [|reflexivity].
  apply match_token_opens in E. congruence.
Qed.

(** A pass over the result of a pass. *)
Lemma replace_scan_settled variables : forall fuel text,
  (String.length text <= fuel)%nat ->
  Tokens.braces_scan fuel text = true ->
  (forall m, In m (match_all fuel text) ->
     exists value, own_property (strip_braces m) variables = Some value
                   /\ no_open_brace value = true) ->
  replaceVariables (replace_scan fuel variables text) variables
  = replace_scan fuel variables text.
Proof.
  induction fuel as [|fuel IH]; intros text Hlen Hb Hv.
  - destruct text; [reflexivity | simpl in Hlen; lia].
  - destruct text as [|c rest]; [reflexivity|].
    cbn [replace_scan match_all Tokens.braces_scan] in *.
    destruct (match_token (String c rest)) as [[key rest']|] eqn:E.
    + pose proof (match_token_captures_identifier _ _ _ E) as Hid.
      pose proof (match_token_shorter _ _ _ E) as Hsh.
      assert (Hrest : replaceVariables (replace_scan fuel variables rest')
                        variables
                      = replace_scan fuel variables rest').
      { apply IH; [simpl in *; lia | exact Hb |].
        intros m Hm. apply Hv. now right. }
      destruct (Hv (token key) (or_introl eq_refl)) as (value & Hown & Hval).
      rewrite (strip_braces_token key (identifier_no_brace key Hid)) in Hown.
      unfold replacement, get. rewrite Hown.
      destruct (Js.truthy (Js.Str value)) eqn:Et.
      * cbn [Js.ToString].
        rewrite (replaceVariables_literal value _ variables Hval).
        now rewrite Hrest.
      * rewrite (replaceVariables_token key _ variables
                   (match_token_identifier key _ Hid)).
        unfold replacement, get. rewrite Hown, Et. now rewrite Hrest.
    + apply andb_true_iff in Hb. destruct Hb as [Ho Hb].
      apply negb_true_iff in Ho.
      assert (Hrest : replaceVariables (replace_scan fuel variables rest)
                        variables
                      = replace_scan fuel variables rest).
      { apply IH; [simpl in *; lia | exact Hb | exact Hv]. }
      rewrite replaceVariables_skip; [now rewrite Hrest|].
      apply match_token_needs_braces.
      destruct (Ascii.eqb c "{") eqn:Ec.
      * apply Ascii.eqb_eq in Ec. subst c.
        assert (Hr : Tokens.opens_braces rest = false
                     \/ exists rest2, rest = String "{" rest2).
        { destruct rest as [|c2 rest2]; [now left|].
          destruct (Ascii.eqb c2 "{") eqn:E2.
          - apply Ascii.eqb_eq in E2. subst c2. right. now exists rest2.
          - left. unfold Tokens.opens_braces.
            destruct c2 as [[] [] [] [] [] [] [] []]; try reflexivity.
            discriminate E2. }
        destruct Hr as [Hr | (rest2 & ->)]; [|discriminate Ho].
        destruct rest as [|c2 rest2]; [destruct fuel; reflexivity|].
        destruct (Ascii.eqb c2 "{") eqn:E2.
        -- apply Ascii.eqb_eq in E2. subst c2. discriminate Ho.
        -- destruct fuel as [|fuel']; [simpl in Hlen; lia|].
           cbn [replace_scan]. rewrite (match_token_no_brace c2 rest2 E2).
           unfold Tokens.opens_braces.
           destruct c2 as [[] [] [] [] [] [] [] []]; try reflexivity.
           discriminate E2.
      * unfold Tokens.opens_braces.
        destruct c as [[] [] [] [] [] [] [] []]; try reflexivity.
        discriminate Ec.
Qed.

(** C7 (amended).  A text without tokens is left as it is.  And a
    second pass leaves the result of the first as it is whenever every
    token of the text has its identifier in the map, no value of the
    map for such an identifier holds an opening brace, and every pair
    of adjacent opening braces of the text is the opening of a token. *)
Theorem replaceVariables_idempotent_on_plain_values
  (t : string) (v : TemplateVariables) :
  (extractVariables t = [] -> replaceVariables t v = t)
  /\ (Tokens.braces_open_tokens t = true ->
      (forall key, In key (extractVariables t) ->
         exists value, own_property key v = Some value
                       /\ no_open_brace value = true) ->
      replaceVariables (replaceVariables t v) v = replaceVariables t v).
Proof.
  split.
  - intros H. apply replaceVariables_fixed. rewrite H. intros key [].
  - intros Hb Hv. unfold replaceVariables at 2 3.
    apply replace_scan_settled; [lia | exact Hb |].
    intros m Hm. apply Hv. now apply extractVariables_complete.
Qed.

Lemma replaceVariables_idempotent_on_plain_values_witness :
  let t := "<p style={x}>Hi {{firstName}}, from {{company}}</p>" in
  let v := buildVariables Sample.ana in
  replaceVariables "No placeholders here" v = "No placeholders here"
  /\ replaceVariables t v = "<p style={x}>Hi Ana, from Acme</p>"
  /\ replaceVariables (replaceVariables t v) v = replaceVariables t v.
Proof.
  intros t v.
  split; [|split; [reflexivity|]].
  - apply (proj1 (replaceVariables_idempotent_on_plain_values
                    "No placeholders here" v)).
    reflexivity.
  - apply (proj2 (replaceVariables_idempotent_on_plain_values t v)).
    + reflexivity.
    + intros key [<- | [<- | []]]; eexists; split; reflexivity.
Defined.

(* ================================================================== *)
(** * The dispatch pipeline: the window to the second                  *)
(* ================================================================== *)

Lemma denotes_reads_as t seconds :
  Clock.denotes t seconds ->
  exists h m, reads_as t h m /\ seconds / 60 = h * 60 + m.
Proof.
  intros (h & m & s & Hh & Hm & Hs & E & Ht). exists h, m. split.
  - split; [exact Hh|]. split; [exact Hm|].
    destruct Ht as [-> | [_ ->]]; [right; exists s; now split | now left].
  - subst seconds.
    rewrite Z.div_add_l by lia. rewrite Z.div_small by lia. lia.
Qed.

(** C8 (as stated, refuted).  The window of the campaign ends at
    17:00:00 and the clock reads 17:00:30, a time of day outside the
    inclusive interval of the window: the handler compares hours and
    minutes only, finds 17:00 within 09:00 to 17:00, and queues both
    pending recipients. *)
Lemma dispatch_runs_in_the_minute_the_window_ends :
  let c := Clock.campaign_between "09:00:00" "17:00:00" in
  let w := Sample.world [c]
             [Sample.recipient "cl-1" "lead-1" "pending" None;
              Sample.recipient "cl-2" "lead-2" "pending" None] [] [] in
  let env := Clock.env_at 17 0 in
  let result := processCampaign env "camp-1" w in
  Clock.denotes (send_window_start c) 32400
  /\ Clock.denotes (send_window_end c) 61200
  /\ Clock.second_of_day env 30 = 61230
  /\ ~ (32400 <= Clock.second_of_day env 30 <= 61200)
  /\ fst result = Returned 2
  /\ recipient_status "cl-1" (snd result) = Some "queued"
  /\ recipient_status "cl-2" (snd result) = Some "queued"
  /\ List.length (qstash_messages (snd result)) = 2%nat.
Proof.
  cbv zeta. split; [|split; [|split; [|split]]].
  - exists 9, 0, 0. repeat split; try lia. left. reflexivity.
  - exists 17, 0, 0. repeat split; try lia. left. reflexivity.
  - reflexivity.
  - change (Clock.second_of_day (Clock.env_at 17 0) 30) with 61230. lia.
  - repeat split.
Qed.

(** C8 (amended).  For an active campaign, when the time of day of the
    invocation is earlier than [send_window_start] cut to the whole
    minute, or 60 seconds or more later than [send_window_end] cut to
    the whole minute, or when the weekday, numbered 1 = Monday ..
    7 = Sunday, is not one of the campaign's [send_days], the dispatch
    of that campaign queues nothing (it returns 0) and leaves the whole
    state as it was: every CampaignLead keeps its status and the
    campaign stays active. *)
Theorem dispatch_skips_outside_window_to_the_minute
  env w c day window_start window_end getSeconds :
  NoDup (map campaign_id (campaigns w)) ->
  In c (campaigns w) ->
  campaign_status c = "active" ->
  getDay env = getDay_on day ->
  0 <= getSeconds < 60 ->
  Clock.denotes (send_window_start c) window_start ->
  Clock.denotes (send_window_end c) window_end ->
  Clock.second_of_day env getSeconds < 60 * (window_start / 60)
  \/ 60 * (window_end / 60) + 60 <= Clock.second_of_day env getSeconds
  \/ ~ In (weekday_number day) (send_days c) ->
  processCampaign env (campaign_id c) w = (Returned 0, w).
Proof.
  intros Hnd Hin Hst Hday Hsec Hs He Hout.
  destruct (denotes_reads_as _ _ Hs) as (sh & sm & Hrs & Es).
  destruct (denotes_reads_as _ _ He) as (eh & em & Hre & Ee).
  apply (dispatch_skips_outside_window_or_day env w c day sh sm eh em
           Hnd Hin Hst Hday Hrs Hre).
  rewrite Es, Ee in Hout. unfold Clock.second_of_day in Hout.
  unfold minute_of_day.
  destruct Hout as [H | [H | H]]; [left; lia | right; left; lia | now right; right].
Qed.

Lemma dispatch_skips_outside_window_to_the_minute_witness :
  let c := Clock.campaign_between "09:00:00" "17:00:00" in
  let w := Sample.world [c]
             [Sample.recipient "cl-1" "lead-1" "pending" None] [] [] in
  Clock.second_of_day (Clock.env_at 17 1) 0 = 61260
  /\ processCampaign (Clock.env_at 17 1) "camp-1" w = (Returned 0, w)
  /\ processCampaign (Clock.env_at 8 59) "camp-1" w = (Returned 0, w).
Proof.
  intros c w.
  assert (Hnd : NoDup (map campaign_id (campaigns w)))
    by (cbn; repeat constructor; cbn; intuition discriminate).
  assert (Hin : In c (campaigns w)) by (now left).
  assert (Hs : Clock.denotes (send_window_start c) 32400).
  { exists 9, 0, 0. repeat split; try lia. left. reflexivity. }
  assert (He : Clock.denotes (send_window_end c) 61200).
  { exists 17, 0, 0. repeat split; try lia. left. reflexivity. }
  split; [reflexivity|]. split.
  - apply (dispatch_skips_outside_window_to_the_minute (Clock.env_at 17 1)
             w c Tuesday 32400 61200 0 Hnd Hin eq_refl eq_refl
             ltac:(lia) Hs He).
    right. left. vm_compute. discriminate.
  - apply (dispatch_skips_outside_window_to_the_minute (Clock.env_at 8 59)
             w c Tuesday 32400 61200 59 Hnd Hin eq_refl eq_refl
             ltac:(lia) Hs He).
    left. vm_compute. reflexivity.
Defined.

(* ================================================================== *)
(** * The dispatch pipeline: the delays of a batch                     *)
(* ================================================================== *)

(** When the queue accepts every message, the loop enqueues the
    message of each row that has a lead, with the delay of the
    position of the row. *)
Lemma queue_emails_enqueues_each env c t d :
  (forall m, publish_rejects env m = false) ->
  forall rows i q w,
  exists added,
    qstash_messages (snd (queue_emails env c (Some t) d i rows q w))
    = (qstash_messages w ++ added)%list
    /\ forall (k : nat) r l, nth_error rows k = Some (r, Some l) ->
         exists m, In m added
                   /\ job_campaignLeadId (pub_body m) = cl_id r
                   /\ effective_delay m = (i + Z.of_nat k) * d.
Proof.
  intros Hacc.
  induction rows as [|[r [l|]] rows IH]; intros i q w.
  - exists []. cbn. rewrite app_nil_r. split; [reflexivity|].
    intros k r l H. destruct k; discriminate H.
  - rewrite queue_emails_step.
    pose proof (queueEmailSend_delay env
                  (build_job c r l (personalizeTemplate t l)) (i * d) w) as Hq.
    unfold queueEmailSend, publishJSON in *. rewrite Hacc in *.
    unfold modify in *. destruct Hq as (m0 & Hm0 & Hbody & Hdelay & _).
    match goal with
    | |- context [queue_emails ?e ?c ?t ?d ?i ?rs ?q ?x] =>
        destruct (IH i q x) as (added & Ha & Heach)
    end.
    exists (m0 :: added). split.
    + rewrite Ha. cbn [qstash_messages mark_queued set_campaign_leads].
      rewrite Hm0. now rewrite <- app_assoc.
    + intros k r' l' Hk. destruct k as [|k].
      * inversion Hk; subst r' l'. exists m0. split; [now left|].
        split; [now rewrite Hbody|]. rewrite Hdelay. cbn. f_equal. lia.
      * destruct (Heach k r' l' Hk) as (m & Hin & Hid & Hd).
        exists m. split; [now right|]. split; [exact Hid|].
        rewrite Hd. f_equal. lia.
  - cbn [queue_emails]. destruct (IH (i + 1) q w) as (added & Ha & Heach).
    exists added. split; [exact Ha|].
    intros k r' l' Hk. destruct k as [|k]; [discriminate Hk|].
    destruct (Heach k r' l' Hk) as (m & Hin & Hid & Hd).
    exists m. split; [exact Hin|]. split; [exact Hid|].
    rewrite Hd. f_equal. lia.
Qed.

(** C9.  For a campaign with a positive [delay_between_sends] (the form
    of the dashboard admits 30 to 3600 seconds, the column defaults to
    60): a dispatch only appends to the queue; every message it appends
    is the one of a fetched recipient and carries the delay
    [i * delay_between_sends] of the zero-based fetch position [i] of
    that recipient, so the first has delay 0 and the delays, in the
    order of enqueueing, are strictly increasing; the count returned is
    the number of messages appended.  And the recipients are enqueued:
    for an active campaign inside its window that the rate limiter
    admits, with its template stored and the queue accepting the
    messages, every fetched recipient that has a lead gets its message,
    with the delay of its position. *)
Theorem batch_delays_of_a_spaced_campaign env w c :
  NoDup (map campaign_id (campaigns w)) ->
  In c (campaigns w) ->
  0 < delay_between_sends c ->
  let rows := fetched (campaign_id c) (cap_of c w) w in
  let d := delay_between_sends c in
  exists added,
    qstash_messages (snd (processCampaign env (campaign_id c) w))
    = (qstash_messages w ++ added)%list
    /\ (forall m, In m added ->
          exists (i : nat) r, nth_error rows i = Some r
            /\ job_campaignLeadId (pub_body m) = cl_id r
            /\ effective_delay m = Z.of_nat i * d)
    /\ StronglySorted Z.lt (map effective_delay added)
    /\ (forall n, fst (processCampaign env (campaign_id c) w) = Returned n ->
                  n = Z.of_nat (List.length added))
    /\ (campaign_status c = "active" -> in_window env c ->
        on_send_day env c ->
        rate_limiter_admits (cap_of c w) w = true ->
        (exists t, find (fun t => (template_id t =? template_ref c)%string)
                        (email_templates w) = Some t) ->
        (forall m, publish_rejects env m = false) ->
        forall (i : nat) r,
          nth_error rows i = Some r -> has_lead w r = true ->
          exists m, In m added
                    /\ job_campaignLeadId (pub_body m) = cl_id r
                    /\ effective_delay m = Z.of_nat i * d).
Proof.
  intros Hnd Hin Hpos rows d.
  assert (Hd : send_spacing c = d).
  { unfold send_spacing. subst d.
    destruct (Z.eqb_spec (delay_between_sends c) 0); [lia | reflexivity]. }
  destruct (batch_delays env w c Hnd Hin) as (added & Ha & Hm & Hs & Hn).
  rewrite Hd in Hm, Hs.
  exists added. split; [exact Ha|]. split; [exact Hm|].
  split; [apply Hs; exact Hpos|]. split; [exact Hn|].
  intros Hact Hw Hday Hadm (t & Ht) Hacc i r Hr Hl.
  pose proof (select_campaign_template (campaign_id c) w c Hnd Hin eq_refl)
    as Hsel.
  rewrite Ht in Hsel.
  pose proof (processCampaign_cases env w c (Some t) Hsel) as Hc.
  cbv zeta in Hc.
  rewrite (passes_gates_spec env c Hact Hw Hday), Hadm, Hd in Hc.
  cbn [negb] in Hc.
  assert (Hj : exists l, nth_error (joined (campaign_id c) (cap_of c w) w) i
                         = Some (r, Some l)).
  { unfold has_lead in Hl. destruct (lead_of w r) as [l|] eqn:El;
      [|discriminate].
    exists l. unfold joined. fold rows.
    rewrite nth_error_map, Hr. cbn [option_map]. now rewrite El. }
  destruct Hj as (l & Hj).
  destruct (joined (campaign_id c) (cap_of c w) w) as [|p rest] eqn:Ej.
  { destruct i; discriminate Hj. }
  rewrite <- Ej in Hc, Hj.
  destruct (queue_emails_enqueues_each env c t d Hacc
              (joined (campaign_id c) (cap_of c w) w) 0 0
              (queried (campaign_id c) (cap_of c w) w))
    as (added' & Ha' & Heach).
  rewrite <- Hc in Ha'.
  change (qstash_messages (queried (campaign_id c) (cap_of c w) w))
    with (qstash_messages w) in Ha'.
  rewrite Ha in Ha'. apply app_inv_head in Ha'. subst added'.
  destruct (Heach i r l Hj) as (m & H1 & H2 & H3).
  exists m. split; [exact H1|]. split; [exact H2|]. rewrite H3. f_equal.
Qed.

Lemma batch_delays_of_a_spaced_campaign_witness :
  map (fun m => (job_campaignLeadId (pub_body m), effective_delay m))
    (qstash_messages (snd (processCampaign Sample.env "camp-1"
                             Sample.two_pending)))
  = [("cl-1", 0); ("cl-2", 60)]
  /\ exists m,
       In m (qstash_messages (snd (processCampaign Sample.env "camp-1"
                                     Sample.two_pending)))
       /\ job_campaignLeadId (pub_body m) = "cl-2"
       /\ effective_delay m = 1 * 60.
Proof.
  split; [reflexivity|].
  assert (Hnd : NoDup (map campaign_id (campaigns Sample.two_pending)))
    by (cbn; repeat constructor; cbn; intuition discriminate).
  assert (Hin : In (Sample.campaign 50 60) (campaigns Sample.two_pending))
    by (now left).
  destruct (batch_delays_of_a_spaced_campaign Sample.env Sample.two_pending
              (Sample.campaign 50 60) Hnd Hin ltac:(cbn; lia))
    as (added & Ha & _ & _ & _ & Heach).
  assert (Hw : in_window Sample.env (Sample.campaign 50 60)).
  { exists 9, 0, 17, 0. cbn. repeat split; try lia; left; reflexivity. }
  assert (Hd : on_send_day Sample.env (Sample.campaign 50 60)).
  { exists Tuesday. split; [reflexivity | cbn; auto]. }
  destruct (Heach eq_refl Hw Hd eq_refl
              (ex_intro _ Sample.hello eq_refl) (fun _ => eq_refl)
              1%nat (Sample.recipient "cl-2" "lead-2" "pending" None)
              eq_refl eq_refl) as (m & H1 & H2 & H3).
  exists m. split; [|split; [exact H2 | exact H3]].
  change (campaign_id (Sample.campaign 50 60)) with "camp-1" in Ha.
  rewrite Ha. cbn [qstash_messages Sample.two_pending Sample.world app].
  exact H1.
Defined.

(* ================================================================== *)
(** * The job endpoints: what a request with a signature does          *)
(* ================================================================== *)

(** A request that names a campaign runs the dispatch of that campaign
    and answers with its count. *)
Lemma campaign_process_named env s campaignId w :
  NODE_ENV env = "production" -> s <> "" -> campaignId <> "" ->
  CampaignProcessRoute.POST env
    (mkJobRequest (Some s) (Some (Some campaignId))) w
  = match processCampaign env campaignId w with
    | (Returned queued, w1) =>
        (mkResponse 200 (CampaignProcessed 1 queued), w1)
    | (Thrown _, w1) => (CampaignProcessRoute.internal_error, w1)
    end.
Proof.
  intros Hp Hs Hc. unfold CampaignProcessRoute.POST.
  cbn [upstash_signature json Js.or_string].
  apply String.eqb_neq in Hs, Hc. rewrite Hs, Hs, Hc, Hc, andb_false_r.
  unfold respond, bind at 1. unfold ret at 1.
  cbn [process_each]. unfold bind.
  destruct (processCampaign env campaignId w) as [[queued|e] w1];
    reflexivity.
Qed.

Lemma process_each_in_turn env : forall campaignIds totalQueued w,
  process_each env campaignIds totalQueued w
  = match dispatch_in_turn env campaignIds w with
    | (Returned total, w') => (Returned (totalQueued + total), w')
    | (Thrown e, w') => (Thrown e, w')
    end.
Proof.
  induction campaignIds as [|cId rest IH]; intros totalQueued w.
  - cbn. unfold ret. now rewrite Z.add_0_r.
  - cbn [process_each dispatch_in_turn]. unfold bind at 1.
    destruct (processCampaign env cId w) as [[queued|e] w1]; [|reflexivity].
    rewrite IH.
    destruct (dispatch_in_turn env rest w1) as [[total|e] w2];
      [|reflexivity].
    now rewrite Z.add_assoc.
Qed.

(** A request that names no campaign runs the dispatch of every active
    campaign. *)
Lemma campaign_process_all env s body w :
  NODE_ENV env = "production" -> s <> "" ->
  body = None \/ body = Some "" ->
  CampaignProcessRoute.POST env (mkJobRequest (Some s) (Some body)) w
  = match dispatch_in_turn env (active_campaign_ids w) w with
    | (Returned total, w1) =>
        (mkResponse 200
           (CampaignProcessed
              (Z.of_nat (List.length (active_campaign_ids w))) total), w1)
    | (Thrown _, w1) => (CampaignProcessRoute.internal_error, w1)
    end.
Proof.
  intros Hp Hs Hb. unfold CampaignProcessRoute.POST.
  cbn [upstash_signature json Js.or_string].
  apply String.eqb_neq in Hs. rewrite Hs, Hs, andb_false_r.
  assert (E : Js.or_string body "" = "") by (destruct Hb; subst; reflexivity).
  rewrite E. change ("" =? "")%string with true. cbv iota.
  unfold respond, bind at 1. unfold getActiveCampaignIds, gets.
  fold (active_campaign_ids w).
  unfold bind. rewrite process_each_in_turn.
  destruct (dispatch_in_turn env (active_campaign_ids w) w)
    as [[total|e] w1]; reflexivity.
Qed.

(** The run of the send job for an address that is not unsubscribed. *)
Lemma email_send_unlisted_run process env s job w :
  s <> "" -> not_listed (job_to job) w ->
  let mail :=
    {| mail_to := job_to job;
       mail_from := job_from job;
       mail_fromName := job_fromName job;
       mail_replyTo := job_replyTo job;
       mail_subject := job_subject job;
       mail_html := process (job_html job) (job_campaignLeadId job)
                      (nanoid env) (getBaseUrl env);
       mail_text := job_text job;
       mail_campaignId := job_campaignId job |} in
  let w1 := set_resend_calls (resend_calls w ++ [mail])%list w in
  let mark := fun updates =>
    set_campaign_leads
      (map (fun r => if (cl_id r =? job_campaignLeadId job)%string
                     then apply_updates updates r else r)
           (campaign_leads w1)) w1 in
  EmailSendRoute.POST process env (mkJobRequest (Some s) (Some job)) w
  = match resend_send env mail with
    | ResendError message =>
        (mkResponse 500 (SendFailed message),
         mark [ status_is "failed"; error_message_is message;
                retry_count_is 1 ])
    | ResendData id =>
        (mkResponse 200 (SendSucceeded id),
         snd (incrementEmailCount
                (snd (upsert_unsubscribe_ignore (link_row env job)
                        (increment_campaign_stat (job_campaignId job)
                           "sent_count"
                           (mark [ status_is "sent"; sent_at_is (now env);
                                   resend_email_id_is id ]))))))
    end.
Proof.
  intros Hs Hnl mail w1 mark.
  unfold EmailSendRoute.POST. cbv zeta.
  cbn [upstash_signature json Js.or_string].
  apply String.eqb_neq in Hs. rewrite Hs, Hs, andb_false_r.
  unfold respond, bind at 1. unfold gets at 1.
  rewrite (not_listed_single _ _ Hnl).
  unfold bind at 1. unfold sendEmail, bind at 1, modify at 1, ret at 1.
  fold (getBaseUrl env). fold mail. fold w1.
  destruct (resend_send env mail) as [message|id].
  - reflexivity.
  - unfold bind at 1. unfold update_campaign_lead, modify at 1.
    unfold bind at 1. rewrite rpc_increment_stat.
    unfold bind at 1.
    fold (link_row env job).
    destruct (upsert_unsubscribe_ignore (link_row env job) _) as [[[]|e] w4]
      eqn:Eu.
    + reflexivity.
    + unfold upsert_unsubscribe_ignore, modify in Eu. discriminate Eu.
Qed.

Lemma upsert_unsubscribe_ignore_frame row w :
  let w' := snd (upsert_unsubscribe_ignore row w) in
  resend_calls w' = resend_calls w /\ campaign_leads w' = campaign_leads w.
Proof.
  unfold upsert_unsubscribe_ignore, modify. cbn [snd].
  destruct (has_unsubscribe _ w); [split; reflexivity|].
  destruct (has_token _ w); [split; reflexivity|].
  destruct (negb _); split; reflexivity.
Qed.

Lemma email_send_unlisted process env s job w :
  s <> "" -> not_listed (job_to job) w ->
  let mail :=
    {| mail_to := job_to job;
       mail_from := job_from job;
       mail_fromName := job_fromName job;
       mail_replyTo := job_replyTo job;
       mail_subject := job_subject job;
       mail_html := process (job_html job) (job_campaignLeadId job)
                      (nanoid env) (getBaseUrl env);
       mail_text := job_text job;
       mail_campaignId := job_campaignId job |} in
  let result :=
    EmailSendRoute.POST process env (mkJobRequest (Some s) (Some job)) w in
  resend_calls (snd result) = (resend_calls w ++ [mail])%list
  /\ fst result
     = match resend_send env mail with
       | ResendData id => mkResponse 200 (SendSucceeded id)
       | ResendError message => mkResponse 500 (SendFailed message)
       end
  /\ campaign_lead_row (job_campaignLeadId job) (snd result)
     = option_map
         (apply_updates
            match resend_send env mail with
            | ResendData id =>
                [ status_is "sent"; sent_at_is (now env);
                  resend_email_id_is id ]
            | ResendError message =>
                [ status_is "failed"; error_message_is message;
                  retry_count_is 1 ]
            end)
         (campaign_lead_row (job_campaignLeadId job) w).
Proof.
  intros Hs Hnl mail result. subst result.
  rewrite (email_send_unlisted_run process env s job w Hs Hnl).
  cbv zeta. fold mail.
  destruct (resend_send env mail) as [message|id]; cbn [fst snd].
  - split; [reflexivity|]. split; [reflexivity|].
    erewrite campaign_lead_row_updated; reflexivity.
  - match goal with
    | |- context [upsert_unsubscribe_ignore ?r ?x] =>
        destruct (upsert_unsubscribe_ignore_frame r x) as [F1 F2];
        cbv zeta in F1, F2
    end.
    unfold incrementEmailCount, modify. cbn [snd].
    split; [|split; [reflexivity|]].
    + cbn [resend_calls set_email_counts]. rewrite F1. reflexivity.
    + apply campaign_lead_row_updated.
      cbn [campaign_leads set_email_counts]. rewrite F2. reflexivity.
Qed.

(** C10.  In production each of the two job endpoints answers 401
    exactly when the [upstash-signature] header is absent or empty.  A
    request with a non-empty header is accepted and processed, whatever
    the value of the header: two requests that differ only in that
    value have the same answer and the same effect (the helper
    [verifySignature] of the queue client tests no more than that the
    text is not empty, and no handler calls it); the campaign-process
    endpoint runs the dispatch of the campaign that the body names, or
    of every active campaign in turn when it names none, and answers
    200 with the count the dispatch returns; the email-send
    endpoint hands the mail of the job to the provider, once, for an
    address that is not unsubscribed, answers with the provider's
    verdict and marks the recipient "sent" or "failed" accordingly. *)
Theorem job_endpoints_process_any_signed_request
  process env w
  (r1 : JobRequest (option string)) (r2 : JobRequest EmailSendJob) :
  NODE_ENV env = "production" ->
  (status_code (fst (CampaignProcessRoute.POST env r1 w)) = 401
   <-> (upstash_signature r1 = None \/ upstash_signature r1 = Some ""))
  /\ (status_code (fst (EmailSendRoute.POST process env r2 w)) = 401
      <-> (upstash_signature r2 = None \/ upstash_signature r2 = Some ""))
  /\ (forall s1 s2 body w0, s1 <> "" -> s2 <> "" ->
        CampaignProcessRoute.POST env (mkJobRequest (Some s1) body) w0
        = CampaignProcessRoute.POST env (mkJobRequest (Some s2) body) w0)
  /\ (forall s1 s2 body w0, s1 <> "" -> s2 <> "" ->
        EmailSendRoute.POST process env (mkJobRequest (Some s1) body) w0
        = EmailSendRoute.POST process env (mkJobRequest (Some s2) body) w0)
  /\ (forall s, verifySignature env s = negb (s =? "")%string)
  /\ (forall s campaignId w0, s <> "" -> campaignId <> "" ->
        CampaignProcessRoute.POST env
          (mkJobRequest (Some s) (Some (Some campaignId))) w0
        = match processCampaign env campaignId w0 with
          | (Returned queued, w1) =>
              (mkResponse 200 (CampaignProcessed 1 queued), w1)
          | (Thrown _, w1) => (CampaignProcessRoute.internal_error, w1)
          end)
  /\ (forall s body w0, s <> "" -> body = None \/ body = Some "" ->
        CampaignProcessRoute.POST env (mkJobRequest (Some s) (Some body)) w0
        = match dispatch_in_turn env (active_campaign_ids w0) w0 with
          | (Returned total, w1) =>
              (mkResponse 200
                 (CampaignProcessed
                    (Z.of_nat (List.length (active_campaign_ids w0))) total),
               w1)
          | (Thrown _, w1) => (CampaignProcessRoute.internal_error, w1)
          end)
  /\ (forall s job w0, s <> "" -> not_listed (job_to job) w0 ->
        let mail :=
          {| mail_to := job_to job;
             mail_from := job_from job;
             mail_fromName := job_fromName job;
             mail_replyTo := job_replyTo job;
             mail_subject := job_subject job;
             mail_html := process (job_html job) (job_campaignLeadId job)
                            (nanoid env) (getBaseUrl env);
             mail_text := job_text job;
             mail_campaignId := job_campaignId job |} in
        let result :=
          EmailSendRoute.POST process env
            (mkJobRequest (Some s) (Some job)) w0 in
        resend_calls (snd result) = (resend_calls w0 ++ [mail])%list
        /\ fst result
           = match resend_send env mail with
             | ResendData id => mkResponse 200 (SendSucceeded id)
             | ResendError message => mkResponse 500 (SendFailed message)
             end
        /\ campaign_lead_row (job_campaignLeadId job) (snd result)
           = option_map
               (apply_updates
                  match resend_send env mail with
                  | ResendData id =>
                      [ status_is "sent"; sent_at_is (now env);
                        resend_email_id_is id ]
                  | ResendError message =>
                      [ status_is "failed"; error_message_is message;
                        retry_count_is 1 ]
                  end)
               (campaign_lead_row (job_campaignLeadId job) w0)).
Proof.
  intros Hp.
  split; [|split; [|split; [|split; [|split; [|split; [|split]]]]]].
  - apply campaign_process_401. exact Hp.
  - apply email_send_401. exact Hp.
  - intros. now apply signature_value_ignored_campaign.
  - intros. now apply signature_value_ignored_send.
  - intros s. unfold verifySignature. rewrite Hp. reflexivity.
  - intros s campaignId w0 Hs Hc. now apply campaign_process_named.
  - intros s body w0 Hs Hb. now apply campaign_process_all.
  - intros s job w0 Hs Hnl. now apply email_send_unlisted.
Qed.

Lemma job_endpoints_process_any_signed_request_witness :
  let forged {Body : Type} (body : Body) : JobRequest Body :=
    mkJobRequest (Some "forged") (Some body) in
  let w := Sample.world [Sample.campaign 50 60]
             [Sample.recipient "cl-1" "lead-1" "queued" None] [] [] in
  CampaignProcessRoute.POST Sample.env (forged (Some "camp-1"))
    Sample.two_pending
  = (mkResponse 200 (CampaignProcessed 1 2),
     snd (processCampaign Sample.env "camp-1" Sample.two_pending))
  /\ map mail_to
       (resend_calls
          (snd (EmailSendRoute.POST (fun html _ _ _ => html) Sample.env
                  (forged (Sample.job_for "cl-1" "ana@acme.io")) w)))
     = ["ana@acme.io"]
  /\ status_code
       (fst (EmailSendRoute.POST (fun html _ _ _ => html) Sample.env
               (mkJobRequest (Some "")
                  (Some (Sample.job_for "cl-1" "ana@acme.io"))) w))
     = 401.
Proof.
  intros forged w.
  pose proof (job_endpoints_process_any_signed_request
                (fun html _ _ _ => html) Sample.env w
                (mkJobRequest None (Some (Some "camp-1")))
                (mkJobRequest (Some "")
                   (Some (Sample.job_for "cl-1" "ana@acme.io")))
                eq_refl) as (_ & H2 & _ & _ & _ & H6 & _ & H7).
  split; [|split].
  - unfold forged.
    rewrite (H6 "forged" "camp-1" Sample.two_pending);
      [reflexivity | discriminate | discriminate].
  - unfold forged.
    destruct (H7 "forged" (Sample.job_for "cl-1" "ana@acme.io") w)
      as (H7a & _); [discriminate | intros u [] |].
    rewrite H7a. reflexivity.
  - apply (proj2 H2). right. reflexivity.
Defined.
